(* ===== verification/_CoqProject ===== *)
-Q . S2P
Prelude.v
PyDict.v
PyFloat.v
PyList.v
PyRandom.v
Records.v
SwimState.v
SwimSpec.v
SwimRefine.v
SwimGossip.v
SwimProps.v
SwimTheorems.v
Wire.v
WireCodec.v
Messages.v
Framing.v
Ownership.v
Runner.v
RunnerTheorems.v
Bootstrap.v
ShardMap.v
Trackers.v
Blake2b.v
Provenance.v
Routing.v
Experts.v
Effects.v
Migration.v
MigrationTheorems.v
Tensors.v
NodeView.v
Engine.v
PtEngine.v
PtExperts.v
PtMoe.v
PtLoad.v
NodeState.v
Settings.v
NodeInit.v
NodeHandlers.v
Backends.v
Client.v
NodeTheorems.v
NodeFailures.v
NodeLife.v
NodeService.v
PeerRpc.v
NodeProvenance.v
Layers.v
NodeWitnesses.v
Reference.v
Cluster.v
ShardSteps.v
ClusterTheorems.v
ClusterWitnesses.v
RunNode.v
Lifecycle.v
Comparison.v
InFlight.v
Orchestrator.v
OrchestratorTheorems.v
MoeLayer.v
SplitLayer.v
SplitCluster.v
SplitWitnesses.v
SplitProvenance.v
