(* ===== verification/Prelude.v ===== *)
(** * model_shard: a verification of the sharded inference node

    The repository runs one Mixture-of-Experts model on several machines.  Each
    shard owns a range of decoder layers and some of the experts of the split
    layers.  A client asks the head for tokens; hidden states travel from shard
    to shard as activations over TCP; the tail samples a token and sends it back
    to the head.  A layer that is split fetches the outputs of its experts from
    the shards that hold them.  Beside this data path run a SWIM membership
    protocol over UDP, which also gossips loads, heat and expert ownership; the
    migration of experts between shards; and, when it is enabled, a chain of
    digests (provenance) that travels with the hidden state.

    ** Files

    The file names on the right are under src/src/model_shard/, those of
    scripts/ under src/scripts/.

    Foundations.
    - [Prelude]: exceptions, the [result] monad, [foldM] and [mapR] (loops whose
      body may raise), [inv_ok].
    - [PyDict], [PyFloat], [PyList], [PyRandom]: what the code uses of Python:
      insertion-ordered dictionaries, binary64 floats, stable sorting, shuffling
      and sampling from an abstract source of random bits.
    - [Effects]: stateful code that may raise; try/except/finally, and the
      rules that carry an invariant through a method ([keeps]).
    - [Blake2b]: the hash function, executable, checked on published vectors.

    Membership.
    - [Records]: membership/records.py, membership/config.py.
    - [SwimState]: membership/state.py, every method of [MembershipState].
    - [SwimSpec]: the abstract protocol (eight rules on views); [SwimRefine]: the
      handlers implement it; [SwimGossip], [SwimProps], [SwimTheorems]: reachable
      states, gossip as a join, and the theorems.
    - [Messages]: membership/messages.py.  [Runner], [RunnerTheorems]:
      membership/runner.py and transport.py.  [Ownership]: the last-writer-wins
      view of who holds which expert.  [Bootstrap]: membership/bootstrap.py.

    Wire.
    - [Wire]: the messages of proto/wire.proto with their field ranges, and the
      protobuf library as the class [Protobuf] with its laws; [WireCodec] is a
      codec that satisfies them, so no theorem about messages is vacuous.
    - [Framing]: transport.py, envelope.py.

    Configuration and local services.
    - [ShardMap]: shard_map.py, shard.py.  [Trackers]: load.py, heat.py.
    - [Provenance]: request.py, provenance.py.

    Experts.
    - [Routing]: the owner groups of moe.py.  [Experts]: partial_load.py and the
      expert arithmetic of moe.py.
    - [PtExperts]: the rows of pt_partial_load.py, the holdings of
      backends/pytorch_backend.py, [run_selected_experts] of pt_moe.py;
      [PtLoad]: [load_model_partial] of pt_partial_load.py.  [PtMoe]: pt_moe.py
      and the pieces pytorch_backend.py makes of it.
    - [Tensors]: the dtypes and raw bytes of mlx_engine.py and pytorch_engine.py.
      [Backends]: backends/base.py and the objects that implement it.
    - [Orchestrator]: expert_orchestrator.py with the aggregation of
      backends/mlx_backend.py; [OrchestratorTheorems], [SplitProvenance].
      [InFlight]: the registry of the abort events of calls under way.
    - [Migration]: migration.py and the ownership half of node.py;
      [MigrationTheorems]; [NodeView], the relation of the node's view to the
      runner's.

    The node.
    - [Engine]: the layer loop of mlx_engine.py, and chains that travel along.
      [PtEngine]: the layer loop of pytorch_engine.py and the PyTorch path of
      [Node._run_my_layers].
    - [NodeState]: node.py, topology, flags, connections.  [Settings]: its
      numeric settings.  [NodeInit]: the constructor, with what it raises.
      [NodeHandlers]: node.py, the handlers, the decode loop, the interleaving.
      [Client]: client.py.
    - [NodeTheorems], [NodeFailures], [NodeLife], [NodeService],
      [NodeProvenance]: the theorems; [NodeWitnesses]: a concrete pipeline.
    - [PeerRpc]: [TcpPeerRPC] of expert_orchestrator.py against the node that
      answers.
    - [Lifecycle]: the loops of a node on their threads, from its constructor to
      [Node.shutdown]: serve_forever, the connections, the threads of
      transport.py, runner.py and migration.py.

    The cluster.
    - [Reference]: reference.py.  [Layers]: the layers as a function of state and
      cache, and the laws of the model library.
    - [Cluster]: the shards and the messages between them; [ShardSteps],
      [ClusterTheorems]: a generation, shard by shard and as a whole;
      [ClusterWitnesses]: a concrete ring.
    - [MoeLayer]: a decoder layer in pieces, as moe.py and mlx_backend.py take it
      apart; [SplitLayer]: put together by an orchestrator whose peers are nodes;
      [SplitCluster], [SplitWitnesses]: the cluster with split layers.
    - [RunNode]: scripts/run_node.py.  [Comparison]: scripts/run_client.py,
      run_reference.py, generate_tier1_comparison_fixture.py and
      spark_smoke_test.py.

    ** How the program is modelled

    A class is a record with one field per attribute; a method is a function
    named after it.  Code that raises returns [result], or is a computation
    [eff S A] where what it did before it raised stays done.  Dictionaries keep
    their order.  Message fields are integers that the wire checks against their
    width: assigning an out-of-range value raises ValueError, as in protobuf.
    Floats round as the interpreter does.

    Concurrency is made explicit.  A node is a state with transitions
    ([node_step], [deliver_gossip], [scan_once]): a thread runs from one point
    where it blocks to the next, and [Lifecycle.step] says which threads run.  The
    head states, which several threads share,
    live in a store and are referred to by index.  The threads of the expert
    fan-out are a script: in which round which future is done, fails or is
    aborted.  The network is a log with an oracle that says which operation
    raises OSError.  A cluster is the list of its nodes and, for each, the queue
    of messages to it ([cl_step]); what is proved of it holds for every schedule.

    Code outside the repository is an argument or a class: protobuf
    ([Protobuf], [ProtobufLaws]), the array libraries ([StackLib], [StackLaws],
    [TorchRows], [ArrayOps], [LogitOps], [MxLib], [MxLaws], [TorchLib],
    [TorchLaws]), the models ([TextModel], [ModelLaws], [DecoderLayer],
    [DecoderLaws], [TorchModel], [TorchCacheLaws], [TorchDecoder],
    [RouterLaws]), the random bits ([RandomSource], [RandomLaws]), the order of
    the rows of a sorted array ([RowLaws]), YAML, the
    tokenizer, the file system, the iteration order of sets, the clock.  Each
    hypothesis on them is satisfied by an instance in a witness.

    Three classes are the program's own interfaces: [TensorWire] (tensors as the
    node sends them, implemented in [Tensors] for MLX; PyTorch, whose tensors can
    fail to become bytes, sends with [Tensors.torch_send]), [SplitBackend] (what the
    orchestrator asks of a backend, implemented in [MoeLayer]) and [Backend],
    implemented twice in [Backends], where both are shown to keep the laws
    [HoldingLaws].  [NodeBackend] is
    the forward pass as the node calls it; [Layers] and [PtEngine] say what it
    computes.

    ** What the theorems show

    - The whole: a document whose shards tile the layers, on machines and in
      environments the constructor accepts, starts as a ring
      ([launched_cluster_is_ring]); a ring generates the tokens of the model in
      one process under every schedule ([sharded_generation]), also when layers
      are split ([split_layers_invisible]) and the expert calls are answered by
      other nodes ([expert_call_answered]); the hidden states at the boundaries
      are the reference's ([boundary_states_exact]).
    - Membership: no handler raises, and each step is a run of the abstract
      protocol; the view invariant; gossip converges; suspicion, refutation and
      death happen when and only when they should; the log explains the view.
      Observers of the runner see every transition once, in order, as long as no
      round raises; ownership converges, where no two deltas about the same expert
      tie.  A claim at the largest incarnation stops the runner.
    - Wire: encoding succeeds exactly on messages in range and decodes to the
      same; frames survive any splitting of the stream.
    - Requests: [request_end_to_end] composes client and head; a failing peer, a
      first activation that cannot be sent and a rejected chain are followed to
      what the client sees, including the two cases in which it sees nothing.
    - The node as a whole: [shutdown_stops], every loop ends the first time it
      passes its blocking call after a shutdown, and none starts any more;
      [node_always_ok] holds from construction on, over all interleavings: the
      bookkeeping in every configuration, and the rows a node holds where it loads
      its own experts of an MLX model and pulls from honest peers; an expert request is answered with the right rows.
    - Provenance: the validator accepts exactly the chains of a definition that
      follows its five rules; these are all the chains rule D8 of the design
      allows, and some it does not ([beyond_d8]); an honest
      pipeline accepts its own chains; a chain with two tails is a collision;
      the prefix of a remote expert call is always refused.
    - Experts: a split layer computes what the unsplit layer computes however
      its experts are spread, tolerates the faults it can, retries within its
      limit, each time only with owners of what is missing, and terminates.  A
      negative delay between attempts loses the retry.  The calls to a peer that leaves are aborted, and no
      others; the holdings a backend reports are those of its model.
    - Tensors: what MLX sends it can read back; the other backend reads the same
      dtype and bytes, save for tensors without elements or without dimensions and
      for integer dtypes, which PyTorch refuses.
    - PyTorch: a shard without layer 0 embeds every step at position 0, and on the
      shard with it the position ids of all layers but layer 0 run ahead; a partial
      load goes by the layers with listed experts, not by those the shard runs;
      an evicted expert is still served, as zeros; the pieces it offers the
      orchestrator do not fit together.
    - Migration: a pull yields the tensors served or fails; eviction never takes
      a bootstrap expert or the last recorded replica; the scanner keeps the
      holdings right and within capacity; the node's view follows the gossip.

    ** Bounds and fuel

    Loops over data are structural.  [gather] and [attempts] recurse on the
    script of rounds and on the attempts left; None means that the script ended
    before the code did, and [split_layer_terminates] gives the scripts for
    which it does not.  [read_loop] has the number of bytes wanted as fuel, which
    is enough since a read returns at least one byte or the stream has ended.
    Nothing else has fuel.

    ** Not modelled

    - Locks and the system calls of sockets; how long a blocking call waits (a
      timeout appears as an outcome); interleavings inside a handler between two
      blocking points.
    - The model libraries (attention, norms, embedding, logits): arguments, with
      the laws the code relies on; so are locks and devices.
    - Generated code, tests, and convert_mlx_bf16.py, which calls a library.  Of
      the other scripts: argument parsing, files, signals and the HTTP server.
    - How [float] reads a string; [int] on text that is not ASCII.
    - Lazy evaluation and memory of the array library. *)
From stdpp Require Export prelude gmap strings.


(** ** The errors Python code raises, and computations that may raise *)

Inductive exn : Type :=
| KeyError
| ValueError
| IndexError
| AssertionError
| TypeError
| AttributeError
| RuntimeError
| EOFError
| OSError
| OverflowError
| StructError
| ProvenanceError
| LastReplicaError
| PeerLeftAliveError
| SystemExit
| ExpertRpcFailure (failed_peer : string) (layer_idx : Z).

#[export] Instance exn_eq_dec : EqDecision exn.
Proof. solve_decision. Defined.

Inductive result (A : Type) : Type :=
| Ok (a : A)
| Raise (e : exn).
Arguments Ok {A} a.
Arguments Raise {A} e.

#[export] Instance result_eq_dec `{EqDecision A} : EqDecision (result A).
Proof. solve_decision. Defined.

#[export] Instance result_ret : MRet result := fun A a => Ok a.
#[export] Instance result_bind : MBind result := fun A B k m =>
  match m with
  | Ok a => k a
  | Raise e => Raise e
  end.
#[export] Instance result_fmap : FMap result := fun A B f m =>
  match m with
  | Ok a => Ok (f a)
  | Raise e => Raise e
  end.

(** [d[k]] on a missing key, [lst[i]] out of range: a lookup that raises. *)
Definition or_raise {A} (e : exn) (o : option A) : result A :=
  match o with
  | Some a => Ok a
  | None => Raise e
  end.

(** [if not b: raise e]. *)
Definition require (b : bool) (e : exn) : result unit :=
  if b then Ok tt else Raise e.

(** [with contextlib.suppress(Exception): ...] around a value: keep it, or [d]. *)
Definition ok_or {A} (d : A) (m : result A) : A :=
  match m with
  | Ok a => a
  | Raise _ => d
  end.

Definition is_ok {A} (m : result A) : bool :=
  match m with
  | Ok _ => true
  | Raise _ => false
  end.

Section result_lemmas.
Context {A B : Type}.
Implicit Types (m : result A) (k : A -> result B) (o : option A).

Lemma bind_ok m k b : m ≫= k = Ok b <-> exists a, m = Ok a /\ k a = Ok b.
Proof. destruct m; cbn; naive_solver. Qed.

Lemma bind_raise m k e :
  m ≫= k = Raise e <-> m = Raise e \/ exists a, m = Ok a /\ k a = Raise e.
Proof. destruct m; cbn; naive_solver. Qed.

Lemma or_raise_ok e o a : or_raise e o = Ok a <-> o = Some a.
Proof. destruct o; cbn; naive_solver. Qed.

Lemma or_raise_raise e e' o : or_raise e o = Raise e' <-> o = None /\ e = e'.
Proof. destruct o; cbn; naive_solver. Qed.

Lemma require_ok b e u : require b e = Ok u <-> b = true.
Proof. destruct b, u; cbn; naive_solver. Qed.

Lemma require_raise b e e' : require b e = Raise e' <-> b = false /\ e = e'.
Proof. destruct b; cbn; naive_solver. Qed.

End result_lemmas.

(** Case analysis on a raising computation that is known to have returned. *)
Ltac inv_ok :=
  repeat match goal with
  | H : _ ≫= _ = Ok _ |- _ => apply bind_ok in H as (? & ? & ?)
  | H : or_raise _ _ = Ok _ |- _ => apply or_raise_ok in H
  | H : require _ _ = Ok _ |- _ => apply require_ok in H
  | H : Ok _ = Ok _ |- _ => injection H as H; subst
  | H : mret _ = Ok _ |- _ => change (@mret result _ _ ?x) with (Ok x) in H
  | H : Raise _ = Ok _ |- _ => discriminate H
  | H : Ok _ = Raise _ |- _ => discriminate H
  | H : (_, _) = (_, _) |- _ => injection H as H; subst
  | p : (_ * _)%type |- _ => destruct p; cbn [fst snd] in *
  end.

(** [for x in xs: acc = f(acc, x)] where the body may raise. *)
Fixpoint foldM {A B : Type} (f : A -> B -> result A) (a : A) (xs : list B) : result A :=
  match xs with
  | [] => Ok a
  | x :: xs => a' ← f a x; foldM f a' xs
  end.

(** [[f(x) for x in xs]] where [f] may raise. *)
Fixpoint mapR {A B : Type} (f : A -> result B) (xs : list A) : result (list B) :=
  match xs with
  | [] => Ok []
  | x :: xs => y ← f x; ys ← mapR f xs; Ok (y :: ys)
  end.

Section loop_lemmas.
Context {A B : Type}.

Lemma foldM_app (f : A -> B -> result A) xs ys a :
  foldM f a (xs ++ ys) = a' ← foldM f a xs; foldM f a' ys.
Proof.
  revert a; induction xs as [|x xs IH]; intros a; cbn; [done|].
  destruct (f a x); cbn; auto.
Qed.

(** The invariant rule for a loop that returned. *)
Lemma foldM_inv (P : A -> Prop) (f : A -> B -> result A) xs a a' :
  (forall a1 x a2, x ∈ xs -> P a1 -> f a1 x = Ok a2 -> P a2) ->
  P a -> foldM f a xs = Ok a' -> P a'.
Proof.
  revert a; induction xs as [|x xs IH]; intros a Hf Ha H; cbn in H; inv_ok; [done|].
  eapply IH; [|eapply Hf; [left|exact Ha|eassumption]|eassumption].
  intros; eapply Hf; [right; eassumption|eassumption|eassumption].
Qed.

(** A loop whose body never raises returns. *)
Lemma foldM_total (P : A -> Prop) (f : A -> B -> result A) xs a :
  (forall a1 x, x ∈ xs -> P a1 -> exists a2, f a1 x = Ok a2 /\ P a2) ->
  P a -> exists a', foldM f a xs = Ok a' /\ P a'.
Proof.
  revert a; induction xs as [|x xs IH]; intros a Hf Ha; cbn; [by exists a|].
  destruct (Hf a x) as (a2 & -> & H2); [left|done|]. cbn.
  apply IH; [|done]. intros; apply Hf; [by right|done].
Qed.

(** A loop over an element whose body always raises does not return. *)
Lemma foldM_raises (f : A -> B -> result A) x xs a :
  x ∈ xs -> (forall a1, exists e, f a1 x = Raise e) -> exists e, foldM f a xs = Raise e.
Proof.
  intros Hx Hf. revert a. induction xs as [|y xs IH]; intros a; [inversion Hx|]. cbn.
  apply elem_of_cons in Hx as [->|Hx].
  - destruct (Hf a) as [e ->]. by exists e.
  - destruct (f a y) as [a1|e]; cbn; [by apply IH|by exists e].
Qed.

Lemma mapR_ok (f : A -> result B) xs ys :
  mapR f xs = Ok ys <-> Forall2 (fun x y => f x = Ok y) xs ys.
Proof.
  revert ys; induction xs as [|x xs IH]; intros ys; cbn.
  - split; [intros [= <-]; constructor|by inversion 1].
  - rewrite bind_ok. split.
    + intros (y & Hy & H). apply bind_ok in H as (zs & Hz & [= <-]).
      constructor; [done|by apply IH].
    + inversion 1 as [|? y ? zs Hy Hz]; subst. exists y; split; [done|].
      apply IH in Hz. rewrite Hz. done.
Qed.

Lemma mapR_indexed (P : nat -> A -> B -> Prop) (f : A -> result B) xs :
  (forall i x, xs !! i = Some x -> exists y, f x = Ok y /\ P i x y) ->
  exists ys, mapR f xs = Ok ys /\ length ys = length xs /\
    forall i y, ys !! i = Some y -> exists x, xs !! i = Some x /\ P i x y.
Proof.
  revert P. induction xs as [|x xs IH]; intros P Hf; [exists []; by split_and!|].
  destruct (Hf O x eq_refl) as (y & Hy & Hp). destruct (IH (fun i => P (S i)) (fun i => Hf (S i))) as (ys & Hys & Hl & Hall).
  exists (y :: ys). cbn. rewrite Hy. cbn. rewrite Hys. split; [done|]. split; [by rewrite Hl|].
  intros [|i] z Hz; [injection Hz as <-; by exists x|by apply Hall].
Qed.

Lemma mapR_pure (f : A -> result B) (g : A -> B) xs :
  (forall x, x ∈ xs -> f x = Ok (g x)) -> mapR f xs = Ok (g <$> xs).
Proof.
  induction xs as [|x xs IH]; intros H; cbn; [done|].
  rewrite H by left. cbn. rewrite IH; [done|]. intros; apply H; by right.
Qed.

End loop_lemmas.

(** Duplicate-freedom of keys passes to sub-multisets and sublists. *)
Lemma NoDup_submseteq_map {A B} (f : A -> B) (l k : list A) :
  l ⊆+ k -> NoDup (f <$> k) -> NoDup (f <$> l).
Proof.
  intros [m Hp]%submseteq_Permutation. rewrite Hp, fmap_app.
  by intros [? _]%NoDup_app.
Qed.

Lemma NoDup_filter_map {A B} (f : A -> B) (P : A -> Prop) `{forall x, Decision (P x)} (l : list A) :
  NoDup (f <$> l) -> NoDup (f <$> filter P l).
Proof. apply NoDup_submseteq_map, sublist_submseteq, sublist_filter. Qed.

(** [all(p(x) for x in l)] *)
Lemma forallb_elem {A} (P : A -> Prop) `{forall x, Decision (P x)} (l : list A) :
  forallb (fun x => bool_decide (P x)) l = true <-> forall x, x ∈ l -> P x.
Proof.
  induction l as [|y l IH]; cbn; [split; [intros _ x Hx; inversion Hx|done]|].
  rewrite andb_true_iff, bool_decide_eq_true, IH. setoid_rewrite elem_of_cons. naive_solver.
Qed.

(** Two checks in sequence. *)
Lemma seq_ok (m k : result unit) : (_ ← m; k) = Ok tt <-> m = Ok tt /\ k = Ok tt.
Proof. destruct m as [[]|]; cbn; naive_solver. Qed.
