(* ===== verification/PyDict.v ===== *)
(** * Python dictionaries

    A [dict] keeps its insertion order, and several loops of the code observe
    that order (peer candidates, the member list of a bulk reply, the order in
    which suspects are promoted).  A dictionary is therefore an association
    list: [dict_set] overwrites in place or appends, [dict_pop] removes.  The
    equivalence [d1 ≡d d2] forgets the order; the operations are proper for it. *)
From stdpp Require Import prelude.
From S2P Require Import Prelude.

Definition dict (K V : Type) : Type := list (K * V).

Section ops.
Context {K V : Type} `{EqDecision K}.
Implicit Types (d : dict K V) (k : K) (v : V).

(** [d.get(k)] *)
Fixpoint dict_get k d : option V :=
  match d with
  | [] => None
  | (k', v) :: d => if decide (k = k') then Some v else dict_get k d
  end.

(** [k in d] *)
Definition dict_mem k d : bool :=
  match dict_get k d with
  | Some _ => true
  | None => false
  end.

(** [d[k] = v] *)
Fixpoint dict_set k v d : dict K V :=
  match d with
  | [] => [(k, v)]
  | (k', v') :: d => if decide (k = k') then (k, v) :: d else (k', v') :: dict_set k v d
  end.

(** [d.pop(k, None)] *)
Fixpoint dict_pop k d : dict K V :=
  match d with
  | [] => []
  | (k', v') :: d => if decide (k = k') then d else (k', v') :: dict_pop k d
  end.

(** [d.keys()], [d.values()] *)
Definition dict_keys d : list K := d.*1.
Definition dict_values d : list V := d.*2.

(** [d.update(u)] *)
Definition dict_update d u : dict K V := foldl (fun d it => dict_set it.1 it.2 d) d u.

(** [d.setdefault(k, v)]: the value and the dictionary afterwards. *)
Definition dict_setdefault k v d : V * dict K V :=
  match dict_get k d with
  | Some v' => (v', d)
  | None => (v, dict_set k v d)
  end.

(** Every key occurs once, as in any dictionary the interpreter builds. *)
Definition dict_wf d : Prop := NoDup (dict_keys d).

(** Equality up to insertion order. *)
Definition dict_equiv d1 d2 : Prop := forall k, dict_get k d1 = dict_get k d2.

End ops.

Notation "d1 ≡d d2" := (dict_equiv d1 d2) (at level 70).

Section lemmas.
Context {K V : Type} `{EqDecision K}.
Implicit Types (d : dict K V) (k : K) (v : V).

Lemma dict_get_set_eq k v d : dict_get k (dict_set k v d) = Some v.
Proof. induction d as [|[k' v'] d IH]; cbn; repeat case_decide; cbn; repeat case_decide; congruence. Qed.

Lemma dict_get_set_ne k k' v d : k' <> k -> dict_get k' (dict_set k v d) = dict_get k' d.
Proof.
  intros Hne. induction d as [|[k2 v2] d IH]; cbn; repeat case_decide; cbn; repeat case_decide; congruence.
Qed.

Lemma dict_get_set k k' v d :
  dict_get k' (dict_set k v d) = if decide (k' = k) then Some v else dict_get k' d.
Proof.
  case_decide; [subst; apply dict_get_set_eq|by apply dict_get_set_ne].
Qed.

Lemma dict_get_None k d : dict_get k d = None <-> k ∉ dict_keys d.
Proof.
  induction d as [|[k' v'] d IH]; cbn; [split; [intros _ H; inversion H|done]|].
  rewrite not_elem_of_cons. case_decide; naive_solver.
Qed.

Lemma dict_get_Some_in k v d : dict_get k d = Some v -> (k, v) ∈ d.
Proof.
  induction d as [|[k' v'] d IH]; cbn; [done|].
  case_decide; intros H1; simplify_eq; [left|right; auto].
Qed.

Lemma dict_in_get k v d : dict_wf d -> (k, v) ∈ d -> dict_get k d = Some v.
Proof.
  unfold dict_wf, dict_keys. induction d as [|[k' v'] d IH]; cbn; [inversion 2|].
  intros [Hn Hd]%NoDup_cons [H1|H1]%elem_of_cons; case_decide; subst; try congruence; auto.
  contradict Hn. apply list_elem_of_fmap. by exists (k', v).
Qed.

Lemma dict_get_in k d : is_Some (dict_get k d) <-> k ∈ dict_keys d.
Proof.
  rewrite <- not_eq_None_Some, dict_get_None.
  destruct (decide (k ∈ dict_keys d)); naive_solver.
Qed.

Lemma dict_mem_spec k d : dict_mem k d = true <-> k ∈ dict_keys d.
Proof.
  unfold dict_mem. rewrite <- dict_get_in.
  destruct (dict_get k d); naive_solver.
Qed.

Lemma dict_keys_set k v d :
  dict_keys (dict_set k v d) = if dict_mem k d then dict_keys d else dict_keys d ++ [k].
Proof.
  unfold dict_mem, dict_keys. induction d as [|[k' v'] d IH]; cbn; [done|].
  case_decide; cbn; subst; [done|]. rewrite IH. by destruct (dict_get k d).
Qed.

Lemma dict_set_in_keys k v d x : x ∈ dict_keys (dict_set k v d) <-> x = k \/ x ∈ dict_keys d.
Proof.
  rewrite <- !dict_get_in, dict_get_set. case_decide; naive_solver.
Qed.

Lemma dict_set_wf k v d : dict_wf d -> dict_wf (dict_set k v d).
Proof.
  unfold dict_wf. rewrite dict_keys_set. destruct (dict_mem k d) eqn:E; [done|].
  intros H1. apply NoDup_app; repeat split; [done| |apply NoDup_singleton].
  intros x Hx ->%list_elem_of_singleton. apply dict_mem_spec in Hx. congruence.
Qed.

Lemma dict_get_pop_ne k k' d : k' <> k -> dict_get k' (dict_pop k d) = dict_get k' d.
Proof.
  intros Hne. induction d as [|[k2 v2] d IH]; cbn; repeat case_decide; cbn; repeat case_decide; congruence.
Qed.

Lemma dict_get_pop_eq k d : dict_wf d -> dict_get k (dict_pop k d) = None.
Proof.
  unfold dict_wf, dict_keys. induction d as [|[k' v'] d IH]; cbn; [done|].
  intros [Hn Hd]%NoDup_cons. case_decide; subst; [by apply dict_get_None|].
  cbn. case_decide; [congruence|auto].
Qed.

Lemma dict_pop_sublist k d : dict_pop k d `sublist_of` d.
Proof.
  induction d as [|[k' v'] d IH]; cbn; [done|].
  case_decide; [by apply sublist_cons|by apply sublist_skip].
Qed.

Lemma dict_pop_wf k d : dict_wf d -> dict_wf (dict_pop k d).
Proof.
  intros H1. eapply sublist_NoDup; [exact H1|].
  unfold dict_keys. generalize (dict_pop_sublist k d). generalize (dict_pop k d).
  clear H1. intros d' H1. induction H1; cbn; by constructor.
Qed.

Lemma dict_values_in r d : r ∈ dict_values d <-> exists k, (k, r) ∈ d.
Proof.
  unfold dict_values. rewrite list_elem_of_fmap. split.
  - intros ([k v] & -> & H1). by exists k.
  - intros [k H1]. by exists (k, r).
Qed.

Lemma dict_set_in k v d x : x ∈ dict_set k v d -> x = (k, v) \/ x ∈ d.
Proof.
  induction d as [|[k' v'] d IH]; cbn; [by intros ->%list_elem_of_singleton; left|].
  case_decide; intros [->|Hx]%elem_of_cons; [by left|by right; right|by right; left|].
  destruct (IH Hx); [by left|by right; right].
Qed.

Lemma dict_update_in x d u : x ∈ dict_update d u -> x ∈ d \/ x ∈ u.
Proof.
  revert d. induction u as [|[k' v'] u IH]; intros d Hx; [by left|].
  change (dict_update d ((k', v') :: u)) with (dict_update (dict_set k' v' d) u) in Hx.
  apply IH in Hx as [[->|Hx]%dict_set_in|Hx]; [right; left|by left|by right; right].
Qed.

Lemma dict_update_keys k d u : k ∈ dict_keys (dict_update d u) <-> k ∈ dict_keys d \/ k ∈ dict_keys u.
Proof.
  revert d. induction u as [|[k' v'] u IH]; intros d.
  { split; [by left|intros [?|Hn]; [done|inversion Hn]]. }
  change (dict_update d ((k', v') :: u)) with (dict_update (dict_set k' v' d) u).
  change (dict_keys ((k', v') :: u)) with (k' :: dict_keys u).
  rewrite (IH (dict_set k' v' d)), dict_set_in_keys, elem_of_cons. tauto.
Qed.

Lemma dict_update_wf d u : dict_wf d -> dict_wf (dict_update d u).
Proof.
  revert d. induction u as [|[k' v'] u IH]; intros d Hd; cbn; [done|]. by apply IH, dict_set_wf.
Qed.

#[export] Instance dict_equiv_equivalence : Equivalence (@dict_equiv K V _).
Proof. split; [done| |]; unfold dict_equiv; repeat intro; congruence. Qed.

#[export] Instance dict_set_proper k v : Proper (dict_equiv ==> dict_equiv) (dict_set (V:=V) k v).
Proof. intros d1 d2 H1 x. rewrite !dict_get_set. by rewrite H1. Qed.

#[export] Instance dict_get_proper k : Proper (dict_equiv ==> eq) (dict_get (V:=V) k).
Proof. intros d1 d2 H1. apply H1. Qed.

Lemma dict_set_comm k k' v v' d :
  k <> k' -> dict_set k v (dict_set k' v' d) ≡d dict_set k' v' (dict_set k v d).
Proof. intros Hne x. rewrite !dict_get_set. repeat case_decide; congruence. Qed.

Lemma dict_set_id k v d : dict_get k d = Some v -> dict_set k v d = d.
Proof.
  induction d as [|[k' v'] d IH]; cbn; [done|]. case_decide; [by intros [= ->]; subst|]. intros Hg. by rewrite IH.
Qed.

Lemma dict_set_set k v v' d : dict_set k v (dict_set k v' d) = dict_set k v d.
Proof.
  induction d as [|[k2 v2] d IH]; cbn; repeat case_decide; cbn; repeat case_decide; congruence.
Qed.

End lemmas.

(** Hints for goals about lookups after an update. *)
Create HintDb dict discriminated.
Create Rewrite HintDb dict.
#[export] Hint Resolve dict_set_wf dict_pop_wf dict_get_set_eq : dict.
#[export] Hint Rewrite @dict_get_set_eq : dict.
#[export] Hint Rewrite @dict_get_set_ne using congruence : dict.

(** Split a lookup after an update into its two cases. *)
Ltac dict_cases :=
  repeat match goal with
  | H : context [dict_get ?k' (dict_set ?k _ _)] |- _ =>
      rewrite dict_get_set in H; destruct (decide (k' = k))
  | |- context [dict_get ?k' (dict_set ?k _ _)] =>
      rewrite dict_get_set; destruct (decide (k' = k))
  end; simplify_eq.
