(* ===== verification/PyFloat.v ===== *)
(** * Python floats

    CPython floats are IEEE 754 binary64 numbers.  They are modelled by the
    standard library's [spec_float] with its pure arithmetic at precision 53 and
    maximal exponent 1024, so every time computation ([now + t / 1000.0]) and
    every moving average of the code is computed with the rounding it has in
    the interpreter, NaN and infinities included.  Comparisons follow Python:
    any comparison with NaN is false. *)
From Stdlib Require Export SpecFloat.
From S2P Require Import Prelude.
Open Scope Z_scope.

Abbreviation float := spec_float (only parsing).

#[export] Instance spec_float_eq_dec : EqDecision spec_float.
Proof. solve_decision. Defined.

Definition fadd : float -> float -> float := SFadd 53 1024.
Definition fsub : float -> float -> float := SFsub 53 1024.
Definition fmul : float -> float -> float := SFmul 53 1024.
Definition fdiv : float -> float -> float := SFdiv 53 1024.

(** [x < y], [x <= y]; [x >= y] is [fle y x], [x > y] is [flt y x]. *)
Definition flt (x y : float) : bool := SFltb x y.
Definition fle (x y : float) : bool := SFleb x y.

(** [float(n)]: the nearest binary64 number (the interpreter raises
    OverflowError for integers beyond the largest float, where this gives an
    infinity; every integer the code converts is a small count or duration). *)
Definition of_int (n : Z) : float := binary_normalize 53 1024 n 0 false.

Definition f0 : float := S754_zero false.
Definition f1 : float := of_int 1.
(** [t_ms / 1000.0] for an integer of milliseconds. *)
Definition ms_to_s (t_ms : Z) : float := fdiv (of_int t_ms) (of_int 1000).
(** The literal [n / 10^d]: decimal literals are correctly rounded quotients. *)
Definition flit (n d : Z) : float := fdiv (of_int n) (of_int (10 ^ d)).

(** [a / b] rounded to the nearest integer, ties to even. *)
Definition div_half_even (a b : Z) : Z :=
  let q := a / b in
  let r := a mod b in
  match 2 * r ?= b with
  | Lt => q
  | Gt => q + 1
  | Eq => if Z.even q then q else q + 1
  end.

(** [round(x)] with one argument: to the nearest integer, ties to even.
    NaN raises ValueError and an infinity OverflowError. *)
Definition py_round (x : float) : result Z :=
  match x with
  | S754_nan | S754_infinity _ => Raise ValueError
  | S754_zero _ => Ok 0
  | S754_finite s m e =>
      let a := if 0 <=? e then Z.pos m * 2 ^ e else div_half_even (Z.pos m) (2 ^ (- e)) in
      Ok (if s then - a else a)
  end.

(** [int(x)]: truncation towards zero. *)
Definition py_int (x : float) : result Z :=
  match x with
  | S754_nan | S754_infinity _ => Raise ValueError
  | S754_zero _ => Ok 0
  | S754_finite s m e =>
      let a := if 0 <=? e then Z.pos m * 2 ^ e else Z.pos m / 2 ^ (- e) in
      Ok (if s then - a else a)
  end.

(** ** Order

    Every number other than NaN has a key, and the comparison of two numbers is
    the lexicographic comparison of their keys. *)

Definition fkey (x : float) : option (Z * Z * Z) :=
  match x with
  | S754_nan => None
  | S754_infinity s => Some (if s then -2 else 2, 0, 0)
  | S754_zero _ => Some (0, 0, 0)
  | S754_finite false m e => Some (1, e, Z.pos m)
  | S754_finite true m e => Some (-1, - e, - Z.pos m)
  end.

Definition lex3_compare (a b : Z * Z * Z) : comparison :=
  let '(a1, a2, a3) := a in
  let '(b1, b2, b3) := b in
  match a1 ?= b1 with
  | Eq => match a2 ?= b2 with Eq => a3 ?= b3 | c => c end
  | c => c
  end.

Lemma SFcompare_fkey x y :
  SFcompare x y =
  match fkey x, fkey y with
  | Some a, Some b => Some (lex3_compare a b)
  | _, _ => None
  end.
Proof.
  destruct x as [[]|[]| |[] m e], y as [[]|[]| |[] m' e']; try reflexivity; cbn -[Z.compare].
  rewrite Z.compare_opp, (Z.compare_antisym e e'). by destruct (e ?= e').
Qed.

Lemma fle_lex3 x y :
  fle x y = true <-> exists a b, fkey x = Some a /\ fkey y = Some b /\ lex3_compare a b <> Gt.
Proof.
  unfold fle, SFleb. rewrite SFcompare_fkey.
  destruct (fkey x) as [a|], (fkey y) as [b|];
    [|split; [done|by intros (? & ? & ? & ? & ?)]..].
  destruct (lex3_compare a b) eqn:E; split; try done.
  - intros _. exists a, b. by rewrite E.
  - intros _. exists a, b. by rewrite E.
  - intros (? & ? & [= <-] & [= <-] & ?). done.
Qed.

Lemma lex3_trans a b c :
  lex3_compare a b <> Gt -> lex3_compare b c <> Gt -> lex3_compare a c <> Gt.
Proof.
  destruct a as [[a1 a2] a3], b as [[b1 b2] b3], c as [[c1 c2] c3]. unfold lex3_compare.
  repeat match goal with |- context [?u ?= ?v] => destruct (Z.compare_spec u v) end;
    intros; try congruence; lia.
Qed.

Lemma lex3_total a b : lex3_compare a b <> Gt \/ lex3_compare b a <> Gt.
Proof.
  destruct a as [[a1 a2] a3], b as [[b1 b2] b3]. unfold lex3_compare.
  repeat match goal with |- context [?u ?= ?v] => destruct (Z.compare_spec u v) end;
    try (left; congruence); try (right; congruence); lia.
Qed.

Lemma fle_trans x y z : fle x y = true -> fle y z = true -> fle x z = true.
Proof.
  rewrite !fle_lex3. intros (a & b & Hx & Hy & H1) (b' & c & Hy' & Hz & H2).
  simplify_eq. exists a, c. eauto using lex3_trans.
Qed.

Lemma fle_total x y : x <> S754_nan -> y <> S754_nan -> fle x y = true \/ fle y x = true.
Proof.
  intros Hx Hy. rewrite !fle_lex3.
  destruct (fkey x) as [a|] eqn:Ex; [|destruct x as [| | |[] ? ?]; done].
  destruct (fkey y) as [b|] eqn:Ey; [|destruct y as [| | |[] ? ?]; done].
  destruct (lex3_total a b); [left|right]; eauto 10.
Qed.

Lemma fle_refl x : x <> S754_nan -> fle x x = true.
Proof. intros H. destruct (fle_total x x H H); done. Qed.

Lemma flt_not_fle x y : flt x y = true -> fle y x = false.
Proof.
  unfold flt, fle, SFltb, SFleb. rewrite !SFcompare_fkey.
  destruct (fkey x) as [[[a1 a2] a3]|], (fkey y) as [[[b1 b2] b3]|]; cbn; try done.
  repeat match goal with |- context [?u ?= ?v] => destruct (Z.compare_spec u v) end;
    intros; try done; lia.
Qed.

(** ** Signs

    [fnonneg x]: [0.0 <= x], that is, [x] is a zero, a positive number or
    positive infinity; sums and products of such numbers stay so. *)

Definition fnonneg (x : float) : Prop := fle f0 x = true.

Definition fpos_finite (x : float) : Prop :=
  match x with
  | S754_finite false _ _ => True
  | _ => False
  end.

Lemma fnonneg_inv x :
  fnonneg x <-> (exists s, x = S754_zero s) \/ x = S754_infinity false
               \/ exists m e, x = S754_finite false m e.
Proof.
  unfold fnonneg. destruct x as [s|[]| |[] m e]; cbn; split; try done; eauto;
    naive_solver.
Qed.

Lemma shr_1_nonneg r : 0 <= shr_m r -> 0 <= shr_m (shr_1 r).
Proof. destruct r as [[|[p|p|]|[p|p|]] b s]; cbn; lia. Qed.

Lemma iter_shr_1_nonneg p r : 0 <= shr_m r -> 0 <= shr_m (SpecFloat.iter_pos shr_1 p r).
Proof. revert r; induction p; intros r H; cbn; auto using shr_1_nonneg. Qed.

Lemma shr_fexp_nonneg m e l : 0 <= m -> 0 <= shr_m (fst (shr_fexp 53 1024 m e l)).
Proof.
  intros H. unfold shr_fexp, shr.
  assert (0 <= shr_m (shr_record_of_loc m l)) by (destruct l as [|[]]; done).
  destruct (_ - _); cbn; auto using iter_shr_1_nonneg.
Qed.

Lemma round_nearest_even_nonneg m l : 0 <= m -> 0 <= round_nearest_even m l.
Proof. destruct l as [|[]]; cbn; try case_match; lia. Qed.

Lemma binary_round_aux_nonneg m e l : 0 <= m -> fnonneg (binary_round_aux 53 1024 false m e l).
Proof.
  intros H. unfold binary_round_aux.
  destruct (shr_fexp 53 1024 m e l) as [r1 e1] eqn:E1.
  assert (0 <= shr_m r1) by (change r1 with (r1, e1).1; rewrite <- E1; by apply shr_fexp_nonneg).
  destruct (shr_fexp 53 1024 _ e1 loc_Exact) as [r2 e2] eqn:E2.
  assert (0 <= shr_m r2) as H2.
  { change r2 with (r2, e2).1. rewrite <- E2. by apply shr_fexp_nonneg, round_nearest_even_nonneg. }
  destruct (shr_m r2); [done| |lia]. by case_match.
Qed.

Lemma binary_normalize_nonneg m e : 0 <= m -> fnonneg (binary_normalize 53 1024 m e false).
Proof.
  destruct m as [|m|m]; [done| |lia]. intros _. cbn. unfold binary_round.
  destruct (shl_align _ _ _). by apply binary_round_aux_nonneg.
Qed.

Lemma of_int_nonneg n : 0 <= n -> fnonneg (of_int n).
Proof. apply binary_normalize_nonneg. Qed.

Lemma fadd_nonneg x y : fnonneg x -> fnonneg y -> fnonneg (fadd x y).
Proof.
  rewrite !fnonneg_inv. intros Hx Hy. apply fnonneg_inv.
  destruct Hx as [[[] ->]|[->|(mx & ex & ->)]], Hy as [[[] ->]|[->|(my & ey & ->)]]; try done.
  apply binary_normalize_nonneg. cbn. lia.
Qed.

Lemma fmul_nonneg x y : fpos_finite x -> fnonneg y -> fnonneg (fmul x y).
Proof.
  destruct x as [| | |[] m e]; try done. intros _ Hy%fnonneg_inv.
  destruct Hy as [[[] ->]|[->|(my & ey & ->)]]; try done.
  by apply binary_round_aux_nonneg.
Qed.

Lemma div_half_even_nonneg a b : 0 <= a -> 0 < b -> 0 <= div_half_even a b.
Proof.
  intros Ha Hb. unfold div_half_even. pose proof (Z.div_pos a b Ha Hb).
  repeat case_match; lia.
Qed.

Lemma py_round_nonneg x n : fnonneg x -> py_round x = Ok n -> 0 <= n.
Proof.
  intros Hx%fnonneg_inv. destruct Hx as [[[] ->]|[->|(m & e & ->)]]; cbn; try naive_solver.
  intros [= <-]. case_match; [lia|]. apply div_half_even_nonneg; lia.
Qed.

Lemma py_round_finite m e s : is_ok (py_round (S754_finite s m e)) = true.
Proof. done. Qed.
