(* ===== verification/PyList.v ===== *)
(** * Python lists: stable sorting, minima, counting

    [sorted] and [list.sort] are stable, so a sort by key is determined by its
    keys: it is insertion sort with a non-strict test.  [min(xs, key=f)]
    returns the first element whose key is least. *)
From Stdlib Require Import Sorted.
From S2P Require Import Prelude.
Open Scope Z_scope.

Section sort.
Context {A : Type} (leb : A -> A -> bool).

Fixpoint insert_by (x : A) (l : list A) : list A :=
  match l with
  | [] => [x]
  | y :: l' => if leb x y then x :: l else y :: insert_by x l'
  end.

(** [sorted(l, key=...)] with [leb x y] standing for [key(x) <= key(y)]. *)
Fixpoint sort_by (l : list A) : list A :=
  match l with
  | [] => []
  | x :: l => insert_by x (sort_by l)
  end.

Lemma insert_by_perm x l : insert_by x l ≡ₚ x :: l.
Proof.
  induction l as [|y l IH]; cbn; [done|]. case_match; [done|].
  rewrite IH. apply Permutation_swap.
Qed.

Lemma sort_by_perm l : sort_by l ≡ₚ l.
Proof. induction l as [|x l IH]; cbn; [done|]. by rewrite insert_by_perm, IH. Qed.

Context (Htotal : forall x y, leb x y = true \/ leb y x = true).
Context (Htrans : forall x y z, leb x y = true -> leb y z = true -> leb x z = true).

Lemma insert_by_sorted x l :
  StronglySorted (fun x y => leb x y = true) l ->
  StronglySorted (fun x y => leb x y = true) (insert_by x l).
Proof.
  induction 1 as [|y l Hl IH Hy]; cbn; [repeat constructor|].
  destruct (leb x y) eqn:E; constructor.
  - by constructor.
  - constructor; [done|]. eapply Forall_impl; [exact Hy|]. eauto.
  - done.
  - rewrite insert_by_perm. constructor; [|done].
    destruct (Htotal x y); congruence.
Qed.

Lemma sort_by_sorted l : StronglySorted (fun x y => leb x y = true) (sort_by l).
Proof. induction l; cbn; [constructor|auto using insert_by_sorted]. Qed.

End sort.

(** A prefix of a sorted list dominates what it leaves out. *)
Lemma sorted_prefix {A} (P : A -> A -> Prop) l1 l2 a b :
  StronglySorted P (l1 ++ l2) -> a ∈ l1 -> b ∈ l2 -> P a b.
Proof.
  induction l1 as [|x l1 IH]; cbn; intros Hs Ha Hb; [inversion Ha|].
  inversion Hs as [|? ? Hs' Hf]; subst. apply elem_of_cons in Ha as [->|Ha]; [|auto].
  rewrite Forall_forall in Hf. apply Hf. apply elem_of_app. by right.
Qed.

Lemma StronglySorted_prefix {A} (P : A -> A -> Prop) l1 l2 :
  StronglySorted P (l1 ++ l2) -> StronglySorted P l1.
Proof.
  induction l1 as [|x l1 IH]; cbn; intros Hs; [constructor|].
  inversion Hs as [|? ? Hs' Hf]; subst. apply Forall_app in Hf as [Hf _]. constructor; auto.
Qed.

Section min.
Context {A : Type} (key : A -> Z).

Fixpoint min_from (best : A) (l : list A) : A :=
  match l with
  | [] => best
  | x :: l => min_from (if key x <? key best then x else best) l
  end.

(** [min(l, key=key)]; the empty iterable raises ValueError. *)
Definition min_by (l : list A) : result A :=
  match l with
  | [] => Raise ValueError
  | x :: l => Ok (min_from x l)
  end.

Lemma min_from_spec best l :
  min_from best l ∈ best :: l /\ forall x, x ∈ best :: l -> key (min_from best l) <= key x.
Proof.
  revert best; induction l as [|y l IH]; intros best; cbn.
  - split; [left|]. intros x ->%list_elem_of_singleton. lia.
  - destruct (IH (if key y <? key best then y else best)) as [H1 H2]. split.
    + apply elem_of_cons in H1 as [->|H1]; [|by right; right].
      case_match; [right; left|left].
    + intros x Hx. destruct (Z.ltb_spec (key y) (key best)).
      * pose proof (H2 y ltac:(left)). apply elem_of_cons in Hx as [->|Hx]; [lia|auto].
      * pose proof (H2 best ltac:(left)).
        apply elem_of_cons in Hx as [->|[->|Hx]%elem_of_cons]; [lia..|apply H2; by right].
Qed.

Lemma min_by_ok l m : min_by l = Ok m -> m ∈ l /\ forall x, x ∈ l -> key m <= key x.
Proof. destruct l as [|x l]; cbn; [done|]. intros [= <-]. apply min_from_spec. Qed.

Lemma min_by_total l : l <> [] -> exists m, min_by l = Ok m.
Proof. destruct l; [done|]. eauto. Qed.

End min.

(** [counts[x] += 1] over a list: how often [x] occurs. *)
Definition count {A} `{EqDecision A} (x : A) (l : list A) : Z :=
  Z.of_nat (length (filter (.= x) l)).

(** [l[:n]] for an integer [n] (negative bounds count from the end). *)
Definition slice_to {A} (n : Z) (l : list A) : list A :=
  if n <? 0 then take (Z.to_nat (Z.of_nat (length l) + n)) l else take (Z.to_nat n) l.

Lemma slice_to_sublist {A} n (l : list A) : slice_to n l `sublist_of` l.
Proof. unfold slice_to. case_match; apply sublist_take. Qed.

Lemma slice_to_length {A} n (l : list A) : 0 <= n -> (length (slice_to n l) <= Z.to_nat n)%nat.
Proof.
  intros H. unfold slice_to. rewrite (proj2 (Z.ltb_ge n 0)) by done. rewrite length_take. lia.
Qed.

(** A slice and what follows it make the list. *)
Lemma slice_drop {A} n (l : list A) : slice_to n l ++ drop (length (slice_to n l)) l = l.
Proof.
  assert (exists k, slice_to n l = take k l) as [k ->] by (unfold slice_to; case_match; eauto).
  rewrite length_take. destruct (decide (k <= length l)%nat).
  - rewrite Nat.min_l by done. apply take_drop.
  - rewrite Nat.min_r, take_ge, drop_ge, app_nil_r by lia. done.
Qed.
