(* ===== verification/PyRandom.v ===== *)
(** * The standard library's [random.Random]

    All the methods the code calls draw integers below a bound with
    [_randbelow]; the generator is therefore a state with that one operation
    (and a draw in [0, 1) for [uniform]), and [choice], [shuffle] and [sample]
    are CPython's loops over it.  What the client modules rely on is the class
    [RandomLaws]: a draw below [n] is below [n]. *)
From S2P Require Import Prelude PyFloat.
Open Scope nat_scope.

Class RandomSource (R : Type) := {
  (** [_randbelow(n)] *)
  randbelow : nat -> R -> nat * R;
  (** the rejection loop of [sample]: draw below [n] until the draw is not in the list *)
  randbelow_avoiding : nat -> list nat -> R -> nat * R;
  (** [random()] *)
  random_unit : R -> spec_float * R;
}.

Class RandomLaws (R : Type) `{RandomSource R} : Prop := {
  randbelow_lt : forall n r, 0 < n -> fst (randbelow n r) < n;
  randbelow_avoiding_spec : forall n seen r,
    (exists j, j < n /\ j ∉ seen) ->
    fst (randbelow_avoiding n seen r) < n /\ fst (randbelow_avoiding n seen r) ∉ seen;
}.

Section methods.
Context {R : Type} `{RandomSource R} {A : Type}.
Implicit Types (l : list A) (r : R).

(** [rng.choice(l)]: IndexError on an empty sequence. *)
Definition rng_choice l r : result (A * R) :=
  match l with
  | [] => Raise IndexError
  | _ :: _ => let '(j, r) := randbelow (length l) r in a ← or_raise IndexError (l !! j); Ok (a, r)
  end.

(** [x[i], x[j] = x[j], x[i]] *)
Definition swap (i j : nat) l : list A :=
  match l !! i, l !! j with
  | Some a, Some b => <[j := a]> (<[i := b]> l)
  | _, _ => l
  end.

(** [for i in reversed(range(1, n)): j = randbelow(i + 1); swap(i, j)], from [i] down to 1. *)
Fixpoint shuffle_from (i : nat) l r : list A * R :=
  match i with
  | O => (l, r)
  | S i' => let '(j, r) := randbelow (S i) r in shuffle_from i' (swap i j l) r
  end.

(** [rng.shuffle(l)] *)
Definition rng_shuffle l r : list A * R := shuffle_from (length l - 1) l r.

(** [rng.sample(l, 2)]: a pool with removal up to 21 elements, rejection beyond. *)
Definition rng_sample2 l r : result (list A * R) :=
  let n := length l in
  if n <? 2 then Raise ValueError else
  if n <=? 21 then
    let '(j1, r) := randbelow n r in
    a ← or_raise IndexError (l !! j1);
    last ← or_raise IndexError (l !! (n - 1));
    let pool := <[j1 := last]> l in
    let '(j2, r) := randbelow (n - 1) r in
    b ← or_raise IndexError (pool !! j2);
    Ok ([a; b], r)
  else
    let '(j1, r) := randbelow n r in
    let '(j2, r) := randbelow_avoiding n [j1] r in
    a ← or_raise IndexError (l !! j1);
    b ← or_raise IndexError (l !! j2);
    Ok ([a; b], r).

(** [rng.uniform(a, b)] = [a + (b - a) * random()] *)
Definition rng_uniform (a b : spec_float) r : spec_float * R :=
  let '(u, r) := random_unit r in (fadd a (fmul (fsub b a) u), r).

End methods.

Section laws.
Context {R : Type} `{RandomLaws R} {A : Type}.
Implicit Types (l : list A) (r : R).

Lemma rng_choice_in l r a r' : rng_choice l r = Ok (a, r') -> a ∈ l.
Proof.
  unfold rng_choice. destruct l as [|x l]; [done|].
  destruct (randbelow _ _) as [j r1]. intros Hc. inv_ok. by eapply list_elem_of_lookup_2.
Qed.

Lemma rng_choice_total l r : l <> [] -> exists a r', rng_choice l r = Ok (a, r').
Proof.
  unfold rng_choice. destruct l as [|x l]; [done|]. intros _.
  destruct (randbelow (length (x :: l)) r) as [j r1] eqn:E.
  assert (j < length (x :: l)) as Hj.
  { change j with (j, r1).1. rewrite <- E. apply randbelow_lt. cbn. lia. }
  apply lookup_lt_is_Some in Hj as [a Ha]. rewrite Ha. cbn. eauto.
Qed.

Lemma swap_perm i j l : swap i j l ≡ₚ l.
Proof.
  unfold swap. destruct (l !! i) as [a|] eqn:Hi; [|done].
  destruct (l !! j) as [b|] eqn:Hj; [|done].
  by apply Permutation_insert_swap.
Qed.

Lemma shuffle_from_perm i l r : fst (shuffle_from i l r) ≡ₚ l.
Proof.
  revert l r; induction i as [|i IH]; intros l r; [done|].
  cbn -[randbelow]. destruct (randbelow _ _) as [j r1]. by rewrite IH, swap_perm.
Qed.

Lemma rng_shuffle_perm l r : fst (rng_shuffle l r) ≡ₚ l.
Proof. apply shuffle_from_perm. Qed.

Lemma randbelow_lt' n r j r' : 0 < n -> randbelow n r = (j, r') -> j < n.
Proof. intros Hn E. change j with (j, r').1. rewrite <- E. by apply randbelow_lt. Qed.

(** [sample(l, 2)] on two or more elements returns the entries at two different
    positions of the list. *)
Lemma rng_sample2_total l r :
  2 <= length l ->
  exists a b i j r', rng_sample2 l r = Ok ([a; b], r') /\ l !! i = Some a /\ l !! j = Some b /\ i <> j.
Proof.
  intros Hn. unfold rng_sample2. rewrite (proj2 (Nat.ltb_ge _ _)) by done.
  case_match.
  - destruct (randbelow (length l) r) as [j1 r1] eqn:E1.
    apply randbelow_lt' in E1; [|lia].
    destruct (lookup_lt_is_Some_2 l j1) as [a Ha]; [done|].
    destruct (lookup_lt_is_Some_2 l (length l - 1)) as [z Hz]; [lia|].
    rewrite Ha; cbn. rewrite Hz; cbn.
    destruct (randbelow (length l - 1) r1) as [j2 r2] eqn:E2.
    apply randbelow_lt' in E2; [|lia].
    destruct (lookup_lt_is_Some_2 (<[j1:=z]> l) j2) as [b Hb]; [rewrite length_insert; lia|].
    rewrite Hb; cbn. apply list_lookup_insert_Some in Hb as [(<- & -> & _)|[Hne Hb]].
    + exists a, b, j1, (length l - 1), r2. repeat split; try done. lia.
    + by exists a, b, j1, j2, r2.
  - destruct (randbelow (length l) r) as [j1 r1] eqn:E1.
    apply randbelow_lt' in E1; [|lia].
    destruct (randbelow_avoiding (length l) [j1] r1) as [j2 r2] eqn:E2.
    destruct (randbelow_avoiding_spec (length l) [j1] r1) as [H2 H3].
    { exists (if decide (j1 = 0) then 1 else 0). rewrite list_elem_of_singleton.
      case_decide; lia. }
    rewrite E2 in H2, H3; cbn in H2, H3.
    destruct (lookup_lt_is_Some_2 l j1) as [a Ha]; [done|].
    destruct (lookup_lt_is_Some_2 l j2) as [b Hb]; [done|].
    rewrite Ha; cbn. rewrite Hb; cbn. exists a, b, j1, j2, r2.
    repeat split; try done. intros <-. apply H3. by apply list_elem_of_singleton.
Qed.

End laws.

(** ** A scripted source

    Draws are read from a list, reduced below the bound; an empty script draws
    zero.  Concrete runs use it. *)

Definition script : Type := list nat.

Definition script_below (n : nat) (s : script) : nat * script :=
  match s with
  | [] => (0, [])
  | x :: s => (x mod n, s)
  end.

(** The least number below [n] that is not in [seen] (0 when there is none). *)
Definition first_fresh (n : nat) (seen : list nat) : nat :=
  match filter (fun j => j ∉ seen) (seq 0 n) with
  | [] => 0
  | j :: _ => j
  end.

#[export] Instance script_source : RandomSource script := {
  randbelow := script_below;
  randbelow_avoiding n seen s := (first_fresh n seen, s);
  random_unit s := (f0, s);
}.

#[export] Instance script_laws : RandomLaws script.
Proof.
  split.
  - intros n [|x s] Hn; cbn; [done|]. apply Nat.mod_upper_bound. lia.
  - intros n seen s (j & Hj & Hs). cbn. unfold first_fresh.
    destruct (filter _ _) as [|i l] eqn:E.
    + exfalso. assert (j ∈ filter (fun j => j ∉ seen) (seq 0 n)) as Hin.
      { apply list_elem_of_filter. split; [done|]. apply elem_of_seq. lia. }
      rewrite E in Hin. inversion Hin.
    + assert (i ∈ filter (fun j => j ∉ seen) (seq 0 n)) as Hin by (rewrite E; left).
      apply list_elem_of_filter in Hin as [? ?%elem_of_seq]. split; [lia|done].
Qed.
