(* ===== verification/Records.v ===== *)
(** * membership/records.py and membership/config.py

    The frozen data types of the membership layer.  Python integers are [Z],
    strings are [string], floats are binary64 ([PyFloat]).  [MemberState] is an
    IntEnum whose order is the severity order of the state machine. *)
From S2P Require Import Prelude PyFloat.
Open Scope Z_scope.

(** ** Member states *)

Inductive MemberState : Type := ALIVE | SUSPECT | DEAD.

#[export] Instance MemberState_eq_dec : EqDecision MemberState.
Proof. solve_decision. Defined.

(** [int(state)] *)
Definition state_int (s : MemberState) : Z :=
  match s with
  | ALIVE => 0
  | SUSPECT => 1
  | DEAD => 2
  end.

(** [MemberState(n)]: ValueError outside the enumeration. *)
Definition state_of_int (n : Z) : result MemberState :=
  match n with
  | 0 => Ok ALIVE
  | 1 => Ok SUSPECT
  | 2 => Ok DEAD
  | _ => Raise ValueError
  end.

Lemma state_int_inj s t : state_int s = state_int t -> s = t.
Proof. destruct s, t; done. Qed.

Lemma state_of_int_int s : state_of_int (state_int s) = Ok s.
Proof. by destruct s. Qed.

(** ** Records *)

Record MemberRecord : Type := mkMember {
  shard_id : string;
  host : string;
  udp_port : Z;
  mstate : MemberState;
  incarnation : Z;
  model_id : string;
  last_state_change : float;
  suspect_deadline : option float;
}.

#[export] Instance MemberRecord_eq_dec : EqDecision MemberRecord.
Proof. solve_decision. Defined.

(** The dataclass equality [==]: the two timing fields are [compare=False]. *)
Definition same_member (a b : MemberRecord) : Prop :=
  shard_id a = shard_id b /\ host a = host b /\ udp_port a = udp_port b /\
  mstate a = mstate b /\ incarnation a = incarnation b /\ model_id a = model_id b.

#[export] Instance same_member_equivalence : Equivalence same_member.
Proof. split; unfold same_member; repeat intro; intuition congruence. Qed.

#[export] Instance same_member_dec a b : Decision (same_member a b).
Proof. unfold same_member. apply _. Defined.

Record LoadReportRecord : Type := mkLoad {
  lr_shard_id : string;
  lr_queue_depth_ema : Z;
  lr_ts_unix_ms : Z;
}.

Record HeatReportRecord : Type := mkHeat {
  hr_shard_id : string;
  hr_entries : list (Z * Z * Z);
  hr_ts_unix_ms : Z;
}.

Record OwnershipDeltaRecord : Type := mkOwner {
  od_shard_id : string;
  od_layer_idx : Z;
  od_expert_id : Z;
  od_action : Z;
  od_ts_unix_ms : Z;
}.

Record StateTransition : Type := mkTransition {
  tr_shard_id : string;
  old_state : option MemberState;
  new_record : MemberRecord;
}.

(** ** Wire-level messages *)

Record PingMsg : Type := mkPing {
  ping_from : string;
  ping_incarnation : Z;
  ping_deltas : list MemberRecord;
  ping_loads : list LoadReportRecord;
  ping_heat : list HeatReportRecord;
  ping_ownership : list OwnershipDeltaRecord;
}.

Record AckMsg : Type := mkAck {
  ack_from : string;
  ack_incarnation : Z;
  ack_deltas : list MemberRecord;
  ack_loads : list LoadReportRecord;
  ack_heat : list HeatReportRecord;
  ack_ownership : list OwnershipDeltaRecord;
}.

Record PingReqMsg : Type := mkPingReq {
  pr_from : string;
  pr_target : string;
  pr_probe_id : string;
  pr_deltas : list MemberRecord;
  pr_loads : list LoadReportRecord;
  pr_heat : list HeatReportRecord;
  pr_ownership : list OwnershipDeltaRecord;
}.

Record PingReqAckMsg : Type := mkPingReqAck {
  pra_from : string;
  pra_target : string;
  pra_probe_id : string;
  pra_success : bool;
  pra_deltas : list MemberRecord;
  pra_loads : list LoadReportRecord;
  pra_heat : list HeatReportRecord;
  pra_ownership : list OwnershipDeltaRecord;
}.

Record JoinMsg : Type := mkJoin { self_record : MemberRecord }.

Record MembershipDeltaMsg : Type := mkDelta { delta_members : list MemberRecord }.

Inductive IncomingMessage : Type :=
| Ping (m : PingMsg)
| Ack (m : AckMsg)
| PingReq (m : PingReqMsg)
| PingReqAck (m : PingReqAckMsg)
| Join (m : JoinMsg)
| Delta (m : MembershipDeltaMsg).

Record OutgoingMessage : Type := mkOut {
  target_shard_id : string;
  payload : IncomingMessage;
}.

(** The member records a message carries. *)
Definition msg_records (m : IncomingMessage) : list MemberRecord :=
  match m with
  | Ping p => ping_deltas p
  | Ack a => ack_deltas a
  | PingReq p => pr_deltas p
  | PingReqAck p => pra_deltas p
  | Join j => [self_record j]
  | Delta d => delta_members d
  end.

(** ** Configuration *)

Record SwimConfig : Type := mkConfig {
  t_ping_ms : Z;
  t_tick_ms : Z;
  t_timeout_ms : Z;
  k_indirect : Z;
  k_gossip : Z;
  mtu_bytes : Z;
  t_suspect_ms : Z;
}.

Definition default_config : SwimConfig :=
  {| t_ping_ms := 1000; t_tick_ms := 100; t_timeout_ms := 500; k_indirect := 2;
     k_gossip := 3; mtu_bytes := 1400; t_suspect_ms := 4000 |}.
