(* ===== verification/SwimState.v ===== *)
(** * membership/state.py: the SWIM state machine

    [MembershipState] is the class's state, one field per attribute; every
    method that changes it is a function from a state to a state, with the
    messages it returns.  A method that subscripts a dictionary may raise
    KeyError, so the handlers live in [result].  Messages and transitions are
    in the order the code appends them. *)
From Stdlib Require Import DecimalString.
From S2P Require Import Prelude PyDict PyFloat PyList PyRandom Records.
Open Scope Z_scope.

Record PeerSpec : Type := mkPeer {
  ps_shard_id : string;
  ps_host : string;
  ps_udp_port : Z;
}.

Record PendingHelp : Type := mkHelp {
  help_probe_id : string;
  help_target_id : string;
  help_requester_id : string;
  help_sent_at : float;
}.

Record PendingProbe : Type := mkProbe {
  probe_id : string;
  target_id : string;
  sent_at : float;
  indirect_sent_at : option float;
  indirect_targets : list string;
  indirect_acks : Z;
  indirect_success_seen : bool;
}.

Record BacklogEntry : Type := mkEntry {
  record : MemberRecord;
  priority : Z;
  enqueued_at : float;
  seqno : Z;
}.

Record MembershipState {R : Type} : Type := mkState {
  self_id : string;
  self_incarnation : Z;
  cfg : SwimConfig;
  rng : R;
  local_model_id : string;
  addrs : dict string PeerSpec;
  members : dict string MemberRecord;
  transitions : list StateTransition;
  next_period_at : float;
  pending_probe : option PendingProbe;
  probe_counter : Z;
  pending_helps : list PendingHelp;
  backlog : list BacklogEntry;
  backlog_seq : Z;
}.
Arguments MembershipState : clear implicits.
Arguments mkState {R}.

(** Attribute assignments. *)
Section setters.
Context {R : Type}.
Implicit Types (st : MembershipState R).

Definition set_self_incarnation n st :=
  mkState (self_id st) n (cfg st) (rng st) (local_model_id st) (addrs st) (members st)
    (transitions st) (next_period_at st) (pending_probe st) (probe_counter st)
    (pending_helps st) (backlog st) (backlog_seq st).
Definition set_rng (r : R) st :=
  mkState (self_id st) (self_incarnation st) (cfg st) r (local_model_id st) (addrs st)
    (members st) (transitions st) (next_period_at st) (pending_probe st) (probe_counter st)
    (pending_helps st) (backlog st) (backlog_seq st).
Definition set_members m st :=
  mkState (self_id st) (self_incarnation st) (cfg st) (rng st) (local_model_id st) (addrs st)
    m (transitions st) (next_period_at st) (pending_probe st) (probe_counter st)
    (pending_helps st) (backlog st) (backlog_seq st).
Definition set_transitions t st :=
  mkState (self_id st) (self_incarnation st) (cfg st) (rng st) (local_model_id st) (addrs st)
    (members st) t (next_period_at st) (pending_probe st) (probe_counter st)
    (pending_helps st) (backlog st) (backlog_seq st).
Definition set_next_period_at t st :=
  mkState (self_id st) (self_incarnation st) (cfg st) (rng st) (local_model_id st) (addrs st)
    (members st) (transitions st) t (pending_probe st) (probe_counter st)
    (pending_helps st) (backlog st) (backlog_seq st).
Definition set_pending_probe p st :=
  mkState (self_id st) (self_incarnation st) (cfg st) (rng st) (local_model_id st) (addrs st)
    (members st) (transitions st) (next_period_at st) p (probe_counter st)
    (pending_helps st) (backlog st) (backlog_seq st).
Definition set_probe_counter n st :=
  mkState (self_id st) (self_incarnation st) (cfg st) (rng st) (local_model_id st) (addrs st)
    (members st) (transitions st) (next_period_at st) (pending_probe st) n
    (pending_helps st) (backlog st) (backlog_seq st).
Definition set_pending_helps h st :=
  mkState (self_id st) (self_incarnation st) (cfg st) (rng st) (local_model_id st) (addrs st)
    (members st) (transitions st) (next_period_at st) (pending_probe st) (probe_counter st)
    h (backlog st) (backlog_seq st).
Definition set_backlog b st :=
  mkState (self_id st) (self_incarnation st) (cfg st) (rng st) (local_model_id st) (addrs st)
    (members st) (transitions st) (next_period_at st) (pending_probe st) (probe_counter st)
    (pending_helps st) b (backlog_seq st).
Definition set_backlog_seq n st :=
  mkState (self_id st) (self_incarnation st) (cfg st) (rng st) (local_model_id st) (addrs st)
    (members st) (transitions st) (next_period_at st) (pending_probe st) (probe_counter st)
    (pending_helps st) (backlog st) n.

End setters.

(** [f"{self_id}:{counter}"] *)
Definition fmt_Z (n : Z) : string := NilEmpty.string_of_int (Z.to_int n).
Definition make_probe_id (self : string) (n : Z) : string := self +:+ ":" +:+ fmt_Z n.

Section machine.
Context {R : Type} `{RandomSource R}.
Abbreviation State := (MembershipState R).
Implicit Types (st : State) (now : float).

(** ** The backlog *)

(** [_enqueue_backlog]: the newest record of a shard replaces its entry. *)
Definition enqueue_backlog (rec : MemberRecord) now st : State :=
  let kept := filter (fun b => shard_id (record b) <> shard_id rec) (backlog st) in
  set_backlog_seq (backlog_seq st + 1)
    (set_backlog (kept ++ [mkEntry rec 0 now (backlog_seq st)]) st).

(** [_gc_backlog]: drop entries older than three suspicion windows. *)
Definition gc_backlog now st : State :=
  let cutoff := fdiv (of_int (3 * t_suspect_ms (cfg st))) (of_int 1000) in
  set_backlog (filter (fun b => fle (fsub now (enqueued_at b)) cutoff = true) (backlog st)) st.

Definition entry_leb (a b : BacklogEntry) : bool :=
  (priority a <? priority b) || ((priority a =? priority b) && (seqno a <=? seqno b)).

Definition bump (b : BacklogEntry) : BacklogEntry :=
  mkEntry (record b) (priority b + 1) (enqueued_at b) (seqno b).

(** [_select_outgoing_deltas]: our own record, then up to [k_gossip] backlog
    entries of least priority; the entries sent have their priority raised. *)
Definition select_outgoing_deltas st : result (list MemberRecord * State) :=
  self_rec ← or_raise KeyError (dict_get (self_id st) (members st));
  let sorted := sort_by entry_leb (backlog st) in
  let sent := slice_to (k_gossip (cfg st)) sorted in
  let rest := drop (length sent) sorted in
  Ok (self_rec :: (record <$> sent), set_backlog ((bump <$> sent) ++ rest) st).

(** ** Changing the view

    Every method that changes a member's record does so with the same three
    statements: overwrite the record, log the transition, enqueue the record. *)
Definition install sid (old : option MemberState) (new : MemberRecord) now st : State :=
  enqueue_backlog new now
    (set_transitions (transitions st ++ [mkTransition sid old new])
      (set_members (dict_set sid new (members st)) st)).

(** [_admit] *)
Definition admits st (r : MemberRecord) : bool :=
  if decide (local_model_id st = "") then true
  else if decide (model_id r = local_model_id st) then true else false.

Definition suspect_record now st (prev : MemberRecord) (sid : string) : MemberRecord :=
  mkMember sid (host prev) (udp_port prev) SUSPECT (incarnation prev) (model_id prev) now
    (Some (fadd now (ms_to_s (t_suspect_ms (cfg st))))).

(** [_mark_suspect] *)
Definition mark_suspect (sid : string) now st : result State :=
  prev ← or_raise KeyError (dict_get sid (members st));
  match mstate prev with
  | SUSPECT | DEAD => Ok st
  | ALIVE => Ok (install sid (Some (mstate prev)) (suspect_record now st prev sid) now st)
  end.

Definition deadline_passed now (r : MemberRecord) : bool :=
  match suspect_deadline r with
  | Some d => fle d now
  | None => false
  end.

Definition dead_record now (sid : string) (r : MemberRecord) : MemberRecord :=
  mkMember sid (host r) (udp_port r) DEAD (incarnation r) (model_id r) now None.

Definition promote_one now st (it : string * MemberRecord) : State :=
  let '(sid, r) := it in
  if decide (mstate r = SUSPECT) then
    if deadline_passed now r then install sid (Some SUSPECT) (dead_record now sid r) now st else st
  else st.

(** [_maybe_promote_dead]: over a snapshot of the members. *)
Definition maybe_promote_dead now st : State := foldl (promote_one now) st (members st).

Definition alive_record now (inc : Z) (prev : MemberRecord) : MemberRecord :=
  mkMember (shard_id prev) (host prev) (udp_port prev) ALIVE inc (model_id prev) now None.

(** [_maybe_promote_sender_alive] *)
Definition maybe_promote_sender_alive (sender : string) (sender_inc : Z) now st : State :=
  if decide (sender = self_id st) then st else
  match dict_get sender (members st) with
  | None => st
  | Some prev =>
      if decide (mstate prev = ALIVE) then st else
      install sender (Some (mstate prev))
        (alive_record now (Z.max (incarnation prev) sender_inc) prev) now st
  end.

(** [_maybe_refute] *)
Definition maybe_refute (d : MemberRecord) now st : result State :=
  if decide (mstate d = ALIVE) then Ok st else
  if incarnation d <? self_incarnation st then Ok st else
  let st := set_self_incarnation (incarnation d + 1) st in
  prev ← or_raise KeyError (dict_get (self_id st) (members st));
  Ok (install (self_id st) (Some (mstate prev))
        (mkMember (self_id st) (host prev) (udp_port prev) ALIVE (self_incarnation st)
           (model_id prev) now None) now st).

Definition delta_record now st (prev d : MemberRecord) : MemberRecord :=
  mkMember (shard_id d) (host prev) (udp_port prev) (mstate d) (incarnation d) (model_id d) now
    (if decide (mstate d = SUSPECT) then Some (fadd now (ms_to_s (t_suspect_ms (cfg st)))) else None).

(** [_maybe_apply_peer_delta] *)
Definition maybe_apply_peer_delta (d : MemberRecord) now st : result State :=
  if negb (admits st d) then Ok st else
  prev ← or_raise KeyError (dict_get (shard_id d) (members st));
  if incarnation d <? incarnation prev then Ok st else
  if (incarnation d =? incarnation prev) && (state_int (mstate d) <=? state_int (mstate prev))
  then Ok st
  else Ok (install (shard_id d) (Some (mstate prev)) (delta_record now st prev d) now st).

(** The body of the loop of [_apply_deltas]. *)
Definition apply_delta now st (d : MemberRecord) : result State :=
  if decide (shard_id d = self_id st) then maybe_refute d now st else
  match dict_get (shard_id d) (members st) with
  | None => Ok st
  | Some _ => maybe_apply_peer_delta d now st
  end.

(** [_apply_deltas] *)
Definition apply_deltas (ds : list MemberRecord) now st : result State :=
  foldM (apply_delta now) st ds.

(** ** Probing *)

(** [[r.shard_id for r in members.values() if ... and r.state == ALIVE]] *)
Definition alive_peers (excluded : list string) st : list string :=
  shard_id <$> filter (fun r => (shard_id r ∉ excluded) /\ mstate r = ALIVE) (dict_values (members st)).

(** The loop over the chosen helpers: each message selects its own deltas. *)
Fixpoint ping_helpers (p : PendingProbe) (helpers : list string) st
    : result (list OutgoingMessage * State) :=
  match helpers with
  | [] => Ok ([], st)
  | h :: helpers =>
      '(ds, st) ← select_outgoing_deltas st;
      '(out, st) ← ping_helpers p helpers st;
      Ok (mkOut h (PingReq (mkPingReq (self_id st) (target_id p) (probe_id p) ds [] [] [])) :: out, st)
  end.

(** [_maybe_escalate_probe] *)
Definition maybe_escalate_probe now st : result (list OutgoingMessage * State) :=
  match pending_probe st with
  | None => Ok ([], st)
  | Some p =>
      if decide (is_Some (indirect_sent_at p)) then Ok ([], st) else
      if flt now (fadd (sent_at p) (ms_to_s (t_timeout_ms (cfg st)))) then Ok ([], st) else
      let candidates := alive_peers [self_id st; target_id p] st in
      let '(shuffled, r) := rng_shuffle candidates (rng st) in
      let st := set_rng r st in
      let chosen := slice_to (k_indirect (cfg st)) shuffled in
      '(out, st) ← ping_helpers p chosen st;
      let st := set_pending_probe
        (Some (mkProbe (probe_id p) (target_id p) (sent_at p) (Some now) chosen
                 (indirect_acks p) (indirect_success_seen p))) st in
      match chosen with
      | [] => st ← mark_suspect (target_id p) now st; Ok (out, set_pending_probe None st)
      | _ :: _ => Ok (out, st)
      end
  end.

(** Did the previous probe reach its indirect phase without a positive answer? *)
Definition probe_expired (p : PendingProbe) : bool :=
  bool_decide (is_Some (indirect_sent_at p)) && negb (indirect_success_seen p).

(** The first statement of [_start_protocol_period]. *)
Definition settle_previous_probe now st : result State :=
  match pending_probe st with
  | Some p => if probe_expired p then mark_suspect (target_id p) now st else Ok st
  | None => Ok st
  end.

(** [_start_protocol_period] *)
Definition start_protocol_period now st : result (list OutgoingMessage * State) :=
  st ← settle_previous_probe now st;
  let st := set_pending_probe None st in
  match alive_peers [self_id st] st with
  | [] => Ok ([], set_next_period_at (fadd now (ms_to_s (t_ping_ms (cfg st)))) st)
  | c :: cs =>
      '(target, r) ← rng_choice (c :: cs) (rng st);
      let st := set_probe_counter (probe_counter st + 1) (set_rng r st) in
      let pid := make_probe_id (self_id st) (probe_counter st) in
      let st := set_pending_probe (Some (mkProbe pid target now None [] 0 false)) st in
      let st := set_next_period_at (fadd now (ms_to_s (t_ping_ms (cfg st)))) st in
      '(ds, st) ← select_outgoing_deltas st;
      Ok ([mkOut target (Ping (mkPing (self_id st) (self_incarnation st) ds [] [] []))], st)
  end.

(** The loop of [_maybe_timeout_helps] and of [_handle_ack]: answer the helps
    selected by [due] with [success], keep the others. *)
Fixpoint answer_helps (due : PendingHelp -> bool) (success : bool) (hs : list PendingHelp) st
    : result (list OutgoingMessage * list PendingHelp * State) :=
  match hs with
  | [] => Ok ([], [], st)
  | h :: hs =>
      if due h then
        '(ds, st) ← select_outgoing_deltas st;
        let m := mkOut (help_requester_id h)
          (PingReqAck (mkPingReqAck (self_id st) (help_target_id h) (help_probe_id h) success ds [] [] [])) in
        '(out, rem, st) ← answer_helps due success hs st;
        Ok (m :: out, rem, st)
      else
        '(out, rem, st) ← answer_helps due success hs st;
        Ok (out, h :: rem, st)
  end.

Definition help_timed_out now st (h : PendingHelp) : bool :=
  fle (fadd (help_sent_at h) (ms_to_s (t_timeout_ms (cfg st)))) now.

(** [_maybe_timeout_helps] *)
Definition maybe_timeout_helps now st : result (list OutgoingMessage * State) :=
  '(out, rem, st) ← answer_helps (help_timed_out now st) false (pending_helps st) st;
  Ok (out, set_pending_helps rem st).

(** [tick] *)
Definition tick now st : result (list OutgoingMessage * State) :=
  let st := gc_backlog now st in
  '(out1, st) ← maybe_timeout_helps now st;
  let st := maybe_promote_dead now st in
  '(out3, st) ← (if fle (next_period_at st) now then start_protocol_period now st else Ok ([], st));
  '(out4, st) ← maybe_escalate_probe now st;
  Ok (out1 ++ out3 ++ out4, st).

(** ** Message handlers *)

Definition joined_record now (r : MemberRecord) : MemberRecord :=
  mkMember (shard_id r) (host r) (udp_port r) ALIVE (incarnation r) (model_id r) now None.

(** The newcomer is recorded here as dead at a higher incarnation. *)
Definition join_refused (prev : option MemberRecord) (r : MemberRecord) : bool :=
  match prev with
  | Some p => bool_decide (mstate p = DEAD) && (incarnation r <? incarnation p)
  | None => false
  end.

(** [_handle_join] *)
Definition handle_join (m : JoinMsg) now st : result (list OutgoingMessage * State) :=
  let r := self_record m in
  if negb (admits st r) then Ok ([], st) else
  let prev := dict_get (shard_id r) (members st) in
  let st := if join_refused prev r then st
            else install (shard_id r) (mstate <$> prev) (joined_record now r) now st in
  Ok ([mkOut (shard_id r) (Delta (mkDelta (dict_values (members st))))], st).

(** The body of the loop of [_handle_delta]. *)
Definition install_delta now st (r : MemberRecord) : result State :=
  if decide (shard_id r = self_id st) then maybe_refute r now st else
  match dict_get (shard_id r) (members st) with
  | None => Ok (if admits st r then install (shard_id r) None r now st else st)
  | Some _ => maybe_apply_peer_delta r now st
  end.

(** [_handle_delta] *)
Definition handle_delta (m : MembershipDeltaMsg) now st : result (list OutgoingMessage * State) :=
  st ← foldM (install_delta now) st (delta_members m);
  Ok ([], st).

(** [_handle_pingreqack] *)
Definition handle_pingreqack (m : PingReqAckMsg) now st : result (list OutgoingMessage * State) :=
  match pending_probe st with
  | None => Ok ([], st)
  | Some p =>
      if decide (probe_id p <> pra_probe_id m) then Ok ([], st) else
      if pra_success m then Ok ([], set_pending_probe None st) else
      let new_acks := indirect_acks p + 1 in
      let new_success := indirect_success_seen p || pra_success m in
      if (Z.of_nat (length (indirect_targets p)) <=? new_acks) && negb new_success then
        st ← mark_suspect (target_id p) now st;
        Ok ([], set_pending_probe None st)
      else
        Ok ([], set_pending_probe
          (Some (mkProbe (probe_id p) (target_id p) (sent_at p) (indirect_sent_at p)
                   (indirect_targets p) new_acks new_success)) st)
  end.

(** [_handle_ping] *)
Definition handle_ping (m : PingMsg) now st : result (list OutgoingMessage * State) :=
  if negb (dict_mem (ping_from m) (members st)) then Ok ([], st) else
  let st := maybe_promote_sender_alive (ping_from m) (ping_incarnation m) now st in
  st ← apply_deltas (ping_deltas m) now st;
  '(ds, st) ← select_outgoing_deltas st;
  Ok ([mkOut (ping_from m) (Ack (mkAck (self_id st) (self_incarnation st) ds [] [] []))], st).

(** [_handle_ack] *)
Definition handle_ack (m : AckMsg) now st : result (list OutgoingMessage * State) :=
  let st := match pending_probe st with
            | Some p => if decide (target_id p = ack_from m) then set_pending_probe None st else st
            | None => st
            end in
  let st := maybe_promote_sender_alive (ack_from m) (ack_incarnation m) now st in
  st ← apply_deltas (ack_deltas m) now st;
  '(out, rem, st) ← answer_helps (fun h => bool_decide (help_target_id h = ack_from m)) true
                      (pending_helps st) st;
  Ok (out, set_pending_helps rem st).

(** [_handle_pingreq] *)
Definition handle_pingreq (m : PingReqMsg) now st : result (list OutgoingMessage * State) :=
  if negb (dict_mem (pr_target m) (members st)) then Ok ([], st) else
  let st := set_pending_helps
    (pending_helps st ++ [mkHelp (pr_probe_id m) (pr_target m) (pr_from m) now]) st in
  '(ds, st) ← select_outgoing_deltas st;
  Ok ([mkOut (pr_target m) (Ping (mkPing (self_id st) (self_incarnation st) ds [] [] []))], st).

(** [recv] *)
Definition recv (m : IncomingMessage) now st : result (list OutgoingMessage * State) :=
  match m with
  | Ping m => handle_ping m now st
  | Ack m => handle_ack m now st
  | PingReq m => handle_pingreq m now st
  | PingReqAck m => handle_pingreqack m now st
  | Join m => handle_join m now st
  | Delta m => handle_delta m now st
  end.

(** ** Construction and observation *)

Definition initial_record (self : string) (inc : Z) (model : string) (p : PeerSpec) : MemberRecord :=
  mkMember (ps_shard_id p) (ps_host p) (ps_udp_port p) ALIVE
    (if decide (ps_shard_id p = self) then inc else 0) model f0 None.

(** The view built from the static peer list. *)
Definition initial_members (self : PeerSpec) (peers : list PeerSpec) (model : string) (inc : Z)
    : dict string MemberRecord :=
  foldl (fun d p => dict_set (ps_shard_id p) (initial_record (ps_shard_id self) inc model p) d)
    [] (self :: peers).

(** [MembershipState.__init__] *)
Definition init_state (self : PeerSpec) (peers : list PeerSpec) (r : R) (c : SwimConfig)
    (model : string) (inc : Z) : result State :=
  let st := mkState (ps_shard_id self) inc c r model
    (foldl (fun d p => dict_set (ps_shard_id p) p d) [] (self :: peers))
    (initial_members self peers model inc)
    [] (ms_to_s (t_ping_ms c)) None 0 [] [] 0 in
  if 0 <? inc then
    self_rec ← or_raise KeyError (dict_get (self_id st) (members st));
    Ok (enqueue_backlog self_rec f0 st)
  else Ok st.

(** [view], [changes_since], [transition_watermark] *)
Definition view st : dict string MemberRecord := members st.
Definition changes_since (watermark : nat) st : list StateTransition := drop watermark (transitions st).
Definition transition_watermark st : nat := length (transitions st).

(** ** Events

    The runner calls [tick] on its clock and [recv] per datagram. *)
Inductive event : Type :=
| Tick (now : float)
| Recv (m : IncomingMessage) (now : float).

Definition handle (e : event) st : result (list OutgoingMessage * State) :=
  match e with
  | Tick now => tick now st
  | Recv m now => recv m now st
  end.

End machine.
