(* ===== verification/SwimSpec.v ===== *)
(** * The abstract membership protocol

    The view of a node changes only by the eight rules of [swim_step]: a peer
    joins, is suspected, is declared dead, shows a sign of life, is the subject
    of newer gossip, is discovered in a bulk reply, the node refutes a claim
    about itself, or nothing observable happens ([quiet]).  The invariants of
    the protocol are preserved by every rule, once; [SwimRefine] shows that the
    handlers of state.py are runs of these rules. *)
From S2P Require Import Prelude PyDict PyFloat PyList PyRandom Records SwimState.
Open Scope Z_scope.

(** The rules, by what they do to whom. *)
Inductive act : Type :=
| AJoin (r : MemberRecord)
| ASuspect (sid : string)
| ADead (sid : string)
| ARevive (sid : string)
| ARefute
| AGossip (d : MemberRecord)
| ADiscover (r : MemberRecord)
| AQuiet.

(** Severity-incarnation order: a higher incarnation, or a more severe state in
    the same incarnation. *)
Definition newer (old new : MemberRecord) : Prop :=
  incarnation old < incarnation new \/
  (incarnation old = incarnation new /\ state_int (mstate old) < state_int (mstate new)).

Section spec.
Context {R : Type}.
Abbreviation State := (MembershipState R).
Implicit Types (st : State) (now : float).

Definition probe_ok st : Prop :=
  forall p, pending_probe st = Some p ->
    target_id p <> self_id st /\ target_id p ∈ dict_keys (members st).

Definition entry_core (b : BacklogEntry) : MemberRecord * Z := (record b, seqno b).

(** Nothing observable changes: the backlog may lose entries, be reordered or
    reprioritised, and the probe may move. *)
Record quiet st st' : Prop := {
  q_self : self_id st' = self_id st;
  q_inc : self_incarnation st' = self_incarnation st;
  q_cfg : cfg st' = cfg st;
  q_model : local_model_id st' = local_model_id st;
  q_members : members st' = members st;
  q_transitions : transitions st' = transitions st;
  q_seq : backlog_seq st' = backlog_seq st;
  q_backlog : (entry_core <$> backlog st') ⊆+ (entry_core <$> backlog st);
  q_probe : probe_ok st -> probe_ok st';
}.

(** The record [prev] of member [sid] after a change of its state; a suspect has
    the deadline of the configuration. *)
Definition becomes now st (sid : string) (prev : MemberRecord) (s : MemberState) (inc : Z) (model : string) : MemberRecord :=
  mkMember sid (host prev) (udp_port prev) s inc model now
    (if decide (s = SUSPECT) then Some (fadd now (ms_to_s (t_suspect_ms (cfg st)))) else None).

Inductive swim_step now : State -> act -> State -> Prop :=
| sw_join st r :
    admits st r = true -> join_refused (dict_get (shard_id r) (members st)) r = false ->
    swim_step now st (AJoin r)
      (install (shard_id r) (mstate <$> dict_get (shard_id r) (members st)) (becomes now st (shard_id r) r ALIVE (incarnation r) (model_id r)) now st)
| sw_suspect st sid prev :
    dict_get sid (members st) = Some prev -> mstate prev = ALIVE -> sid <> self_id st ->
    swim_step now st (ASuspect sid)
      (install sid (Some ALIVE) (becomes now st sid prev SUSPECT (incarnation prev) (model_id prev)) now st)
| sw_dead st sid r :
    dict_get sid (members st) = Some r -> mstate r = SUSPECT -> deadline_passed now r = true ->
    swim_step now st (ADead sid) (install sid (Some SUSPECT) (becomes now st sid r DEAD (incarnation r) (model_id r)) now st)
| sw_revive st sid prev inc :
    dict_get sid (members st) = Some prev -> mstate prev <> ALIVE -> incarnation prev <= inc ->
    sid <> self_id st ->
    swim_step now st (ARevive sid)
      (install sid (Some (mstate prev)) (becomes now st (shard_id prev) prev ALIVE inc (model_id prev)) now st)
| sw_refute st prev inc :
    dict_get (self_id st) (members st) = Some prev -> self_incarnation st < inc ->
    swim_step now st ARefute
      (install (self_id st) (Some (mstate prev))
         (becomes now st (self_id st) prev ALIVE inc (model_id prev)) now
         (set_self_incarnation inc st))
| sw_gossip st d prev :
    admits st d = true -> shard_id d <> self_id st ->
    dict_get (shard_id d) (members st) = Some prev -> newer prev d ->
    swim_step now st (AGossip d)
      (install (shard_id d) (Some (mstate prev)) (becomes now st (shard_id d) prev (mstate d) (incarnation d) (model_id d)) now st)
| sw_discover st r :
    admits st r = true -> shard_id r <> self_id st -> dict_get (shard_id r) (members st) = None ->
    swim_step now st (ADiscover r) (install (shard_id r) None r now st)
| sw_quiet st st' : quiet st st' -> swim_step now st AQuiet st'.

(** Runs whose rules all satisfy [P]. *)
Definition runs (P : act -> Prop) now : State -> State -> Prop :=
  rtc (fun st st' => exists a, P a /\ swim_step now st a st').

(** ** The invariant *)

Record wf st : Prop := {
  wf_keys : dict_wf (members st);
  wf_ids : forall sid r, dict_get sid (members st) = Some r -> shard_id r = sid;
  wf_self : exists r, dict_get (self_id st) (members st) = Some r /\ mstate r = ALIVE;
  wf_probe : probe_ok st;
  wf_fresh : forall b, b ∈ backlog st -> dict_get (shard_id (record b)) (members st) = Some (record b);
  wf_backlog : NoDup ((fun b => shard_id (record b)) <$> backlog st);
  wf_seq : forall b, b ∈ backlog st -> seqno b < backlog_seq st;
  wf_seq_nodup : NoDup (seqno <$> backlog st);
  wf_model : local_model_id st <> "" ->
    forall sid r, dict_get sid (members st) = Some r -> model_id r = local_model_id st;
}.

Lemma quiet_refl st : quiet st st.
Proof. by split. Qed.

Lemma quiet_trans st1 st2 st3 : quiet st1 st2 -> quiet st2 st3 -> quiet st1 st3.
Proof.
  intros [] []. split; try congruence; [|by auto].
  by etrans.
Qed.

Lemma in_entry_core b (l : list BacklogEntry) :
  b ∈ l -> entry_core b ∈ entry_core <$> l.
Proof. intros Hb. apply list_elem_of_fmap. by exists b. Qed.

(** An entry of a quiet successor's backlog is an entry of the backlog. *)
Lemma quiet_entry st st' b :
  quiet st st' -> b ∈ backlog st' -> exists b', b' ∈ backlog st /\ record b = record b' /\ seqno b = seqno b'.
Proof.
  intros Hq Hb. apply in_entry_core in Hb.
  eapply elem_of_submseteq in Hb; [|apply (q_backlog _ _ Hq)].
  apply list_elem_of_fmap in Hb as (b' & Hc & Hb'). injection Hc as ? ?. eauto.
Qed.

Lemma quiet_wf st st' : quiet st st' -> wf st -> wf st'.
Proof.
  intros Hq W. pose proof Hq as [Es Ei Ec Em Emem Et Eseq Eb Ep].
  split.
  - rewrite Emem. apply (wf_keys _ W).
  - rewrite Emem. apply (wf_ids _ W).
  - rewrite Es, Emem. apply (wf_self _ W).
  - exact (Ep (wf_probe _ W)).
  - intros b Hb. destruct (quiet_entry _ _ _ Hq Hb) as (b' & Hb' & -> & _).
    rewrite Emem. by apply (wf_fresh _ W).
  - pose proof (NoDup_submseteq_map (fun c => shard_id c.1) _ _ Eb) as Hn.
    rewrite <- !list_fmap_compose in Hn. exact (Hn (wf_backlog _ W)).
  - intros b Hb. destruct (quiet_entry _ _ _ Hq Hb) as (b' & Hb' & _ & ->).
    rewrite Eseq. by apply (wf_seq _ W).
  - pose proof (NoDup_submseteq_map snd _ _ Eb) as Hn.
    rewrite <- !list_fmap_compose in Hn. exact (Hn (wf_seq_nodup _ W)).
  - rewrite Em, Emem. apply (wf_model _ W).
Qed.

(** Installing a record under its own id, without touching the node's own
    liveness or the admission contract, preserves the invariant. *)
Lemma install_wf st sid old new now :
  wf st -> shard_id new = sid ->
  (sid = self_id st -> mstate new = ALIVE) ->
  (local_model_id st <> "" -> model_id new = local_model_id st) ->
  wf (install sid old new now st).
Proof.
  intros W Hid Hself Hmodel. split; cbn.
  - apply dict_set_wf, W.
  - intros sid' r Hg. dict_cases; eauto using wf_ids.
  - dict_cases; [eauto|]. apply (wf_self _ W).
  - intros p Hp. destruct (wf_probe _ W p Hp) as [H1 H2]. split; [done|].
    apply dict_set_in_keys. by right.
  - intros b [Hb|Hb]%elem_of_app.
    + apply list_elem_of_filter in Hb as [Hne Hb]. rewrite dict_get_set_ne by congruence. by apply (wf_fresh _ W).
    + apply list_elem_of_singleton in Hb as ->. cbn. rewrite Hid. apply dict_get_set_eq.
  - rewrite fmap_app. apply NoDup_app. split; [|split].
    + apply NoDup_filter_map, W.
    + intros x Hx ->%list_elem_of_singleton. apply list_elem_of_fmap in Hx as (b & Hb1 & Hb).
      apply list_elem_of_filter in Hb as [Hne _]. cbn in Hb1. congruence.
    + apply NoDup_singleton.
  - intros b [[_ Hb]%list_elem_of_filter|Hb]%elem_of_app.
    + pose proof (wf_seq _ W b Hb). lia.
    + apply list_elem_of_singleton in Hb as ->. cbn. lia.
  - rewrite fmap_app. apply NoDup_app. split; [|split].
    + apply NoDup_filter_map, W.
    + intros x Hx ->%list_elem_of_singleton. apply list_elem_of_fmap in Hx as (b & Hb1 & Hb).
      apply list_elem_of_filter in Hb as [_ Hb]. pose proof (wf_seq _ W b Hb). cbn in *. lia.
    + apply NoDup_singleton.
  - intros Hm sid' r Hg. dict_cases; [auto|]. by eapply (wf_model _ W).
Qed.

Lemma admits_model st r : admits st r = true -> local_model_id st <> "" -> model_id r = local_model_id st.
Proof. unfold admits. repeat case_decide; congruence. Qed.

Lemma set_self_incarnation_wf st n : wf st -> wf (set_self_incarnation n st).
Proof. intros []. by split. Qed.

(** The records other than the node's own are never the node's. *)
Lemma not_alive_not_self st sid r :
  wf st -> dict_get sid (members st) = Some r -> mstate r <> ALIVE -> sid <> self_id st.
Proof. intros W Hg Hn ->. destruct (wf_self _ W) as (r' & ? & ?). congruence. Qed.

Lemma swim_step_wf now st a st' : swim_step now st a st' -> wf st -> wf st'.
Proof.
  destruct 1 as [st r Ha Hj|st sid prev Hg Ha Hs|st sid r Hg Ha Hd|st sid prev inc Hg Hn Hi Hs
    |st prev inc Hg Hi|st d prev Ha Hs Hg Hn|st r Ha Hs Hg|st st' Hq]; intros W.
  - apply install_wf; eauto using admits_model.
  - apply install_wf; cbn; eauto using wf_model; congruence.
  - apply install_wf; cbn; eauto using wf_model. intros ->.
    by destruct (not_alive_not_self st (self_id st) r W Hg); [rewrite Ha|].
  - apply install_wf; cbn; eauto using wf_model. by eapply wf_ids.
  - apply install_wf; cbn; eauto using wf_model, set_self_incarnation_wf.
  - apply install_wf; cbn; eauto using admits_model. congruence.
  - apply install_wf; cbn; eauto using admits_model. congruence.
  - by eapply quiet_wf.
Qed.

Lemma runs_wf P now st st' : runs P now st st' -> wf st -> wf st'.
Proof. induction 1 as [|st1 st2 st3 (a & _ & Hs) _ IH]; eauto using swim_step_wf. Qed.

(** ** The transition log

    [replay] applies a list of transitions to a view, checking that each one
    starts from the state it says it starts from and concerns the shard it says
    it concerns. *)

Definition replay1 (d : dict string MemberRecord) (t : StateTransition)
    : option (dict string MemberRecord) :=
  if decide (mstate <$> dict_get (tr_shard_id t) d = old_state t /\
             shard_id (new_record t) = tr_shard_id t)
  then Some (dict_set (tr_shard_id t) (new_record t) d) else None.

Fixpoint replay (d : dict string MemberRecord) (ts : list StateTransition)
    : option (dict string MemberRecord) :=
  match ts with
  | [] => Some d
  | t :: ts => d' ← replay1 d t; replay d' ts
  end.

Lemma replay_app d ts1 ts2 : replay d (ts1 ++ ts2) = d' ← replay d ts1; replay d' ts2.
Proof.
  revert d; induction ts1 as [|t ts1 IH]; intros d; cbn; [done|].
  destruct (replay1 d t); cbn; auto.
Qed.

(** The log of [st'] is the log of [st] followed by transitions that lead from
    the view of [st] to the view of [st']. *)
Definition extends st st' : Prop :=
  exists ts, transitions st' = transitions st ++ ts /\ replay (members st) ts = Some (members st').

Lemma extends_refl st : extends st st.
Proof. exists []. by rewrite app_nil_r. Qed.

Lemma extends_trans st1 st2 st3 : extends st1 st2 -> extends st2 st3 -> extends st1 st3.
Proof.
  intros (ts1 & E1 & R1) (ts2 & E2 & R2). exists (ts1 ++ ts2).
  by rewrite E2, E1, <- app_assoc, replay_app, R1.
Qed.

Lemma install_extends sid old new now st :
  mstate <$> dict_get sid (members st) = old -> shard_id new = sid ->
  extends st (install sid old new now st).
Proof.
  intros Hold Hid. exists [mkTransition sid old new]. split; [done|].
  cbn. unfold replay1. cbn. by rewrite decide_True.
Qed.

Lemma swim_step_extends now st a st' : swim_step now st a st' -> wf st -> extends st st'.
Proof.
  destruct 1 as [st r Ha Hj|st sid prev Hg Ha Hs|st sid r Hg Ha Hd|st sid prev inc Hg Hn Hi Hs
    |st prev inc Hg Hi|st d prev Ha Hs Hg Hn|st r Ha Hs Hg|st st' Hq]; intros W;
    try (apply install_extends; [by rewrite ?Hg; cbn; rewrite ?Ha|done]).
  - apply install_extends; [by rewrite Hg|]. exact (wf_ids _ W _ _ Hg).
  - change (extends st) with (extends (set_self_incarnation inc st)).
    apply install_extends; [by cbn; rewrite Hg|done].
  - exists []. rewrite (q_transitions _ _ Hq), app_nil_r. split; [done|].
    cbn. by rewrite (q_members _ _ Hq).
Qed.

Lemma runs_extends P now st st' : runs P now st st' -> wf st -> extends st st'.
Proof.
  induction 1 as [|st1 st2 st3 (a & _ & Hs) _ IH]; intros W; [apply extends_refl|].
  eapply extends_trans; [by eapply swim_step_extends|]. apply IH. by eapply swim_step_wf.
Qed.

(** ** Incarnations never go backwards, except through a join *)

Definition no_join (a : act) : Prop :=
  match a with
  | AJoin _ => False
  | _ => True
  end.

Definition inc_le (d d' : dict string MemberRecord) : Prop :=
  forall sid r, dict_get sid d = Some r ->
    exists r', dict_get sid d' = Some r' /\ incarnation r <= incarnation r'.

#[export] Instance inc_le_preorder : PreOrder inc_le.
Proof.
  split.
  - intros d sid r Hg. exists r. split; [done|lia].
  - intros d1 d2 d3 H12 H23 sid r Hg.
    destruct (H12 _ _ Hg) as (r2 & Hg2 & ?). destruct (H23 _ _ Hg2) as (r3 & Hg3 & ?).
    exists r3. split; [done|lia].
Qed.

Lemma inc_le_set sid prev new (d : dict string MemberRecord) :
  dict_get sid d = Some prev -> incarnation prev <= incarnation new -> inc_le d (dict_set sid new d).
Proof.
  intros Hg Hi sid' r Hr. rewrite dict_get_set. case_decide; simplify_eq; [by exists new|].
  exists r. split; [done|lia].
Qed.

(** The node's own record carries its current incarnation. *)
Definition self_synced st : Prop :=
  forall r, dict_get (self_id st) (members st) = Some r -> incarnation r = self_incarnation st.

Lemma swim_step_synced now st a st' :
  swim_step now st a st' -> no_join a -> wf st -> self_synced st ->
  self_synced st' /\ self_incarnation st <= self_incarnation st' /\ inc_le (members st) (members st').
Proof.
  intros Hst Hj W Hs. unfold self_synced in *.
  destruct Hst as [st r Ha Hjn|st sid prev Hg Ha Hne|st sid r Hg Ha Hd|st sid prev inc Hg Hn Hi Hne
    |st prev inc Hg Hi|st d prev Ha Hne Hg Hn|st r Ha Hne Hg|st st' Hq]; [done|..];
    try (cbn; split; [intros r' Hr'; dict_cases; eauto|split; [lia|]]).
  - by eapply inc_le_set.
  - exfalso. pose proof (not_alive_not_self st (self_id st) r W Hg) as Hx. rewrite Ha in Hx. by apply Hx.
  - by eapply inc_le_set.
  - by eapply inc_le_set.
  - apply Hs in Hg as Hg'. eapply inc_le_set; [done|]. cbn. lia.
  - eapply inc_le_set; [done|]. cbn. destruct Hn; lia.
  - intros sid r0 Hr0. rewrite dict_get_set. case_decide; simplify_eq. exists r0. split; [done|lia].
  - rewrite (q_self _ _ Hq), (q_members _ _ Hq), (q_inc _ _ Hq). split; [done|]. split; [lia|done].
Qed.

Lemma runs_synced (P : act -> Prop) now st st' :
  (forall a, P a -> no_join a) -> runs P now st st' -> wf st -> self_synced st ->
  self_synced st' /\ self_incarnation st <= self_incarnation st' /\ inc_le (members st) (members st').
Proof.
  intros HP. induction 1 as [|st1 st2 st3 (a & Ha & Hs) _ IH]; intros W Hsy; [done|].
  destruct (swim_step_synced _ _ _ _ Hs (HP _ Ha) W Hsy) as (Hsy2 & Hle & Hm).
  destruct (IH (swim_step_wf _ _ _ _ Hs W) Hsy2) as (? & ? & ?).
  repeat split; [done|lia|by etrans].
Qed.

(** The identity and configuration of a node never change, and members are
    never removed. *)
Definition same_node st st' : Prop :=
  self_id st' = self_id st /\ cfg st' = cfg st /\ local_model_id st' = local_model_id st /\
  dict_keys (members st) ⊆ dict_keys (members st').

Lemma same_node_trans st1 st2 st3 : same_node st1 st2 -> same_node st2 st3 -> same_node st1 st3.
Proof. intros (? & ? & ? & ?) (? & ? & ? & ?). repeat split; [congruence..|by etrans]. Qed.

Lemma swim_step_same_node now st a st' : swim_step now st a st' -> same_node st st'.
Proof.
  destruct 1 as [| | | | | | |st st' Hq]; try (repeat split; cbn; intros x Hx; apply dict_set_in_keys; by right).
  unfold same_node. by rewrite (q_self _ _ Hq), (q_cfg _ _ Hq), (q_model _ _ Hq), (q_members _ _ Hq).
Qed.

Lemma runs_same_node P now st st' : runs P now st st' -> same_node st st'.
Proof.
  induction 1 as [|st1 st2 st3 (a & _ & Hs) _ IH]; [by repeat split|].
  eapply same_node_trans; [by eapply swim_step_same_node|done].
Qed.

End spec.
