(* ===== verification/SwimRefine.v ===== *)
(** * state.py refines the abstract protocol

    Every handler, from a state that satisfies the invariant, returns (no
    dictionary subscript fails) and is a run of the rules of [SwimSpec], using
    only the rules its event allows. *)
From S2P Require Import Prelude PyDict PyFloat PyList PyRandom Records SwimState SwimSpec.
Open Scope Z_scope.

Section refine.
Context {R : Type} `{RandomLaws R}.
Abbreviation State := (MembershipState R).
Implicit Types (st : State) (now : float) (P : act -> Prop).

(** [m] returns, and got there by rules of [P]. *)
Definition returns {A} P now st (m : result (A * State)) (Q : A -> State -> Prop) : Prop :=
  exists a st', m = Ok (a, st') /\ runs P now st st' /\ Q a st'.

Definition returns_state P now st (m : result State) (Q : State -> Prop) : Prop :=
  exists st', m = Ok st' /\ runs P now st st' /\ Q st'.

Lemma runs_one P now st a st' : P a -> swim_step now st a st' -> runs P now st st'.
Proof. intros Ha Hs. apply rtc_once. eauto. Qed.

Lemma runs_quiet P now st st' : P AQuiet -> quiet st st' -> runs P now st st'.
Proof. intros Ha Hq. eapply runs_one; [done|by constructor]. Qed.

Lemma runs_mono P P' now st st' : (forall a, P a -> P' a) -> runs P now st st' -> runs P' now st st'.
Proof.
  intros HP. induction 1 as [|? ? ? (a & Ha & Hs) _ IH]; [done|].
  eapply rtc_l; [|exact IH]. eauto.
Qed.

Lemma returns_bind {A B} P now st (m : result (A * State)) (k : A * State -> result (B * State)) Q Q' :
  wf st -> returns P now st m Q ->
  (forall a st', wf st' -> Q a st' -> returns P now st' (k (a, st')) Q') ->
  returns P now st (m ≫= k) Q'.
Proof.
  intros W (a & st1 & -> & H1 & HQ) Hk. cbn.
  destruct (Hk a st1 (runs_wf _ _ _ _ H1 W) HQ) as (b & st2 & -> & H2 & HQ').
  exists b, st2. split; [done|]. split; [by etrans|done].
Qed.

Lemma returns_bind_state {B} P now st (m : result State) (k : State -> result (B * State)) Q Q' :
  wf st -> returns_state P now st m Q ->
  (forall st', wf st' -> Q st' -> returns P now st' (k st') Q') ->
  returns P now st (m ≫= k) Q'.
Proof.
  intros W (st1 & -> & H1 & HQ) Hk. cbn.
  destruct (Hk st1 (runs_wf _ _ _ _ H1 W) HQ) as (b & st2 & -> & H2 & HQ').
  exists b, st2. split; [done|]. split; [by etrans|done].
Qed.

(** Continue from a state reached by a pure update. *)
Lemma returns_from {A} P now st st1 (m : result (A * State)) Q :
  runs P now st st1 -> returns P now st1 m Q -> returns P now st m Q.
Proof. intros H1 (a & st' & -> & H2 & HQ). exists a, st'. split; [done|]. split; [by etrans|done]. Qed.

Lemma returns_ret {A} P now st (a : A) (Q : A -> State -> Prop) :
  Q a st -> returns P now st (Ok (a, st)) Q.
Proof. intros HQ. exists a, st. repeat split; [apply rtc_refl|done]. Qed.

Lemma returns_state_ret P now st (Q : State -> Prop) : Q st -> returns_state P now st (Ok st) Q.
Proof. intros HQ. exists st. repeat split; [apply rtc_refl|done]. Qed.

Lemma returns_weaken {A} P now st (m : result (A * State)) (Q Q' : A -> State -> Prop) :
  returns P now st m Q -> (forall a st', Q a st' -> Q' a st') -> returns P now st m Q'.
Proof. intros (a & st' & ? & ? & ?) HQ. exists a, st'. eauto. Qed.

(** ** Quiet operations *)

Lemma core_bump (l : list BacklogEntry) : entry_core <$> (bump <$> l) = entry_core <$> l.
Proof. rewrite <- list_fmap_compose. by apply list_fmap_ext. Qed.

Lemma select_quiet st :
  wf st -> exists ds st', select_outgoing_deltas st = Ok (ds, st') /\ quiet st st' /\
    pending_probe st' = pending_probe st.
Proof.
  intros W. destruct (wf_self _ W) as (r & Hg & _). unfold select_outgoing_deltas.
  rewrite Hg. cbn. eexists _, _. split; [done|]. split; [|done].
  split; cbn; try done. apply Permutation_submseteq.
  rewrite fmap_app, core_bump, <- fmap_app, slice_drop.
  by rewrite sort_by_perm.
Qed.

Lemma select_returns P now st :
  wf st -> P AQuiet ->
  returns P now st (select_outgoing_deltas st) (fun _ st' => quiet st st' /\ pending_probe st' = pending_probe st).
Proof.
  intros W HP. destruct (select_quiet st W) as (ds & st' & E & Hq & Hp).
  exists ds, st'. eauto using runs_quiet.
Qed.

Lemma gc_quiet now st : quiet st (gc_backlog now st).
Proof.
  split; cbn; try done.
  apply fmap_submseteq, sublist_submseteq, sublist_filter.
Qed.

Lemma quiet_probe_None st : quiet st (set_pending_probe None st).
Proof. by split. Qed.

Lemma quiet_probe_Some st p :
  target_id p <> self_id st -> target_id p ∈ dict_keys (members st) ->
  quiet st (set_pending_probe (Some p) st).
Proof. intros H1 H2. split; cbn; try done. intros _ p' [= <-]. done. Qed.

Lemma answer_helps_returns P now due success hs st :
  wf st -> P AQuiet ->
  exists out rem st', answer_helps due success hs st = Ok (out, rem, st') /\ runs P now st st'.
Proof.
  intros W HP. revert st W. induction hs as [|h hs IH]; intros st W; cbn.
  { eexists _, _, st. split; [done|apply rtc_refl]. }
  destruct (due h).
  - destruct (select_quiet st W) as (ds & st1 & -> & Hq & _). cbn.
    destruct (IH st1 (quiet_wf _ _ Hq W)) as (out & rem & st2 & -> & Hr). cbn.
    eexists _, _, st2. split; [done|]. etrans; [by apply runs_quiet|done].
  - destruct (IH st W) as (out & rem & st2 & -> & Hr). cbn. by eexists _, _, st2.
Qed.

Lemma ping_helpers_returns P now p hs st :
  wf st -> P AQuiet ->
  returns P now st (ping_helpers p hs st) (fun _ st' => self_id st' = self_id st /\ members st' = members st).
Proof.
  intros W HP. revert st W. induction hs as [|h hs IH]; intros st W; cbn; [by apply returns_ret|].
  eapply returns_bind; [done|by apply select_returns|].
  intros ds st1 W1 [Hq _]. eapply returns_bind; [done|by apply IH|].
  intros out st2 W2 [E1 E2]. apply returns_ret. destruct Hq; split; congruence.
Qed.

(** ** Operations on the view *)

Lemma mark_suspect_returns P now sid st :
  wf st -> P (ASuspect sid) -> sid <> self_id st -> sid ∈ dict_keys (members st) ->
  returns_state P now st (mark_suspect sid now st) (fun _ => True).
Proof.
  intros W HP Hne [prev Hg]%dict_get_in. unfold mark_suspect. rewrite Hg. cbn.
  destruct (mstate prev) eqn:Em; [|by apply returns_state_ret..].
  eexists. split; [done|]. split; [|done]. eapply runs_one; [done|]. by constructor.
Qed.

Lemma promote_dead_runs P now l st :
  (forall sid, P (ADead sid)) -> NoDup l.*1 ->
  (forall sid r, (sid, r) ∈ l -> dict_get sid (members st) = Some r) ->
  runs P now st (foldl (promote_one now) st l).
Proof.
  intros HP. revert st. induction l as [|[sid r] l IH]; intros st Hn Hl; [apply rtc_refl|].
  apply NoDup_cons in Hn as [Hnin Hn]. cbn [foldl].
  assert (Hg : dict_get sid (members st) = Some r) by (apply Hl; left).
  unfold promote_one at 2. repeat case_decide; [|by apply IH; [|eauto using list_elem_of_further]].
  destruct (deadline_passed now r) eqn:Ed; [|by apply IH; [|eauto using list_elem_of_further]].
  eapply rtc_l; [exists (ADead sid); split; [done|by constructor]|].
  apply IH; [done|]. intros sid' r' Hin. cbn. rewrite dict_get_set_ne.
  - apply Hl. by right.
  - intros ->. apply Hnin. apply list_elem_of_fmap. by exists (sid, r').
Qed.

Lemma maybe_promote_dead_runs P now st :
  wf st -> (forall sid, P (ADead sid)) -> runs P now st (maybe_promote_dead now st).
Proof.
  intros W HP. apply promote_dead_runs; [done|apply (wf_keys _ W)|].
  intros sid r Hin. apply dict_in_get; [apply (wf_keys _ W)|done].
Qed.

Lemma promote_sender_runs P now sid inc st :
  wf st -> P (ARevive sid) -> runs P now st (maybe_promote_sender_alive sid inc now st).
Proof.
  intros W HP. unfold maybe_promote_sender_alive. case_decide; [apply rtc_refl|].
  destruct (dict_get sid (members st)) as [prev|] eqn:Hg; [|apply rtc_refl].
  case_decide; [apply rtc_refl|]. eapply runs_one; [done|]. constructor; [done..|lia|done].
Qed.

Lemma maybe_refute_returns P now d st :
  wf st -> P ARefute -> returns_state P now st (maybe_refute d now st) (fun _ => True).
Proof.
  intros W HP. unfold maybe_refute. case_decide; [by apply returns_state_ret|].
  case_match eqn:E; [by apply returns_state_ret|]. apply Z.ltb_ge in E.
  destruct (wf_self _ W) as (prev & Hg & _). cbn. rewrite Hg. cbn.
  eexists. split; [done|]. split; [|done]. eapply runs_one; [done|]. constructor; [done|lia].
Qed.

Lemma apply_peer_delta_returns P now d st :
  wf st -> P (AGossip d) -> shard_id d <> self_id st -> shard_id d ∈ dict_keys (members st) ->
  returns_state P now st (maybe_apply_peer_delta d now st) (fun _ => True).
Proof.
  intros W HP Hne [prev Hg]%dict_get_in. unfold maybe_apply_peer_delta.
  destruct (admits st d) eqn:Ha; cbn [negb]; [|by apply returns_state_ret].
  rewrite Hg. cbn.
  case_match eqn:E1; [by apply returns_state_ret|]. apply Z.ltb_ge in E1.
  case_match eqn:E2; [by apply returns_state_ret|].
  eexists. split; [done|]. split; [|done]. eapply runs_one; [done|]. constructor; try done.
  unfold newer. apply andb_false_iff in E2 as [E2%Z.eqb_neq|E2%Z.leb_gt]; lia.
Qed.

Lemma apply_delta_returns P now d st :
  wf st -> P ARefute -> P (AGossip d) -> returns_state P now st (apply_delta now st d) (fun _ => True).
Proof.
  intros W HP1 HP2. unfold apply_delta. case_decide; [by apply maybe_refute_returns|].
  destruct (dict_get _ _) eqn:Hg; [|by apply returns_state_ret].
  apply apply_peer_delta_returns; try done. apply dict_get_in. by rewrite Hg.
Qed.

Lemma install_delta_returns P now d st :
  wf st -> P ARefute -> P (AGossip d) -> P (ADiscover d) ->
  returns_state P now st (install_delta now st d) (fun _ => True).
Proof.
  intros W HP1 HP2 HP3. unfold install_delta. case_decide; [by apply maybe_refute_returns|].
  destruct (dict_get _ _) eqn:Hg.
  - apply apply_peer_delta_returns; try done. apply dict_get_in. by rewrite Hg.
  - destruct (admits st d) eqn:Ha; [|by apply returns_state_ret].
    eexists. split; [done|]. split; [|done]. eapply runs_one; [done|]. by constructor.
Qed.

(** A loop of operations that return returns. *)
Lemma foldM_returns P now (f : State -> MemberRecord -> result State) ds st :
  wf st ->
  (forall st d, d ∈ ds -> wf st -> returns_state P now st (f st d) (fun _ => True)) ->
  returns_state P now st (foldM f st ds) (fun _ => True).
Proof.
  intros W Hf. revert st W. induction ds as [|d ds IH]; intros st W; cbn; [by apply returns_state_ret|].
  destruct (Hf st d ltac:(left) W) as (st1 & -> & Hr & _). cbn.
  destruct (IH ltac:(intros; apply Hf; [by right|done]) st1 (runs_wf _ _ _ _ Hr W)) as (st2 & -> & Hr2 & _).
  exists st2. repeat split. by etrans.
Qed.

(** ** Probing *)

Lemma alive_peers_spec excluded st sid :
  wf st ->
  (sid ∈ alive_peers excluded st) <->
  (sid ∉ excluded) /\ exists r, dict_get sid (members st) = Some r /\ mstate r = ALIVE.
Proof.
  intros W. unfold alive_peers. rewrite list_elem_of_fmap. split.
  - intros (r & -> & [[Hne Ha] Hin]%list_elem_of_filter).
    apply dict_values_in in Hin as [k Hk]. apply dict_in_get in Hk; [|apply (wf_keys _ W)].
    rewrite (wf_ids _ W _ _ Hk). split; [by rewrite <- (wf_ids _ W _ _ Hk)|by exists r].
  - intros (Hne & r & Hg & Ha). exists r. rewrite (wf_ids _ W _ _ Hg). split; [done|].
    apply list_elem_of_filter. rewrite (wf_ids _ W _ _ Hg). split; [done|].
    apply dict_values_in. exists sid. by apply dict_get_Some_in.
Qed.

Lemma settle_returns P now st :
  wf st -> (forall sid, P (ASuspect sid)) ->
  returns_state P now st (settle_previous_probe now st) (fun _ => True).
Proof.
  intros W HP. unfold settle_previous_probe.
  destruct (pending_probe st) as [p|] eqn:Hp; [|by apply returns_state_ret].
  destruct (probe_expired p); [|by apply returns_state_ret].
  destruct (wf_probe _ W p Hp). by apply mark_suspect_returns.
Qed.

Lemma start_period_returns P now st :
  wf st -> (forall sid, P (ASuspect sid)) -> P AQuiet ->
  returns P now st (start_protocol_period now st) (fun _ _ => True).
Proof.
  intros W HP HQ. unfold start_protocol_period.
  eapply returns_bind_state; [done|by apply settle_returns|]. clear st W. intros st W _.
  eapply returns_from; [apply runs_quiet; [done|apply quiet_probe_None]|].
  pose proof (quiet_wf _ _ (quiet_probe_None st) W) as W1. cbn zeta.
  change (self_id (set_pending_probe None st)) with (self_id st).
  destruct (alive_peers [self_id st] (set_pending_probe None st)) as [|c cs] eqn:Ec.
  { eapply returns_from; [|by apply returns_ret]. apply runs_quiet; [done|by split]. }
  destruct (rng_choice_total (c :: cs) (rng (set_pending_probe None st))) as (t & r & Ht); [done|].
  rewrite Ht. cbn [mbind result_bind].
  pose proof (rng_choice_in _ _ _ _ Ht) as Hin. rewrite <- Ec in Hin.
  apply alive_peers_spec in Hin as (Hne & rec & Hg & _); [|done].
  match goal with |- context [select_outgoing_deltas ?s] => set (st2 := s) end.
  assert (Hq : quiet (set_pending_probe None st) st2).
  { split; cbn; try done. intros _ p [= <-]. cbn. split.
    - intros ->. apply Hne. left.
    - apply dict_get_in. by eexists. }
  eapply returns_from; [by apply runs_quiet|].
  eapply returns_bind; [by eapply quiet_wf|apply select_returns; [by eapply quiet_wf|done]|].
  intros ds st3 W3 _. by apply returns_ret.
Qed.

Lemma escalate_returns P now st :
  wf st -> (forall sid, P (ASuspect sid)) -> P AQuiet ->
  returns P now st (maybe_escalate_probe now st) (fun _ _ => True).
Proof.
  intros W HP HQ. unfold maybe_escalate_probe.
  destruct (pending_probe st) as [p|] eqn:Hp; [|by apply returns_ret].
  destruct (wf_probe _ W p Hp) as [Hne Hin].
  case_decide; [by apply returns_ret|]. case_match; [by apply returns_ret|].
  destruct (rng_shuffle _ _) as [sh r]. cbn zeta.
  assert (Hq : quiet st (set_rng r st)) by (split; cbn; try done; intros _; apply (wf_probe _ W)).
  eapply returns_from; [by apply runs_quiet|].
  assert (W1 : wf (set_rng r st)) by by eapply quiet_wf.
  eapply returns_bind; [done|by apply ping_helpers_returns|].
  intros out st2 W2 [E1 E2]. cbn in E1, E2.
  match goal with |- context [set_pending_probe (Some ?p') st2] => set (p2 := p') end.
  assert (Hq2 : quiet st2 (set_pending_probe (Some p2) st2)).
  { apply quiet_probe_Some; cbn; [by rewrite E1|by rewrite E2]. }
  eapply returns_from; [by apply runs_quiet|].
  pose proof (quiet_wf _ _ Hq2 W2) as W3. clearbody p2.
  match goal with |- context [match ?c with [] => _ | _ => _ end] => destruct c end;
    [|by apply returns_ret].
  eapply returns_bind_state; [done|apply mark_suspect_returns|]; cbn;
    [done..|by rewrite E1|by rewrite E2|].
  intros st4 W4 _. eapply returns_from; [|by apply returns_ret].
  apply runs_quiet; [done|apply quiet_probe_None].
Qed.

(** ** Events *)

(** The rules an event may use. *)
Definition allowed (e : event) (a : act) : Prop :=
  match a, e with
  | AQuiet, _ => True
  | (ASuspect _ | ADead _), Tick _ => True
  | ASuspect _, Recv (PingReqAck _) _ => True
  | ARevive sid, Recv (Ping m) _ => sid = ping_from m
  | ARevive sid, Recv (Ack m) _ => sid = ack_from m
  | ARefute, Recv (Ping _ | Ack _ | Delta _) _ => True
  | AGossip d, Recv (Ping m) _ => d ∈ ping_deltas m
  | AGossip d, Recv (Ack m) _ => d ∈ ack_deltas m
  | AGossip d, Recv (Delta m) _ => d ∈ delta_members m
  | ADiscover d, Recv (Delta m) _ => d ∈ delta_members m
  | AJoin r, Recv (Join m) _ => r = self_record m
  | _, _ => False
  end.

Definition event_time (e : event) : float :=
  match e with
  | Tick now => now
  | Recv _ now => now
  end.

Lemma helps_returns P now due success (st : State) :
  wf st -> P AQuiet ->
  returns P now st
    ('(out, rem, st) ← answer_helps due success (pending_helps st) st;
     Ok (out, set_pending_helps rem st)) (fun _ _ => True).
Proof.
  intros W HP.
  destruct (answer_helps_returns P now due success (pending_helps st) st W HP)
    as (out & rem & st' & -> & Hr). cbn.
  eapply returns_from; [exact Hr|]. eapply returns_from; [|by apply returns_ret].
  apply runs_quiet; [done|]. split; cbn; done.
Qed.

Lemma tick_returns now st :
  wf st -> returns (allowed (Tick now)) now st (tick now st) (fun _ _ => True).
Proof.
  intros W. unfold tick. cbn zeta.
  eapply returns_from; [apply runs_quiet; [done|apply gc_quiet]|].
  pose proof (quiet_wf _ _ (gc_quiet now st) W) as W1.
  eapply returns_bind; [done|by apply helps_returns|]. intros out1 st2 W2 _.
  assert (runs (allowed (Tick now)) now st2 (maybe_promote_dead now st2)) as Hd
    by by apply maybe_promote_dead_runs.
  eapply returns_from; [exact Hd|]. pose proof (runs_wf _ _ _ _ Hd W2) as W3.
  eapply returns_bind; [done| |].
  { instantiate (1 := fun _ _ => True). case_match; [by apply start_period_returns|by apply returns_ret]. }
  intros out3 st4 W4 _. eapply returns_bind; [done|by apply escalate_returns|].
  intros out4 st5 W5 _. by apply returns_ret.
Qed.

Lemma handle_join_returns m now st :
  wf st -> returns (allowed (Recv (Join m) now)) now st (handle_join m now st) (fun _ _ => True).
Proof.
  intros W. unfold handle_join. destruct (admits st (self_record m)) eqn:Ha; cbn [negb];
    [|by apply returns_ret]. cbn zeta.
  destruct (join_refused _ _) eqn:Ej; [by apply returns_ret|].
  eapply returns_from; [|by apply returns_ret].
  eapply (runs_one _ _ _ (AJoin (self_record m))); [done|by constructor].
Qed.

Lemma handle_delta_returns m now st :
  wf st -> returns (allowed (Recv (Delta m) now)) now st (handle_delta m now st) (fun _ _ => True).
Proof.
  intros W. unfold handle_delta. eapply returns_bind_state; [done|apply foldM_returns; [done|]|].
  - intros st1 d Hd W1. by apply install_delta_returns.
  - intros st1 W1 _. by apply returns_ret.
Qed.

Lemma handle_pingreqack_returns m now st :
  wf st ->
  returns (allowed (Recv (PingReqAck m) now)) now st (handle_pingreqack m now st) (fun _ _ => True).
Proof.
  intros W. unfold handle_pingreqack.
  destruct (pending_probe st) as [p|] eqn:Hp; [|by apply returns_ret].
  destruct (wf_probe _ W p Hp) as [Hne Hin].
  case_decide; [by apply returns_ret|].
  destruct (pra_success m).
  { eapply returns_from; [apply runs_quiet; [done|apply quiet_probe_None]|]. by apply returns_ret. }
  cbn zeta. case_match.
  - eapply returns_bind_state; [done|by apply mark_suspect_returns|].
    intros st1 W1 _. eapply returns_from; [apply runs_quiet; [done|apply quiet_probe_None]|].
    by apply returns_ret.
  - eapply returns_from; [|by apply returns_ret].
    apply runs_quiet; [done|]. by apply quiet_probe_Some.
Qed.

Lemma apply_deltas_returns P ds now st :
  wf st -> P ARefute -> (forall d, d ∈ ds -> P (AGossip d)) ->
  returns_state P now st (apply_deltas ds now st) (fun _ => True).
Proof.
  intros W H1 H2. apply foldM_returns; [done|]. intros st1 d Hd W1.
  apply apply_delta_returns; auto.
Qed.

Lemma handle_ping_returns m now st :
  wf st -> returns (allowed (Recv (Ping m) now)) now st (handle_ping m now st) (fun _ _ => True).
Proof.
  intros W. unfold handle_ping. case_match; [by apply returns_ret|]. cbn zeta.
  pose proof (promote_sender_runs (allowed (Recv (Ping m) now)) now (ping_from m)
    (ping_incarnation m) st W eq_refl) as Hr.
  eapply returns_from; [exact Hr|]. pose proof (runs_wf _ _ _ _ Hr W) as W1.
  eapply returns_bind_state; [done|by apply apply_deltas_returns|]. intros st2 W2 _.
  eapply returns_bind; [done|by apply select_returns|]. intros ds st3 W3 _. by apply returns_ret.
Qed.

Lemma handle_ack_returns m now st :
  wf st -> returns (allowed (Recv (Ack m) now)) now st (handle_ack m now st) (fun _ _ => True).
Proof.
  intros W. unfold handle_ack. cbn zeta.
  match goal with |- context [maybe_promote_sender_alive _ _ _ ?s] => set (st1 := s) end.
  assert (quiet st st1) as Hq.
  { unfold st1. destruct (pending_probe st); [|apply quiet_refl].
    case_decide; [apply quiet_probe_None|apply quiet_refl]. }
  eapply returns_from; [by apply runs_quiet|]. pose proof (quiet_wf _ _ Hq W) as W1.
  pose proof (promote_sender_runs (allowed (Recv (Ack m) now)) now (ack_from m)
    (ack_incarnation m) st1 W1 eq_refl) as Hr.
  eapply returns_from; [exact Hr|]. pose proof (runs_wf _ _ _ _ Hr W1) as W2.
  eapply returns_bind_state; [done|by apply apply_deltas_returns|]. intros st3 W3 _.
  by apply helps_returns.
Qed.

Lemma handle_pingreq_returns m now st :
  wf st -> returns (allowed (Recv (PingReq m) now)) now st (handle_pingreq m now st) (fun _ _ => True).
Proof.
  intros W. unfold handle_pingreq. case_match; [by apply returns_ret|]. cbn zeta.
  match goal with |- context [select_outgoing_deltas ?s] => set (st1 := s) end.
  assert (quiet st st1) as Hq by by split.
  eapply returns_from; [by apply runs_quiet|]. pose proof (quiet_wf _ _ Hq W) as W1.
  eapply returns_bind; [done|by apply select_returns|].
  intros ds st3 W3 _. by apply returns_ret.
Qed.

Lemma handle_returns e st :
  wf st -> returns (allowed e) (event_time e) st (handle e st) (fun _ _ => True).
Proof.
  intros W. destruct e as [now|[m|m|m|m|m|m] now];
    eauto using tick_returns, handle_ping_returns, handle_ack_returns, handle_pingreq_returns,
      handle_pingreqack_returns, handle_join_returns, handle_delta_returns.
Qed.

End refine.
