(* ===== verification/SwimGossip.v ===== *)
(** * Gossip as a join

    The incarnation and state a node records for a peer form a key; applying a
    delta takes the lexicographic maximum of the recorded key and the delta's.
    What a node believes about a peer is therefore a function of the set of
    deltas it has applied: order, duplication and batching do not matter. *)
From S2P Require Import Prelude PyDict PyFloat PyList PyRandom Records SwimState SwimSpec SwimRefine.
Open Scope Z_scope.

Definition key : Type := Z * Z.

Definition key_of (r : MemberRecord) : key := (incarnation r, state_int (mstate r)).

Definition key_lt (a b : key) : Prop := a.1 < b.1 \/ (a.1 = b.1 /\ a.2 < b.2).
Definition key_le (a b : key) : Prop := a.1 < b.1 \/ (a.1 = b.1 /\ a.2 <= b.2).

#[export] Instance key_lt_dec a b : Decision (key_lt a b).
Proof. unfold key_lt. apply _. Defined.

Definition key_max (a b : key) : key := if decide (key_lt a b) then b else a.

#[export] Instance key_le_preorder : PreOrder key_le.
Proof. split; unfold key_le; repeat intro; lia. Qed.

#[export] Instance key_le_antisym : AntiSymm (=) key_le.
Proof. intros [a1 a2] [b1 b2]. unfold key_le. cbn. intros. f_equal; lia. Qed.

Lemma key_max_l a b : key_le a (key_max a b).
Proof. unfold key_max, key_le. case_decide as Hd; unfold key_lt in Hd; lia. Qed.

Lemma key_max_r a b : key_le b (key_max a b).
Proof. unfold key_max, key_le. case_decide as Hd; unfold key_lt in Hd; lia. Qed.

Lemma key_max_in a b : key_max a b = a \/ key_max a b = b.
Proof. unfold key_max. case_decide; auto. Qed.

(** The maximum of a list of keys above a starting key. *)
Definition key_sup (k : key) (ks : list key) : key := foldl key_max k ks.

Lemma key_sup_spec k ks :
  (key_sup k ks = k \/ key_sup k ks ∈ ks) /\ key_le k (key_sup k ks) /\
  forall k', k' ∈ ks -> key_le k' (key_sup k ks).
Proof.
  unfold key_sup. revert k; induction ks as [|k1 ks IH]; intros k; cbn.
  { split; [by left|]. split; [done|]. intros k' Hk. inversion Hk. }
  destruct (IH (key_max k k1)) as (H1 & H2 & H3). split; [|split].
  - destruct H1 as [->|H1]; [|by right; right].
    destruct (key_max_in k k1) as [->| ->]; [by left|right; left].
  - etrans; [apply key_max_l|exact H2].
  - intros k' [->|Hk]%elem_of_cons; [|by apply H3]. etrans; [apply key_max_r|exact H2].
Qed.

(** It depends on the set of keys only. *)
Lemma key_sup_set k ks ks' : (forall x, x ∈ ks <-> x ∈ ks') -> key_sup k ks = key_sup k ks'.
Proof.
  intros Hset. destruct (key_sup_spec k ks) as (Hin & Hle & Hub).
  destruct (key_sup_spec k ks') as (Hin' & Hle' & Hub').
  apply (anti_symm key_le).
  - destruct Hin as [->|Hin]; [done|]. by apply Hub', Hset.
  - destruct Hin' as [->|Hin']; [done|]. by apply Hub, Hset.
Qed.

Section gossip.
Context {R : Type} `{RandomLaws R}.
Abbreviation State := (MembershipState R).
Implicit Types (st : State) (now : float).

(** What the node believes about [sid]. *)
Definition peer_key st (sid : string) : option key := key_of <$> dict_get sid (members st).

(** The keys of the admitted deltas about [sid]. *)
Definition keys_about st (sid : string) (ds : list MemberRecord) : list key :=
  key_of <$> filter (fun d => shard_id d = sid /\ admits st d = true) ds.

Lemma maybe_refute_other now d st st' sid :
  maybe_refute d now st = Ok st' -> sid <> self_id st -> peer_key st' sid = peer_key st sid.
Proof.
  unfold maybe_refute. intros Hr Hne. repeat case_decide; inv_ok; [done|].
  case_match; inv_ok; [done|]. unfold peer_key. cbn. by rewrite dict_get_set_ne.
Qed.

Lemma newer_key_lt r d : newer r d <-> key_lt (key_of r) (key_of d).
Proof. done. Qed.

(** One delta takes the maximum. *)
Lemma apply_delta_key now d st st' sid :
  apply_delta now st d = Ok st' -> sid <> self_id st ->
  peer_key st' sid = (fun k => key_sup k (keys_about st sid [d])) <$> peer_key st sid.
Proof.
  intros Ha Hne. unfold apply_delta in Ha.
  assert (Hid : peer_key st sid = (fun k => key_sup k []) <$> peer_key st sid)
    by (by destruct (peer_key st sid)).
  unfold keys_about. cbn. case_decide as E1.
  { rewrite decide_False by naive_solver. rewrite (maybe_refute_other _ _ _ _ _ Ha Hne). exact Hid. }
  destruct (dict_get (shard_id d) (members st)) as [prev|] eqn:Hg; inv_ok.
  - unfold maybe_apply_peer_delta in Ha.
    destruct (admits st d) eqn:Ea; cbn in Ha; [|inv_ok; by rewrite decide_False by naive_solver].
    rewrite Hg in Ha. cbn in Ha. case_decide as E2.
    + destruct E2 as [<- _]. unfold peer_key. rewrite Hg. cbn. unfold key_max.
      case_match eqn:L1; inv_ok.
      { rewrite Hg. cbn. rewrite decide_False; [done|]. unfold key_lt. cbn. lia. }
      case_match eqn:L2; inv_ok.
      { rewrite Hg. cbn. rewrite decide_False; [done|]. unfold key_lt. cbn. lia. }
      cbn. rewrite dict_get_set_eq. cbn. rewrite decide_True; [done|]. unfold key_lt. cbn. lia.
    + assert (shard_id d <> sid) by naive_solver. transitivity (peer_key st sid); [|exact Hid].
      repeat case_match; inv_ok; [done..|]. unfold peer_key. cbn. by rewrite dict_get_set_ne.
  - case_decide as E2; [|done]. destruct E2 as [<- _]. unfold peer_key. by rewrite Hg.
Qed.

Lemma same_node_admits st st' d : same_node st st' -> admits st' d = admits st d.
Proof. intros (_ & _ & E & _). unfold admits. by rewrite E. Qed.

Lemma apply_deltas_keys now ds st st' sid :
  wf st -> apply_deltas ds now st = Ok st' -> sid <> self_id st ->
  peer_key st' sid = (fun k => key_sup k (keys_about st sid ds)) <$> peer_key st sid.
Proof.
  unfold apply_deltas. revert st. induction ds as [|d ds IH]; intros st W Ha Hne; cbn in Ha.
  { inv_ok. by destruct (peer_key _ _). }
  apply bind_ok in Ha as (st1 & E1 & Ha).
  destruct (apply_delta_returns (fun _ => True) now d st W I I) as (st1' & E1' & Hr & _).
  rewrite E1 in E1'. injection E1' as <-. pose proof (runs_same_node _ _ _ _ Hr) as Hsame.
  rewrite (IH st1 (runs_wf _ _ _ _ Hr W) Ha) by (by rewrite (proj1 Hsame)).
  rewrite (apply_delta_key _ _ _ _ _ E1 Hne). destruct (peer_key st sid) as [k|]; [|done].
  cbn. f_equal. unfold keys_about.
  assert (forall l, filter (fun d => shard_id d = sid /\ admits st1 d = true) l =
                    filter (fun d => shard_id d = sid /\ admits st d = true) l) as ->.
  { intros l. apply list_filter_iff. intros x. by rewrite (same_node_admits st st1). }
  cbn. case_decide; cbn; done.
Qed.

End gossip.
