(* ===== verification/SwimProps.v ===== *)
(** * What the SWIM state machine guarantees

    The theorems about [MembershipState], for every state a node can reach from
    [__init__] by ticks and received messages: the handlers never fail and
    refine the abstract protocol, the view invariant and the admission contract
    hold, the transition log explains the view, incarnations are monotone,
    claims about the node itself are refuted, gossip converges, and silent
    peers are suspected and then declared dead exactly at their deadline. *)
From Stdlib Require Import Sorted.
From S2P Require Import Prelude PyDict PyFloat PyList PyRandom Records SwimState SwimSpec SwimRefine.
From S2P Require Import SwimGossip.
Open Scope Z_scope.

Section reach.
Context {R : Type} `{RandomLaws R}.
Abbreviation State := (MembershipState R).
Implicit Types (st : State) (now : float).

(** Handle a list of events, dropping the messages sent. *)
Definition exec (es : list event) st : result State :=
  foldM (fun st e => '(_, st') ← handle e st; Ok st') st es.

(** States of a node that was constructed and then handled events. *)
Definition reachable st : Prop :=
  exists self peers r c model inc es st0,
    init_state self peers r c model inc = Ok st0 /\ exec es st0 = Ok st.

(** ** The initial state *)

Lemma initial_members_spec self peers model inc :
  dict_wf (initial_members self peers model inc) /\
  (forall sid r, dict_get sid (initial_members self peers model inc) = Some r ->
     shard_id r = sid /\ mstate r = ALIVE /\ model_id r = model /\
     incarnation r = if decide (sid = ps_shard_id self) then inc else 0) /\
  ps_shard_id self ∈ dict_keys (initial_members self peers model inc).
Proof.
  unfold initial_members.
  set (f := fun d p => dict_set (ps_shard_id p) (initial_record (ps_shard_id self) inc model p) d).
  assert (Hgen : forall l d,
    dict_wf d /\ (forall sid r, dict_get sid d = Some r -> shard_id r = sid /\ mstate r = ALIVE /\
      model_id r = model /\ incarnation r = if decide (sid = ps_shard_id self) then inc else 0) ->
    dict_wf (foldl f d l) /\ (forall sid r, dict_get sid (foldl f d l) = Some r ->
      shard_id r = sid /\ mstate r = ALIVE /\
      model_id r = model /\ incarnation r = if decide (sid = ps_shard_id self) then inc else 0) /\
    dict_keys d ⊆ dict_keys (foldl f d l)).
  { intros l. induction l as [|p l IH]; intros d [Hw Hd]; [by split; [|split]|]. cbn.
    destruct (IH (f d p)) as (? & ? & Hsub).
    - split; [by apply dict_set_wf|]. unfold f. intros sid r Hg. dict_cases; [|by apply Hd]. done.
    - split; [done|]. split; [done|]. intros x Hx. apply Hsub. unfold f.
      apply dict_set_in_keys. by right. }
  cbn [foldl]. destruct (Hgen peers (f [] self)) as (H1 & H2 & H3).
  - split; [apply dict_set_wf; constructor|]. unfold f. intros sid r Hg. cbn in Hg.
    case_decide; simplify_eq.
    cbn. by rewrite decide_True.
  - split; [done|]. split; [done|]. apply H3. cbn. left.
Qed.

Lemma initial_members_known self peers model inc p :
  p ∈ self :: peers -> ps_shard_id p ∈ dict_keys (initial_members self peers model inc).
Proof.
  unfold initial_members. generalize (self :: peers) ([] : dict string MemberRecord). intros l.
  induction l as [|q l IH]; intros d Hp; [inversion Hp|]. cbn. apply elem_of_cons in Hp as [->|Hp]; [|by apply IH].
  clear IH. assert (ps_shard_id q ∈ dict_keys (dict_set (ps_shard_id q) (initial_record (ps_shard_id self) inc model q) d)) as Hq
    by (apply dict_set_in_keys; by left).
  revert Hq. generalize (dict_set (ps_shard_id q) (initial_record (ps_shard_id self) inc model q) d). clear d.
  induction l as [|x l IH]; intros d Hq; [done|]. cbn. apply IH, dict_set_in_keys. by right.
Qed.

Lemma enqueue_wf st r now :
  wf st -> dict_get (shard_id r) (members st) = Some r -> wf (enqueue_backlog r now st).
Proof.
  intros W Hg. destruct W as [W1 W2 W3 W4 W5 W6 W7 W8 W9]. split; cbn; try done.
  - intros b [[_ Hb]%list_elem_of_filter| ->%list_elem_of_singleton]%elem_of_app; [auto|done].
  - rewrite fmap_app. apply NoDup_app. split; [by apply NoDup_filter_map|]. split; [|apply NoDup_singleton].
    intros x Hx ->%list_elem_of_singleton. apply list_elem_of_fmap in Hx as (b & Hb1 & Hb).
    apply list_elem_of_filter in Hb as [Hne _]. cbn in Hb1. congruence.
  - intros b [[_ Hb]%list_elem_of_filter| ->%list_elem_of_singleton]%elem_of_app; [apply W7 in Hb; lia|].
    cbn. lia.
  - rewrite fmap_app. apply NoDup_app. split; [by apply NoDup_filter_map|]. split; [|apply NoDup_singleton].
    intros x Hx ->%list_elem_of_singleton. apply list_elem_of_fmap in Hx as (b & Hb1 & Hb).
    apply list_elem_of_filter in Hb as [_ Hb]. apply W7 in Hb. cbn in *. lia.
Qed.

Lemma init_wf self peers r c model inc :
  exists st0, init_state self peers r c model inc = Ok st0 /\ wf st0 /\ self_synced st0 /\
    transitions st0 = [] /\ members st0 = initial_members self peers model inc.
Proof.
  destruct (initial_members_spec self peers model inc) as (H1 & H2 & H3).
  unfold init_state. cbn zeta.
  match goal with |- context [dict_get _ (members ?s)] => set (st := s) end.
  assert (W : wf st).
  { split; try done; cbn.
    - intros sid x Hg. by apply H2.
    - apply dict_get_in in H3 as [x Hx]. exists x. split; [done|]. by apply (H2 _ _ Hx).
    - intros b Hb. inversion Hb.
    - apply NoDup_nil_2.
    - intros b Hb. inversion Hb.
    - apply NoDup_nil_2.
    - intros _ sid x Hg. by apply H2 in Hg as (_ & _ & -> & _). }
  assert (S : self_synced st).
  { intros x Hx. apply H2 in Hx as (_ & _ & _ & ->). cbn. by rewrite decide_True. }
  case_match; [|by exists st].
  apply dict_get_in in H3 as [x Hx]. change (dict_get (self_id st) (members st) = Some x) in Hx.
  rewrite Hx. cbn. eexists. split; [done|]. split; [|done].
  apply enqueue_wf; [done|]. by rewrite (wf_ids _ W _ _ Hx).
Qed.

Lemma handle_inv e st out st' :
  wf st -> handle e st = Ok (out, st') -> runs (allowed e) (event_time e) st st' /\ wf st'.
Proof.
  intros W E. destruct (handle_returns e st W) as (out1 & st1 & E1 & Hr & _).
  rewrite E in E1. injection E1 as <- <-. split; [done|by eapply runs_wf].
Qed.

Lemma exec_inv es st st' : wf st -> exec es st = Ok st' -> wf st' /\ extends st st'.
Proof.
  unfold exec. revert st. induction es as [|e es IH]; intros st W E; cbn in E.
  { injection E as <-. split; [done|apply extends_refl]. }
  destruct (handle e st) as [[out st1]|] eqn:Eh; [|done]. cbn in E.
  destruct (handle_inv _ _ _ _ W Eh) as [Hr W1]. destruct (IH st1 W1 E) as [W2 Hx].
  split; [done|]. eapply extends_trans; [by eapply runs_extends|done].
Qed.

Lemma reachable_wf st : reachable st -> wf st.
Proof.
  intros (self & peers & r & c & model & inc & es & st0 & E0 & E).
  destruct (init_wf self peers r c model inc) as (st1 & E1 & W & _). simplify_eq.
  rewrite E0 in E1. injection E1 as <-. by destruct (exec_inv _ _ _ W E).
Qed.

Lemma exec_app es1 es2 st : exec (es1 ++ es2) st = st1 ← exec es1 st; exec es2 st1.
Proof. apply foldM_app. Qed.

Lemma reachable_exec es st st' : reachable st -> exec es st = Ok st' -> reachable st'.
Proof.
  intros (self & peers & r & c & model & inc & es0 & st0 & E0 & E) E'.
  exists self, peers, r, c, model, inc, (es0 ++ es), st0. by rewrite exec_app, E.
Qed.

Lemma reachable_step e st out st' : reachable st -> handle e st = Ok (out, st') -> reachable st'.
Proof. intros Hr E. apply (reachable_exec [e] st); [done|]. unfold exec. cbn. by rewrite E. Qed.

(** ** The phases of a tick *)

(** What selecting deltas and answering helps leaves alone. *)
Definition frame st st' : Prop :=
  members st' = members st /\ pending_probe st' = pending_probe st /\
  next_period_at st' = next_period_at st /\ cfg st' = cfg st /\ self_id st' = self_id st.

Lemma frame_trans st1 st2 st3 : frame st1 st2 -> frame st2 st3 -> frame st1 st3.
Proof. unfold frame. intuition congruence. Qed.

Lemma select_frame st ds st' : select_outgoing_deltas st = Ok (ds, st') -> frame st st'.
Proof. unfold select_outgoing_deltas. intros E. inv_ok. by repeat split. Qed.

Lemma answer_helps_frame due success hs st out rem st' :
  answer_helps due success hs st = Ok (out, rem, st') -> frame st st'.
Proof.
  revert st out rem st'. induction hs as [|h hs IH]; intros st out rem st' E; cbn in E.
  { inv_ok. by repeat split. }
  destruct (due h).
  - apply bind_ok in E as ([ds st1] & E1 & E). apply bind_ok in E as ([[o1 r1] st2] & E2 & E).
    inv_ok. eapply frame_trans; [by eapply select_frame|eauto].
  - apply bind_ok in E as ([[o1 r1] st2] & E2 & E). inv_ok. eauto.
Qed.

(** Only suspicions and silent bookkeeping. *)
Definition suspicion (a : act) : Prop :=
  match a with
  | ASuspect _ | AQuiet => True
  | _ => False
  end.

Lemma suspicion_keeps now st st' sid r :
  runs suspicion now st st' -> dict_get sid (members st) = Some r -> mstate r <> ALIVE ->
  dict_get sid (members st') = Some r.
Proof.
  induction 1 as [|st1 st2 st3 (a & Ha & Hs) _ IH]; intros Hg Hn; [done|]. apply IH; [|done].
  destruct Hs as [| st1 sid' prev Hg' | | | | | | st1 st2 Hq]; try done.
  - cbn. rewrite dict_get_set_ne; [done|]. intros ->. congruence.
  - by rewrite (q_members _ _ Hq).
Qed.

Lemma tick_phases now st out st' :
  wf st -> tick now st = Ok (out, st') ->
  exists st1 st3,
    frame st st1 /\ wf st1 /\
    (exists o, (if fle (next_period_at st) now
                then start_protocol_period now (maybe_promote_dead now st1)
                else Ok ([], maybe_promote_dead now st1)) = Ok (o, st3)) /\
    runs suspicion now (maybe_promote_dead now st1) st3 /\ runs suspicion now st3 st'.
Proof.
  intros W E. unfold tick in E. cbn zeta in E.
  pose proof (quiet_wf _ _ (gc_quiet now st) W) as W0.
  apply bind_ok in E as ([o1 st1] & E1 & E). unfold maybe_timeout_helps in E1.
  apply bind_ok in E1 as ([[o1' rem] st1'] & E1 & E1').
  destruct (answer_helps_returns (fun _ => True) now (help_timed_out now (gc_backlog now st)) false
    (pending_helps (gc_backlog now st)) (gc_backlog now st) W0 I) as (? & ? & ? & E2 & Hr).
  rewrite E1 in E2. injection E2 as <- <- <-. injection E1' as <- <-.
  pose proof (answer_helps_frame _ _ _ _ _ _ _ E1) as Hf.
  assert (W1 : wf (set_pending_helps rem st1')).
  { eapply quiet_wf; [|exact (runs_wf _ _ _ _ Hr W0)]. by split. }
  assert (Hd : wf (maybe_promote_dead now (set_pending_helps rem st1'))).
  { eapply (runs_wf (fun _ => True) now); [|exact W1]. by apply maybe_promote_dead_runs. }
  apply bind_ok in E as ([o3 st3] & E3 & E). apply bind_ok in E as ([o4 st4] & E4 & E).
  injection E as <- <-.
  assert (Hn : next_period_at (maybe_promote_dead now (set_pending_helps rem st1')) = next_period_at st).
  { transitivity (next_period_at (set_pending_helps rem st1')); [|apply Hf].
    unfold maybe_promote_dead. generalize (members (set_pending_helps rem st1')).
    intros l. generalize (set_pending_helps rem st1'). clear. induction l as [|[sid r] l IH]; intros s; [done|].
    cbn. rewrite IH. repeat case_match; done. }
  rewrite Hn in E3.
  assert (Hr3 : runs suspicion now (maybe_promote_dead now (set_pending_helps rem st1')) st3).
  { case_match; [|injection E3 as <- <-; apply rtc_refl].
    destruct (start_period_returns suspicion now _ Hd) as (? & ? & E3' & Hr3 & _); [done..|].
    rewrite E3 in E3'. by injection E3' as <- <-. }
  exists (set_pending_helps rem st1'), st3. split; [exact Hf|]. split; [done|]. split; [by exists o3|].
  split; [done|].
  destruct (escalate_returns suspicion now st3) as (? & ? & E4' & Hr4 & _);
    [by eapply runs_wf|done..|]. rewrite E4 in E4'. by injection E4' as <- <-.
Qed.

(** The members after suspects past their deadline are promoted. *)
Lemma promote_dead_get now l st sid r :
  NoDup l.*1 -> (sid, r) ∈ l -> dict_get sid (members st) = Some r ->
  dict_get sid (members (foldl (promote_one now) st l)) =
  Some (if decide (mstate r = SUSPECT /\ deadline_passed now r = true) then dead_record now sid r else r).
Proof.
  assert (Hother : forall l st, sid ∉ l.*1 ->
    dict_get sid (members (foldl (promote_one now) st l)) = dict_get sid (members st)).
  { clear. intros l. induction l as [|[sid' r'] l IH]; intros st Hn; [done|]. cbn.
    apply not_elem_of_cons in Hn as [Hne Hn]. rewrite IH by done.
    repeat case_match; try done; cbn; by rewrite dict_get_set_ne. }
  revert st. induction l as [|[sid' r'] l IH]; intros st Hn Hin Hg; [inversion Hin|].
  apply NoDup_cons in Hn as [Hnin Hn]. apply elem_of_cons in Hin as [[= <- <-]|Hin].
  - cbn [foldl]. rewrite Hother by done. unfold promote_one.
    destruct (decide (mstate r = SUSPECT)); [|by rewrite decide_False by naive_solver].
    destruct (deadline_passed now r); [|by rewrite decide_False by naive_solver].
    rewrite decide_True by done. cbn. apply dict_get_set_eq.
  - cbn [foldl]. apply IH; [done..|]. unfold promote_one.
    assert (sid <> sid').
    { intros ->. apply Hnin, list_elem_of_fmap. by exists (sid', r). }
    repeat case_match; try done; cbn; by rewrite dict_get_set_ne.
Qed.

Lemma maybe_promote_dead_get now st sid r :
  wf st -> dict_get sid (members st) = Some r ->
  dict_get sid (members (maybe_promote_dead now st)) =
  Some (if decide (mstate r = SUSPECT /\ deadline_passed now r = true) then dead_record now sid r else r).
Proof.
  intros W Hg. apply promote_dead_get; [apply (wf_keys _ W)|by apply dict_get_Some_in|done].
Qed.

(** The promotions touch the members, the log and the backlog only. *)
Lemma maybe_promote_dead_keeps now st :
  cfg (maybe_promote_dead now st) = cfg st /\ pending_probe (maybe_promote_dead now st) = pending_probe st.
Proof.
  unfold maybe_promote_dead. generalize (members st). intros l. revert st.
  induction l as [|[sid r] l IH]; intros st; [done|]. cbn [foldl]. destruct (IH (promote_one now st (sid, r))) as [-> ->].
  unfold promote_one. by repeat case_match.
Qed.

Lemma mark_suspect_get sid now st st' prev : dict_get sid (members st) = Some prev -> mark_suspect sid now st = Ok st' ->
  dict_get sid (members st') = Some (if decide (mstate prev = ALIVE) then suspect_record now st prev sid else prev).
Proof.
  intros Hg. unfold mark_suspect. rewrite Hg. cbn [or_raise mbind result_bind].
  destruct (mstate prev); intros [= <-]; [apply dict_get_set_eq|exact Hg|exact Hg].
Qed.

Lemma mark_suspect_state sid now st st' :
  mark_suspect sid now st = Ok st' ->
  exists r, dict_get sid (members st') = Some r /\ mstate r <> ALIVE.
Proof.
  unfold mark_suspect. intros E. apply bind_ok in E as (prev & Hg%or_raise_ok & E).
  destruct (mstate prev) eqn:Em; injection E as <-; [|exists prev; by rewrite Em..].
  eexists. split; [apply dict_get_set_eq|done].
Qed.

(** ** Self-incarnation *)

Lemma swim_step_self_inc now (st : State) a st' :
  swim_step now st a st' -> self_incarnation st <= self_incarnation st'.
Proof. destruct 1; cbn; try lia. by destruct H1 as [_ -> _ _ _ _ _ _ _]. Qed.

Lemma runs_self_inc P now st st' : runs P now st st' -> self_incarnation st <= self_incarnation st'.
Proof. induction 1 as [|? ? ? (a & _ & Hs) _ IH]; [lia|]. apply swim_step_self_inc in Hs. lia. Qed.

Lemma apply_deltas_refutes now ds st st' d :
  wf st -> apply_deltas ds now st = Ok st' -> d ∈ ds -> shard_id d = self_id st -> mstate d <> ALIVE ->
  incarnation d < self_incarnation st'.
Proof.
  unfold apply_deltas. revert st. induction ds as [|d1 ds IH]; intros st W E Hin Hid Hn; [inversion Hin|].
  cbn in E. apply bind_ok in E as (st1 & E1 & E).
  destruct (apply_delta_returns (fun _ => True) now d1 st W I I) as (? & E1' & Hr & _).
  rewrite E1 in E1'. injection E1' as <-. pose proof (runs_wf _ _ _ _ Hr W) as W1.
  apply elem_of_cons in Hin as [->|Hin].
  - destruct (foldM_returns (fun _ => True) now (apply_delta now) ds st1 W1) as (? & E' & Hr' & _).
    { intros. by apply apply_delta_returns. }
    rewrite E in E'. injection E' as <-. apply runs_self_inc in Hr'.
    unfold apply_delta in E1. rewrite decide_True in E1 by done. unfold maybe_refute in E1.
    rewrite decide_False in E1 by done. case_match eqn:L; [injection E1 as <-; lia|].
    cbn zeta in E1. apply bind_ok in E1 as (prev & _ & E1). injection E1 as <-. cbn in Hr'. lia.
  - apply (IH st1); try done. rewrite Hid. symmetry. apply (runs_same_node _ _ _ _ Hr).
Qed.

(** The ack that answers a ping with a claim about the node. *)
Lemma ping_refuted m d now st out st' :
  wf st -> handle (Recv (Ping m) now) st = Ok (out, st') ->
  ping_from m ∈ dict_keys (members st) ->
  d ∈ ping_deltas m -> shard_id d = self_id st -> mstate d <> ALIVE ->
  exists r ds,
    out = [mkOut (ping_from m)
             (Ack (mkAck (self_id st) (self_incarnation st') (r :: ds) [] [] []))] /\
    shard_id r = self_id st /\ mstate r = ALIVE /\ incarnation d < self_incarnation st'.
Proof.
  intros W E Hfrom Hd Hid Hn. cbn in E. unfold handle_ping in E.
  apply dict_mem_spec in Hfrom. rewrite Hfrom in E. cbn [negb] in E. cbn zeta in E.
  set (st1 := maybe_promote_sender_alive (ping_from m) (ping_incarnation m) now st) in E.
  assert (Hr1 : runs (fun _ => True) now st st1) by by apply promote_sender_runs.
  pose proof (runs_wf _ _ _ _ Hr1 W) as W1. pose proof (runs_same_node _ _ _ _ Hr1) as Hs1.
  destruct (apply_deltas_returns (fun _ => True) (ping_deltas m) now st1 W1) as (st2 & E2 & Hr2 & _); [done..|].
  pose proof (runs_wf _ _ _ _ Hr2 W1) as W2. pose proof (runs_same_node _ _ _ _ Hr2) as Hs2.
  assert (Hinc : incarnation d < self_incarnation st2).
  { apply (apply_deltas_refutes now (ping_deltas m) st1 st2 d); try done.
    rewrite Hid. symmetry. apply Hs1. }
  rewrite E2 in E. cbn in E. destruct (wf_self _ W2) as (r & Hg & Ha).
  unfold select_outgoing_deltas in E. rewrite Hg in E. cbn in E. injection E as <- <-.
  assert (Hself : self_id st2 = self_id st) by (transitivity (self_id st1); [apply Hs2|apply Hs1]).
  exists r. eexists. rewrite <- Hself. split; [done|]. split; [exact (wf_ids _ W2 _ _ Hg)|].
  by split.
Qed.

End reach.
