(* ===== verification/SwimTheorems.v ===== *)
(** * The theorems about membership/state.py

    Stated over the reachable states of [SwimProps]; each theorem with a
    hypothesis is followed by a witness in a concrete cluster of three nodes
    "a", "b", "c" with model "gemma", started at incarnation 7. *)
From Stdlib Require Import Sorted.
From S2P Require Import Prelude PyDict PyFloat PyList PyRandom Records SwimState SwimSpec SwimRefine.
From S2P Require Import SwimGossip SwimProps.
Open Scope Z_scope.

(** ** A concrete cluster *)

Definition node_a : PeerSpec := mkPeer "a" "host-a" 5000.
Definition node_b : PeerSpec := mkPeer "b" "host-b" 5001.
Definition node_c : PeerSpec := mkPeer "c" "host-c" 5002.

Definition no_state : MembershipState script :=
  mkState "" 0 default_config [] "" [] [] [] f0 None 0 [] [] 0.

Definition cluster_a : MembershipState script := Eval vm_compute in
  ok_or no_state (init_state node_a [node_b; node_c] [] default_config "gemma" 7).
Definition cluster_c : MembershipState script := Eval vm_compute in
  ok_or no_state (init_state node_c [node_a; node_b] [] default_config "gemma" 7).

Lemma cluster_a_reachable : reachable cluster_a.
Proof. exists node_a, [node_b; node_c], [], default_config, "gemma", 7, [], cluster_a. by split. Qed.

Lemma cluster_c_reachable : reachable cluster_c.
Proof. exists node_c, [node_a; node_b], [], default_config, "gemma", 7, [], cluster_c. by split. Qed.

Definition sec (n : Z) : spec_float := of_int n.

(** A gossip record as decoded from the wire. *)
Definition gossip_about (sid : string) (s : MemberState) (inc : Z) (model : string) : MemberRecord :=
  mkMember sid "host" 1 s inc model f0 None.

(** "a" probes at 1 s, escalates at 1.6 s: the probe is in its indirect phase. *)
Definition probing_events : list event := [Tick (sec 1); Tick (flit 16 1)].
Definition probing_a : MembershipState script := Eval vm_compute in
  ok_or no_state (exec probing_events cluster_a).
(** A further period later the target is a suspect. *)
Definition suspecting_events : list event := [Tick (sec 3)].
Definition suspecting_a : MembershipState script := Eval vm_compute in
  ok_or no_state (exec suspecting_events probing_a).

Lemma probing_a_reachable : reachable probing_a.
Proof. by apply (reachable_exec probing_events cluster_a); [apply cluster_a_reachable|vm_compute]. Qed.

Lemma suspecting_a_reachable : reachable suspecting_a.
Proof. by apply (reachable_exec suspecting_events probing_a); [apply probing_a_reachable|vm_compute]. Qed.

Definition is_join (e : event) : bool :=
  match e with
  | Recv (Join _) _ => true
  | _ => false
  end.

Section theorems.
Context {R : Type} `{RandomLaws R}.
Abbreviation State := (MembershipState R).
Implicit Types (st : State) (now : float).

(** C2: from every reachable state, every event is handled without raising
    (no dictionary subscript of state.py can fail), the new state is reachable,
    and the change is a run of the abstract protocol that uses only the rules
    the event allows: a tick only suspects and declares dead, a ping or ack only
    revives its sender, refutes and gossips its deltas, and so on. *)
Theorem swim_handlers_refine_protocol st e :
  reachable st ->
  exists out st', handle e st = Ok (out, st') /\ runs (allowed e) (event_time e) st st' /\ reachable st'.
Proof.
  intros Hre. destruct (handle_returns e st (reachable_wf _ Hre)) as (out & st' & E & Hr & _).
  exists out, st'. split; [done|]. split; [done|]. by eapply reachable_step.
Qed.

(** C7: in every reachable state each member is stored once, under its own
    shard id; the node itself is a member and ALIVE; the outstanding probe
    targets another member; and every backlog entry, one per shard, is the
    record the view holds now, so gossip never spreads a superseded record. *)
Theorem swim_view_invariant st :
  reachable st ->
  dict_wf (members st) /\
  (forall sid r, dict_get sid (members st) = Some r -> shard_id r = sid) /\
  (exists r, dict_get (self_id st) (members st) = Some r /\ mstate r = ALIVE) /\
  (forall p, pending_probe st = Some p ->
     target_id p <> self_id st /\ target_id p ∈ dict_keys (members st)) /\
  (forall b, b ∈ backlog st -> dict_get (shard_id (record b)) (members st) = Some (record b)) /\
  NoDup ((fun b => shard_id (record b)) <$> backlog st).
Proof. intros []%reachable_wf. auto 10. Qed.

(** the admission contract. A node with a non-empty model id never holds a
    record with another model id, whatever it receives. *)
Theorem swim_admission st sid r :
  reachable st -> local_model_id st <> "" -> dict_get sid (members st) = Some r ->
  model_id r = local_model_id st.
Proof. intros W Hm Hg. exact (wf_model _ (reachable_wf _ W) Hm _ _ Hg). Qed.

Lemma entry_leb_total a b : entry_leb a b = true \/ entry_leb b a = true.
Proof. unfold entry_leb. lia. Qed.

Lemma entry_leb_trans a b c : entry_leb a b = true -> entry_leb b c = true -> entry_leb a c = true.
Proof. unfold entry_leb. lia. Qed.

(** the deltas of every outgoing message are the node's own ALIVE record
    followed by at most [k_gossip] backlog records, all current; the entries
    chosen are the least gossiped ones (oldest first among equals), and exactly
    their priorities are raised. *)
Theorem swim_outgoing_deltas st ds st' :
  reachable st -> 0 <= k_gossip (cfg st) -> select_outgoing_deltas st = Ok (ds, st') ->
  exists r sent rest,
    dict_get (self_id st) (members st) = Some r /\ mstate r = ALIVE /\
    ds = r :: (record <$> sent) /\ backlog st' = (bump <$> sent) ++ rest /\
    sent ++ rest ≡ₚ backlog st /\
    length sent = Nat.min (Z.to_nat (k_gossip (cfg st))) (length (backlog st)) /\
    (forall a b, a ∈ sent -> b ∈ rest -> entry_leb a b = true) /\
    (forall d, d ∈ ds -> dict_get (shard_id d) (members st) = Some d).
Proof.
  intros W%reachable_wf Hk E. unfold select_outgoing_deltas in E.
  destruct (wf_self _ W) as (r & Hg & Ha). rewrite Hg in E. injection E as <- <-.
  set (sorted := sort_by entry_leb (backlog st)). set (sent := slice_to (k_gossip (cfg st)) sorted).
  pose proof (sort_by_perm entry_leb (backlog st) : sorted ≡ₚ backlog st) as Hp.
  exists r, sent, (drop (length sent) sorted). repeat split; try done.
  - unfold sent. by rewrite slice_drop.
  - unfold sent, slice_to. rewrite (proj2 (Z.ltb_ge _ _)) by done.
    by rewrite length_take, Hp.
  - intros a b Ha' Hb. eapply (sorted_prefix (fun x y => entry_leb x y = true)); [|exact Ha'|exact Hb].
    unfold sent. rewrite slice_drop. apply sort_by_sorted; [apply entry_leb_total|apply entry_leb_trans].
  - intros d [->|Hd]%elem_of_cons; [by rewrite (wf_ids _ W _ _ Hg)|].
    apply list_elem_of_fmap in Hd as (b & -> & Hb). apply (wf_fresh _ W).
    rewrite <- Hp. eapply elem_of_submseteq; [exact Hb|].
    apply sublist_submseteq, slice_to_sublist.
Qed.

(** C27: the transition log explains the view. Replaying what [changes_since]
    returns for an earlier watermark, checking each transition's old state,
    turns the earlier view into the present one: an observer misses nothing. *)
Theorem swim_log_explains_view es st st' :
  reachable st -> exec es st = Ok st' ->
  replay (view st) (changes_since (transition_watermark st) st') = Some (view st').
Proof.
  intros W%reachable_wf E. destruct (exec_inv _ _ _ W E) as (_ & ts & Et & Hr).
  unfold changes_since, transition_watermark. by rewrite Et, drop_app_length.
Qed.

Lemma exec_synced es st st' :
  wf st -> self_synced st -> forallb (fun e => negb (is_join e)) es = true -> exec es st = Ok st' ->
  self_synced st' /\ self_incarnation st <= self_incarnation st' /\ inc_le (members st) (members st').
Proof.
  unfold exec. revert st. induction es as [|e es IH]; intros st W Hs Hj E; cbn in E, Hj.
  { by injection E as <-. }
  apply andb_prop in Hj as [Hj1 Hj]. destruct (handle e st) as [[out st1]|] eqn:Eh; [|done].
  cbn in E. destruct (handle_inv _ _ _ _ W Eh) as [Hr W1].
  destruct (runs_synced (allowed e) (event_time e) st st1) as (H1 & H2 & H3); [|done..|].
  { intros [] Ha; try done. by destruct e as [|[] ?]. }
  destruct (IH st1 W1 H1 Hj E) as (H4 & H5 & H6). repeat split; [done|lia|by etrans].
Qed.

(** without Join messages, incarnations are monotone: no member's recorded
    incarnation ever decreases, the node's own counter never decreases, and the
    node's own record always carries that counter. *)
Theorem swim_incarnations_monotone self peers r c model inc es es' st0 st st' :
  init_state self peers r c model inc = Ok st0 ->
  forallb (fun e => negb (is_join e)) (es ++ es') = true ->
  exec es st0 = Ok st -> exec es' st = Ok st' ->
  inc_le (view st) (view st') /\ self_incarnation st <= self_incarnation st' /\
  (forall r', dict_get (self_id st') (view st') = Some r' -> incarnation r' = self_incarnation st').
Proof.
  intros E0 Hj E E'. rewrite forallb_app in Hj. apply andb_prop in Hj as [Hj Hj'].
  destruct (init_wf self peers r c model inc) as (st0' & E0' & W0 & S0 & _).
  rewrite E0 in E0'. injection E0' as <-.
  destruct (exec_synced es st0 st W0 S0 Hj E) as (S1 & _ & _).
  destruct (exec_inv _ _ _ W0 E) as [W1 _].
  destruct (exec_synced es' st st' W1 S1 Hj' E') as (S2 & ? & ?). done.
Qed.

(** C28: refutation. When a ping from a known peer claims the node is suspect or
    dead, the node answers with an ack that carries an incarnation above the
    claim and starts with its own ALIVE record. *)
Theorem swim_refutes m d now st out st' :
  reachable st -> handle (Recv (Ping m) now) st = Ok (out, st') ->
  ping_from m ∈ dict_keys (members st) ->
  d ∈ ping_deltas m -> shard_id d = self_id st -> mstate d <> ALIVE ->
  exists r ds,
    out = [mkOut (ping_from m)
             (Ack (mkAck (self_id st) (self_incarnation st') (r :: ds) [] [] []))] /\
    shard_id r = self_id st /\ mstate r = ALIVE /\ incarnation d < self_incarnation st'.
Proof. intros W%reachable_wf. by apply ping_refuted. Qed.

(** C15: gossip converges. Two nodes of the same cluster model that believe the
    same about a peer and then apply the same set of deltas, in any order, with
    any duplication and at any times, again believe the same about it. *)
Theorem swim_gossip_converges (stA stB stA' stB' : State) dsA dsB nowA nowB sid :
  reachable stA -> reachable stB -> local_model_id stA = local_model_id stB ->
  sid <> self_id stA -> sid <> self_id stB ->
  peer_key stA sid = peer_key stB sid ->
  (forall d, d ∈ dsA <-> d ∈ dsB) ->
  apply_deltas dsA nowA stA = Ok stA' -> apply_deltas dsB nowB stB = Ok stB' ->
  peer_key stA' sid = peer_key stB' sid.
Proof.
  intros WA%reachable_wf WB%reachable_wf Hm HA HB Hk Hset EA EB.
  rewrite (apply_deltas_keys _ _ _ _ _ WA EA HA), (apply_deltas_keys _ _ _ _ _ WB EB HB), Hk.
  destruct (peer_key stB sid) as [k|]; [|done]. cbn. f_equal. apply key_sup_set.
  intros x. unfold keys_about. rewrite !list_elem_of_fmap. unfold admits. rewrite Hm.
  by setoid_rewrite list_elem_of_filter; setoid_rewrite Hset.
Qed.

(** What becomes of the record of a member whose probe went unanswered. *)
Definition silent_record now st (sid : string) (r : MemberRecord) : MemberRecord :=
  let becomes s deadline := mkMember sid (host r) (udp_port r) s (incarnation r) (model_id r) now deadline in
  match mstate r with
  | ALIVE => becomes SUSPECT (Some (fadd now (ms_to_s (t_suspect_ms (cfg st)))))
  | SUSPECT => if deadline_passed now r then becomes DEAD None else r
  | DEAD => r
  end.

(** C26: failure detection. When a protocol period ends and the outstanding
    probe, in its indirect phase, has had no positive answer, the tick makes its
    target SUSPECT, with the deadline of the configuration, if it was ALIVE; a
    target that was SUSPECT before stays so or is DEAD by its own deadline, and a
    DEAD one stays DEAD. *)
Theorem swim_silent_peer_suspected st p now out st' :
  reachable st -> pending_probe st = Some p -> probe_expired p = true ->
  fle (next_period_at st) now = true -> handle (Tick now) st = Ok (out, st') ->
  exists r, dict_get (target_id p) (members st) = Some r /\
    dict_get (target_id p) (members st') = Some (silent_record now st (target_id p) r).
Proof.
  intros W%reachable_wf Hp He Ht E. destruct (wf_probe _ W p Hp) as [_ [r Hr]%dict_get_in].
  exists r. split; [done|].
  destruct (tick_phases now st out st' W E) as (st1 & st3 & Hf & W1 & (o & E3) & _ & Hr4).
  rewrite Ht in E3. unfold start_protocol_period, settle_previous_probe in E3.
  destruct (maybe_promote_dead_keeps now st1) as [Hcfg Hpp].
  rewrite Hpp, (proj1 (proj2 Hf)), Hp, He in E3. apply bind_ok in E3 as (st2 & E2 & E3).
  rewrite <- (proj1 Hf) in Hr. pose proof (maybe_promote_dead_get now st1 _ r W1 Hr) as Hd.
  apply (mark_suspect_get _ _ _ _ _ Hd) in E2.
  assert (Hrec : dict_get (target_id p) (members st2) = Some (silent_record now st (target_id p) r)).
  { rewrite E2. f_equal. unfold silent_record. destruct (mstate r) eqn:Em; cbn [decide].
    - rewrite (decide_False (P := ALIVE = SUSPECT /\ _)) by naive_solver. rewrite Em, decide_True by done.
      unfold suspect_record. rewrite Hcfg. by rewrite (proj1 (proj2 (proj2 (proj2 Hf)))).
    - destruct (deadline_passed now r); [rewrite (decide_True (P := SUSPECT = SUSPECT /\ _)) by done; by rewrite decide_False|].
      rewrite (decide_False (P := SUSPECT = SUSPECT /\ _)) by naive_solver. by rewrite Em, decide_False.
    - rewrite (decide_False (P := DEAD = SUSPECT /\ _)) by naive_solver. by rewrite Em, decide_False. }
  eapply suspicion_keeps; [exact Hr4| |].
  - cbn zeta in E3. destruct (alive_peers _ _) in E3.
    + injection E3 as <- <-. exact Hrec.
    + apply bind_ok in E3 as ([t rg] & _ & E3). apply bind_ok in E3 as ([ds st5] & E5 & E3).
      injection E3 as <- <-. apply select_frame in E5. by rewrite (proj1 E5).
  - unfold silent_record. destruct (mstate r) eqn:Em; [done| |congruence]. destruct (deadline_passed now r); [done|congruence].
Qed.

(** C29: a suspect is declared dead by the first tick at or after its deadline,
    and by no earlier one. *)
Theorem swim_suspect_dead_at_deadline st sid r now out st' :
  reachable st -> dict_get sid (members st) = Some r -> mstate r = SUSPECT ->
  handle (Tick now) st = Ok (out, st') ->
  exists r', dict_get sid (members st') = Some r' /\ incarnation r' = incarnation r /\
    mstate r' = if deadline_passed now r then DEAD else SUSPECT.
Proof.
  intros W%reachable_wf Hg Hs E.
  destruct (tick_phases now st out st' W E) as (st1 & st3 & Hf & W1 & _ & Hr3 & Hr4).
  rewrite <- (proj1 Hf) in Hg. pose proof (maybe_promote_dead_get now st1 sid r W1 Hg) as Hd.
  destruct (deadline_passed now r) eqn:Ed.
  - rewrite decide_True in Hd by done. exists (dead_record now sid r). split; [|done].
    eapply suspicion_keeps; [exact Hr4| |done]. by eapply suspicion_keeps; [exact Hr3| |].
  - rewrite decide_False in Hd by naive_solver. exists r. split; [|done].
    assert (mstate r <> ALIVE) by congruence.
    eapply suspicion_keeps; [exact Hr4| |done]. by eapply suspicion_keeps; [exact Hr3| |].
Qed.

(** escalation. When the direct probe has timed out, the indirect probes go
    to pairwise distinct ALIVE members other than the node and the target, as
    many as [k_indirect] and the view allow; with no such member the target is
    suspected at once and the probe is closed. *)
Theorem swim_escalation st p now out st' :
  reachable st -> 0 <= k_indirect (cfg st) ->
  pending_probe st = Some p -> indirect_sent_at p = None ->
  flt now (fadd (sent_at p) (ms_to_s (t_timeout_ms (cfg st)))) = false ->
  maybe_escalate_probe now st = Ok (out, st') ->
  let candidates := alive_peers [self_id st; target_id p] st in
  NoDup (target_shard_id <$> out) /\
  length out = Nat.min (Z.to_nat (k_indirect (cfg st))) (length candidates) /\
  (forall h, h ∈ target_shard_id <$> out -> h ∈ candidates) /\
  (candidates = [] -> pending_probe st' = None /\
     exists r, dict_get (target_id p) (members st') = Some r /\ mstate r <> ALIVE) /\
  (out <> [] -> exists p', pending_probe st' = Some p' /\ indirect_sent_at p' = Some now /\
     indirect_targets p' = target_shard_id <$> out /\ probe_id p' = probe_id p).
Proof.
  intros W%reachable_wf Hk Hp Hi Ht E candidates. unfold maybe_escalate_probe in E.
  rewrite Hp, Hi in E. rewrite decide_False in E by (intros [? ?]; done). rewrite Ht in E.
  destruct (rng_shuffle (alive_peers [self_id st; target_id p] st) (rng st)) as [sh r] eqn:Es.
  assert (Hperm : sh ≡ₚ candidates) by (change sh with (sh, r).1; rewrite <- Es; apply rng_shuffle_perm).
  cbn zeta in E. apply bind_ok in E as ([out' st2] & E2 & E).
  assert (Hout : target_shard_id <$> out' = slice_to (k_indirect (cfg st)) sh).
  { change (cfg (set_rng r st)) with (cfg st) in E2. clear E. revert out' E2.
    generalize (set_rng r st). generalize (slice_to (k_indirect (cfg st)) sh). clear.
    intros hs. induction hs as [|h hs IH]; intros s out' E; cbn in E; [by injection E as <- <-|].
    apply bind_ok in E as ([ds s1] & _ & E). apply bind_ok in E as ([o s2] & E2 & E).
    injection E as <- <-. cbn. f_equal. by eapply IH. }
  change (cfg (set_rng r st)) with (cfg st) in E.
  assert (Hnd : NoDup candidates).
  { unfold candidates, alive_peers. apply NoDup_filter_map. unfold dict_values.
    rewrite <- list_fmap_compose.
    rewrite (list_fmap_ext _ fst); [apply (wf_keys _ W)|].
    intros i [k v] Hl. cbn. apply (wf_ids _ W). apply dict_in_get; [apply (wf_keys _ W)|].
    by eapply list_elem_of_lookup_2. }
  assert (Heq : out = out' /\
    (slice_to (k_indirect (cfg st)) sh = [] -> pending_probe st' = None /\
     exists r, dict_get (target_id p) (members st') = Some r /\ mstate r <> ALIVE) /\
    (slice_to (k_indirect (cfg st)) sh <> [] -> exists p', pending_probe st' = Some p' /\
      indirect_sent_at p' = Some now /\
      indirect_targets p' = slice_to (k_indirect (cfg st)) sh /\ probe_id p' = probe_id p)).
  { destruct (slice_to (k_indirect (cfg st)) sh) as [|c cs].
    - apply bind_ok in E as (st3 & E3 & E). injection E as <- <-. split; [done|].
      split; [intros _; split; [done|]|done]. by apply mark_suspect_state in E3.
    - injection E as <- <-. split; [done|]. split; [done|]. intros _. by eexists. }
  destruct Heq as (-> & Hnil & Hcons). rewrite Hout.
  pose proof (slice_to_sublist (k_indirect (cfg st)) sh) as Hsub.
  split; [|split; [|split; [|split]]].
  - eapply sublist_NoDup; [|exact Hsub]. by rewrite Hperm.
  - rewrite <- (length_fmap target_shard_id out'), Hout. unfold slice_to.
    rewrite (proj2 (Z.ltb_ge _ _)) by done. by rewrite length_take, Hperm.
  - intros h Hh. rewrite <- Hperm. eapply elem_of_submseteq; [exact Hh|]. by apply sublist_submseteq.
  - intros Hc. apply Hnil. rewrite Hc in Hperm. apply Permutation_nil_r in Hperm as ->.
    unfold slice_to. by destruct (_ <? 0); rewrite take_nil.
  - intros Hne. apply Hcons. rewrite <- Hout. by destruct out'.
Qed.

(** ** Where the code departs from its documentation *)

(** a record discovered through a bulk reply keeps the deadline it came
    with, and records decoded from the wire have none: a peer discovered as
    SUSPECT is never promoted to DEAD by any number of ticks, although
    [suspect_deadline] is documented as set exactly when the state is SUSPECT. *)
Theorem swim_discovered_suspect_never_dies st d now ts out st1 st' :
  reachable st -> dict_get (shard_id d) (members st) = None -> shard_id d <> self_id st ->
  admits st d = true -> mstate d = SUSPECT -> suspect_deadline d = None ->
  handle (Recv (Delta (mkDelta [d])) now) st = Ok (out, st1) ->
  exec (Tick <$> ts) st1 = Ok st' ->
  dict_get (shard_id d) (members st') = Some d.
Proof.
  intros Hre Hg Hne Ha Hs Hd E. pose proof (reachable_step _ _ _ _ Hre E) as Hre1.
  assert (Hg1 : dict_get (shard_id d) (members st1) = Some d).
  { cbn in E. unfold handle_delta in E. cbn in E. unfold install_delta in E.
    rewrite decide_False, Hg, Ha in E by done. cbn in E. injection E as <- <-.
    apply dict_get_set_eq. }
  clear E Hg Hre out. revert st1 Hre1 Hg1. unfold exec.
  induction ts as [|t ts IH]; intros st1 Hre1 Hg1 E; cbn in E; [by injection E as <-|].
  apply bind_ok in E as (st2 & E2 & E). apply bind_ok in E2 as ([out st2'] & E2 & E2').
  injection E2' as <-. eapply IH; [| |exact E].
  { by eapply (reachable_step (Tick t)). }
  destruct (tick_phases t st1 out st2' (reachable_wf _ Hre1) E2) as (sa & sb & Hf & Wa & _ & Hr3 & Hr4).
  rewrite <- (proj1 Hf) in Hg1. pose proof (maybe_promote_dead_get t sa _ _ Wa Hg1) as Hd2.
  rewrite decide_False in Hd2 by (unfold deadline_passed; rewrite Hd; naive_solver).
  assert (mstate d <> ALIVE) by congruence.
  eapply suspicion_keeps; [exact Hr4| |done]. by eapply suspicion_keeps; [exact Hr3| |].
Qed.

(** a Join overwrites the record of a member that is not DEAD, whatever its
    incarnation: the recorded incarnation can go backwards, and a Join that
    names the receiver itself separates its own record from its counter. *)
Theorem swim_join_overwrites m now st prev :
  reachable st -> admits st (self_record m) = true ->
  dict_get (shard_id (self_record m)) (members st) = Some prev -> mstate prev <> DEAD ->
  exists out st', handle (Recv (Join m) now) st = Ok (out, st') /\
    self_incarnation st' = self_incarnation st /\
    exists r, dict_get (shard_id (self_record m)) (members st') = Some r /\ mstate r = ALIVE /\
      incarnation r = incarnation (self_record m).
Proof.
  intros _ Ha Hg Hn. cbn. unfold handle_join. rewrite Ha, Hg. cbn [negb join_refused].
  rewrite bool_decide_eq_false_2 by done. cbn [andb].
  eexists _, _. split; [done|]. split; [done|]. eexists. split; [apply dict_get_set_eq|done].
Qed.

End theorems.

(** ** Witnesses

    Each theorem is applied to the nodes of the concrete cluster, with every
    hypothesis evaluated there. *)

Abbreviation Node := (MembershipState script).

Definition ran (m : result (list OutgoingMessage * Node)) : list OutgoingMessage * Node :=
  ok_or ([], no_state) m.

Lemma ran_ok m : is_ok m = true -> m = Ok ((ran m).1, (ran m).2).
Proof. by destruct m as [[]|]. Qed.

Definition probe_of_a : PendingProbe :=
  mkProbe "a:1" "b" (sec 1) (Some (flit 16 1)) ["c"] 0 false.
Definition a_after_probe : Node := Eval vm_compute in
  ok_or no_state (exec [Tick (sec 1)] cluster_a).
Definition direct_probe_of_a : PendingProbe := mkProbe "a:1" "b" (sec 1) None [] 0 false.

Lemma a_after_probe_reachable : reachable a_after_probe.
Proof. by apply (reachable_exec [Tick (sec 1)] cluster_a); [apply cluster_a_reachable|vm_compute]. Qed.

Definition b_is_dead : MemberRecord := gossip_about "b" DEAD 2 "gemma".
Definition c_is_suspect : MemberRecord := gossip_about "c" SUSPECT 1 "gemma".
Definition a_is_suspect : MemberRecord := gossip_about "a" SUSPECT 7 "gemma".
Definition d_is_suspect : MemberRecord := gossip_about "d" SUSPECT 1 "gemma".
Definition slander : PingMsg := mkPing "b" 0 [a_is_suspect] [] [] [].

Lemma swim_handlers_refine_protocol_witness :
  exists out st', handle (Tick (sec 3)) probing_a = Ok (out, st') /\
    runs (allowed (Tick (sec 3))) (sec 3) probing_a st' /\ reachable st'.
Proof. exact (swim_handlers_refine_protocol probing_a (Tick (sec 3)) probing_a_reachable). Defined.

Lemma swim_view_invariant_witness :
  dict_wf (members suspecting_a) /\
  NoDup ((fun b => shard_id (record b)) <$> backlog suspecting_a).
Proof.
  destruct (swim_view_invariant suspecting_a suspecting_a_reachable) as (H1 & _ & _ & _ & _ & H2).
  split; assumption.
Defined.

Lemma swim_admission_witness :
  exists r, dict_get "b" (members suspecting_a) = Some r /\ model_id r = "gemma".
Proof.
  destruct (dict_get "b" (members suspecting_a)) as [r|] eqn:E; [|discriminate E].
  exists r. split; [reflexivity|].
  exact (swim_admission suspecting_a "b" r suspecting_a_reachable ltac:(discriminate) E).
Defined.

Lemma swim_outgoing_deltas_witness :
  let out := ok_or ([], no_state) (select_outgoing_deltas suspecting_a) in
  exists r sent, dict_get "a" (members suspecting_a) = Some r /\ out.1 = r :: (record <$> sent).
Proof.
  destruct (swim_outgoing_deltas suspecting_a
    (ok_or ([], no_state) (select_outgoing_deltas suspecting_a)).1
    (ok_or ([], no_state) (select_outgoing_deltas suspecting_a)).2) as (r & sent & rest & H1 & _ & H2 & _).
  - exact suspecting_a_reachable.
  - discriminate.
  - vm_compute. reflexivity.
  - exists r, sent. split; [exact H1|exact H2].
Defined.

Lemma swim_log_explains_view_witness :
  replay (view probing_a) (changes_since (transition_watermark probing_a) suspecting_a)
  = Some (view suspecting_a).
Proof.
  apply (swim_log_explains_view suspecting_events); [exact probing_a_reachable|].
  vm_compute. reflexivity.
Defined.

Lemma swim_incarnations_monotone_witness :
  inc_le (view probing_a) (view suspecting_a).
Proof.
  refine (proj1 (swim_incarnations_monotone node_a [node_b; node_c] [] default_config "gemma" 7
    probing_events suspecting_events cluster_a probing_a suspecting_a _ _ _ _));
    vm_compute; reflexivity.
Defined.

Lemma swim_refutes_witness :
  let out := (ran (handle (Recv (Ping slander) (sec 2)) cluster_a)).1 in
  exists n r ds, out = [mkOut "b" (Ack (mkAck "a" n (r :: ds) [] [] []))] /\ 7 < n.
Proof.
  destruct (swim_refutes slander a_is_suspect (sec 2) cluster_a
    (ran (handle (Recv (Ping slander) (sec 2)) cluster_a)).1
    (ran (handle (Recv (Ping slander) (sec 2)) cluster_a)).2) as (r & ds & H1 & _ & _ & H2).
  - exact cluster_a_reachable.
  - vm_compute. reflexivity.
  - vm_compute. right. left.
  - left.
  - reflexivity.
  - discriminate.
  - eexists _, r, ds. split; [exact H1|exact H2].
Defined.

Lemma swim_gossip_converges_witness :
  peer_key (ok_or no_state (apply_deltas [b_is_dead; c_is_suspect] (sec 2) cluster_a)) "b"
  = peer_key (ok_or no_state (apply_deltas [c_is_suspect; b_is_dead; b_is_dead] (sec 5) cluster_c)) "b".
Proof.
  apply (swim_gossip_converges cluster_a cluster_c _ _ [b_is_dead; c_is_suspect]
    [c_is_suspect; b_is_dead; b_is_dead] (sec 2) (sec 5)).
  - exact cluster_a_reachable.
  - exact cluster_c_reachable.
  - reflexivity.
  - discriminate.
  - discriminate.
  - vm_compute. reflexivity.
  - intros d. rewrite !elem_of_cons. tauto.
  - vm_compute. reflexivity.
  - vm_compute. reflexivity.
Defined.

Lemma swim_silent_peer_suspected_witness :
  exists r, dict_get "b" (members (ran (handle (Tick (sec 3)) probing_a)).2) = Some r /\ mstate r = SUSPECT.
Proof.
  destruct (swim_silent_peer_suspected probing_a probe_of_a (sec 3)
    (ran (handle (Tick (sec 3)) probing_a)).1 (ran (handle (Tick (sec 3)) probing_a)).2) as (r & Hr & Hs).
  - exact probing_a_reachable.
  - vm_compute. reflexivity.
  - vm_compute. reflexivity.
  - vm_compute. reflexivity.
  - vm_compute. reflexivity.
  - eexists. split; [exact Hs|]. vm_compute in Hr. injection Hr as <-. vm_compute. reflexivity.
Defined.

Lemma swim_suspect_dead_at_deadline_witness :
  exists r, dict_get "b" (members (ran (handle (Tick (sec 7)) suspecting_a)).2) = Some r /\
    mstate r = DEAD.
Proof.
  destruct (dict_get "b" (members suspecting_a)) as [r|] eqn:E; [|discriminate E].
  destruct (swim_suspect_dead_at_deadline suspecting_a "b" r (sec 7)
    (ran (handle (Tick (sec 7)) suspecting_a)).1 (ran (handle (Tick (sec 7)) suspecting_a)).2)
    as (r' & H1 & _ & H2).
  - exact suspecting_a_reachable.
  - exact E.
  - injection E as <-. reflexivity.
  - vm_compute. reflexivity.
  - exists r'. split; [exact H1|]. rewrite H2. injection E as <-. vm_compute. reflexivity.
Defined.

Lemma swim_escalation_witness :
  target_shard_id <$> (ran (maybe_escalate_probe (flit 16 1) a_after_probe)).1 ⊆ ["c"] /\
  NoDup (target_shard_id <$> (ran (maybe_escalate_probe (flit 16 1) a_after_probe)).1).
Proof.
  destruct (swim_escalation a_after_probe direct_probe_of_a (flit 16 1)
    (ran (maybe_escalate_probe (flit 16 1) a_after_probe)).1
    (ran (maybe_escalate_probe (flit 16 1) a_after_probe)).2) as (H1 & _ & H2 & _).
  - exact a_after_probe_reachable.
  - discriminate.
  - vm_compute. reflexivity.
  - reflexivity.
  - vm_compute. reflexivity.
  - vm_compute. reflexivity.
  - split; [intros h Hh; exact (H2 h Hh)|exact H1].
Defined.

Lemma swim_discovered_suspect_never_dies_witness :
  let st1 := (ran (handle (Recv (Delta (mkDelta [d_is_suspect])) (sec 2)) cluster_a)).2 in
  dict_get "d" (members (ok_or no_state (exec (Tick <$> [sec 3; sec 100; sec 10000]) st1)))
  = Some d_is_suspect.
Proof.
  apply (swim_discovered_suspect_never_dies cluster_a d_is_suspect (sec 2)
    [sec 3; sec 100; sec 10000]
    (ran (handle (Recv (Delta (mkDelta [d_is_suspect])) (sec 2)) cluster_a)).1
    (ran (handle (Recv (Delta (mkDelta [d_is_suspect])) (sec 2)) cluster_a)).2);
    [exact cluster_a_reachable|vm_compute; reflexivity|discriminate|..];
    vm_compute; reflexivity.
Defined.

(** A Join that names the receiver, with a lower incarnation. *)
Lemma swim_join_overwrites_witness :
  exists out st', handle (Recv (Join (mkJoin (gossip_about "a" ALIVE 3 "gemma"))) (sec 2)) cluster_a
      = Ok (out, st') /\ self_incarnation st' = 7 /\
    exists r, dict_get "a" (members st') = Some r /\ mstate r = ALIVE /\ incarnation r = 3.
Proof.
  destruct (dict_get "a" (members cluster_a)) as [prev|] eqn:E; [|discriminate E].
  apply (swim_join_overwrites (mkJoin (gossip_about "a" ALIVE 3 "gemma")) (sec 2) cluster_a prev).
  - exact cluster_a_reachable.
  - reflexivity.
  - exact E.
  - injection E as <-. discriminate.
Defined.
