(* ===== verification/Wire.v ===== *)
(** * The wire schema (proto/wire.proto)

    The messages of the schema as records, field by field, and the ranges of
    their integer fields.  The Python protobuf library is not part of the
    repository: [Protobuf] is the interface the code uses, assigning an
    integer out of its field's range raises ValueError ([u32], [u64], [i64]),
    and [ProtobufLaws] is the documented behaviour the theorems rely on.
    [WireCodec] gives an instance. *)
From Stdlib Require Export Strings.Byte.
From S2P Require Import Prelude PyFloat.
Open Scope Z_scope.

Abbreviation bytes := (list Byte.byte).

(** ** Integer fields *)

Definition in_u32 (n : Z) : bool := (0 <=? n) && (n <? 2 ^ 32).
Definition in_u64 (n : Z) : bool := (0 <=? n) && (n <? 2 ^ 64).
Definition in_i64 (n : Z) : bool := (- 2 ^ 63 <=? n) && (n <? 2 ^ 63).

(** [pb.field = n]: ValueError outside the field's range. *)
Definition ranged (ok : Z -> bool) (n : Z) : result Z := if ok n then Ok n else Raise ValueError.
Definition u32 : Z -> result Z := ranged in_u32.
Definition u64 : Z -> result Z := ranged in_u64.
Definition i64 : Z -> result Z := ranged in_i64.

Lemma ranged_ok ok n m : ranged ok n = Ok m <-> m = n /\ ok n = true.
Proof. unfold ranged. destruct (ok n); naive_solver. Qed.

(** ** Membership messages *)

Record MemberRecordPb : Type := mkMemberPb {
  mp_shard_id : string; mp_host : string; mp_udp_port : Z; mp_state : Z;
  mp_incarnation : Z; mp_model_id : string;
}.
Record LoadReport : Type := mkLoadPb { lp_shard_id : string; lp_queue_depth_ema : Z; lp_ts : Z }.
Record ExpertHeatEntry : Type := mkHeatEntry { he_layer : Z; he_expert : Z; he_ema : Z }.
Record ExpertHeatReport : Type := mkHeatPb {
  hp_shard_id : string; hp_entries : list ExpertHeatEntry; hp_ts : Z;
}.
Record OwnershipDelta : Type := mkOwnPb {
  op_shard_id : string; op_layer : Z; op_expert : Z; op_action : Z; op_ts : Z;
}.

(** The repeated fields the four ping-family messages share. *)
Record Piggyback : Type := mkPiggyback {
  pg_deltas : list MemberRecordPb; pg_loads : list LoadReport;
  pg_heat : list ExpertHeatReport; pg_ownership : list OwnershipDelta;
}.

(** Ping and Ack have the same fields, and so do PingReq and PingReqAck up to
    [success]. *)
Record PingPb : Type := mkPingPb {
  pp_version : Z; pp_from : string; pp_incarnation : Z; pp_piggyback : Piggyback;
}.
Record PingReqPb : Type := mkPingReqPb {
  pq_version : Z; pq_from : string; pq_target : string; pq_probe_id : string;
  pq_success : bool; pq_piggyback : Piggyback;
}.
Record JoinPb : Type := mkJoinPb { jp_version : Z; jp_self_record : MemberRecordPb }.
Record MembershipDeltaPb : Type := mkDeltaPb { dp_version : Z; dp_members : list MemberRecordPb }.

(** ** Activation-plane messages *)

Record TensorDescriptor : Type := mkTensor {
  td_shape : list Z; td_dtype : Z; td_quant : Z; td_byte_count : Z;
}.
Record OpDescriptorPb : Type := mkOpPb { opp_op_type : Z; opp_layer_idx : Z; opp_expert_id : Z }.
Record ProvenanceEntryPb : Type := mkProvPb {
  pe_hash : bytes; pe_parents : list bytes; pe_node_id : string; pe_op : option OpDescriptorPb;
  pe_timestamp : float;
}.
Record BeginRequest : Type := mkBegin {
  br_version : Z; br_request_id : string; br_sequence_id : string; br_prompt : list Z;
  br_greedy : bool; br_start_layer : Z; br_max_new_tokens : Z;
}.
Record ContinueRequest : Type := mkCont {
  cr_version : Z; cr_request_id : string; cr_token_id : Z; cr_position : Z;
}.
Record Activation : Type := mkActivation {
  ac_version : Z; ac_request_id : string; ac_next_layer : Z; ac_tensor : TensorDescriptor;
  ac_provenance : list ProvenanceEntryPb;
}.
Record Logits : Type := mkLogits {
  lg_version : Z; lg_request_id : string; lg_tensor : TensorDescriptor;
}.
Record SampledToken : Type := mkSampled {
  sk_version : Z; sk_request_id : string; sk_token_id : Z; sk_position : Z; sk_is_final : bool;
}.
Record EndRequest : Type := mkEnd { er_version : Z; er_request_id : string }.
Record ErrorPb : Type := mkError {
  ep_version : Z; ep_request_id : string; ep_code : Z; ep_detail : string;
}.
Record ExpertMsg : Type := mkExpert {
  ex_version : Z; ex_request_id : string; ex_layer_idx : Z; ex_expert_ids : list Z;
  ex_spec : TensorDescriptor; ex_provenance : list ProvenanceEntryPb;
}.
Record WeightRequest : Type := mkWeightReq {
  wr_version : Z; wr_request_id : string; wr_layer_idx : Z; wr_expert_id : Z;
}.
Record WeightTransfer : Type := mkWeightTr {
  wt_version : Z; wt_request_id : string; wt_layer_idx : Z; wt_expert_id : Z;
  wt_tensors : list TensorDescriptor; wt_tensor_count : Z;
}.

(** The [oneof payload] of Envelope, and an envelope with none set. *)
Inductive Payload : Type :=
| PBegin (m : BeginRequest)
| PCont (m : ContinueRequest)
| PActivation (m : Activation)
| PLogits (m : Logits)
| PEnd (m : EndRequest)
| PError (m : ErrorPb)
| PSampledToken (m : SampledToken)
| PPing (m : PingPb)
| PAck (m : PingPb)
| PPingReq (m : PingReqPb)
| PPingReqAck (m : PingReqPb)
| PJoin (m : JoinPb)
| PMembershipDelta (m : MembershipDeltaPb)
| PExpertRequest (m : ExpertMsg)
| PExpertResponse (m : ExpertMsg)
| PWeightRequest (m : WeightRequest)
| PWeightTransfer (m : WeightTransfer).

Definition Envelope : Type := option Payload.

(** ** Ranges of whole messages *)

Definition member_pb_ok (r : MemberRecordPb) : bool :=
  in_u32 (mp_udp_port r) && in_u32 (mp_state r) && in_u64 (mp_incarnation r).
Definition load_pb_ok (r : LoadReport) : bool := in_u32 (lp_queue_depth_ema r) && in_i64 (lp_ts r).
Definition heat_entry_ok (e : ExpertHeatEntry) : bool :=
  in_u32 (he_layer e) && in_u32 (he_expert e) && in_u32 (he_ema e).
Definition heat_pb_ok (r : ExpertHeatReport) : bool :=
  forallb heat_entry_ok (hp_entries r) && in_i64 (hp_ts r).
Definition own_pb_ok (o : OwnershipDelta) : bool :=
  in_u32 (op_layer o) && in_u32 (op_expert o) && in_u32 (op_action o) && in_i64 (op_ts o).
Definition piggyback_ok (p : Piggyback) : bool :=
  forallb member_pb_ok (pg_deltas p) && forallb load_pb_ok (pg_loads p) &&
  forallb heat_pb_ok (pg_heat p) && forallb own_pb_ok (pg_ownership p).
Definition ping_pb_ok (p : PingPb) : bool :=
  in_u32 (pp_version p) && in_u64 (pp_incarnation p) && piggyback_ok (pp_piggyback p).
Definition pingreq_pb_ok (p : PingReqPb) : bool :=
  in_u32 (pq_version p) && piggyback_ok (pq_piggyback p).
Definition tensor_ok (t : TensorDescriptor) : bool :=
  forallb in_i64 (td_shape t) && in_u32 (td_dtype t) && in_u32 (td_quant t) && in_u64 (td_byte_count t).
Definition prov_pb_ok (e : ProvenanceEntryPb) : bool :=
  match pe_op e with
  | Some o => in_u32 (opp_op_type o) && in_u32 (opp_layer_idx o) && in_u32 (opp_expert_id o)
  | None => true
  end.
Definition expert_ok (m : ExpertMsg) : bool :=
  in_u32 (ex_version m) && in_u32 (ex_layer_idx m) && forallb in_u32 (ex_expert_ids m) &&
  tensor_ok (ex_spec m) && forallb prov_pb_ok (ex_provenance m).

Definition payload_ok (p : Payload) : bool :=
  match p with
  | PBegin m => in_u32 (br_version m) && forallb in_u32 (br_prompt m) && in_u32 (br_start_layer m)
                && in_u32 (br_max_new_tokens m)
  | PCont m => in_u32 (cr_version m) && in_u32 (cr_token_id m) && in_u32 (cr_position m)
  | PActivation m => in_u32 (ac_version m) && in_u32 (ac_next_layer m) && tensor_ok (ac_tensor m)
                     && forallb prov_pb_ok (ac_provenance m)
  | PLogits m => in_u32 (lg_version m) && tensor_ok (lg_tensor m)
  | PEnd m => in_u32 (er_version m)
  | PError m => in_u32 (ep_version m) && in_u32 (ep_code m)
  | PSampledToken m => in_u32 (sk_version m) && in_u32 (sk_token_id m) && in_u32 (sk_position m)
  | PPing m | PAck m => ping_pb_ok m
  | PPingReq m | PPingReqAck m => pingreq_pb_ok m
  | PJoin m => in_u32 (jp_version m) && member_pb_ok (jp_self_record m)
  | PMembershipDelta m => in_u32 (dp_version m) && forallb member_pb_ok (dp_members m)
  | PExpertRequest m | PExpertResponse m => expert_ok m
  | PWeightRequest m => in_u32 (wr_version m) && in_u32 (wr_layer_idx m) && in_u32 (wr_expert_id m)
  | PWeightTransfer m => in_u32 (wt_version m) && in_u32 (wt_layer_idx m) && in_u32 (wt_expert_id m)
                         && forallb tensor_ok (wt_tensors m) && in_u32 (wt_tensor_count m)
  end.

Definition envelope_ok (e : Envelope) : bool :=
  match e with
  | Some p => payload_ok p
  | None => true
  end.

(** ** The protobuf library *)

(** [env.SerializeToString()] of an envelope whose fields were all assigned,
    and [env.ParseFromString(raw)], which raises DecodeError (a ValueError for
    the code: nothing distinguishes them) on bytes that are no envelope. *)
Class Protobuf : Type := {
  SerializeToString : Envelope -> bytes;
  ParseFromString : bytes -> result Envelope;
}.

Class ProtobufLaws `{Protobuf} : Prop := {
  parse_serialize e : envelope_ok e = true -> ParseFromString (SerializeToString e) = Ok e;
  parse_ranged b e : ParseFromString b = Ok e -> envelope_ok e = true;
}.
