(* ===== verification/WireCodec.v ===== *)
(** * A codec for the wire schema

    An instance of the protobuf interface, so that theorems proved against
    [ProtobufLaws] can be applied: messages are mapped to tuples, tuples to
    numbers by stdpp's [Countable], and the binary digits of the number are
    the bytes.  It is injective and self-inverse like the real encoding; it is
    not the real encoding. *)
From stdpp Require Import countable.
From S2P Require Import Prelude PyFloat Wire.

#[export] Instance byte_eq_dec : EqDecision Byte.byte := Byte.byte_eq_dec.
#[export] Program Instance byte_countable : Countable Byte.byte := {
  encode b := encode (A:=N) (Byte.to_N b);
  decode p := decode (A:=N) p ≫= Byte.of_N;
}.
Next Obligation.
intros b. cbv beta. rewrite (decode_encode (A:=N)). cbn. apply Byte.of_to_N. Qed.

#[export] Instance float_eq_dec : EqDecision float.
Proof. solve_decision. Defined.
#[export] Instance float_countable : Countable float.
Proof.
  refine (inj_countable'
    (fun x => match x with
              | S754_zero b => inl (inl b)
              | S754_infinity b => inl (inr b)
              | S754_nan => inr (inl tt)
              | S754_finite s m e => inr (inr (s, m, e))
              end)
    (fun x => match x with
              | inl (inl b) => S754_zero b
              | inl (inr b) => S754_infinity b
              | inr (inl _) => S754_nan
              | inr (inr (s, m, e)) => S754_finite s m e
              end) _).
  by intros [].
Defined.

(** A record is the tuple of its fields. *)
Ltac countable_by f g :=
  refine (inj_countable' f g _); by intros [].
Ltac eq_dec := intros ??; unfold Decision; decide equality; apply (decide (_ = _)).

#[export] Instance member_pb_eq_dec : EqDecision MemberRecordPb. Proof. solve_decision. Defined.
#[export] Instance member_pb_countable : Countable MemberRecordPb.
Proof.
  countable_by (fun r => (mp_shard_id r, mp_host r, mp_udp_port r, mp_state r, mp_incarnation r, mp_model_id r))
    (fun '(a, b, c, d, e, f) => mkMemberPb a b c d e f).
Defined.
#[export] Instance load_pb_eq_dec : EqDecision LoadReport. Proof. solve_decision. Defined.
#[export] Instance load_pb_countable : Countable LoadReport.
Proof. countable_by (fun r => (lp_shard_id r, lp_queue_depth_ema r, lp_ts r)) (fun '(a, b, c) => mkLoadPb a b c). Defined.
#[export] Instance heat_entry_eq_dec : EqDecision ExpertHeatEntry. Proof. solve_decision. Defined.
#[export] Instance heat_entry_countable : Countable ExpertHeatEntry.
Proof. countable_by (fun r => (he_layer r, he_expert r, he_ema r)) (fun '(a, b, c) => mkHeatEntry a b c). Defined.
#[export] Instance heat_pb_eq_dec : EqDecision ExpertHeatReport. Proof. solve_decision. Defined.
#[export] Instance heat_pb_countable : Countable ExpertHeatReport.
Proof. countable_by (fun r => (hp_shard_id r, hp_entries r, hp_ts r)) (fun '(a, b, c) => mkHeatPb a b c). Defined.
#[export] Instance own_pb_eq_dec : EqDecision OwnershipDelta. Proof. solve_decision. Defined.
#[export] Instance own_pb_countable : Countable OwnershipDelta.
Proof.
  countable_by (fun r => (op_shard_id r, op_layer r, op_expert r, op_action r, op_ts r))
    (fun '(a, b, c, d, e) => mkOwnPb a b c d e).
Defined.
#[export] Instance piggyback_eq_dec : EqDecision Piggyback. Proof. solve_decision. Defined.
#[export] Instance piggyback_countable : Countable Piggyback.
Proof.
  countable_by (fun r => (pg_deltas r, pg_loads r, pg_heat r, pg_ownership r))
    (fun '(a, b, c, d) => mkPiggyback a b c d).
Defined.
#[export] Instance ping_pb_eq_dec : EqDecision PingPb. Proof. solve_decision. Defined.
#[export] Instance ping_pb_countable : Countable PingPb.
Proof.
  countable_by (fun r => (pp_version r, pp_from r, pp_incarnation r, pp_piggyback r))
    (fun '(a, b, c, d) => mkPingPb a b c d).
Defined.
#[export] Instance pingreq_pb_eq_dec : EqDecision PingReqPb. Proof. solve_decision. Defined.
#[export] Instance pingreq_pb_countable : Countable PingReqPb.
Proof.
  countable_by
    (fun r => (pq_version r, pq_from r, pq_target r, pq_probe_id r, pq_success r, pq_piggyback r))
    (fun '(a, b, c, d, e, f) => mkPingReqPb a b c d e f).
Defined.
#[export] Instance join_pb_eq_dec : EqDecision JoinPb. Proof. solve_decision. Defined.
#[export] Instance join_pb_countable : Countable JoinPb.
Proof. countable_by (fun r => (jp_version r, jp_self_record r)) (fun '(a, b) => mkJoinPb a b). Defined.
#[export] Instance delta_pb_eq_dec : EqDecision MembershipDeltaPb. Proof. solve_decision. Defined.
#[export] Instance delta_pb_countable : Countable MembershipDeltaPb.
Proof. countable_by (fun r => (dp_version r, dp_members r)) (fun '(a, b) => mkDeltaPb a b). Defined.
#[export] Instance tensor_eq_dec : EqDecision TensorDescriptor. Proof. solve_decision. Defined.
#[export] Instance tensor_countable : Countable TensorDescriptor.
Proof.
  countable_by (fun r => (td_shape r, td_dtype r, td_quant r, td_byte_count r))
    (fun '(a, b, c, d) => mkTensor a b c d).
Defined.
#[export] Instance op_pb_eq_dec : EqDecision OpDescriptorPb. Proof. solve_decision. Defined.
#[export] Instance op_pb_countable : Countable OpDescriptorPb.
Proof. countable_by (fun r => (opp_op_type r, opp_layer_idx r, opp_expert_id r)) (fun '(a, b, c) => mkOpPb a b c). Defined.
#[export] Instance prov_pb_eq_dec : EqDecision ProvenanceEntryPb. Proof. solve_decision. Defined.
#[export] Instance prov_pb_countable : Countable ProvenanceEntryPb.
Proof.
  countable_by (fun r => (pe_hash r, pe_parents r, pe_node_id r, pe_op r, pe_timestamp r))
    (fun '(a, b, c, d, e) => mkProvPb a b c d e).
Defined.
#[export] Instance begin_eq_dec : EqDecision BeginRequest. Proof. solve_decision. Defined.
#[export] Instance begin_countable : Countable BeginRequest.
Proof.
  countable_by (fun r => (br_version r, br_request_id r, br_sequence_id r, br_prompt r, br_greedy r,
      br_start_layer r, br_max_new_tokens r))
    (fun '(a, b, c, d, e, f, g) => mkBegin a b c d e f g).
Defined.
#[export] Instance cont_eq_dec : EqDecision ContinueRequest. Proof. solve_decision. Defined.
#[export] Instance cont_countable : Countable ContinueRequest.
Proof.
  countable_by (fun r => (cr_version r, cr_request_id r, cr_token_id r, cr_position r))
    (fun '(a, b, c, d) => mkCont a b c d).
Defined.
#[export] Instance activation_eq_dec : EqDecision Activation. Proof. solve_decision. Defined.
#[export] Instance activation_countable : Countable Activation.
Proof.
  countable_by (fun r => (ac_version r, ac_request_id r, ac_next_layer r, ac_tensor r, ac_provenance r))
    (fun '(a, b, c, d, e) => mkActivation a b c d e).
Defined.
#[export] Instance logits_eq_dec : EqDecision Logits. Proof. solve_decision. Defined.
#[export] Instance logits_countable : Countable Logits.
Proof. countable_by (fun r => (lg_version r, lg_request_id r, lg_tensor r)) (fun '(a, b, c) => mkLogits a b c). Defined.
#[export] Instance sampled_eq_dec : EqDecision SampledToken. Proof. solve_decision. Defined.
#[export] Instance sampled_countable : Countable SampledToken.
Proof.
  countable_by (fun r => (sk_version r, sk_request_id r, sk_token_id r, sk_position r, sk_is_final r))
    (fun '(a, b, c, d, e) => mkSampled a b c d e).
Defined.
#[export] Instance end_eq_dec : EqDecision EndRequest. Proof. solve_decision. Defined.
#[export] Instance end_countable : Countable EndRequest.
Proof. countable_by (fun r => (er_version r, er_request_id r)) (fun '(a, b) => mkEnd a b). Defined.
#[export] Instance error_eq_dec : EqDecision ErrorPb. Proof. solve_decision. Defined.
#[export] Instance error_countable : Countable ErrorPb.
Proof.
  countable_by (fun r => (ep_version r, ep_request_id r, ep_code r, ep_detail r))
    (fun '(a, b, c, d) => mkError a b c d).
Defined.
#[export] Instance expert_eq_dec : EqDecision ExpertMsg. Proof. solve_decision. Defined.
#[export] Instance expert_countable : Countable ExpertMsg.
Proof.
  countable_by (fun r => (ex_version r, ex_request_id r, ex_layer_idx r, ex_expert_ids r, ex_spec r, ex_provenance r))
    (fun '(a, b, c, d, e, f) => mkExpert a b c d e f).
Defined.
#[export] Instance wreq_eq_dec : EqDecision WeightRequest. Proof. solve_decision. Defined.
#[export] Instance wreq_countable : Countable WeightRequest.
Proof.
  countable_by (fun r => (wr_version r, wr_request_id r, wr_layer_idx r, wr_expert_id r))
    (fun '(a, b, c, d) => mkWeightReq a b c d).
Defined.
#[export] Instance wtr_eq_dec : EqDecision WeightTransfer. Proof. solve_decision. Defined.
#[export] Instance wtr_countable : Countable WeightTransfer.
Proof.
  countable_by (fun r => (wt_version r, wt_request_id r, wt_layer_idx r, wt_expert_id r, wt_tensors r, wt_tensor_count r))
    (fun '(a, b, c, d, e, f) => mkWeightTr a b c d e f).
Defined.

#[export] Instance payload_eq_dec : EqDecision Payload. Proof. solve_decision. Defined.
#[export] Instance payload_countable : Countable Payload.
Proof.
  refine (inj_countable'
    (fun p => match p with
     | PBegin m => inl (inl (inl (inl m)))
     | PCont m => inl (inl (inl (inr m)))
     | PActivation m => inl (inl (inr (inl m)))
     | PLogits m => inl (inl (inr (inr m)))
     | PEnd m => inl (inr (inl (inl m)))
     | PError m => inl (inr (inl (inr m)))
     | PSampledToken m => inl (inr (inr m))
     | PPing m => inr (inl (inl (m, true)))
     | PAck m => inr (inl (inl (m, false)))
     | PPingReq m => inr (inl (inr (m, true)))
     | PPingReqAck m => inr (inl (inr (m, false)))
     | PJoin m => inr (inr (inl (inl m)))
     | PMembershipDelta m => inr (inr (inl (inr m)))
     | PExpertRequest m => inr (inr (inr (inl (m, true))))
     | PExpertResponse m => inr (inr (inr (inl (m, false))))
     | PWeightRequest m => inr (inr (inr (inr (inl m))))
     | PWeightTransfer m => inr (inr (inr (inr (inr m))))
     end)
    (fun x => match x with
     | inl (inl (inl (inl m))) => PBegin m
     | inl (inl (inl (inr m))) => PCont m
     | inl (inl (inr (inl m))) => PActivation m
     | inl (inl (inr (inr m))) => PLogits m
     | inl (inr (inl (inl m))) => PEnd m
     | inl (inr (inl (inr m))) => PError m
     | inl (inr (inr m)) => PSampledToken m
     | inr (inl (inl (m, true))) => PPing m
     | inr (inl (inl (m, false))) => PAck m
     | inr (inl (inr (m, true))) => PPingReq m
     | inr (inl (inr (m, false))) => PPingReqAck m
     | inr (inr (inl (inl m))) => PJoin m
     | inr (inr (inl (inr m))) => PMembershipDelta m
     | inr (inr (inr (inl (m, true)))) => PExpertRequest m
     | inr (inr (inr (inl (m, false)))) => PExpertResponse m
     | inr (inr (inr (inr (inl m)))) => PWeightRequest m
     | inr (inr (inr (inr (inr m)))) => PWeightTransfer m
     end) _).
  by intros [].
Defined.

(** ** Numbers as bytes *)

Fixpoint pos_bytes (p : positive) : bytes :=
  match p with
  | xH => [x01]
  | xO p => x00 :: pos_bytes p
  | xI p => x02 :: pos_bytes p
  end.

Fixpoint bytes_pos (b : bytes) : option positive :=
  match b with
  | [x01] => Some xH
  | x00 :: b => xO <$> bytes_pos b
  | x02 :: b => xI <$> bytes_pos b
  | _ => None
  end.

Lemma bytes_pos_bytes p : bytes_pos (pos_bytes p) = Some p.
Proof. induction p as [p IH|p IH|]; cbn; [by rewrite IH..|done]. Qed.

(** Parsing refuses envelopes with a field out of range, as the library does. *)
#[export] Instance codec : Protobuf := {
  SerializeToString e := pos_bytes (encode e);
  ParseFromString b :=
    match bytes_pos b ≫= decode with
    | Some e => if envelope_ok e then Ok e else Raise ValueError
    | None => Raise ValueError
    end;
}.

#[export] Instance codec_laws : ProtobufLaws.
Proof.
  split.
  - intros e He. cbn. rewrite bytes_pos_bytes. cbn. by rewrite decode_encode, He.
  - intros b e. cbn. repeat case_match; naive_solver.
Qed.
