(* ===== verification/Messages.v ===== *)
(** * membership/messages.py: dataclasses to and from the wire

    One function per adapter of the file.  Encoding may raise ValueError (a
    field out of range), decoding too (bytes that are no envelope, a member
    state outside the enumeration); an envelope with another payload decodes
    to None.  The timing fields of a record do not travel. *)
From S2P Require Import Prelude PyDict PyFloat PyList Records Wire WireCodec.
Open Scope Z_scope.

Definition PROTOCOL_VERSION : Z := 1.

(** ** Adapters *)

Definition record_to_pb (r : MemberRecord) : result MemberRecordPb :=
  port ← u32 (udp_port r);
  state ← u32 (state_int (mstate r));
  inc ← u64 (incarnation r);
  Ok (mkMemberPb (shard_id r) (host r) port state inc (model_id r)).

Definition record_from_pb (pb : MemberRecordPb) : result MemberRecord :=
  state ← state_of_int (mp_state pb);
  Ok (mkMember (mp_shard_id pb) (mp_host pb) (mp_udp_port pb) state (mp_incarnation pb)
        (mp_model_id pb) f0 None).

Definition load_to_pb (r : LoadReportRecord) : result LoadReport :=
  q ← u32 (lr_queue_depth_ema r);
  ts ← i64 (lr_ts_unix_ms r);
  Ok (mkLoadPb (lr_shard_id r) q ts).

Definition load_from_pb (pb : LoadReport) : result LoadReportRecord :=
  Ok (mkLoad (lp_shard_id pb) (lp_queue_depth_ema pb) (lp_ts pb)).

Definition entry_to_pb (e : Z * Z * Z) : result ExpertHeatEntry :=
  let '(layer_idx, expert_id, ema) := e in
  l ← u32 layer_idx;
  x ← u32 expert_id;
  h ← u32 ema;
  Ok (mkHeatEntry l x h).

Definition entry_from_pb (e : ExpertHeatEntry) : Z * Z * Z := (he_layer e, he_expert e, he_ema e).

Definition heat_to_pb (r : HeatReportRecord) : result ExpertHeatReport :=
  ts ← i64 (hr_ts_unix_ms r);
  es ← mapR entry_to_pb (hr_entries r);
  Ok (mkHeatPb (hr_shard_id r) es ts).

Definition heat_from_pb (pb : ExpertHeatReport) : result HeatReportRecord :=
  Ok (mkHeat (hp_shard_id pb) (entry_from_pb <$> hp_entries pb) (hp_ts pb)).

Definition ownership_to_pb (r : OwnershipDeltaRecord) : result OwnershipDelta :=
  l ← u32 (od_layer_idx r);
  x ← u32 (od_expert_id r);
  a ← u32 (od_action r);
  ts ← i64 (od_ts_unix_ms r);
  Ok (mkOwnPb (od_shard_id r) l x a ts).

Definition ownership_from_pb (pb : OwnershipDelta) : result OwnershipDeltaRecord :=
  Ok (mkOwner (op_shard_id pb) (op_layer pb) (op_expert pb) (op_action pb) (op_ts pb)).

(** The four repeated fields of the ping family. *)
Definition piggyback_to_pb (ds : list MemberRecord) (ls : list LoadReportRecord)
    (hs : list HeatReportRecord) (os : list OwnershipDeltaRecord) : result Piggyback :=
  ds ← mapR record_to_pb ds;
  ls ← mapR load_to_pb ls;
  hs ← mapR heat_to_pb hs;
  os ← mapR ownership_to_pb os;
  Ok (mkPiggyback ds ls hs os).

Definition piggyback_from_pb (p : Piggyback)
    : result (list MemberRecord * list LoadReportRecord * list HeatReportRecord *
              list OwnershipDeltaRecord) :=
  ds ← mapR record_from_pb (pg_deltas p);
  ls ← mapR load_from_pb (pg_loads p);
  hs ← mapR heat_from_pb (pg_heat p);
  os ← mapR ownership_from_pb (pg_ownership p);
  Ok (ds, ls, hs, os).

(** ** Envelopes *)

(** The assignments of [encode_membership_envelope]. *)
Definition message_to_pb (m : IncomingMessage) : result Payload :=
  match m with
  | Ping m =>
      inc ← u64 (ping_incarnation m);
      p ← piggyback_to_pb (ping_deltas m) (ping_loads m) (ping_heat m) (ping_ownership m);
      Ok (PPing (mkPingPb PROTOCOL_VERSION (ping_from m) inc p))
  | Ack m =>
      inc ← u64 (ack_incarnation m);
      p ← piggyback_to_pb (ack_deltas m) (ack_loads m) (ack_heat m) (ack_ownership m);
      Ok (PAck (mkPingPb PROTOCOL_VERSION (ack_from m) inc p))
  | PingReq m =>
      p ← piggyback_to_pb (pr_deltas m) (pr_loads m) (pr_heat m) (pr_ownership m);
      Ok (PPingReq (mkPingReqPb PROTOCOL_VERSION (pr_from m) (pr_target m) (pr_probe_id m) false p))
  | PingReqAck m =>
      p ← piggyback_to_pb (pra_deltas m) (pra_loads m) (pra_heat m) (pra_ownership m);
      Ok (PPingReqAck
            (mkPingReqPb PROTOCOL_VERSION (pra_from m) (pra_target m) (pra_probe_id m) (pra_success m) p))
  | Join m =>
      r ← record_to_pb (self_record m);
      Ok (PJoin (mkJoinPb PROTOCOL_VERSION r))
  | Delta m =>
      rs ← mapR record_to_pb (delta_members m);
      Ok (PMembershipDelta (mkDeltaPb PROTOCOL_VERSION rs))
  end.

(** The branches of [decode_membership_envelope]. *)
Definition message_from_pb (p : Payload) : result (option IncomingMessage) :=
  match p with
  | PPing p =>
      '(ds, ls, hs, os) ← piggyback_from_pb (pp_piggyback p);
      Ok (Some (Ping (mkPing (pp_from p) (pp_incarnation p) ds ls hs os)))
  | PAck p =>
      '(ds, ls, hs, os) ← piggyback_from_pb (pp_piggyback p);
      Ok (Some (Ack (mkAck (pp_from p) (pp_incarnation p) ds ls hs os)))
  | PPingReq p =>
      '(ds, ls, hs, os) ← piggyback_from_pb (pq_piggyback p);
      Ok (Some (PingReq (mkPingReq (pq_from p) (pq_target p) (pq_probe_id p) ds ls hs os)))
  | PPingReqAck p =>
      '(ds, ls, hs, os) ← piggyback_from_pb (pq_piggyback p);
      Ok (Some (PingReqAck
        (mkPingReqAck (pq_from p) (pq_target p) (pq_probe_id p) (pq_success p) ds ls hs os)))
  | PJoin p =>
      r ← record_from_pb (jp_self_record p);
      Ok (Some (Join (mkJoin r)))
  | PMembershipDelta p =>
      rs ← mapR record_from_pb (dp_members p);
      Ok (Some (Delta (mkDelta rs)))
  | _ => Ok None
  end.

Section wire.
Context `{Protobuf}.

Definition encode_membership_envelope (m : IncomingMessage) : result bytes :=
  p ← message_to_pb m;
  Ok (SerializeToString (Some p)).

Definition decode_membership_envelope (raw : bytes) : result (option IncomingMessage) :=
  env ← ParseFromString raw;
  match env with
  | Some p => message_from_pb p
  | None => Ok None
  end.

End wire.

(** ** What survives the wire *)

(** A record as the receiver sees it: fresh timing fields. *)
Definition restamp (r : MemberRecord) : MemberRecord :=
  mkMember (shard_id r) (host r) (udp_port r) (mstate r) (incarnation r) (model_id r) f0 None.

Definition restamp_msg (m : IncomingMessage) : IncomingMessage :=
  match m with
  | Ping m => Ping (mkPing (ping_from m) (ping_incarnation m) (restamp <$> ping_deltas m)
                      (ping_loads m) (ping_heat m) (ping_ownership m))
  | Ack m => Ack (mkAck (ack_from m) (ack_incarnation m) (restamp <$> ack_deltas m)
                    (ack_loads m) (ack_heat m) (ack_ownership m))
  | PingReq m => PingReq (mkPingReq (pr_from m) (pr_target m) (pr_probe_id m) (restamp <$> pr_deltas m)
                            (pr_loads m) (pr_heat m) (pr_ownership m))
  | PingReqAck m => PingReqAck (mkPingReqAck (pra_from m) (pra_target m) (pra_probe_id m)
                      (pra_success m) (restamp <$> pra_deltas m) (pra_loads m) (pra_heat m)
                      (pra_ownership m))
  | Join m => Join (mkJoin (restamp (self_record m)))
  | Delta m => Delta (mkDelta (restamp <$> delta_members m))
  end.

(** The messages whose integers fit their fields. *)
Definition record_fits (r : MemberRecord) : bool := in_u32 (udp_port r) && in_u64 (incarnation r).
Definition load_fits (r : LoadReportRecord) : bool :=
  in_u32 (lr_queue_depth_ema r) && in_i64 (lr_ts_unix_ms r).
Definition entry_fits (e : Z * Z * Z) : bool :=
  let '(l, x, h) := e in in_u32 l && in_u32 x && in_u32 h.
Definition heat_fits (r : HeatReportRecord) : bool :=
  in_i64 (hr_ts_unix_ms r) && forallb entry_fits (hr_entries r).
Definition owner_fits (r : OwnershipDeltaRecord) : bool :=
  in_u32 (od_layer_idx r) && in_u32 (od_expert_id r) && in_u32 (od_action r) && in_i64 (od_ts_unix_ms r).
Definition piggyback_fits (ds : list MemberRecord) (ls : list LoadReportRecord)
    (hs : list HeatReportRecord) (os : list OwnershipDeltaRecord) : bool :=
  forallb record_fits ds && forallb load_fits ls && forallb heat_fits hs && forallb owner_fits os.

Definition fits (m : IncomingMessage) : bool :=
  match m with
  | Ping m => in_u64 (ping_incarnation m) &&
      piggyback_fits (ping_deltas m) (ping_loads m) (ping_heat m) (ping_ownership m)
  | Ack m => in_u64 (ack_incarnation m) &&
      piggyback_fits (ack_deltas m) (ack_loads m) (ack_heat m) (ack_ownership m)
  | PingReq m => piggyback_fits (pr_deltas m) (pr_loads m) (pr_heat m) (pr_ownership m)
  | PingReqAck m => piggyback_fits (pra_deltas m) (pra_loads m) (pra_heat m) (pra_ownership m)
  | Join m => record_fits (self_record m)
  | Delta m => forallb record_fits (delta_members m)
  end.

(** ** Adapters are inverse to each other on what fits

    [codes to from ok fits g] says that [to] succeeds exactly on the values that
    fit, gives a value in range, that [from] undoes it up to [g], and that what
    [from] returns fits. *)

Record codes {A B} (to : A -> result B) (from : B -> result A) (ok : B -> bool) (fits : A -> bool)
    (g : A -> A) : Prop := {
  cd_to a : if fits a then exists b, to a = Ok b /\ ok b = true /\ from b = Ok (g a)
            else to a = Raise ValueError;
  cd_from b a : from b = Ok a -> ok b = true -> fits a = true /\ g a = a;
}.

Lemma codes_list {A B} (to : A -> result B) from ok fits g :
  codes to from ok fits g ->
  codes (mapR to) (mapR from) (forallb ok) (forallb fits) (fmap g).
Proof.
  intros [Hto Hfrom]. split.
  - intros l. induction l as [|a l IH]; cbn; [by eexists|]. specialize (Hto a).
    destruct (fits a); cbn; [|by rewrite Hto]. destruct Hto as (b & -> & Hb & Hf). cbn.
    destruct (forallb fits l); [|by rewrite IH]. destruct IH as (bs & -> & Hbs & Hfs). cbn.
    eexists. split; [done|]. cbn. by rewrite Hb, Hbs, Hf, Hfs.
  - intros bs. induction bs as [|b bs IH]; intros l Hl Hok; cbn in Hl, Hok; inv_ok; [done|].
    apply andb_prop in Hok as [Hb Hbs]. cbn.
    match goal with H : from b = _ |- _ => destruct (Hfrom _ _ H Hb) as [-> ->] end.
    edestruct IH as [-> ->]; done.
Qed.

(** Destruct the range tests of a statement and rewrite with them. *)
Ltac ranges :=
  unfold u32, u64, i64, ranged in *; cbn in *;
  repeat (match goal with
          | |- context [in_u32 ?n] => destruct (in_u32 n) eqn:?; cbn
          | |- context [in_u64 ?n] => destruct (in_u64 n) eqn:?; cbn
          | |- context [in_i64 ?n] => destruct (in_i64 n) eqn:?; cbn
          end).

Lemma record_codes : codes record_to_pb record_from_pb member_pb_ok record_fits restamp.
Proof.
  split.
  - intros [? ? port s inc ? ? ?]. unfold record_fits, record_to_pb, record_from_pb, member_pb_ok.
    assert (in_u32 (state_int s) = true) as Hs by by destruct s.
    cbn. unfold u32, u64, ranged. rewrite Hs.
    destruct (in_u32 port) eqn:Hp, (in_u64 inc) eqn:Hi; cbn; try done.
    eexists. split; [done|]. cbn. rewrite state_of_int_int, Hp, Hi, Hs. done.
  - intros b a Hf Hok. unfold record_from_pb in Hf. inv_ok. unfold record_fits. cbn.
    unfold member_pb_ok in Hok. apply andb_prop in Hok as [[-> _]%andb_prop ->]. done.
Qed.

Lemma load_codes : codes load_to_pb load_from_pb load_pb_ok load_fits id.
Proof.
  split.
  - intros [? q ts]. unfold load_to_pb, load_from_pb, load_fits, load_pb_ok. ranges; eauto.
    eexists. split; [done|]. cbn. split; [|done]. by apply andb_true_intro.
  - intros b a [= <-] Hok. by split.
Qed.

Lemma entry_codes : codes entry_to_pb (fun e => Ok (entry_from_pb e)) heat_entry_ok entry_fits id.
Proof.
  split.
  - intros [[l x] h]. unfold entry_to_pb, heat_entry_ok, entry_fits, entry_from_pb. ranges; eauto.
    eexists. split; [done|]. cbn. split; [|done]. by rewrite !andb_true_iff.
  - intros b a [= <-] Hok. by split.
Qed.

Lemma heat_codes : codes heat_to_pb heat_from_pb heat_pb_ok heat_fits id.
Proof.
  assert (Hpure : forall es, mapR (fun e => Ok (entry_from_pb e)) es = Ok (entry_from_pb <$> es)).
  { intros es. by apply mapR_pure. }
  pose proof (codes_list _ _ _ _ _ entry_codes) as [Hto Hfrom]. split.
  - intros [s es ts]. unfold heat_to_pb, heat_from_pb, heat_pb_ok, heat_fits, i64, ranged. cbn.
    destruct (in_i64 ts) eqn:Ht; cbn; [|done]. specialize (Hto es).
    destruct (forallb entry_fits es); [|by rewrite Hto]. destruct Hto as (b & -> & Hb & Hf). cbn.
    rewrite Hpure in Hf. injection Hf as Hf. rewrite list_fmap_id in Hf.
    eexists. split; [done|]. cbn. by rewrite Hb, Ht, Hf.
  - intros b a [= <-] Hok. split; [|done]. unfold heat_pb_ok in Hok.
    apply andb_prop in Hok as [He Ht]. unfold heat_fits. cbn. rewrite Ht.
    apply (Hfrom (hp_entries b) (entry_from_pb <$> hp_entries b)); [apply Hpure|done].
Qed.

Lemma ownership_codes : codes ownership_to_pb ownership_from_pb own_pb_ok owner_fits id.
Proof.
  split.
  - intros [? l x a ts]. unfold ownership_to_pb, ownership_from_pb, own_pb_ok, owner_fits.
    ranges; eauto. eexists. split; [done|]. cbn. split; [|done]. by rewrite !andb_true_iff.
  - intros b a [= <-] Hok. by split.
Qed.

Lemma piggyback_to ds ls hs os :
  if piggyback_fits ds ls hs os then
    exists p, piggyback_to_pb ds ls hs os = Ok p /\ piggyback_ok p = true /\
      piggyback_from_pb p = Ok (restamp <$> ds, ls, hs, os)
  else piggyback_to_pb ds ls hs os = Raise ValueError.
Proof.
  pose proof (cd_to _ _ _ _ _ (codes_list _ _ _ _ _ record_codes) ds) as Hd.
  pose proof (cd_to _ _ _ _ _ (codes_list _ _ _ _ _ load_codes) ls) as Hl.
  pose proof (cd_to _ _ _ _ _ (codes_list _ _ _ _ _ heat_codes) hs) as Hh.
  pose proof (cd_to _ _ _ _ _ (codes_list _ _ _ _ _ ownership_codes) os) as Ho.
  unfold piggyback_fits, piggyback_to_pb, piggyback_from_pb, piggyback_ok.
  destruct (forallb record_fits ds); cbn; [|by rewrite Hd]. destruct Hd as (d' & -> & Ed & Fd). cbn.
  destruct (forallb load_fits ls); cbn; [|by rewrite Hl]. destruct Hl as (l' & -> & El & Fl). cbn.
  destruct (forallb heat_fits hs); cbn; [|by rewrite Hh]. destruct Hh as (h' & -> & Eh & Fh). cbn.
  destruct (forallb owner_fits os); cbn; [|by rewrite Ho]. destruct Ho as (o' & -> & Eo & Fo). cbn.
  eexists. split; [done|]. cbn. rewrite Ed, El, Eh, Eo, Fd, Fl, Fh, Fo. cbn.
  by rewrite !list_fmap_id.
Qed.

Lemma piggyback_from p ds ls hs os :
  piggyback_from_pb p = Ok (ds, ls, hs, os) -> piggyback_ok p = true ->
  piggyback_fits ds ls hs os = true /\ restamp <$> ds = ds.
Proof.
  intros E Hok. unfold piggyback_from_pb in E.
  apply bind_ok in E as (d & Ed & E). apply bind_ok in E as (l & El & E).
  apply bind_ok in E as (h & Eh & E). apply bind_ok in E as (o & Eo & E). injection E as -> -> -> ->.
  unfold piggyback_ok in Hok. rewrite !andb_true_iff in Hok. destruct Hok as [[[Hd Hl] Hh] Ho].
  apply (cd_from _ _ _ _ _ (codes_list _ _ _ _ _ record_codes)) in Ed as [Fd Gd]; [|done].
  apply (cd_from _ _ _ _ _ (codes_list _ _ _ _ _ load_codes)) in El as [Fl _]; [|done].
  apply (cd_from _ _ _ _ _ (codes_list _ _ _ _ _ heat_codes)) in Eh as [Fh _]; [|done].
  apply (cd_from _ _ _ _ _ (codes_list _ _ _ _ _ ownership_codes)) in Eo as [Fo _]; [|done].
  unfold piggyback_fits. by rewrite Fd, Fl, Fh, Fo.
Qed.

Lemma message_to m :
  if fits m then
    exists p, message_to_pb m = Ok p /\ payload_ok p = true /\
      message_from_pb p = Ok (Some (restamp_msg m))
  else message_to_pb m = Raise ValueError.
Proof.
  destruct m as [m|m|m|m|m|m]; cbn [fits message_to_pb]; unfold u64, ranged.
  1,2: destruct (in_u64 _) eqn:Ei; cbn; [|done].
  1: pose proof (piggyback_to (ping_deltas m) (ping_loads m) (ping_heat m) (ping_ownership m)) as Hp.
  2: pose proof (piggyback_to (ack_deltas m) (ack_loads m) (ack_heat m) (ack_ownership m)) as Hp.
  3: pose proof (piggyback_to (pr_deltas m) (pr_loads m) (pr_heat m) (pr_ownership m)) as Hp.
  4: pose proof (piggyback_to (pra_deltas m) (pra_loads m) (pra_heat m) (pra_ownership m)) as Hp.
  1-4: destruct (piggyback_fits _ _ _ _); cbn; [|by rewrite Hp]; destruct Hp as (p & -> & Hok & Hf);
    cbn; eexists; split; [done|]; cbn; rewrite Hf; split; [|done];
    unfold ping_pb_ok, pingreq_pb_ok; cbn; by rewrite ?Ei, Hok.
  - pose proof (cd_to _ _ _ _ _ record_codes (self_record m)) as Hr.
    destruct (record_fits _); [|by rewrite Hr]. destruct Hr as (p & -> & Hok & Hf). cbn.
    eexists. split; [done|]. cbn. by rewrite Hf, Hok.
  - pose proof (cd_to _ _ _ _ _ (codes_list _ _ _ _ _ record_codes) (delta_members m)) as Hr.
    destruct (forallb _ _); [|by rewrite Hr]. destruct Hr as (p & -> & Hok & Hf). cbn.
    eexists. split; [done|]. cbn. by rewrite Hf, Hok.
Qed.

Lemma message_from p m :
  message_from_pb p = Ok (Some m) -> payload_ok p = true -> fits m = true /\ restamp_msg m = m.
Proof.
  intros E Hok. destruct p; cbn in E; try done; apply bind_ok in E as (x & Ex & E).
  1-4: destruct x as [[[ds ls] hs] os]; injection E as <-; cbn in Hok;
    unfold ping_pb_ok, pingreq_pb_ok in Hok; rewrite !andb_true_iff in Hok;
    destruct Hok as [Hi Hp]; apply piggyback_from in Ex as [Hf Hr]; [|done]; cbn;
    rewrite Hf, Hr; rewrite ?(proj2 Hi); done.
  - injection E as <-. cbn in Hok. apply andb_prop in Hok as [_ Hok].
    apply (cd_from _ _ _ _ _ record_codes) in Ex as [Hf Hr]; [|done]. cbn. by rewrite Hf, Hr.
  - injection E as <-. cbn in Hok. apply andb_prop in Hok as [_ Hok].
    apply (cd_from _ _ _ _ _ (codes_list _ _ _ _ _ record_codes)) in Ex as [Hf Hr]; [|done].
    cbn. by rewrite Hf, Hr.
Qed.

(** ** Theorems *)

Section theorems.
Context `{ProtobufLaws}.

(** C32: the wire round trip. Encoding succeeds exactly on messages whose
    integers fit their fields, raising ValueError on the others; what is encoded
    decodes to the same message with the timing fields of its records reset;
    and any message that was decoded can be encoded and decodes to itself. *)
Theorem membership_wire_roundtrip m :
  match encode_membership_envelope m with
  | Ok raw => fits m = true /\ decode_membership_envelope raw = Ok (Some (restamp_msg m))
  | Raise e => e = ValueError /\ fits m = false /\
      forall raw, decode_membership_envelope raw <> Ok (Some m)
  end.
Proof.
  pose proof (message_to m) as Hm. unfold encode_membership_envelope, decode_membership_envelope.
  destruct (fits m) eqn:Hf.
  - destruct Hm as (p & -> & Hok & Hp). cbn. rewrite parse_serialize by done. by split.
  - rewrite Hm. cbn. split; [done|]. split; [done|]. intros raw E.
    apply bind_ok in E as ([p|] & Ep & E); [|done].
    apply message_from in E as [Hf' _]; [congruence|]. by apply parse_ranged in Ep.
Qed.

(** decoding. Every record of a decoded message has the timing fields reset
    and the record equality of the dataclass ignores them, so re-encoding and
    decoding any received message gives that message back. *)
Theorem membership_decode_stable raw m :
  decode_membership_envelope raw = Ok (Some m) ->
  Forall (fun r => last_state_change r = f0 /\ suspect_deadline r = None) (msg_records m) /\
  exists raw', encode_membership_envelope m = Ok raw' /\
    decode_membership_envelope raw' = Ok (Some m).
Proof.
  intros E. unfold decode_membership_envelope in E. apply bind_ok in E as ([p|] & Ep & E); [|done].
  apply parse_ranged in Ep. destruct (message_from _ _ E Ep) as [Hf Hr]. split.
  - assert (Hall : forall rs, restamp <$> rs = rs ->
      Forall (fun r => last_state_change r = f0 /\ suspect_deadline r = None) rs).
    { intros rs. induction rs as [|r rs IH]; cbn; [constructor|]. intros [= Hr1 Hr2].
      constructor; [by rewrite <- Hr1|auto]. }
    destruct m as [[]|[]|[]|[]|[r]|[]]; cbn in Hr |- *; apply Hall; cbn; congruence.
  - pose proof (message_to m) as Hm. rewrite Hf, Hr in Hm. destruct Hm as (p' & Hm & Hok & Hp).
    unfold encode_membership_envelope, decode_membership_envelope. rewrite Hm. cbn.
    eexists. split; [done|]. by rewrite parse_serialize.
Qed.

End theorems.

(** ** Witnesses *)

Definition sample_record : MemberRecord := mkMember "b" "host-b" 5001 SUSPECT 3 "gemma" f1 (Some f1).
Definition sample_ping : IncomingMessage :=
  Ping (mkPing "a" 7 [sample_record] [mkLoad "a" 250 10] [mkHeat "a" [(1, 2, 300)] 11]
          [mkOwner "a" 1 2 0 12]).
Definition sample_bytes : bytes :=
  ok_or [] (encode_membership_envelope sample_ping).

Lemma membership_wire_roundtrip_witness :
  match encode_membership_envelope sample_ping with
  | Ok raw => fits sample_ping = true /\
      decode_membership_envelope raw = Ok (Some (restamp_msg sample_ping))
  | Raise e => e = ValueError /\ fits sample_ping = false /\
      forall raw, decode_membership_envelope raw <> Ok (Some sample_ping)
  end.
Proof. exact (membership_wire_roundtrip sample_ping). Defined.

Lemma membership_decode_stable_witness :
  exists raw', encode_membership_envelope (restamp_msg sample_ping) = Ok raw' /\
    decode_membership_envelope raw' = Ok (Some (restamp_msg sample_ping)).
Proof.
  apply (membership_decode_stable sample_bytes (restamp_msg sample_ping)).
  vm_compute. reflexivity.
Defined.
