(* ===== verification/Framing.v ===== *)
(** * transport.py and envelope.py: framed messages on a byte stream

    A stream that is read is a list of chunks: a raw [read(n)] returns at most
    one chunk, so the bytes arrive split in any way, and b"" at the end.  A
    stream that is written is the bytes it has taken and, for a raw
    (unbuffered) stream, how many bytes each coming [write] accepts; [write]
    returns that number and the code does not look at it. *)
From S2P Require Import Prelude Wire WireCodec.
Open Scope Z_scope.

(** ** Big-endian 32-bit lengths: [struct.pack("!I", n)] and [struct.unpack] *)

Definition byte_of (n : Z) : Byte.byte := default x00 (Byte.of_N (Z.to_N (n mod 256))).
Definition byte_val (b : Byte.byte) : Z := Z.of_N (Byte.to_N b).

Definition pack_u32 (n : Z) : result bytes :=
  if in_u32 n
  then Ok [byte_of (Z.shiftr n 24); byte_of (Z.shiftr n 16); byte_of (Z.shiftr n 8); byte_of n]
  else Raise StructError.

Definition unpack_u32 (b : bytes) : result Z :=
  match b with
  | [b3; b2; b1; b0] =>
      Ok (Z.shiftl (byte_val b3) 24 + Z.shiftl (byte_val b2) 16 + Z.shiftl (byte_val b1) 8 + byte_val b0)
  | _ => Raise StructError
  end.

Lemma byte_val_of n : byte_val (byte_of n) = n mod 256.
Proof.
  pose proof (Z.mod_pos_bound n 256 ltac:(lia)) as Hb. unfold byte_val, byte_of.
  destruct (Byte.of_N (Z.to_N (n mod 256))) as [b|] eqn:E; cbn.
  - apply Byte.to_of_N in E. rewrite E. lia.
  - apply Byte.of_N_None_iff in E. lia.
Qed.

Lemma unpack_pack n b : pack_u32 n = Ok b -> length b = 4%nat /\ unpack_u32 b = Ok n.
Proof.
  unfold pack_u32. destruct (in_u32 n) eqn:Hn; [|done]. intros [= <-]. split; [done|].
  cbn [unpack_u32]. rewrite !byte_val_of, !Z.shiftr_div_pow2, !Z.shiftl_mul_pow2 by lia.
  unfold in_u32 in Hn. f_equal.
  assert (Hz : forall m, m mod 256 = m - 256 * (m / 256)) by (intros m; pose proof (Z.div_mod m 256); lia).
  rewrite !Hz. change (2 ^ 24) with (256 * 65536). change (2 ^ 16) with (256 * 256).
  change (2 ^ 8) with 256. rewrite <- !Z.div_div by lia.
  change 65536 with (256 * 256). rewrite <- !Z.div_div by lia.
  assert (n / 256 / 256 / 256 / 256 = 0); [|lia].
  rewrite !Z.div_div by lia. apply Z.div_small. lia.
Qed.

(** ** Reading *)

Definition stream : Type := list bytes.

(** [stream.read(n)] *)
Definition stream_read (n : nat) (s : stream) : bytes * stream :=
  match s with
  | [] => ([], [])
  | c :: s => (take n c, match drop n c with [] => s | rest => rest :: s end)
  end.

(** The loop of [_read_exact]; each round reads at least a byte, so [n] rounds
    are enough. *)
Fixpoint read_loop (fuel n : nat) (buf : bytes) (s : stream) : result (bytes * stream) :=
  if decide (n <= length buf)%nat then Ok (buf, s) else
  match fuel with
  | O => Raise AssertionError
  | S fuel =>
      let '(chunk, s) := stream_read (n - length buf) s in
      match chunk with
      | [] => Raise EOFError
      | _ => read_loop fuel n (buf ++ chunk) s
      end
  end.

Definition read_exact (n : nat) (s : stream) : result (bytes * stream) := read_loop n n [] s.

(** One length-prefixed part of a frame. *)
Definition read_part (s : stream) : result (bytes * stream) :=
  '(len_bytes, s) ← read_exact 4 s;
  n ← unpack_u32 len_bytes;
  if decide (n = 0) then Ok ([], s) else read_exact (Z.to_nat n) s.

Definition read_frame (s : stream) : result (bytes * bytes * stream) :=
  '(msg, s) ← read_part s;
  '(tensor, s) ← read_part s;
  Ok (msg, tensor, s).

(** The connection loop: frames until the stream ends. *)
Fixpoint read_frames (k : nat) (s : stream) : result (list (bytes * bytes) * stream) :=
  match k with
  | O => Ok ([], s)
  | S k =>
      '(msg, tensor, s) ← read_frame s;
      '(fs, s) ← read_frames k s;
      Ok ((msg, tensor) :: fs, s)
  end.

(** ** Writing *)

(** [accepts] bounds what the next writes take; beyond the list, everything. *)
Record sink : Type := mkSink { taken : bytes; accepts : list nat }.

(** [stream.write(b)]; the number of bytes taken is dropped by the caller. *)
Definition stream_write (b : bytes) (w : sink) : sink :=
  match accepts w with
  | [] => mkSink (taken w ++ b) []
  | k :: ks => mkSink (taken w ++ take k b) ks
  end.

Definition write_part (b : bytes) (w : sink) : result sink :=
  len_bytes ← pack_u32 (Z.of_nat (length b));
  let w := stream_write len_bytes w in
  Ok (match b with [] => w | _ => stream_write b w end).

Definition write_frame (msg tensor : bytes) (w : sink) : result sink :=
  w ← write_part msg w;
  write_part tensor w.

(** ** The format *)

Definition part (b : bytes) : bytes := ok_or [] (pack_u32 (Z.of_nat (length b))) ++ b.
Definition frame (msg tensor : bytes) : bytes := part msg ++ part tensor.
Definition part_ok (b : bytes) : bool := in_u32 (Z.of_nat (length b)).

(** The chunks of a stream are never empty before its end. *)
Definition chunks_ok (s : stream) : Prop := Forall (fun c => c <> []) s.

#[local] Arguments read_exact : simpl never.
#[local] Arguments read_part : simpl never.
#[local] Arguments write_part : simpl never.

(** ** Lemmas *)

Lemma stream_read_spec n s chunk s' :
  chunks_ok s -> (0 < n)%nat -> stream_read n s = (chunk, s') ->
  chunks_ok s' /\ concat s = chunk ++ concat s' /\ (length chunk <= n)%nat /\
  (chunk = [] -> concat s = []).
Proof.
  intros Hs Hn E. destruct s as [|c s]; cbn in E.
  { injection E as <- <-. repeat split; try done; cbn; lia. }
  apply Forall_cons in Hs as [Hc Hs].
  assert (Hd : c = take n c ++ drop n c) by by rewrite take_drop.
  destruct (drop n c) as [|b d] eqn:Ed; injection E as <- <-.
  - split; [done|]. split; [cbn; f_equal; by rewrite app_nil_r in Hd|].
    rewrite length_take. split; [lia|]. intros E. by rewrite E in Hd.
  - split; [by constructor|]. split; [cbn; rewrite Hd at 1; by rewrite <- app_assoc|].
    rewrite length_take. split; [lia|]. intros E. exfalso; destruct c, n; cbn in *; try done; lia.
Qed.

(** The loop reads exactly the next [n - length buf] bytes of the stream,
    however they are split, or fails when there are fewer. *)
Lemma read_loop_spec fuel n buf s :
  chunks_ok s -> (n - length buf <= fuel)%nat -> (length buf <= n)%nat ->
  if decide (n <= length buf + length (concat s))%nat
  then exists s', read_loop fuel n buf s = Ok (buf ++ take (n - length buf) (concat s), s') /\
         chunks_ok s' /\ concat s' = drop (n - length buf) (concat s)
  else read_loop fuel n buf s = Raise EOFError.
Proof.
  revert buf s. induction fuel as [|fuel IH]; intros buf s Hs Hf Hn; cbn [read_loop].
  { rewrite !decide_True by lia. exists s. replace (n - length buf)%nat with 0%nat by lia.
    by rewrite take_0, drop_0, app_nil_r. }
  destruct (decide (n <= length buf)%nat).
  { rewrite decide_True by lia. exists s. replace (n - length buf)%nat with 0%nat by lia.
    by rewrite take_0, drop_0, app_nil_r. }
  destruct (stream_read _ s) as [chunk s1] eqn:E.
  destruct (stream_read_spec (n - length buf) s chunk s1 Hs ltac:(lia) E) as (Hs1 & Hcat & Hlen & Hnil).
  destruct chunk as [|b chunk].
  { rewrite (Hnil eq_refl). cbn. by rewrite decide_False by lia. }
  specialize (IH (buf ++ b :: chunk) s1 Hs1). rewrite length_app in IH.
  specialize (IH ltac:(cbn; lia) ltac:(cbn in *; lia)).
  assert (Hadd : (length buf + length (b :: chunk) + length (concat s1) =
    length buf + length (concat s))%nat) by (rewrite Hcat, length_app; lia).
  rewrite Hadd in IH. destruct (decide (n <= length buf + length (concat s))%nat); [|done].
  destruct IH as (s' & -> & Hs' & Hd). exists s'. rewrite Hcat.
  replace (n - (length buf + length (b :: chunk)))%nat
    with (n - length buf - length (b :: chunk))%nat in * by lia.
  rewrite take_app, drop_app, (take_ge (b :: chunk)), (drop_ge (b :: chunk)) by lia.
  split; [by rewrite <- app_assoc|]. done.
Qed.

Lemma read_exact_ok n s a rest :
  chunks_ok s -> concat s = a ++ rest -> length a = n ->
  exists s', read_exact n s = Ok (a, s') /\ chunks_ok s' /\ concat s' = rest.
Proof.
  intros Hs Hc <-. pose proof (read_loop_spec (length a) (length a) [] s Hs ltac:(cbn; lia) ltac:(cbn; lia)) as Hl.
  rewrite Hc, length_app, decide_True in Hl by (cbn; lia). cbn in Hl. rewrite Nat.sub_0_r in Hl.
  by rewrite take_app_length, drop_app_length in Hl.
Qed.

Lemma read_exact_eof n s :
  chunks_ok s -> (length (concat s) < n)%nat -> read_exact n s = Raise EOFError.
Proof.
  intros Hs Hn. pose proof (read_loop_spec n n [] s Hs ltac:(cbn; lia) ltac:(cbn; lia)) as Hl.
  by rewrite decide_False in Hl by (cbn; lia).
Qed.

Lemma part_length b : part_ok b = true -> exists l, pack_u32 (Z.of_nat (length b)) = Ok l /\
  part b = l ++ b /\ length l = 4%nat /\ unpack_u32 l = Ok (Z.of_nat (length b)).
Proof.
  intros Hb. unfold part_ok in Hb. unfold part. destruct (pack_u32 _) as [l|] eqn:E.
  - exists l. by destruct (unpack_pack _ _ E).
  - unfold pack_u32 in E. by rewrite Hb in E.
Qed.

Lemma read_part_ok b s rest :
  part_ok b = true -> chunks_ok s -> concat s = part b ++ rest ->
  exists s', read_part s = Ok (b, s') /\ chunks_ok s' /\ concat s' = rest.
Proof.
  intros Hb Hs Hc. destruct (part_length b Hb) as (l & _ & Hp & Hl & Hu).
  rewrite Hp, <- app_assoc in Hc. destruct (read_exact_ok 4 s l (b ++ rest) Hs Hc Hl) as (s1 & E1 & H1 & Hc1).
  unfold read_part. rewrite E1. cbn. rewrite Hu. cbn. case_decide as Hz.
  - destruct b; [|cbn in Hz; lia]. by exists s1.
  - rewrite Nat2Z.id. by apply (read_exact_ok _ s1 b rest).
Qed.

(** A part cut short is an EOFError. *)
Lemma read_part_eof b s cut :
  part_ok b = true -> chunks_ok s -> part b = concat s ++ cut -> cut <> [] ->
  read_part s = Raise EOFError.
Proof.
  intros Hb Hs Hc Hcut. destruct (part_length b Hb) as (l & _ & Hp & Hl & Hu).
  assert (0 < length cut)%nat by (destruct cut; [done|cbn; lia]).
  assert (Hlen : (length (concat s) + length cut = 4 + length b)%nat).
  { rewrite <- length_app, <- Hc, Hp, length_app. lia. }
  unfold read_part. destruct (decide (length (concat s) < 4)%nat).
  { by rewrite read_exact_eof. }
  assert (Hs4 : concat s = l ++ drop 4 (concat s)).
  { rewrite Hp in Hc. apply (f_equal (take 4)) in Hc.
    rewrite <- Hl, take_app_length, take_app_le in Hc by lia. rewrite Hc, Hl. by rewrite take_drop. }
  destruct (read_exact_ok 4 s l _ Hs Hs4 Hl) as (s1 & -> & H1 & Hc1). cbn. rewrite Hu. cbn.
  rewrite decide_False by lia. rewrite Nat2Z.id. apply read_exact_eof; [done|].
  rewrite Hc1, length_drop. lia.
Qed.

Lemma read_frame_ok msg tensor s rest :
  part_ok msg = true -> part_ok tensor = true -> chunks_ok s ->
  concat s = frame msg tensor ++ rest ->
  exists s', read_frame s = Ok (msg, tensor, s') /\ chunks_ok s' /\ concat s' = rest.
Proof.
  intros Hm Ht Hs Hc. unfold frame in Hc. rewrite <- app_assoc in Hc. unfold read_frame.
  destruct (read_part_ok _ _ _ Hm Hs Hc) as (s1 & -> & Hs1 & Hc1). cbn.
  destruct (read_part_ok _ _ _ Ht Hs1 Hc1) as (s2 & -> & Hs2 & Hc2). cbn. by exists s2.
Qed.

Lemma write_part_ok b w :
  part_ok b = true -> accepts w = [] -> write_part b w = Ok (mkSink (taken w ++ part b) []).
Proof.
  intros Hb Hw. destruct (part_length b Hb) as (l & Hk & -> & _). unfold write_part. rewrite Hk.
  cbn. unfold stream_write. rewrite Hw. destruct b; cbn; [by rewrite app_nil_r|].
  by rewrite <- app_assoc.
Qed.

Lemma write_frame_ok msg tensor w :
  part_ok msg = true -> part_ok tensor = true -> accepts w = [] ->
  write_frame msg tensor w = Ok (mkSink (taken w ++ frame msg tensor) []).
Proof.
  intros Hm Ht Hw. unfold write_frame. rewrite write_part_ok by done. cbn.
  rewrite write_part_ok by done. cbn. unfold frame. by rewrite app_assoc.
Qed.

(** *** What was read was on the stream *)

Lemma byte_of_val b n : n mod 256 = byte_val b -> byte_of n = b.
Proof.
  intros Hn. unfold byte_of. rewrite Hn. unfold byte_val. rewrite N2Z.id.
  by rewrite Byte.of_to_N.
Qed.

Lemma byte_val_bound b : 0 <= byte_val b < 256.
Proof. pose proof (Byte.to_N_bounded b). unfold byte_val. lia. Qed.

Lemma pack_unpack l n : unpack_u32 l = Ok n -> pack_u32 n = Ok l.
Proof.
  destruct l as [|b3 [|b2 [|b1 [|b0 [|? ?]]]]]; try done. intros [= <-].
  rewrite !Z.shiftl_mul_pow2 by lia.
  pose proof (byte_val_bound b3). pose proof (byte_val_bound b2).
  pose proof (byte_val_bound b1). pose proof (byte_val_bound b0).
  change (2 ^ 24) with 16777216. change (2 ^ 16) with 65536. change (2 ^ 8) with 256.
  unfold pack_u32. replace (in_u32 _) with true by (unfold in_u32; lia).
  f_equal. rewrite !Z.shiftr_div_pow2 by lia.
  change (2 ^ 24) with 16777216. change (2 ^ 16) with 65536. change (2 ^ 8) with 256.
  repeat f_equal; apply byte_of_val; Z.div_mod_to_equations; lia.
Qed.

Lemma read_exact_inv n s a s' :
  chunks_ok s -> read_exact n s = Ok (a, s') ->
  length a = n /\ chunks_ok s' /\ concat s = a ++ concat s'.
Proof.
  intros Hs E. destruct (decide (length (concat s) < n)%nat) as [|Hge].
  { by rewrite read_exact_eof in E. }
  destruct (read_exact_ok n s (take n (concat s)) (drop n (concat s))) as (s1 & E1 & H1 & H2);
    [done|by rewrite take_drop|rewrite length_take; lia|].
  rewrite E in E1. injection E1 as -> ->. rewrite length_take, H2, take_drop. split; [lia|done].
Qed.

Lemma read_part_inv s b s' :
  chunks_ok s -> read_part s = Ok (b, s') ->
  part_ok b = true /\ chunks_ok s' /\ concat s = part b ++ concat s'.
Proof.
  intros Hs E. unfold read_part in E. apply bind_ok in E as ([l s1] & E1 & E).
  destruct (read_exact_inv _ _ _ _ Hs E1) as (Hl & Hs1 & Hc). apply bind_ok in E as (n & En & E).
  pose proof (pack_unpack _ _ En) as Hp. assert (Hn : in_u32 n = true).
  { unfold pack_u32 in Hp. by destruct (in_u32 n). }
  assert (Hgen : Z.of_nat (length b) = n /\ chunks_ok s' /\ concat s1 = b ++ concat s').
  { case_decide as Hz; [by injection E as <- <-; rewrite Hz|].
    destruct (read_exact_inv _ _ _ _ Hs1 E) as (Hb & ? & ?). split; [|done].
    unfold in_u32 in Hn. lia. }
  destruct Hgen as (Hb & Hs' & Hc'). unfold part_ok, part. rewrite Hb, Hp. cbn.
  split; [done|]. split; [done|]. by rewrite Hc, Hc', app_assoc.
Qed.

Lemma read_frame_inv s msg tensor s' :
  chunks_ok s -> read_frame s = Ok (msg, tensor, s') ->
  chunks_ok s' /\ concat s = frame msg tensor ++ concat s'.
Proof.
  intros Hs E. unfold read_frame in E. apply bind_ok in E as ([m s1] & E1 & E).
  apply bind_ok in E as ([t s2] & E2 & E). injection E as -> -> ->.
  destruct (read_part_inv _ _ _ Hs E1) as (_ & Hs1 & Hc1).
  destruct (read_part_inv _ _ _ Hs1 E2) as (_ & Hs2 & Hc2).
  split; [done|]. unfold frame. by rewrite Hc1, Hc2, <- app_assoc.
Qed.

(** ** Theorems about the framing *)

Definition write_frames (fs : list (bytes * bytes)) (w : sink) : result sink :=
  foldM (fun w f => write_frame f.1 f.2 w) w fs.

Definition frame_ok (f : bytes * bytes) : bool := part_ok f.1 && part_ok f.2.

(** C31: the framing round trip. A sequence of frames written to a stream that
    accepts every write is read back as the same sequence, however the bytes are
    split into reads, with nothing left over. *)
Theorem framing_roundtrip fs s w :
  forallb frame_ok fs = true -> write_frames fs (mkSink [] []) = Ok w ->
  chunks_ok s -> concat s = taken w ->
  exists s', read_frames (length fs) s = Ok (fs, s') /\ concat s' = [].
Proof.
  intros Hok Hw Hs Hc.
  assert (Hgen : forall fs acc w, forallb frame_ok fs = true ->
    write_frames fs (mkSink acc []) = Ok w ->
    taken w = acc ++ concat ((fun f => frame f.1 f.2) <$> fs)).
  { clear. induction fs as [|[m t] fs IH]; intros acc w Hok Hw; cbn in Hw.
    { injection Hw as <-. cbn. by rewrite app_nil_r. }
    cbn in Hok. apply andb_prop in Hok as [[Hm Ht]%andb_prop Hok].
    rewrite write_frame_ok in Hw by done. cbn in Hw. rewrite (IH _ _ Hok Hw). cbn.
    by rewrite <- app_assoc. }
  rewrite (Hgen _ _ _ Hok Hw) in Hc. cbn in Hc. clear Hgen Hw. revert s Hs Hc.
  induction fs as [|[m t] fs IH]; intros s Hs Hc; cbn in *; [by exists s|].
  apply andb_prop in Hok as [[Hm Ht]%andb_prop Hok].
  destruct (read_frame_ok m t s _ Hm Ht Hs Hc) as (s1 & -> & Hs1 & Hc1). cbn.
  destruct (IH Hok s1 Hs1 Hc1) as (s2 & -> & Hc2). by exists s2.
Qed.

(** truncation. A stream that ends anywhere inside a frame, at any split
    of its bytes, makes [read_frame] raise EOFError, never return. *)
Theorem framing_truncated msg tensor s cut :
  part_ok msg = true -> part_ok tensor = true -> chunks_ok s ->
  frame msg tensor = concat s ++ cut -> cut <> [] ->
  read_frame s = Raise EOFError.
Proof.
  intros Hm Ht Hs Hc Hcut. unfold frame in Hc. unfold read_frame.
  destruct (decide (length (concat s) < length (part msg))%nat) as [Hlt|Hge].
  - rewrite (read_part_eof msg s (drop (length (concat s)) (part msg))); try done.
    + apply (f_equal (take (length (part msg)))) in Hc.
      rewrite take_app_length, take_app, (take_ge (concat s)) in Hc by lia.
      rewrite Hc at 2. rewrite drop_app_length. done.
    + intros Hd. apply (f_equal length) in Hd. rewrite length_drop in Hd. cbn in Hd. lia.
  - assert (Hsplit : concat s = part msg ++ drop (length (part msg)) (concat s)).
    { apply (f_equal (take (length (part msg)))) in Hc.
      rewrite take_app_length, take_app_le in Hc by lia. rewrite Hc at 1. by rewrite take_drop. }
    destruct (read_part_ok msg s _ Hm Hs Hsplit) as (s1 & -> & Hs1 & Hc1). cbn.
    rewrite (read_part_eof tensor s1 cut); try done.
    rewrite Hsplit, <- app_assoc in Hc. apply app_inv_head in Hc. by rewrite Hc1.
Qed.

(** short writes. [write_frame] does not look at what [write] returns: on a
    raw stream that takes only [k] bytes of the message it still returns, and
    then no reader of those bytes ever gets that frame. *)
Theorem framing_short_write msg tensor k s :
  part_ok msg = true -> part_ok tensor = true -> (k < length msg)%nat -> chunks_ok s ->
  exists w, write_frame msg tensor (mkSink [] [4%nat; k]) = Ok w /\
    (concat s = taken w -> forall s', read_frame s <> Ok (msg, tensor, s')).
Proof.
  intros Hm Ht Hk Hs. destruct (part_length msg Hm) as (l & Hpk & Hp & Hl & _).
  assert (Hw : write_part msg (mkSink [] [4%nat; k]) = Ok (mkSink (l ++ take k msg) [])).
  { unfold write_part. rewrite Hpk. cbn. rewrite take_ge by lia. destruct msg; [cbn in Hk; lia|done]. }
  unfold write_frame. rewrite Hw. cbn.
  rewrite write_part_ok by done. eexists. split; [done|]. cbn [taken]. intros Hc s' E.
  apply read_frame_inv in E as [_ E]; [|done]. rewrite E in Hc. apply (f_equal length) in Hc.
  unfold frame in Hc. rewrite Hp in Hc. rewrite !length_app, !length_take in Hc. cbn [length] in *. lia.
Qed.

(** ** Witnesses *)

Definition hello : bytes := [x68; x65; x6c; x6c; x6f].

Lemma framing_roundtrip_witness :
  exists s', read_frames 2 [[x00; x00; x00]; [x05; x68; x65]; [x6c; x6c; x6f; x00; x00; x00; x00; x00];
    [x00; x00; x00; x00; x00; x00; x01; x2a]] = Ok ([(hello, []); ([], [x2a])], s') /\ concat s' = [].
Proof.
  apply (framing_roundtrip [(hello, []); ([], [x2a])] _
    (ok_or (mkSink [] []) (write_frames [(hello, []); ([], [x2a])] (mkSink [] [])))).
  - reflexivity.
  - vm_compute. reflexivity.
  - repeat constructor; discriminate.
  - vm_compute. reflexivity.
Defined.

Lemma framing_truncated_witness :
  read_frame [[x00; x00]; [x00; x05; x68; x65; x6c; x6c]] = Raise EOFError.
Proof.
  apply (framing_truncated hello [] _ [x6f; x00; x00; x00; x00]).
  - reflexivity.
  - reflexivity.
  - repeat constructor; discriminate.
  - vm_compute. reflexivity.
  - discriminate.
Defined.

Lemma framing_short_write_witness :
  exists w, write_frame hello [x2a] (mkSink [] [4%nat; 2%nat]) = Ok w /\
    (concat [[x00; x00; x00; x05; x68; x65; x00; x00; x00; x01; x2a]] = taken w -> forall s',
       read_frame [[x00; x00; x00; x05; x68; x65; x00; x00; x00; x01; x2a]] <> Ok (hello, [x2a], s')).
Proof.
  apply (framing_short_write hello [x2a] 2).
  - reflexivity.
  - reflexivity.
  - cbn. lia.
  - repeat constructor; discriminate.
Defined.

(** ** envelope.py *)

Section envelope.
Context `{ProtobufLaws}.

Definition send_envelope (env : Envelope) (tensor : bytes) (w : sink) : result sink :=
  write_frame (SerializeToString env) tensor w.

Definition recv_envelope (s : stream) : result (Envelope * bytes * stream) :=
  '(msg, tensor, s) ← read_frame s;
  env ← ParseFromString msg;
  Ok (env, tensor, s).

(** An envelope and its tensor arrive as they were sent. *)
Lemma envelope_roundtrip env tensor w s rest :
  envelope_ok env = true -> part_ok (SerializeToString env) = true -> part_ok tensor = true ->
  send_envelope env tensor (mkSink [] []) = Ok w -> chunks_ok s -> concat s = taken w ++ rest ->
  exists s', recv_envelope s = Ok (env, tensor, s') /\ chunks_ok s' /\ concat s' = rest.
Proof.
  intros He Hm Ht Hw Hs Hc. unfold send_envelope in Hw. rewrite write_frame_ok in Hw by done.
  injection Hw as <-. cbn in Hc. unfold recv_envelope.
  destruct (read_frame_ok _ _ _ _ Hm Ht Hs Hc) as (s' & -> & Hs' & Hc'). cbn.
  rewrite parse_serialize by done. by exists s'.
Qed.

End envelope.
