(* ===== verification/Ownership.v ===== *)
(** * The ownership view: last writer wins

    The view of membership/runner.py maps (shard, layer, expert) to the action
    and timestamp of the newest delta seen: action 0 adds the expert to the
    shard's set, 1 removes it.  A delta is applied when its timestamp is
    strictly greater than the recorded one.  [action_join] is the specification:
    the newest action of a set of deltas. *)
From S2P Require Import Prelude PyDict PyList PyFloat Records.
Open Scope Z_scope.

Definition own_key : Type := string * Z * Z.

(** (action, ts_unix_ms) *)
Definition own_entry : Type := Z * Z.
Definition own_map : Type := dict own_key own_entry.

Definition key_of_delta (od : OwnershipDeltaRecord) : own_key :=
  (od_shard_id od, od_layer_idx od, od_expert_id od).
Definition entry_of_delta (od : OwnershipDeltaRecord) : own_entry := (od_action od, od_ts_unix_ms od).

(** [existing is None or ts > existing[1]] *)
Definition supersedes (ts : Z) (existing : option own_entry) : bool :=
  match existing with
  | None => true
  | Some (_, ts') => ts' <? ts
  end.

(** Fold one delta into the view; was it applied? *)
Definition apply_ownership (od : OwnershipDeltaRecord) (v : own_map) : bool * own_map :=
  if supersedes (od_ts_unix_ms od) (dict_get (key_of_delta od) v)
  then (true, dict_set (key_of_delta od) (entry_of_delta od) v)
  else (false, v).

(** The loop over a message's deltas: the deltas applied, in order. *)
Fixpoint apply_ownerships (ods : list OwnershipDeltaRecord) (v : own_map)
    : list OwnershipDeltaRecord * own_map :=
  match ods with
  | [] => ([], v)
  | od :: ods =>
      let '(applied, v) := apply_ownership od v in
      let '(rest, v) := apply_ownerships ods v in
      (if applied then od :: rest else rest, v)
  end.

(** [ownership_view()]: the keys whose newest action is ADD. *)
Definition owned (v : own_map) : list own_key :=
  dict_keys (filter (fun e : own_key * own_entry => e.2.1 = 0) v : list (own_key * own_entry)).

(** ** The specification *)

(** The newest of an entry and a list of entries; the earlier one on a tie. *)
Definition newest (e : option own_entry) (d : own_entry) : option own_entry :=
  if supersedes d.2 e then Some d else e.

Definition action_join (e : option own_entry) (ds : list own_entry) : option own_entry :=
  foldl newest e ds.

Definition entries_for (k : own_key) (ods : list OwnershipDeltaRecord) : list own_entry :=
  entry_of_delta <$> filter (fun od => key_of_delta od = k) ods.

(** The view's entry for a key is the join of the deltas about that key. *)
Lemma apply_ownerships_get ods v k :
  dict_get k (apply_ownerships ods v).2 = action_join (dict_get k v) (entries_for k ods).
Proof.
  revert v. induction ods as [|od ods IH]; intros v; [done|].
  cbn [apply_ownerships]. unfold apply_ownership, entries_for. rewrite filter_cons. fold (entries_for k ods).
  destruct (supersedes _ _) eqn:Es; cbn.
  - specialize (IH (dict_set (key_of_delta od) (entry_of_delta od) v)).
    destruct (apply_ownerships ods _) as [r v'] eqn:E. cbn in *. rewrite IH.
    unfold action_join. case_decide as Hk.
    + subst k. cbn. replace (newest _ (entry_of_delta od)) with (Some (entry_of_delta od))
        by (unfold newest; cbn; by rewrite Es). by rewrite dict_get_set_eq.
    + by rewrite dict_get_set_ne.
  - specialize (IH v). destruct (apply_ownerships ods v) as [r v'] eqn:E. cbn in *. rewrite IH.
    unfold action_join. case_decide as Hk; [|done].
    subst k. cbn. replace (newest _ (entry_of_delta od)) with (dict_get (key_of_delta od) v)
      by (unfold newest; cbn; by rewrite Es). done.
Qed.

(** The join is one of the entries, and as new as any of them. *)
Lemma action_join_spec e ds r :
  action_join e ds = Some r ->
  (e = Some r \/ r ∈ ds) /\ (forall d, e = Some d \/ d ∈ ds -> d.2 <= r.2).
Proof.
  unfold action_join. revert e. induction ds as [|d ds IH]; intros e E; cbn in E.
  { split; [by left|]. intros d [Hd|Hd]; [|inversion Hd]. rewrite E in Hd. injection Hd as ->. lia. }
  destruct (IH _ E) as [H1 H2]. unfold newest in *. destruct (supersedes d.2 e) eqn:Es.
  - split; [destruct H1 as [[= ->]|]; right; [left|by right]|].
    pose proof (H2 d (or_introl eq_refl)). intros d' [Hd|[->|Hd]%elem_of_cons]; [|done|by apply H2; right].
    subst e. destruct d' as [a t]. cbn in Es |- *. lia.
  - split; [destruct H1; [by left|right; by right]|].
    intros d' [Hd|[->|Hd]%elem_of_cons]; [by apply H2; left| |by apply H2; right].
    destruct e as [[a t]|]; [|done]. cbn in Es. pose proof (H2 (a, t) (or_introl eq_refl)). cbn in *. lia.
Qed.

Lemma action_join_some e ds : e <> None \/ ds <> [] -> is_Some (action_join e ds).
Proof.
  assert (Hs : forall ds x, is_Some (action_join (Some x) ds)).
  { clear. unfold action_join. induction ds as [|d ds IH]; intros x; cbn; [by eexists|].
    unfold newest. by case_match. }
  destruct e as [x|]; [done|]. destruct ds as [|d ds]; [naive_solver|]. intros _. apply (Hs ds d).
Qed.

Lemma action_join_none e ds : action_join e ds = None <-> e = None /\ ds = [].
Proof.
  split; [|by intros [-> ->]]. intros E. destruct (decide (e = None /\ ds = [])) as [|Hn]; [done|].
  destruct (action_join_some e ds) as [x Hx]; [|congruence].
  destruct e; [by left|]. right. intros ->. by apply Hn.
Qed.

(** Deltas that agree on the action whenever they agree on the timestamp. *)
Definition tie_free (ds : list own_entry) : Prop :=
  forall d1 d2, d1 ∈ ds -> d2 ∈ ds -> d1.2 = d2.2 -> d1 = d2.

Definition tie_free_on (ds : list own_entry) : Prop :=
  Forall (fun d1 => Forall (fun d2 => d1.2 = d2.2 -> d1 = d2) ds) ds.

Lemma tie_free_Forall ds : tie_free_on ds <-> tie_free ds.
Proof.
  unfold tie_free_on, tie_free. rewrite Forall_forall. setoid_rewrite Forall_forall. naive_solver.
Qed.

#[export] Instance tie_free_dec ds : Decision (tie_free ds).
Proof.
  unfold Decision. refine (cast_if (decide (Forall (fun d1 => Forall (fun d2 => d1.2 = d2.2 -> d1 = d2) ds) ds))); [by apply tie_free_Forall|by rewrite <- tie_free_Forall].
Defined.

Lemma action_join_set e ds ds' :
  (forall d, d ∈ ds <-> d ∈ ds') -> tie_free (match e with Some x => [x] | None => [] end ++ ds) ->
  action_join e ds = action_join e ds'.
Proof.
  intros Hset Htie. destruct (action_join e ds) as [r|] eqn:E, (action_join e ds') as [r'|] eqn:E'.
  - f_equal. apply action_join_spec in E as [H1 H2]. apply action_join_spec in E' as [H1' H2'].
    assert (Hin : forall x, e = Some x \/ x ∈ ds ->
      x ∈ match e with Some x => [x] | None => [] end ++ ds).
    { intros x [->|Hx]; apply elem_of_app; [left; left|by right]. }
    assert (Hr' : e = Some r' \/ r' ∈ ds) by (rewrite Hset; done).
    assert (Hr : e = Some r \/ r ∈ ds') by (rewrite <- Hset; done).
    apply Htie; [by apply Hin|by apply Hin|]. specialize (H2 _ Hr'). specialize (H2' _ Hr). lia.
  - apply action_join_none in E' as [-> ->]. destruct ds as [|d ds]; [done|].
    exfalso. assert (Hd : d ∈ []) by (apply Hset; left). inversion Hd.
  - apply action_join_none in E as [-> ->]. destruct ds' as [|d ds']; [done|].
    exfalso. assert (Hd : d ∈ []) by (apply Hset; left). inversion Hd.
  - done.
Qed.

Lemma entries_for_set k ods ods' :
  (forall od, od ∈ ods <-> od ∈ ods') -> forall d, d ∈ entries_for k ods <-> d ∈ entries_for k ods'.
Proof.
  intros Hset d. unfold entries_for. rewrite !list_elem_of_fmap.
  setoid_rewrite list_elem_of_filter. by setoid_rewrite Hset.
Qed.

(** ** Facts about single deltas *)

Lemma apply_ownership_wf od v : dict_wf v -> dict_wf (apply_ownership od v).2.
Proof. unfold apply_ownership. case_match; cbn; auto using dict_set_wf. Qed.

Lemma apply_ownerships_wf ods v : dict_wf v -> dict_wf (apply_ownerships ods v).2.
Proof.
  revert v. induction ods as [|od ods IH]; intros v Hv; [done|]. cbn.
  pose proof (apply_ownership_wf od v Hv) as Hv1. destruct (apply_ownership od v) as [b v1].
  specialize (IH v1 Hv1). by destruct (apply_ownerships ods v1).
Qed.

Lemma owned_spec v k : dict_wf v -> k ∈ owned v <-> exists ts, dict_get k v = Some (0, ts).
Proof.
  intros Hv. unfold owned, dict_keys. rewrite list_elem_of_fmap. split.
  - intros ([k' [a ts]] & -> & Hin). apply list_elem_of_filter in Hin as [Ha Hin]. cbn in Ha. subst a.
    exists ts. by apply dict_in_get.
  - intros [ts Hg]. exists (k, (0, ts)). split; [done|]. apply list_elem_of_filter.
    split; [done|]. by apply dict_get_Some_in.
Qed.

(** A tie is not settled: of an ADD and a REMOVE with the same timestamp, the one
    that arrives first stays. *)
Lemma tie_diverges :
  let add := mkOwner "a" 1 2 0 7 in
  let remove := mkOwner "a" 1 2 1 7 in
  (apply_ownerships [add; remove] []).2 <> (apply_ownerships [remove; add] []).2.
Proof. vm_compute. discriminate. Qed.
