(* ===== verification/Runner.v ===== *)
(** * membership/runner.py and membership/transport.py

    The runner owns a [MembershipState], an inbox the transport thread posts
    to, the latest load and heat reports of the peers, the ownership view and
    the ownership deltas it still has to gossip.  Every method is a function on
    the runner's state; a round of the run loop ([run_iteration]) raises when
    the code would let an exception escape the thread.  Observers are numbered
    by registration order and their calls are outputs; sources are the results
    of the calls made in a round.  The host name resolution of the socket
    library is a parameter. *)
From S2P Require Import Prelude PyDict PyFloat PyList PyRandom Records SwimState SwimSpec.
From S2P Require Import SwimRefine SwimProps Wire WireCodec Messages Ownership.
Open Scope Z_scope.

(** ** transport.py: the UDP socket *)

Definition MTU_GUARD : Z := 1400.

Record Datagram : Type := mkDatagram { dg_ip : string; dg_port : Z; dg_payload : bytes }.

Record UDPTransport : Type := mkTransport {
  ipv4_cache : dict string string;
  sent_datagrams : list Datagram;
}.

(** ** The state of the runner *)

Definition INTERNAL_QUEUE_MAX : nat := 64 * 64.
Definition DEFAULT_OWNERSHIP_TTL : Z := 5.

Record OutboundOwnership : Type := mkOutbound { ob_record : OwnershipDeltaRecord; ob_ttl : Z }.

Record MembershipRunner {R : Type} : Type := mkRunner {
  r_self : PeerSpec;
  r_state : MembershipState R;
  r_addr_by_id : dict string (string * Z);
  r_inbox : list IncomingMessage;
  r_observers : nat;
  r_watermark : nat;
  r_load_source : bool;
  r_heat_source : bool;
  r_peer_loads : dict string LoadReportRecord;
  r_peer_heat : dict string HeatReportRecord;
  r_outbound : list OutboundOwnership;
  r_ownership : own_map;
  r_ownership_observers : nat;
  r_transport : UDPTransport;
}.
Arguments MembershipRunner : clear implicits.
Arguments mkRunner {R}.

Section setters.
Context {R : Type}.
Implicit Types (st : MembershipState R).

Definition set_membership st outbound watermark transport (r : MembershipRunner R) : MembershipRunner R :=
  mkRunner (r_self r) st (r_addr_by_id r) [] (r_observers r) watermark (r_load_source r)
    (r_heat_source r) (r_peer_loads r) (r_peer_heat r) outbound (r_ownership r)
    (r_ownership_observers r) transport.
Definition set_gossip loads heat own (r : MembershipRunner R) : MembershipRunner R :=
  mkRunner (r_self r) (r_state r) (r_addr_by_id r) (r_inbox r) (r_observers r) (r_watermark r)
    (r_load_source r) (r_heat_source r) loads heat (r_outbound r) own (r_ownership_observers r)
    (r_transport r).
Definition set_inbox inbox (r : MembershipRunner R) : MembershipRunner R :=
  mkRunner (r_self r) (r_state r) (r_addr_by_id r) inbox (r_observers r) (r_watermark r)
    (r_load_source r) (r_heat_source r) (r_peer_loads r) (r_peer_heat r) (r_outbound r)
    (r_ownership r) (r_ownership_observers r) (r_transport r).
Definition set_ownership own outbound (r : MembershipRunner R) : MembershipRunner R :=
  mkRunner (r_self r) (r_state r) (r_addr_by_id r) (r_inbox r) (r_observers r) (r_watermark r)
    (r_load_source r) (r_heat_source r) (r_peer_loads r) (r_peer_heat r) outbound own
    (r_ownership_observers r) (r_transport r).
Definition set_registrations observers load heat own_observers (r : MembershipRunner R) : MembershipRunner R :=
  mkRunner (r_self r) (r_state r) (r_addr_by_id r) (r_inbox r) observers (r_watermark r)
    load heat (r_peer_loads r) (r_peer_heat r) (r_outbound r) (r_ownership r) own_observers
    (r_transport r).

End setters.

(** The gossip fields of a message ([getattr(decoded, "loads", None)]). *)
Definition msg_loads (m : IncomingMessage) : list LoadReportRecord :=
  match m with
  | Ping m => ping_loads m
  | Ack m => ack_loads m
  | PingReq m => pr_loads m
  | PingReqAck m => pra_loads m
  | _ => []
  end.
Definition msg_heat (m : IncomingMessage) : list HeatReportRecord :=
  match m with
  | Ping m => ping_heat m
  | Ack m => ack_heat m
  | PingReq m => pr_heat m
  | PingReqAck m => pra_heat m
  | _ => []
  end.
Definition msg_ownership (m : IncomingMessage) : list OwnershipDeltaRecord :=
  match m with
  | Ping m => ping_ownership m
  | Ack m => ack_ownership m
  | PingReq m => pr_ownership m
  | PingReqAck m => pra_ownership m
  | _ => []
  end.

(** [dataclasses.replace(p, loads=[*p.loads, my_load], ...)] on the ping
    family; other payloads are sent as they are. *)
Definition fuse (load : option LoadReportRecord) (heat : option HeatReportRecord)
    (owners : list OwnershipDeltaRecord) (m : IncomingMessage) : IncomingMessage :=
  let ls l := l ++ option_list load in
  let hs h := h ++ option_list heat in
  let os o := o ++ owners in
  match m with
  | Ping m => Ping (mkPing (ping_from m) (ping_incarnation m) (ping_deltas m) (ls (ping_loads m))
                     (hs (ping_heat m)) (os (ping_ownership m)))
  | Ack m => Ack (mkAck (ack_from m) (ack_incarnation m) (ack_deltas m) (ls (ack_loads m))
                   (hs (ack_heat m)) (os (ack_ownership m)))
  | PingReq m => PingReq (mkPingReq (pr_from m) (pr_target m) (pr_probe_id m) (pr_deltas m)
                   (ls (pr_loads m)) (hs (pr_heat m)) (os (pr_ownership m)))
  | PingReqAck m => PingReqAck (mkPingReqAck (pra_from m) (pra_target m) (pra_probe_id m)
                      (pra_success m) (pra_deltas m) (ls (pra_loads m)) (hs (pra_heat m))
                      (os (pra_ownership m)))
  | _ => m
  end.

(** What one round of the loop takes from its surroundings: the clock, and what
    the registered sources return or raise. *)
Record Round : Type := mkRound {
  rd_now : float;
  rd_recv_now : nat -> float;
  rd_load : result LoadReportRecord;
  rd_heat : result HeatReportRecord;
}.

(** [self._load_source()], with an exception logged and skipped. *)
Definition call_source {A} (registered : bool) (v : result A) : option A :=
  if registered then match v with Ok a => Some a | Raise _ => None end else None.

Section runner.
Context {R : Type} `{RandomSource R} `{Protobuf} (gethostbyname : string -> option string).
Abbreviation Runner := (MembershipRunner R).
Implicit Types (r : Runner).

(** [UDPTransport.send_to] *)
Definition send_to (addr : string * Z) (payload : bytes) (t : UDPTransport) : UDPTransport :=
  if MTU_GUARD <? Z.of_nat (length payload) then t else
  match dict_get addr.1 (ipv4_cache t) with
  | Some ip => mkTransport (ipv4_cache t) (sent_datagrams t ++ [mkDatagram ip addr.2 payload])
  | None =>
      match gethostbyname addr.1 with
      | None => t
      | Some ip => mkTransport (dict_set addr.1 ip (ipv4_cache t))
                     (sent_datagrams t ++ [mkDatagram ip addr.2 payload])
      end
  end.

(** [MembershipRunner.__init__], with the seeded random source and the wall
    clock in seconds as arguments. *)
Definition init_runner (self : PeerSpec) (peers : list PeerSpec) (cfg : SwimConfig) (rng : R)
    (model : string) (wall_clock_s : Z) : result Runner :=
  st ← init_state self peers rng cfg model wall_clock_s;
  Ok (mkRunner self st
        (foldl (fun d p => dict_set (ps_shard_id p) (ps_host p, ps_udp_port p) d) [] (self :: peers))
        [] 0 0 false false [] [] [] [] 0 (mkTransport [] [])).

(** [subscribe], [start_load_source], [start_heat_source],
    [register_ownership_observer] *)
Definition subscribe r := set_registrations (S (r_observers r)) (r_load_source r) (r_heat_source r)
  (r_ownership_observers r) r.
Definition start_load_source r := set_registrations (r_observers r) true (r_heat_source r)
  (r_ownership_observers r) r.
Definition start_heat_source r := set_registrations (r_observers r) (r_load_source r) true
  (r_ownership_observers r) r.
Definition register_ownership_observer r := set_registrations (r_observers r) (r_load_source r)
  (r_heat_source r) (S (r_ownership_observers r)) r.

(** [latest_loads], [latest_heat], [ownership_view] *)
Definition latest_loads r : dict string LoadReportRecord := r_peer_loads r.
Definition latest_heat r : dict string HeatReportRecord := r_peer_heat r.
Definition ownership_view r : list own_key := owned (r_ownership r).

Definition own_delta r (layer_idx expert_id action ts : Z) : OwnershipDeltaRecord :=
  mkOwner (ps_shard_id (r_self r)) layer_idx expert_id action ts.

(** [announce_ownership_add], at wall-clock millisecond [now_ms] *)
Definition announce_ownership_add (layer_idx expert_id ttl now_ms : Z) r : Runner :=
  let rec := own_delta r layer_idx expert_id 0 now_ms in
  set_ownership (apply_ownership rec (r_ownership r)).2 (r_outbound r ++ [mkOutbound rec ttl]) r.

(** [announce_ownership_remove]: its timestamp exceeds any recorded one. *)
Definition announce_ownership_remove (layer_idx expert_id ttl now_ms : Z) r : Runner :=
  let key := (ps_shard_id (r_self r), layer_idx, expert_id) in
  let existing_ts := match dict_get key (r_ownership r) with Some (_, ts) => ts | None => 0 end in
  let rec := own_delta r layer_idx expert_id 1 (Z.max now_ms (existing_ts + 1)) in
  set_ownership (dict_set key (entry_of_delta rec) (r_ownership r))
    (r_outbound r ++ [mkOutbound rec ttl]) r.

(** [_drain_outbound_ownership] *)
Definition drain_outbound (os : list OutboundOwnership)
    : list OwnershipDeltaRecord * list OutboundOwnership :=
  (ob_record <$> os,
   (fun o => mkOutbound (ob_record o) (ob_ttl o - 1)) <$> filter (fun o => 1 < ob_ttl o) os).

(** ** Receiving *)

(** [_on_recv_decoded]: take the gossip, call the ownership observers for the
    deltas applied, post the message unless the inbox is full. *)
Definition on_recv_decoded (m : IncomingMessage) r : Runner * list (nat * OwnershipDeltaRecord) :=
  let loads := foldl (fun d lr => dict_set (lr_shard_id lr) lr d) (r_peer_loads r) (msg_loads m) in
  let heat := foldl (fun d hr => dict_set (hr_shard_id hr) hr d) (r_peer_heat r) (msg_heat m) in
  let '(applied, own) := apply_ownerships (msg_ownership m) (r_ownership r) in
  let calls := od ← applied; (fun i => (i, od)) <$> seq 0 (r_ownership_observers r) in
  let r := set_gossip loads heat own r in
  (if decide (length (r_inbox r) < INTERNAL_QUEUE_MAX)%nat
   then set_inbox (r_inbox r ++ [m]) r else r,
   calls).

(** [_on_recv], called by the receive loop of the transport, which logs and
    drops what it raises. *)
Definition on_recv (raw : bytes) r : result (Runner * list (nat * OwnershipDeltaRecord)) :=
  m ← decode_membership_envelope raw;
  Ok (match m with
      | None => (r, [])
      | Some m => on_recv_decoded m r
      end).

Definition recv_datagram (raw : bytes) r : Runner * list (nat * OwnershipDeltaRecord) :=
  ok_or (r, []) (on_recv raw r).

(** ** The run loop *)

(** [while True: msg = self._inbox.get_nowait(); ...] *)
Fixpoint drain_inbox (times : nat -> float) (k : nat) (ms : list IncomingMessage)
    (st : MembershipState R) : result (list OutgoingMessage * MembershipState R) :=
  match ms with
  | [] => Ok ([], st)
  | m :: ms =>
      '(out, st) ← recv m (times k) st;
      '(rest, st) ← drain_inbox times (S k) ms st;
      Ok (out ++ rest, st)
  end.

(** The sending loop: an unknown target is skipped, and encoding may raise. *)
Definition send_one (addrs : dict string (string * Z)) (t : UDPTransport) (o : OutgoingMessage)
    : result UDPTransport :=
  match dict_get (target_shard_id o) addrs with
  | None => Ok t
  | Some addr =>
      raw ← encode_membership_envelope (payload o);
      Ok (send_to addr raw t)
  end.

(** One round of [_run]; the calls of [_fire_observers] are returned. *)
Definition run_iteration (rd : Round) r : result (Runner * list (nat * StateTransition)) :=
  '(out, st) ← tick (rd_now rd) (r_state r);
  '(more, st) ← drain_inbox (rd_recv_now rd) 0 (r_inbox r) st;
  let outgoing := out ++ more in
  let my_load := call_source (r_load_source r) (rd_load rd) in
  let my_heat := call_source (r_heat_source r) (rd_heat rd) in
  let '(owner_batch, outbound) :=
    match outgoing with
    | [] => ([], r_outbound r)
    | _ => drain_outbound (r_outbound r)
    end in
  let outgoing :=
    (fun o => mkOut (target_shard_id o) (fuse my_load my_heat owner_batch (payload o))) <$> outgoing in
  transport ← foldM (send_one (r_addr_by_id r)) (r_transport r) outgoing;
  let new_transitions := changes_since (r_watermark r) st in
  let calls := t ← new_transitions; (fun i => (i, t)) <$> seq 0 (r_observers r) in
  Ok (set_membership st outbound (transition_watermark st) transport r, calls).

(** ** What can happen to a running node *)

Inductive runner_op : Type :=
| Iterate (rd : Round)
| Datagram_in (raw : bytes)
| Announce_add (layer_idx expert_id ttl now_ms : Z)
| Announce_remove (layer_idx expert_id ttl now_ms : Z).

(** The runner afterwards, and the transition observers called. *)
Definition runner_step (op : runner_op) r : result (Runner * list (nat * StateTransition)) :=
  match op with
  | Iterate rd => run_iteration rd r
  | Datagram_in raw => Ok ((recv_datagram raw r).1, [])
  | Announce_add l x ttl now_ms => Ok (announce_ownership_add l x ttl now_ms r, [])
  | Announce_remove l x ttl now_ms => Ok (announce_ownership_remove l x ttl now_ms r, [])
  end.

Fixpoint runner_exec (ops : list runner_op) r : result (Runner * list (nat * StateTransition)) :=
  match ops with
  | [] => Ok (r, [])
  | op :: ops =>
      '(r, calls) ← runner_step op r;
      '(r, more) ← runner_exec ops r;
      Ok (r, calls ++ more)
  end.

End runner.
