(* ===== verification/RunnerTheorems.v ===== *)
(** * What the membership runner guarantees

    Over every sequence of loop rounds, datagrams and announcements: observers
    are called with exactly the transition log, the inbox is bounded, the
    ownership view is a last-writer-wins map and announced deltas are carried by
    exactly their number of rounds.  Two ways the code fails are proved as well:
    a claim with the largest incarnation kills the loop, and a re-announcement
    in the millisecond of a removal is lost. *)
From S2P Require Import Prelude PyDict PyFloat PyList PyRandom Records SwimState SwimSpec.
From S2P Require Import SwimRefine SwimGossip SwimProps Wire WireCodec Messages Ownership Runner.
From S2P Require Import SwimTheorems.
Open Scope Z_scope.

Section runner.
Context {R : Type} `{RandomLaws R} `{ProtobufLaws} (gethostbyname : string -> option string).
Abbreviation Runner := (MembershipRunner R).
Implicit Types (r : Runner) (st : MembershipState R).

(** The calls that [_fire_observers] makes for a list of transitions. *)
Definition fired (n : nat) (ts : list StateTransition) : list (nat * StateTransition) :=
  t ← ts; (fun i => (i, t)) <$> seq 0 n.

(** The calls of one observer. *)
Definition calls_of {A} (i : nat) (calls : list (nat * A)) : list A :=
  snd <$> filter (fun c => c.1 = i) calls.

Lemma calls_of_app {A} i (c1 c2 : list (nat * A)) : calls_of i (c1 ++ c2) = calls_of i c1 ++ calls_of i c2.
Proof. unfold calls_of. by rewrite filter_app, fmap_app. Qed.

Lemma calls_of_seq {A} i a n (x : A) :
  calls_of i ((fun i => (i, x)) <$> seq a n) = if decide (a <= i < a + n)%nat then [x] else [].
Proof.
  revert a. induction n as [|n IH]; intros a; [cbn; by rewrite decide_False by lia|].
  cbn [seq fmap list_fmap]. change (?y :: ?l) with ([y] ++ l). rewrite calls_of_app, IH.
  unfold calls_of at 1. rewrite filter_cons, filter_nil. cbn [fst].
  destruct (decide (a = i)) as [->|]; cbn.
  - by rewrite decide_False, decide_True by lia.
  - repeat case_decide; try done; lia.
Qed.

Lemma calls_of_fired i n ts : (i < n)%nat -> calls_of i (fired n ts) = ts.
Proof.
  intros Hi. unfold fired. induction ts as [|t ts IH]; [done|].
  cbn [mbind list_bind]. rewrite calls_of_app, IH, calls_of_seq. by rewrite decide_True by lia.
Qed.

Lemma fired_app n ts1 ts2 : fired n (ts1 ++ ts2) = fired n ts1 ++ fired n ts2.
Proof. unfold fired. by rewrite bind_app. Qed.

(** ** The invariant of a running node *)

Record runner_ok r : Prop := {
  ro_state : wf (r_state r);
  ro_watermark : r_watermark r = transition_watermark (r_state r);
  ro_inbox : (length (r_inbox r) <= INTERNAL_QUEUE_MAX)%nat;
  ro_view : dict_wf (r_ownership r);
}.

Lemma handle_total e st :
  wf st -> exists out st', handle e st = Ok (out, st') /\ wf st' /\ extends st st' /\ same_node st st'.
Proof.
  intros W. destruct (handle_returns e st W) as (out & st' & E & Hr & _).
  exists out, st'. split; [done|]. split; [by eapply runs_wf|].
  split; [by eapply runs_extends|by eapply runs_same_node].
Qed.

Lemma drain_inbox_total times k ms st :
  wf st -> exists out st', drain_inbox times k ms st = Ok (out, st') /\ wf st' /\ extends st st'.
Proof.
  revert k st. induction ms as [|m ms IH]; intros k st W; cbn.
  { exists [], st. split; [done|]. split; [done|apply extends_refl]. }
  destruct (handle_total (Recv m (times k)) st W) as (out & st1 & E & W1 & Hx & _).
  change (handle _ _) with (recv m (times k) st) in E. rewrite E. cbn.
  destruct (IH (S k) st1 W1) as (rest & st2 & -> & W2 & Hx2). cbn.
  eexists _, st2. split; [done|]. split; [done|by eapply extends_trans].
Qed.

Lemma extends_changes st st' w :
  extends st st' -> w = transition_watermark st -> transitions st' = transitions st ++ changes_since w st'.
Proof.
  intros (ts & E & _) ->. unfold changes_since, transition_watermark.
  by rewrite E, drop_app_length.
Qed.

Lemma send_one_value_error addrs t o e :
  send_one gethostbyname addrs t o = Raise e -> e = ValueError.
Proof.
  unfold send_one. case_match; [|done]. intros E. apply bind_raise in E as [E|(raw & _ & E)]; [|done].
  unfold encode_membership_envelope in E. apply bind_raise in E as [E|(p' & _ & E)]; [|done].
  pose proof (message_to (payload o)) as Hm. destruct (fits _); [|congruence].
  destruct Hm as (? & Hm & _). congruence.
Qed.

Lemma send_all_value_error addrs t os e :
  foldM (send_one gethostbyname addrs) t os = Raise e -> e = ValueError.
Proof.
  revert t. induction os as [|o os IH]; intros t E; cbn in E; [done|].
  apply bind_raise in E as [E|(t' & _ & E)]; [by eapply send_one_value_error|by eapply IH].
Qed.

(** A round either returns, having extended the log, or raises ValueError. *)
Lemma run_iteration_spec rd r :
  runner_ok r ->
  match run_iteration gethostbyname rd r with
  | Ok (r', calls) => runner_ok r' /\ r_observers r' = r_observers r /\
      exists ts, transitions (r_state r') = transitions (r_state r) ++ ts /\
        calls = fired (r_observers r) ts
  | Raise e => e = ValueError
  end.
Proof.
  intros [W Hw Hi Hv]. unfold run_iteration.
  destruct (handle_total (Tick (rd_now rd)) (r_state r) W) as (out & st1 & E & W1 & Hx1 & _).
  change (handle _ _) with (tick (rd_now rd) (r_state r)) in E. rewrite E. cbn [mbind result_bind].
  destruct (drain_inbox_total (rd_recv_now rd) 0 (r_inbox r) st1 W1) as (more & st2 & -> & W2 & Hx2).
  cbn [mbind result_bind].
  destruct (match out ++ more with [] => _ | _ => _ end) as [owners outbound].
  destruct (foldM _ _ _) as [tr|e] eqn:Ef; cbn [mbind result_bind].
  - split; [|split; [done|]].
    + split; cbn; [done|done|unfold INTERNAL_QUEUE_MAX; lia|done].
    + exists (changes_since (r_watermark r) st2). split; [|done]. cbn.
      apply extends_changes; [by eapply extends_trans|done].
  - by apply send_all_value_error in Ef.
Qed.

Lemma on_recv_decoded_ok m r :
  runner_ok r -> runner_ok (on_recv_decoded m r).1 /\
  r_observers (on_recv_decoded m r).1 = r_observers r /\
  r_state (on_recv_decoded m r).1 = r_state r.
Proof.
  intros [W Hw Hi Hv]. unfold on_recv_decoded.
  pose proof (apply_ownerships_wf (msg_ownership m) _ Hv) as Hv'.
  destruct (apply_ownerships _ _) as [applied own]. cbn in *. case_decide as Hl; split_and!; try done.
  split; try done. cbn. rewrite length_app. cbn in *. lia.
Qed.

Lemma recv_datagram_ok raw r :
  runner_ok r -> runner_ok (recv_datagram raw r).1 /\
  r_observers (recv_datagram raw r).1 = r_observers r /\
  r_state (recv_datagram raw r).1 = r_state r.
Proof.
  intros Hr. unfold recv_datagram, on_recv.
  destruct (decode_membership_envelope raw) as [[m|]|]; cbn; [by apply on_recv_decoded_ok|done..].
Qed.

Lemma runner_step_ok op r r' calls :
  runner_ok r -> runner_step gethostbyname op r = Ok (r', calls) ->
  runner_ok r' /\ r_observers r' = r_observers r /\
  exists ts, transitions (r_state r') = transitions (r_state r) ++ ts /\
    calls = fired (r_observers r) ts.
Proof.
  intros Hr E. destruct op as [rd|raw|l x ttl now_ms|l x ttl now_ms]; cbn [runner_step] in E.
  - pose proof (run_iteration_spec rd r Hr) as Hs. by rewrite E in Hs.
  - injection E as <- <-. destruct (recv_datagram_ok raw r Hr) as (H1' & H2' & H3').
    split; [done|]. split; [done|]. exists []. by rewrite H3', app_nil_r.
  - injection E as <- <-. destruct Hr. split; [|split; [done|exists []; by rewrite app_nil_r]].
    split; try done. cbn. by apply apply_ownership_wf.
  - injection E as <- <-. destruct Hr. split; [|split; [done|exists []; by rewrite app_nil_r]].
    split; try done. cbn. by apply dict_set_wf.
Qed.

Lemma runner_exec_ok ops r r' calls :
  runner_ok r -> runner_exec gethostbyname ops r = Ok (r', calls) ->
  runner_ok r' /\ r_observers r' = r_observers r /\
  exists ts, transitions (r_state r') = transitions (r_state r) ++ ts /\
    calls = fired (r_observers r) ts.
Proof.
  revert r calls. induction ops as [|op ops IH]; intros r calls Hr E; cbn in E.
  { injection E as <- <-. split; [done|]. split; [done|]. exists []. by rewrite app_nil_r. }
  apply bind_ok in E as ([r1 c1] & E1 & E). apply bind_ok in E as ([r2 c2] & E2 & E).
  injection E as <- <-. destruct (runner_step_ok _ _ _ _ Hr E1) as (Hr1 & Ho & ts & Ht & ->).
  destruct (IH _ _ Hr1 E2) as (Hr2 & Ho2 & ts2 & Ht2 & ->).
  split; [done|]. split; [congruence|]. exists (ts ++ ts2).
  by rewrite Ht2, Ht, fired_app, <- app_assoc, Ho.
Qed.

Lemma init_runner_ok self peers c rng model clock r :
  init_runner self peers c rng model clock = Ok r -> runner_ok r /\ transitions (r_state r) = [].
Proof.
  unfold init_runner. intros E. apply bind_ok in E as (st & Es & E). injection E as <-.
  destruct (init_wf self peers rng c model clock) as (st0 & E0 & W & _ & Ht & _).
  rewrite Es in E0. injection E0 as <-. split; [|done].
  split; cbn; [done|unfold transition_watermark; by rewrite Ht|unfold INTERNAL_QUEUE_MAX; lia|constructor].
Qed.

Lemma subscribe_ok n r :
  runner_ok r -> runner_ok (Nat.iter n subscribe r) /\
  r_observers (Nat.iter n subscribe r) = (n + r_observers r)%nat /\
  r_state (Nat.iter n subscribe r) = r_state r.
Proof.
  intros Hr. induction n as [|n IH]; [done|]. cbn. destruct IH as ([W Hw Hi Hv] & Ho & Hs).
  split; [by split|]. split; [exact (f_equal S Ho)|exact Hs].
Qed.

(** ** Theorems *)

(** C36: observers see everything once. After a node is constructed and its
    observers are registered, and as long as no round of its runner raises, each
    observer has been called with exactly the transitions of the log, in order,
    and the inbox stays bounded. (A round that raises ends the thread, and the
    transitions it logged before are seen by no observer: [runner_killed_by_claim].) *)
Theorem runner_observers_complete self peers c rng model clock n ops r0 r calls i :
  init_runner self peers c rng model clock = Ok r0 ->
  runner_exec gethostbyname ops (Nat.iter n subscribe r0) = Ok (r, calls) -> (i < n)%nat ->
  calls_of i calls = transitions (r_state r) /\
  (length (r_inbox r) <= INTERNAL_QUEUE_MAX)%nat.
Proof.
  intros E0 E Hi. destruct (init_runner_ok _ _ _ _ _ _ _ E0) as [Hr0 Ht0].
  destruct (subscribe_ok n r0 Hr0) as (Hr1 & Ho & Hs).
  destruct (runner_exec_ok _ _ _ _ Hr1 E) as (Hr & _ & ts & Ht & ->).
  split; [|apply (ro_inbox _ Hr)].
  rewrite calls_of_fired by (rewrite Ho; lia). by rewrite Ht, Hs, Ht0.
Qed.

Definition recv_all (ms : list IncomingMessage) r : Runner :=
  foldl (fun r m => (on_recv_decoded m r).1) r ms.

Lemma apply_ownerships_app l1 l2 v :
  (apply_ownerships (l1 ++ l2) v).2 = (apply_ownerships l2 (apply_ownerships l1 v).2).2.
Proof.
  revert v. induction l1 as [|od l1 IH]; intros v; [done|]. cbn.
  destruct (apply_ownership od v) as [b v1]. specialize (IH v1).
  destruct (apply_ownerships (l1 ++ l2) v1), (apply_ownerships l1 v1). done.
Qed.

Lemma on_recv_decoded_own m r :
  r_ownership (on_recv_decoded m r).1 = (apply_ownerships (msg_ownership m) (r_ownership r)).2.
Proof. unfold on_recv_decoded. destruct (apply_ownerships _ _) as [a own]. cbn. by case_decide. Qed.

Lemma recv_all_own ms r :
  r_ownership (recv_all ms r) = (apply_ownerships (concat (msg_ownership <$> ms)) (r_ownership r)).2.
Proof.
  unfold recv_all. revert r. induction ms as [|m ms IH]; intros r; [done|].
  cbn [foldl fmap list_fmap concat]. by rewrite IH, on_recv_decoded_own, apply_ownerships_app.
Qed.

(** C14: ownership gossip converges. Two nodes with the same view that receive
    the same set of ownership deltas, in any order, batching and repetition,
    agree on who owns which expert, provided deltas about one expert of one
    shard that carry the same timestamp are the same ([tie_diverges] shows that
    they need to be). *)
Theorem ownership_converges r1 r2 ms1 ms2 k :
  dict_wf (r_ownership r1) -> dict_wf (r_ownership r2) ->
  dict_get k (r_ownership r1) = dict_get k (r_ownership r2) ->
  (forall od, od ∈ concat (msg_ownership <$> ms1) <-> od ∈ concat (msg_ownership <$> ms2)) ->
  tie_free (option_list (dict_get k (r_ownership r1)) ++
    entries_for k (concat (msg_ownership <$> ms1))) ->
  k ∈ ownership_view (recv_all ms1 r1) <-> k ∈ ownership_view (recv_all ms2 r2).
Proof.
  intros W1 W2 Hk Hset Htie. unfold ownership_view.
  rewrite !owned_spec by (rewrite recv_all_own; by apply apply_ownerships_wf).
  rewrite !recv_all_own, !apply_ownerships_get, <- Hk.
  erewrite action_join_set; [done| |]; [by apply entries_for_set|].
  by destruct (dict_get k (r_ownership r1)).
Qed.

(** time to live. An announced delta rides on exactly the first [ttl] rounds
    that send something (once when [ttl] is not positive), then it is gone. *)
Theorem ownership_ttl os n :
  let pending := Nat.iter n (fun os => (drain_outbound os).2) os in
  (drain_outbound pending).1 =
    ob_record <$> filter (fun o => n = 0%nat \/ Z.of_nat n < ob_ttl o) os.
Proof.
  intros pending. assert (Hp : pending =
    (fun o => mkOutbound (ob_record o) (ob_ttl o - Z.of_nat n)) <$>
      filter (fun o => n = 0%nat \/ Z.of_nat n < ob_ttl o) os).
  { subst pending. induction n as [|n IH].
    - cbn. induction os as [|[rec ttl] os IH]; [done|].
      rewrite filter_cons, decide_True by (by left). cbn. rewrite <- IH. repeat f_equal. lia.
    - change (Nat.iter (S n) ?f os) with (f (Nat.iter n f os)). cbn beta. rewrite IH.
      unfold drain_outbound. cbn [snd]. clear IH. induction os as [|o os IHos]; [done|].
      rewrite !filter_cons. destruct (decide (Z.of_nat (S n) < ob_ttl o)).
      + rewrite !(decide_True (P := _ \/ _)) by lia. cbn [fmap list_fmap].
        rewrite filter_cons, decide_True by (cbn; lia). cbn [fmap list_fmap].
        rewrite IHos. f_equal. cbn. f_equal. lia.
      + rewrite (decide_False (P := S n = 0%nat \/ _)) by lia. rewrite <- IHos.
        destruct (decide (n = 0%nat \/ Z.of_nat n < ob_ttl o)); [|done].
        cbn [fmap list_fmap]. by rewrite filter_cons, decide_False by (cbn; lia). }
  rewrite Hp. unfold drain_outbound. cbn. rewrite <- list_fmap_compose. by apply list_fmap_ext.
Qed.

Definition is_ping_family (m : IncomingMessage) : bool :=
  match m with
  | Join _ | Delta _ => false
  | _ => true
  end.

Lemma msg_ownership_restamp m : msg_ownership (restamp_msg m) = msg_ownership m.
Proof. by destruct m. Qed.

Lemma msg_loads_restamp m : msg_loads (restamp_msg m) = msg_loads m.
Proof. by destruct m. Qed.

Lemma fuse_ownership load heat owners m :
  is_ping_family m = true -> msg_ownership (fuse load heat owners m) = msg_ownership m ++ owners.
Proof. by destruct m. Qed.

Lemma fuse_loads load heat owners m :
  is_ping_family m = true -> msg_loads (fuse load heat owners m) = msg_loads m ++ option_list load.
Proof. by destruct m. Qed.

Lemma on_recv_decoded_loads m r :
  latest_loads (on_recv_decoded m r).1 =
    foldl (fun d lr => dict_set (lr_shard_id lr) lr d) (r_peer_loads r) (msg_loads m).
Proof. unfold on_recv_decoded, latest_loads. destruct (apply_ownerships _ _). cbn. by case_decide. Qed.

(** what is piggybacked arrives. When a ping-family message with a load
    report and an ownership batch attached is encoded and its datagram reaches a
    node, that node's latest load report of the sender is the one sent, and its
    ownership view holds, for every delta of the batch, an entry at least as
    new; this is so even when the node's inbox is full. *)
Theorem piggyback_delivered load heat owners m raw r od :
  is_ping_family m = true -> od ∈ owners ->
  encode_membership_envelope (fuse (Some load) heat owners m) = Ok raw ->
  let r' := (recv_datagram raw r).1 in
  dict_get (lr_shard_id load) (latest_loads r') = Some load /\
  exists a ts, dict_get (key_of_delta od) (r_ownership r') = Some (a, ts) /\ od_ts_unix_ms od <= ts.
Proof.
  intros Hm Hod E. unfold recv_datagram, on_recv.
  assert (Hd : decode_membership_envelope raw = Ok (Some (restamp_msg (fuse (Some load) heat owners m)))).
  { pose proof (message_to (fuse (Some load) heat owners m)) as Ht.
    unfold encode_membership_envelope in E. unfold decode_membership_envelope.
    destruct (fits _); [|by rewrite Ht in E]. destruct Ht as (p & Hp & Hok & Hf).
    rewrite Hp in E. injection E as <-. by rewrite parse_serialize. }
  rewrite Hd. cbn [mbind result_bind ok_or].
  rewrite on_recv_decoded_loads, on_recv_decoded_own, msg_loads_restamp, msg_ownership_restamp.
  rewrite fuse_loads, fuse_ownership by done. split.
  { rewrite foldl_app. cbn. apply dict_get_set_eq. }
  rewrite apply_ownerships_get.
  assert (Hin : entry_of_delta od ∈ entries_for (key_of_delta od) (msg_ownership m ++ owners)).
  { unfold entries_for. apply list_elem_of_fmap. exists od. split; [done|].
    apply list_elem_of_filter. split; [done|]. apply elem_of_app. by right. }
  destruct (action_join_some (dict_get (key_of_delta od) (r_ownership r))
    (entries_for (key_of_delta od) (msg_ownership m ++ owners))) as [[a ts] Ej].
  { right. intros Hn. rewrite Hn in Hin. inversion Hin. }
  exists a, ts. split; [done|]. apply action_join_spec in Ej as [_ Hmax].
  exact (Hmax _ (or_intror Hin)).
Qed.

(** a removal that is followed, within its millisecond, by a new
    announcement wins: the node gossips the ADD but neither its own view nor the
    view of any node that has seen the removal records it. *)
Theorem ownership_readd_lost l x ttl ttl' t t' r r' :
  dict_wf (r_ownership r) -> t' <= t ->
  let r1 := announce_ownership_remove l x ttl t r in
  let r2 := announce_ownership_add l x ttl' t' r1 in
  let key := (ps_shard_id (r_self r), l, x) in
  (key ∉ ownership_view r2) /\
  exists removal add, r_outbound r2 = r_outbound r ++ [mkOutbound removal ttl; mkOutbound add ttl'] /\
    od_action removal = 1 /\ od_action add = 0 /\ key_of_delta add = key /\
    (dict_wf (r_ownership r') -> (key ∉ owned (apply_ownerships [removal] (r_ownership r')).2) ->
     key ∉ owned (apply_ownerships [removal; add] (r_ownership r')).2).
Proof.
  intros W Ht r1 r2 key.
  set (ex := match dict_get key (r_ownership r) with Some (_, ts) => ts | None => 0 end).
  set (removal := own_delta r l x 1 (Z.max t (ex + 1))).
  set (add := own_delta r l x 0 t').
  assert (Hadd : apply_ownership add (r_ownership r1) = (false, r_ownership r1)).
  { unfold apply_ownership. change (r_ownership r1) with (dict_set key (entry_of_delta removal) (r_ownership r)).
    change (key_of_delta add) with key. rewrite dict_get_set_eq. cbn.
    replace (Z.max t _ <? t') with false by lia. done. }
  assert (Hown : r_ownership r2 = r_ownership r1).
  { change (r_ownership r2) with (apply_ownership add (r_ownership r1)).2. by rewrite Hadd. }
  split.
  - unfold ownership_view. rewrite Hown, owned_spec by (cbn; by apply dict_set_wf).
    intros [ts Hg]. cbn in Hg. change (dict_get key (dict_set key (entry_of_delta removal) (r_ownership r))
      = Some (0, ts)) in Hg. rewrite dict_get_set_eq in Hg. done.
  - exists removal, add. split; [cbn; by rewrite <- app_assoc|]. split; [done|]. split; [done|].
    split; [done|]. intros W' Hno Hin. apply Hno.
    rewrite owned_spec, apply_ownerships_get in Hin |- * by by apply apply_ownerships_wf.
    assert (Hr : entries_for key [removal] = [entry_of_delta removal]).
    { unfold entries_for. by rewrite filter_cons, filter_nil, decide_True. }
    assert (Hra : entries_for key [removal; add] = [entry_of_delta removal; entry_of_delta add]).
    { unfold entries_for. by rewrite !filter_cons, filter_nil, !decide_True. }
    rewrite Hra in Hin. rewrite Hr. clear Hno Hr Hra.
    destruct (action_join_some (dict_get key (r_ownership r')) [entry_of_delta removal])
      as [[a ts] Ej]; [by right|].
    change (action_join ?e [?x; ?y]) with (newest (action_join e [x]) y) in Hin.
    destruct (action_join_spec _ _ _ Ej) as [_ Hmax]. destruct Hin as [t0 Hin]. exists t0.
    specialize (Hmax (entry_of_delta removal) (or_intror (proj2 (list_elem_of_singleton _ _) eq_refl))). cbn in Hmax.
    assert (Hn : newest (Some (a, ts)) (entry_of_delta add) = Some (0, t0)).
    { rewrite <- Hin. f_equal. symmetry. exact Ej. }
    unfold newest in Hn. cbn in Hn. replace (ts <? t') with false in Hn by lia.
    etransitivity; [exact Ej|exact Hn].
Qed.

(** The largest incarnation the wire can carry. *)
Definition max_incarnation : Z := 2 ^ 64 - 1.

(** a poisonous claim. A legal ping from a known peer that claims the node
    is suspect or dead at the largest incarnation makes the node refute with an
    incarnation that no longer fits the wire: encoding the ack raises
    ValueError in the run loop, whose thread ends. *)
Theorem runner_killed_by_claim m d rd r :
  runner_ok r -> r_inbox r = [Ping m] ->
  ping_from m ∈ dict_keys (members (r_state r)) ->
  is_Some (dict_get (ping_from m) (r_addr_by_id r)) ->
  d ∈ ping_deltas m -> shard_id d = self_id (r_state r) -> mstate d <> ALIVE ->
  incarnation d = max_incarnation ->
  run_iteration gethostbyname rd r = Raise ValueError.
Proof.
  intros Hr Hin Hfrom [addr Haddr] Hd Hid Hn Hi. pose proof (run_iteration_spec rd r Hr) as Hspec.
  destruct (run_iteration gethostbyname rd r) as [[r' calls]|e] eqn:E; [|by rewrite Hspec].
  exfalso. clear Hspec. unfold run_iteration in E.
  destruct (handle_total (Tick (rd_now rd)) (r_state r) (ro_state _ Hr)) as (out & st1 & E1 & W1 & _ & Hs).
  change (handle _ _) with (tick (rd_now rd) (r_state r)) in E1.
  rewrite E1, Hin in E. cbn [mbind result_bind drain_inbox] in E.
  destruct (handle_total (Recv (Ping m) (rd_recv_now rd 0%nat)) st1 W1) as (ack & st2 & E2 & _).
  destruct (ping_refuted m d (rd_recv_now rd 0%nat) st1 ack st2 W1 E2) as (rec & ds & -> & _ & _ & Hlt).
  { by apply Hs. }
  { done. }
  { rewrite Hid. symmetry. apply Hs. }
  { done. }
  change (handle _ _) with (recv (Ping m) (rd_recv_now rd 0%nat) st1) in E2.
  rewrite E2 in E. cbn [mbind result_bind app] in E.
  destruct (match out ++ _ with [] => _ | _ => _ end) as [owners outbound].
  match type of E with context [foldM ?f ?t ?xs] => destruct (foldM_raises f
    (mkOut (ping_from m) (fuse (call_source (r_load_source r) (rd_load rd))
       (call_source (r_heat_source r) (rd_heat rd)) owners
       (Ack (mkAck (self_id st1) (self_incarnation st2) (rec :: ds) [] [] []))))
    xs t) as [e Ee] end.
  - apply list_elem_of_fmap. eexists. split; [|apply elem_of_app; right; left]. done.
  - intros t. exists ValueError. unfold send_one. cbn [target_shard_id]. rewrite Haddr.
    unfold encode_membership_envelope. cbn. unfold u64, ranged, in_u64.
    unfold max_incarnation in Hi. by replace ((0 <=? self_incarnation st2) && _) with false by lia.
  - by rewrite Ee in E.
Qed.

End runner.

(** ** Witnesses: node "a" of the concrete cluster under its runner *)

Definition resolve (host : string) : option string := Some host.

Definition no_runner : MembershipRunner script :=
  mkRunner node_a no_state [] [] 0 0 false false [] [] [] [] 0 (mkTransport [] []).

Definition runner_a : MembershipRunner script :=
  ok_or no_runner (init_runner node_a [node_b; node_c] default_config [] "gemma" 7).

(** A round at [t], in which received messages are handled at [t] too. *)
Definition round_at (t : float) : Round :=
  mkRound t (fun _ => t) (Ok (mkLoad "a" 100 5)) (Raise RuntimeError).

Lemma runner_a_ok : runner_ok runner_a.
Proof.
  apply (init_runner_ok node_a [node_b; node_c] default_config [] "gemma" 7). reflexivity.
Qed.

Definition ops_a : list runner_op :=
  [Announce_add 1 2 5 10; Iterate (round_at (sec 1)); Iterate (round_at (flit 16 1));
   Iterate (round_at (sec 3))].

Definition ran_a : MembershipRunner script * list (nat * StateTransition) :=
  ok_or (no_runner, []) (runner_exec resolve ops_a (Nat.iter 2 subscribe runner_a)).

Lemma runner_observers_complete_witness :
  calls_of 1 ran_a.2 = transitions (r_state ran_a.1) /\
  (length (r_inbox ran_a.1) <= INTERNAL_QUEUE_MAX)%nat.
Proof.
  apply (runner_observers_complete resolve node_a [node_b; node_c] default_config [] "gemma" 7 2
    ops_a runner_a ran_a.1 ran_a.2 1).
  - vm_compute. reflexivity.
  - vm_compute. reflexivity.
  - lia.
Defined.

Definition add_b (ts : Z) : OwnershipDeltaRecord := mkOwner "b" 1 2 0 ts.
Definition remove_b (ts : Z) : OwnershipDeltaRecord := mkOwner "b" 1 2 1 ts.
Definition carrying (ods : list OwnershipDeltaRecord) : IncomingMessage :=
  Ping (mkPing "b" 0 [] [] [] ods).

Lemma ownership_converges_witness :
  ("b", 1, 2) ∈ ownership_view (recv_all [carrying [add_b 3; remove_b 4]; carrying [add_b 5]] runner_a) <->
  ("b", 1, 2) ∈ ownership_view (recv_all [carrying [add_b 5; add_b 3]; carrying [remove_b 4; add_b 3]] runner_a).
Proof.
  apply ownership_converges.
  - vm_compute. constructor.
  - vm_compute. constructor.
  - reflexivity.
  - intros od. cbn. rewrite !elem_of_cons. tauto.
  - apply (bool_decide_unpack _). vm_compute. exact I.
Defined.

Definition empty_ping : IncomingMessage := Ping (mkPing "a" 7 [] [] [] []).

Lemma piggyback_delivered_witness :
  let r' := (recv_datagram (ok_or [] (encode_membership_envelope
    (fuse (Some (mkLoad "a" 250 9)) None [add_b 3] empty_ping))) runner_a).1 in
  dict_get "a" (latest_loads r') = Some (mkLoad "a" 250 9) /\
  exists a ts, dict_get ("b", 1, 2) (r_ownership r') = Some (a, ts) /\ 3 <= ts.
Proof.
  apply (piggyback_delivered (mkLoad "a" 250 9) None [add_b 3] empty_ping _ runner_a (add_b 3)).
  - reflexivity.
  - left.
  - vm_compute. reflexivity.
Defined.

Lemma ownership_readd_lost_witness :
  ("a", 1, 2) ∉ ownership_view (announce_ownership_add 1 2 5 10 (announce_ownership_remove 1 2 5 10 runner_a)).
Proof.
  refine (proj1 (ownership_readd_lost 1 2 5 5 10 10 runner_a runner_a _ _)).
  - vm_compute. constructor.
  - lia.
Defined.

Definition poison : MemberRecord := gossip_about "a" SUSPECT max_incarnation "gemma".
Definition poison_ping : PingMsg := mkPing "b" 0 [poison] [] [] [].

Lemma runner_killed_by_claim_witness :
  fits (Ping poison_ping) = true /\
  run_iteration resolve (round_at (sec 1)) (on_recv_decoded (Ping poison_ping) runner_a).1 = Raise ValueError.
Proof.
  split; [vm_compute; reflexivity|].
  apply (runner_killed_by_claim resolve poison_ping poison).
  - apply on_recv_decoded_ok. exact runner_a_ok.
  - vm_compute. reflexivity.
  - vm_compute. right. left.
  - vm_compute. eexists. reflexivity.
  - left.
  - reflexivity.
  - discriminate.
  - reflexivity.
Defined.
