(* ===== verification/Bootstrap.v ===== *)
(** * membership/bootstrap.py: sequential seed contact

    [request_fn] is the caller's request function: it sends the payload to an
    address and returns the reply, or None on a timeout. *)
From S2P Require Import Prelude PyDict PyFloat PyList Records SwimState Wire WireCodec Messages.
Open Scope Z_scope.

Record BootstrapResult : Type := mkBootstrap { success : bool; boot_members : list MemberRecord }.

Definition join_record (self : PeerSpec) (model : string) : MemberRecord :=
  mkMember (ps_shard_id self) (ps_host self) (ps_udp_port self) ALIVE 0 model f0 None.

Section bootstrap.
Context `{Protobuf} (request_fn : string * Z -> bytes -> option bytes).
Implicit Types (self p : PeerSpec).

(** The loop over the seeds. *)
Fixpoint try_seeds (payload : bytes) self (peers : list PeerSpec) : result BootstrapResult :=
  match peers with
  | [] => Ok (mkBootstrap false [])
  | p :: peers =>
      if decide (ps_shard_id p = ps_shard_id self) then try_seeds payload self peers else
      match request_fn (ps_host p, ps_udp_port p) payload with
      | None => try_seeds payload self peers
      | Some reply =>
          decoded ← decode_membership_envelope reply;
          match decoded with
          | Some (Delta d) => Ok (mkBootstrap true (delta_members d))
          | _ => try_seeds payload self peers
          end
      end
  end.

Definition bootstrap_sequential self (peers : list PeerSpec) (model : string) : result BootstrapResult :=
  join_payload ← encode_membership_envelope (Join (mkJoin (join_record self model)));
  try_seeds join_payload self peers.

(** What a seed answers: nothing, something that is no view, or a view. *)
Definition seed_view (payload : bytes) p : option (list MemberRecord) :=
  match request_fn (ps_host p, ps_udp_port p) payload with
  | None => None
  | Some reply =>
      match decode_membership_envelope reply with
      | Ok (Some (Delta d)) => Some (delta_members d)
      | _ => None
      end
  end.

(** No seed asked answers with bytes that do not parse. *)
Definition replies_parse (payload : bytes) (peers : list PeerSpec) : Prop :=
  forall p reply, p ∈ peers -> request_fn (ps_host p, ps_udp_port p) payload = Some reply ->
    is_ok (decode_membership_envelope reply) = true.

Lemma try_seeds_find payload self peers :
  replies_parse payload peers ->
  try_seeds payload self peers =
    Ok (match list_find (fun p => ps_shard_id p <> ps_shard_id self /\ is_Some (seed_view payload p)) peers with
        | Some (_, p) => mkBootstrap true (default [] (seed_view payload p))
        | None => mkBootstrap false []
        end).
Proof.
  intros Hp. induction peers as [|p peers IH]; [done|]. cbn.
  assert (Hp' : replies_parse payload peers) by (intros q reply Hq; apply Hp; by right).
  specialize (IH Hp'). destruct (decide (ps_shard_id p = ps_shard_id self)) as [He|He].
  - rewrite IH. rewrite decide_False by naive_solver. by destruct (list_find _ peers) as [[]|].
  - assert (Hs : forall o, seed_view payload p = None ->
      o = match list_find (fun p => ps_shard_id p <> ps_shard_id self /\ is_Some (seed_view payload p)) peers with
          | Some (_, p) => mkBootstrap true (default [] (seed_view payload p))
          | None => mkBootstrap false [] end ->
      Ok o = Ok (match (if decide (ps_shard_id p <> ps_shard_id self /\ is_Some (seed_view payload p))
        then Some (0%nat, p) else prod_map S id <$> list_find (fun p => ps_shard_id p <> ps_shard_id self /\
          is_Some (seed_view payload p)) peers) with
          | Some (_, p) => mkBootstrap true (default [] (seed_view payload p))
          | None => mkBootstrap false [] end)).
    { intros o Hn ->. rewrite decide_False by (rewrite Hn; intros [_ [? ?]]; done).
      by destruct (list_find _ peers) as [[]|]. }
    destruct (request_fn _ _) as [reply|] eqn:Er.
    + specialize (Hp p reply ltac:(by left) Er). destruct (decode_membership_envelope reply) as [m|] eqn:Ed; [|done].
      cbn [mbind result_bind].
      destruct m as [[]|]; try (rewrite IH; apply Hs; [unfold seed_view; by rewrite Er, Ed|done]).
      rewrite decide_True by (split; [done|]; unfold seed_view; rewrite Er, Ed; by eexists).
      unfold seed_view. by rewrite Er, Ed.
    + rewrite IH. apply Hs; [unfold seed_view; by rewrite Er|done].
Qed.

(** bootstrap finds the first seed. For a node whose address fits the wire
    and seeds whose replies parse, the result is the view of the first seed in
    order, other than the node itself, that answers with a view; with none, it
    is the failure result, never an exception. *)
Theorem bootstrap_first_seed self peers model payload :
  encode_membership_envelope (Join (mkJoin (join_record self model))) = Ok payload ->
  replies_parse payload peers ->
  exists res, bootstrap_sequential self peers model = Ok res /\
    (success res = false -> boot_members res = [] /\
       forall p, p ∈ peers -> ps_shard_id p <> ps_shard_id self -> seed_view payload p = None) /\
    (success res = true -> exists pre p post, peers = pre ++ p :: post /\
       ps_shard_id p <> ps_shard_id self /\ seed_view payload p = Some (boot_members res) /\
       forall q, q ∈ pre -> ps_shard_id q <> ps_shard_id self -> seed_view payload q = None).
Proof.
  intros Ep Hp. unfold bootstrap_sequential. rewrite Ep. cbn [mbind result_bind].
  rewrite try_seeds_find by done. eexists. split; [done|].
  destruct (list_find _ peers) as [[i p]|] eqn:E; cbn; split; try done.
  - intros _. apply list_find_Some in E as (Hi & [Hne [v Hv]] & Hbefore).
    exists (take i peers), p, (drop (S i) peers). split; [by rewrite take_drop_middle|].
    split; [done|]. rewrite Hv. split; [done|]. intros q Hq Hqn.
    apply list_elem_of_lookup in Hq as [j Hj]. apply lookup_take_Some in Hj as [Hj Hlt].
    specialize (Hbefore _ _ Hj Hlt). destruct (seed_view payload q) eqn:Eq; [|done].
    exfalso. apply Hbefore. split; [done|]. unfold is_Some. rewrite ?Eq. by eexists.
  - intros _. split; [done|]. apply list_find_None in E. rewrite Forall_forall in E.
    intros p Hin Hne. specialize (E p Hin). destruct (seed_view payload p) eqn:Eq; [|done].
    exfalso. apply E. split; [done|]. unfold is_Some. rewrite ?Eq. by eexists.
Qed.

End bootstrap.

(** ** Witness: the first seed is down, the second answers *)

Definition boot_self : PeerSpec := mkPeer "a" "host-a" 5000.
Definition boot_seeds : list PeerSpec :=
  [mkPeer "a" "host-a" 5000; mkPeer "b" "host-b" 5001; mkPeer "c" "host-c" 5002].
Definition seed_reply : bytes := ok_or [] (encode_membership_envelope (Delta (mkDelta []))).
Definition boot_request (addr : string * Z) (payload : bytes) : option bytes :=
  if decide (addr.1 = "host-c") then Some seed_reply else None.

Lemma bootstrap_first_seed_witness :
  exists res, bootstrap_sequential boot_request boot_self boot_seeds "gemma" = Ok res /\
    (success res = true -> exists pre p post, boot_seeds = pre ++ p :: post /\
       ps_shard_id p <> "a").
Proof.
  destruct (bootstrap_first_seed boot_request boot_self boot_seeds "gemma"
    (ok_or [] (encode_membership_envelope (Join (mkJoin (join_record boot_self "gemma"))))))
    as (res & H1 & _ & H2).
  - vm_compute. reflexivity.
  - intros p reply _. unfold boot_request. destruct (decide _); [|discriminate].
    intros [= <-]. vm_compute. reflexivity.
  - exists res. split; [exact H1|]. intros Hs. destruct (H2 Hs) as (pre & p & post & E & Hne & _).
    exists pre, p, post. split; [exact E|exact Hne].
Defined.
