(* ===== verification/ShardMap.v ===== *)
(** * shard_map.py and shard.py: the static shard directory

    The YAML library is outside the repository: [yaml] is the type of the values
    [yaml.safe_load] returns, mappings being lists of pairs in document order,
    and [from_yaml] is the validation the code makes of them.  [str] of a float
    or of a container is a parameter. *)
From S2P Require Import Prelude PyDict PyFloat Records SwimState.
Open Scope Z_scope.

(** ** shard.py *)

Record LayerGroupShard : Type := mkLayerGroup { lg_start : Z; lg_end : Z }.

(** [LayerGroupShard.__init__] *)
Definition layer_group (start_layer end_layer : Z) : result LayerGroupShard :=
  if start_layer <? 0 then Raise ValueError
  else if end_layer <=? start_layer then Raise ValueError
  else Ok (mkLayerGroup start_layer end_layer).

Definition group_id (s : LayerGroupShard) : string :=
  "layer_" +:+ fmt_Z (lg_start s) +:+ "-" +:+ fmt_Z (lg_end s).
Definition layer_count (s : LayerGroupShard) : Z := lg_end s - lg_start s.
Definition contains (s : LayerGroupShard) (layer_idx : Z) : bool :=
  (lg_start s <=? layer_idx) && (layer_idx <? lg_end s).

(** ** shard_map.py *)

Record NodeAddress : Type := mkAddress { na_host : string; na_port : Z }.

Record ShardSpec : Type := mkShard {
  ss_shard_id : string;
  ss_address : NodeAddress;
  ss_start : Z;
  ss_end : Z;
  ss_moe : dict Z (list Z);
}.

Definition ss_udp_port (s : ShardSpec) : Z := na_port (ss_address s) + 1000.

Record ShardMap : Type := mkShardMap { entries : dict string ShardSpec; sm_model_id : string }.

Definition lookup_shard (sid : string) (m : ShardMap) : result ShardSpec :=
  or_raise KeyError (dict_get sid (entries m)).
Definition all_shards (m : ShardMap) : list string := dict_keys (entries m).

(** *** YAML values *)

#[warnings="-register-all"]
Inductive yaml : Type :=
| YNull
| YBool (b : bool)
| YInt (n : Z)
| YFloat (x : float)
| YStr (s : string)
| YList (l : list yaml)
| YMap (kv : list (yaml * yaml)).

(** [isinstance(y, int) and not isinstance(y, bool)] *)
Definition as_int (y : yaml) : result Z :=
  match y with
  | YInt n => Ok n
  | _ => Raise ValueError
  end.
Definition as_map (y : yaml) : result (list (yaml * yaml)) :=
  match y with
  | YMap kv => Ok kv
  | _ => Raise ValueError
  end.

(** [m[key]] for a string key of a loaded mapping *)
Fixpoint yget (key : string) (kv : list (yaml * yaml)) : option yaml :=
  match kv with
  | [] => None
  | (YStr k, v) :: kv => if decide (key = k) then Some v else yget key kv
  | _ :: kv => yget key kv
  end.

(** [if field not in spec: raise ValueError] *)
Definition required (key : string) (kv : list (yaml * yaml)) : result yaml :=
  or_raise ValueError (yget key kv).

Section from_yaml.
Context (repr : yaml -> string).

(** [str(y)] *)
Definition py_str (y : yaml) : string :=
  match y with
  | YStr s => s
  | YInt n => fmt_Z n
  | YBool true => "True"
  | YBool false => "False"
  | YNull => "None"
  | YFloat _ | YList _ | YMap _ => repr y
  end.

(** One entry of [moe_experts]. *)
Definition parse_moe_entry (d : dict Z (list Z)) (it : yaml * yaml) : result (dict Z (list Z)) :=
  layer ← as_int it.1;
  match it.2 with
  | YList ids => ids ← mapR as_int ids; Ok (dict_set layer ids d)
  | _ => Raise ValueError
  end.

Definition parse_moe (spec : list (yaml * yaml)) : result (dict Z (list Z)) :=
  match yget "moe_experts" spec with
  | None => Ok []
  | Some y => kv ← as_map y; foldM parse_moe_entry [] kv
  end.

(** The body of the loop over the shards. *)
Definition parse_shard (d : dict string ShardSpec) (it : yaml * yaml) : result (dict string ShardSpec) :=
  spec ← as_map it.2;
  host ← required "host" spec;
  port ← required "port" spec;
  start_layer ← required "start_layer" spec;
  end_layer ← required "end_layer" spec;
  port ← as_int port;
  start_layer ← as_int start_layer;
  end_layer ← as_int end_layer;
  if end_layer <=? start_layer then Raise ValueError else
  moe ← parse_moe spec;
  let sid := py_str it.1 in
  Ok (dict_set sid (mkShard sid (mkAddress (py_str host) port) start_layer end_layer moe) d).

(** [ShardMap.from_yaml] on what [yaml.safe_load] returned. *)
Definition from_yaml (raw : yaml) : result ShardMap :=
  match raw with
  | YMap kv =>
      shards ← required "shards" kv;
      shards_cfg ← as_map shards;
      model ← or_raise ValueError (yget "model_id" kv);
      match model with
      | YStr m =>
          if decide (m = "") then Raise ValueError else
          es ← foldM parse_shard [] shards_cfg;
          Ok (mkShardMap es m)
      | _ => Raise ValueError
      end
  | _ => Raise ValueError
  end.

(** ** A specification of the accepted documents *)

Definition is_int (y : yaml) : bool := is_ok (as_int y).

Definition moe_entry_ok (it : yaml * yaml) : bool :=
  is_int it.1 && match it.2 with YList ids => forallb is_int ids | _ => false end.

Definition shard_ok (y : yaml) : bool :=
  match y with
  | YMap spec =>
      match yget "host" spec, yget "port" spec, yget "start_layer" spec, yget "end_layer" spec with
      | Some _, Some (YInt _), Some (YInt s), Some (YInt e) =>
          (s <? e) &&
          match yget "moe_experts" spec with
          | None => true
          | Some (YMap kv) => forallb moe_entry_ok kv
          | Some _ => false
          end
      | _, _, _, _ => false
      end
  | _ => false
  end.

Definition document_ok (raw : yaml) : bool :=
  match raw with
  | YMap kv =>
      match yget "shards" kv, yget "model_id" kv with
      | Some (YMap shards), Some (YStr m) =>
          negb (bool_decide (m = "")) && forallb (fun it => shard_ok it.2) shards
      | _, _ => false
      end
  | _ => false
  end.

(** A spec the directory may hand out. *)
Definition spec_ok (sid : string) (s : ShardSpec) : Prop :=
  ss_shard_id s = sid /\ ss_start s < ss_end s.

(** ** Lemmas *)

Lemma as_int_error y e : as_int y = Raise e -> e = ValueError.
Proof. destruct y; naive_solver. Qed.

Lemma ints_spec ids : if forallb is_int ids then exists l, mapR as_int ids = Ok l else mapR as_int ids = Raise ValueError.
Proof.
  induction ids as [|y ids IH]; cbn; [by eexists|]. unfold is_int at 1.
  destruct (as_int y) as [n|e] eqn:E; cbn; [|by rewrite (as_int_error _ _ E)].
  destruct (forallb is_int ids); [destruct IH as [l ->]; by eexists|by rewrite IH].
Qed.

Lemma moe_fold_spec kv d :
  if forallb moe_entry_ok kv then is_ok (foldM parse_moe_entry d kv) = true
  else foldM parse_moe_entry d kv = Raise ValueError.
Proof.
  revert d. induction kv as [|[k v] kv IH]; intros d; [done|]. cbn [forallb foldM].
  unfold moe_entry_ok at 1, parse_moe_entry at 2 4, is_int at 1. cbn [fst snd].
  destruct (as_int k) as [n|e] eqn:Ek; cbn; [|by rewrite (as_int_error _ _ Ek)].
  destruct v; cbn; try done. pose proof (ints_spec l) as Hl.
  destruct (forallb is_int l); cbn; [destruct Hl as [l' ->]; cbn; apply IH|by rewrite Hl].
Qed.

Lemma parse_shard_spec d it :
  if shard_ok it.2 then exists s, parse_shard d it = Ok (dict_set (py_str it.1) s d) /\ spec_ok (py_str it.1) s
  else parse_shard d it = Raise ValueError.
Proof.
  destruct it as [k v]. unfold shard_ok, parse_shard, required. cbn [fst snd].
  destruct v; cbn; try done.
  destruct (yget "host" kv) as [h|]; cbn; [|done].
  destruct (yget "port" kv) as [p|]; cbn; [|done].
  destruct (yget "start_layer" kv) as [s|]; cbn; [|by destruct p].
  destruct (yget "end_layer" kv) as [e|]; cbn; [|by destruct p, s].
  destruct p; cbn; try done. destruct s; cbn; try done. destruct e; cbn; try done.
  destruct (Z.ltb_spec n0 n1), (Z.leb_spec n1 n0); cbn; try lia; try done.
  unfold parse_moe. destruct (yget "moe_experts" kv) as [m|]; cbn; [|by eexists].
  destruct m; cbn; try done. pose proof (moe_fold_spec kv0 []) as Hm.
  destruct (forallb moe_entry_ok kv0); [|by rewrite Hm].
  destruct (foldM _ _ _); [|done]. cbn. by eexists.
Qed.

Definition directory_ok (d : dict string ShardSpec) : Prop :=
  dict_wf d /\ forall sid s, dict_get sid d = Some s -> spec_ok sid s.

Lemma shards_fold_spec its d :
  directory_ok d ->
  if forallb (fun it => shard_ok it.2) its
  then exists d', foldM parse_shard d its = Ok d' /\ directory_ok d' /\
         forall sid, sid ∈ dict_keys d' <-> sid ∈ dict_keys d \/ sid ∈ py_str ∘ fst <$> its
  else foldM parse_shard d its = Raise ValueError.
Proof.
  revert d. induction its as [|it its IH]; intros d Hd; cbn [forallb foldM].
  { exists d. split; [done|]. split; [done|]. intros sid. cbn. split; [by left|].
    intros [?|Hn]; [done|inversion Hn]. }
  pose proof (parse_shard_spec d it) as Hs. destruct (shard_ok it.2); cbn [andb]; [|by rewrite Hs].
  destruct Hs as (s & -> & Hok). cbn [mbind result_bind].
  assert (Hd' : directory_ok (dict_set (py_str it.1) s d)).
  { destruct Hd as [Hw Hg]. split; [by apply dict_set_wf|]. intros sid s' Hs'. dict_cases; [done|by apply Hg]. }
  specialize (IH _ Hd'). destruct (forallb _ its); [|done].
  destruct IH as (d' & -> & Hok' & Hk). exists d'. split; [done|]. split; [done|].
  intros sid. rewrite Hk, dict_set_in_keys. cbn. rewrite elem_of_cons. naive_solver.
Qed.

(** What an accepted document gives. *)
Lemma from_yaml_directory raw m : from_yaml raw = Ok m -> directory_ok (entries m) /\ sm_model_id m <> "".
Proof.
  unfold from_yaml. destruct raw as [| | | | | |kv]; try done. intros E.
  apply bind_ok in E as (sh & _ & E). apply bind_ok in E as (its & _ & E). apply bind_ok in E as (model & _ & E).
  destruct model as [| | | |s| |]; try done. case_decide; [done|]. apply bind_ok in E as (d & Ed & [= <-]). split; [|done].
  match type of Ed with foldM _ _ ?its = _ => pose proof (shards_fold_spec its [] ltac:(split; [constructor|done])) as Hf end.
  case_match; [|by rewrite Hf in Ed]. destruct Hf as (d' & Hd & Hok & _). by rewrite Hd in Ed; injection Ed as <-.
Qed.

(** C34: loading a shard map. The document is accepted exactly when it is
    well-formed, every other document raises ValueError and nothing else; an
    accepted directory has the document's model id, one entry per shard key,
    stored under its own id, with a non-empty layer range. *)
Theorem from_yaml_spec raw :
  if document_ok raw then
    exists m kv shards, from_yaml raw = Ok m /\ raw = YMap kv /\ yget "shards" kv = Some (YMap shards) /\
      yget "model_id" kv = Some (YStr (sm_model_id m)) /\ sm_model_id m <> "" /\
      NoDup (all_shards m) /\
      (forall sid, sid ∈ all_shards m <-> sid ∈ py_str ∘ fst <$> shards) /\
      (forall sid, sid ∈ all_shards m -> exists s, lookup_shard sid m = Ok s /\
         ss_shard_id s = sid /\ ss_start s < ss_end s)
  else from_yaml raw = Raise ValueError.
Proof.
  unfold document_ok, from_yaml, required. destruct raw as [| | | | | |kv]; try done.
  destruct (yget "shards" kv) as [sh|] eqn:Es; cbn; [|done].
  destruct (yget "model_id" kv) as [mo|] eqn:Em; cbn; [|by destruct sh].
  destruct sh as [| | | | | |shards]; cbn; try done. destruct mo as [| | | |m| |]; cbn; try done.
  destruct (decide (m = "")) as [->|Hm]; [done|]. rewrite bool_decide_eq_false_2 by done. cbn.
  assert (He : directory_ok []) by (split; [constructor|done]).
  pose proof (shards_fold_spec shards [] He) as Hf. destruct (forallb _ shards); [|by rewrite Hf].
  destruct Hf as (d & -> & [Hw Hok] & Hk). cbn.
  exists (mkShardMap d m), kv, shards. split_and!; try done.
  - intros sid. unfold all_shards. cbn. rewrite Hk. cbn. split; [intros [Hn|?]; [inversion Hn|done]|by right].
  - intros sid Hin. apply dict_get_in in Hin as [s Hs]. cbn in Hs. unfold lookup_shard. cbn. rewrite Hs.
    exists s. split; [done|]. by apply Hok.
Qed.

End from_yaml.
