(* ===== verification/Trackers.v ===== *)
(** * load.py and heat.py: exponential moving averages in binary64

    The averages are computed with the rounding of the interpreter.  A tracker
    is a record with the constructor's validation; [round] of an average that
    is not finite raises, so the reports are in [result]. *)
From Stdlib Require Import Sorted.
From S2P Require Import Prelude PyDict PyFloat PyList PyRandom.
Open Scope Z_scope.

(** [not (0.0 < alpha <= 1.0)] *)
Definition alpha_ok (alpha : float) : bool := flt f0 alpha && fle alpha f1.

(** [alpha * x + (1.0 - alpha) * prev] *)
Definition ema_step (alpha x prev : float) : float :=
  fadd (fmul alpha x) (fmul (fsub f1 alpha) prev).

(** ** load.py *)

Record LoadTracker : Type := mkLoadTracker { lt_alpha : float; lt_jitter : float; lt_ema : float }.

Definition init_load (alpha jitter_pct : float) : result LoadTracker :=
  if negb (alpha_ok alpha) then Raise ValueError
  else if flt jitter_pct f0 then Raise ValueError
  else Ok (mkLoadTracker alpha jitter_pct f0).

Definition load_observe (depth : Z) (t : LoadTracker) : LoadTracker :=
  mkLoadTracker (lt_alpha t) (lt_jitter t) (ema_step (lt_alpha t) (of_int depth) (lt_ema t)).

Definition fneg (x : float) : float := SFopp x.

Section load.
Context {R : Type} `{RandomSource R}.

(** [report()]: the average times 100, jittered, at least 0. *)
Definition load_report (t : LoadTracker) (r : R) : result Z * R :=
  let '(jitter, r) :=
    if flt f0 (lt_jitter t)
    then let '(u, r) := rng_uniform (fneg (lt_jitter t)) (lt_jitter t) r in (fadd f1 u, r)
    else (f1, r) in
  ((n ← py_round (fmul (fmul (lt_ema t) (of_int 100)) jitter); Ok (Z.max 0 n)), r).

End load.

(** ** heat.py *)

Abbreviation heat_key := (Z * Z)%type.

Record HeatTracker : Type := mkHeatTracker {
  ht_alpha : float; ht_top_n : Z; ht_ema : dict heat_key float;
}.

Definition init_heat (alpha : float) (top_n : Z) : result HeatTracker :=
  if negb (alpha_ok alpha) then Raise ValueError
  else if top_n <=? 0 then Raise ValueError
  else Ok (mkHeatTracker alpha top_n []).

Definition set_ema (d : dict heat_key float) (t : HeatTracker) : HeatTracker :=
  mkHeatTracker (ht_alpha t) (ht_top_n t) d.

(** The occurrences of each id of a batch. *)
Definition count_one (d : dict Z Z) (e : Z) : dict Z Z :=
  dict_set e (default 0 (dict_get e d) + 1) d.
Definition count_ids (ids : list Z) : dict Z Z := foldl count_one [] ids.

Section heat.
Implicit Types (t : HeatTracker) (d : dict heat_key float).

Definition decay_one (alpha : float) (layer : Z) (counts : dict Z Z) d (it : heat_key * float) :=
  let '((l, e), v) := it in
  if bool_decide (l = layer) && negb (dict_mem e counts)
  then dict_set (l, e) (fmul (fsub f1 alpha) v) d else d.

(** The loop over a snapshot of the averages. *)
Definition decay (alpha : float) (layer : Z) (counts : dict Z Z) d : dict heat_key float :=
  foldl (decay_one alpha layer counts) d d.

Definition fold_count (alpha : float) (layer : Z) d (it : Z * Z) : dict heat_key float :=
  let '(eid, c) := it in
  dict_set (layer, eid) (ema_step alpha (of_int c) (default f0 (dict_get (layer, eid) d))) d.

(** [observe] *)
Definition heat_observe (layer : Z) (ids : list Z) t : HeatTracker :=
  match ids with
  | [] => t
  | _ =>
      let counts := count_ids ids in
      set_ema (foldl (fold_count (ht_alpha t) layer) (decay (ht_alpha t) layer counts (ht_ema t)) counts) t
  end.

Definition snapshot_entry (it : heat_key * float) : result (Z * Z * Z) :=
  let '((l, e), v) := it in
  n ← py_round (fmul v (of_int 100));
  Ok (l, e, n).

Definition hotter (a b : Z * Z * Z) : bool := b.2 <=? a.2.

(** [report] *)
Definition heat_report t : result (list (Z * Z * Z)) :=
  snapshot ← mapR snapshot_entry
    (filter (fun it : heat_key * float => flt f0 it.2 = true) (ht_ema t : list (heat_key * float)));
  Ok (slice_to (ht_top_n t) (sort_by hotter snapshot)).

(** [local_heat], [reset] *)
Definition local_heat (layer eid : Z) t : result Z :=
  py_round (fmul (default f0 (dict_get (layer, eid) (ht_ema t))) (of_int 100)).
Definition heat_reset (layer eid : Z) t : HeatTracker := set_ema (dict_pop (layer, eid) (ht_ema t)) t.

(** ** Lemmas *)

Lemma count_ids_gen ids (d : dict Z Z) (e : Z) :
  dict_get e (foldl count_one d ids) =
  if decide (e ∈ ids) then Some (default 0 (dict_get e d) + count e ids) else dict_get e d.
Proof.
  revert d. induction ids as [|x ids IH]; intros d; [done|]. cbn [foldl]. rewrite IH.
  unfold count, count_one. rewrite filter_cons. destruct (decide (x = e)) as [->|Hne].
  - rewrite (decide_True (P := e ∈ e :: ids)) by left. rewrite dict_get_set_eq. cbn -[Z.of_nat Z.add]. rewrite ?Nat2Z.inj_succ.
    case_decide as Hin; [f_equal; lia|].
    replace (filter (.= e) ids) with (@nil Z); [cbn; f_equal; lia|].
    symmetry. destruct (filter (.= e) ids) as [|y l] eqn:E; [done|]. exfalso. apply Hin.
    assert (Hy : y ∈ filter (.= e) ids) by (rewrite E; left).
    apply list_elem_of_filter in Hy as [-> Hy]. done.
  - rewrite dict_get_set_ne by done. destruct (decide (e ∈ ids)).
    + by rewrite decide_True by (by right).
    + by rewrite decide_False by (rewrite elem_of_cons; naive_solver).
Qed.

Lemma count_ids_get ids e :
  dict_get e (count_ids ids) = if decide (e ∈ ids) then Some (count e ids) else None.
Proof. unfold count_ids. rewrite count_ids_gen. case_decide; [f_equal; cbn; lia|done]. Qed.

Lemma count_ids_wf ids : dict_wf (count_ids ids).
Proof.
  unfold count_ids. assert (Hd : dict_wf (@nil (Z * Z))) by constructor. revert Hd.
  generalize (@nil (Z * Z)). induction ids as [|x ids IH]; intros d Hd; cbn; unfold count_one; auto using dict_set_wf.
Qed.

Lemma decay_fold_get alpha layer counts its d k :
  NoDup its.*1 -> (forall it, it ∈ its -> dict_get it.1 d = Some it.2) ->
  dict_get k (foldl (decay_one alpha layer counts) d its) =
  if decide (k ∈ its.*1 /\ k.1 = layer /\ dict_mem k.2 counts = false)
  then fmul (fsub f1 alpha) <$> dict_get k d else dict_get k d.
Proof.
  revert d. induction its as [|[[l e] v] its IH]; intros d Hn Hd.
  { cbn. rewrite decide_False; [done|]. intros [Hk _]. inversion Hk. }
  cbn [foldl fmap list_fmap] in *. apply NoDup_cons in Hn as [Hnin Hn]. cbn [fst] in *.
  assert (Hv : dict_get (l, e) d = Some v) by (apply (Hd (l, e, v)); left).
  rewrite IH; [|done|].
  - unfold decay_one. destruct (decide (k = (l, e))) as [->|Hk].
    + rewrite (decide_False (P := (l, e) ∈ its.*1 /\ _)) by naive_solver. cbn [fst snd].
      destruct (bool_decide (l = layer)) eqn:Hl; [apply bool_decide_eq_true in Hl|apply bool_decide_eq_false in Hl];
        cbn; [|by rewrite decide_False by naive_solver].
      destruct (dict_mem e counts) eqn:Hm; cbn; [by rewrite decide_False by naive_solver|].
      rewrite decide_True by (split; [left|done]). by rewrite dict_get_set_eq, Hv.
    + assert (Hget : dict_get k (if bool_decide (l = layer) && negb (dict_mem e counts)
        then dict_set (l, e) (fmul (fsub f1 alpha) v) d else d) = dict_get k d).
      { destruct (bool_decide (l = layer) && _); [by rewrite dict_get_set_ne|done]. }
      rewrite Hget. repeat case_decide; try done; exfalso; rewrite elem_of_cons in *; naive_solver.
  - intros [k' v'] Hin. cbn. assert (k' <> (l, e)).
    { intros ->. apply Hnin. apply list_elem_of_fmap. by exists (l, e, v'). }
    unfold decay_one. destruct (bool_decide (l = layer) && _); [rewrite dict_get_set_ne by done|]; apply (Hd (k', v')); by right.
Qed.

Lemma decay_get alpha layer counts d k :
  dict_wf d ->
  dict_get k (decay alpha layer counts d) =
  if decide (k.1 = layer /\ dict_mem k.2 counts = false)
  then fmul (fsub f1 alpha) <$> dict_get k d else dict_get k d.
Proof.
  intros Hd. unfold decay. rewrite decay_fold_get; [|done|intros [k' v] Hin; by apply dict_in_get].
  destruct (decide (k ∈ d.*1)) as [Hin|Hin].
  - repeat case_decide; naive_solver.
  - apply dict_get_None in Hin as Hn. rewrite Hn. by repeat case_decide.
Qed.

Lemma fold_counts_get alpha layer its d k :
  NoDup its.*1 ->
  dict_get k (foldl (fold_count alpha layer) d its) =
  match (if decide (k.1 = layer) then dict_get k.2 its else None) with
  | Some c => Some (ema_step alpha (of_int c) (default f0 (dict_get k d)))
  | None => dict_get k d
  end.
Proof.
  revert d. induction its as [|[e c] its IH]; intros d Hn; [by case_decide|].
  cbn [foldl fmap list_fmap dict_get] in *. apply NoDup_cons in Hn as [Hnin Hn]. rewrite IH by done.
  unfold fold_count. destruct k as [l x]. cbn [fst snd].
  destruct (decide (l = layer)) as [->|Hl]; [|rewrite dict_get_set_ne by congruence; done].
  destruct (decide (x = e)) as [->|Hx].
  - apply (dict_get_None (V := Z)) in Hnin as Hno. cbn in Hno. rewrite Hno. by rewrite dict_get_set_eq.
  - rewrite dict_get_set_ne by congruence. done.
Qed.

End heat.

Lemma hotter_total a b : hotter a b = true \/ hotter b a = true.
Proof. unfold hotter. lia. Qed.

Lemma hotter_trans a b c : hotter a b = true -> hotter b c = true -> hotter a c = true.
Proof. unfold hotter. lia. Qed.

(** ** Theorems *)

(** what a batch does to the heat. After [observe], an expert of the layer
    that occurs in the batch has alpha times its number of occurrences plus
    (1 - alpha) times its old average, a tracked expert of the layer that does
    not occur has decayed, and nothing else has changed: neither the order of
    the batch nor that of the tracker matters. *)
Theorem heat_observe_spec layer ids t l e :
  dict_wf (ht_ema t) ->
  dict_wf (ht_ema (heat_observe layer ids t)) /\
  dict_get (l, e) (ht_ema (heat_observe layer ids t)) =
    let old := dict_get (l, e) (ht_ema t) in
    if decide (l <> layer \/ ids = []) then old
    else if decide (e ∈ ids)
         then Some (ema_step (ht_alpha t) (of_int (count e ids)) (default f0 old))
         else fmul (fsub f1 (ht_alpha t)) <$> old.
Proof.
  intros Ht. destruct ids as [|i ids']; [cbn; by rewrite decide_True by (by right)|].
  set (ids := i :: ids'). cbn zeta.
  change (heat_observe layer ids t) with (set_ema (foldl (fold_count (ht_alpha t) layer)
    (decay (ht_alpha t) layer (count_ids ids) (ht_ema t)) (count_ids ids)) t). cbn [ht_ema set_ema]. split.
  - assert (Hd : dict_wf (decay (ht_alpha t) layer (count_ids ids) (ht_ema t))).
    { unfold decay. generalize (ht_ema t) at 2. intros its. revert Ht. generalize (ht_ema t).
      induction its as [|[[l' e'] v] its IH]; intros d Hd; [done|]. apply IH. unfold decay_one.
      case_match; auto using dict_set_wf. }
    revert Hd. generalize (decay (ht_alpha t) layer (count_ids ids) (ht_ema t)).
    generalize (count_ids ids). clear. intros its. induction its as [|[x c] its IH]; intros d Hd; [done|].
    apply IH. by apply dict_set_wf.
  - rewrite fold_counts_get by apply count_ids_wf. rewrite decay_get, count_ids_get by done. cbn [fst snd].
    unfold dict_mem. rewrite count_ids_get. destruct (decide (l = layer)) as [->|Hl].
    + rewrite (decide_False (P := layer <> layer \/ _)) by (unfold ids; naive_solver).
      destruct (decide (e ∈ ids)); [by rewrite decide_False by naive_solver|by rewrite decide_True].
    + rewrite (decide_True (P := l <> layer \/ _)) by (by left). by rewrite decide_False by naive_solver.
Qed.

(** the heat report. It has at most [top_n] entries, one per expert, each a
    tracked expert with a positive average and its rounded hundredfold, in
    descending order; and every positive average left out is no hotter than any
    entry that was kept. *)
Theorem heat_report_top t rep :
  dict_wf (ht_ema t) -> 0 <= ht_top_n t -> heat_report t = Ok rep ->
  Z.of_nat (length rep) <= ht_top_n t /\
  NoDup ((fun h => h.1) <$> rep) /\
  StronglySorted (fun a b => b.2 <= a.2) rep /\
  (forall l e n, (l, e, n) ∈ rep ->
     exists v, dict_get (l, e) (ht_ema t) = Some v /\ flt f0 v = true /\
       py_round (fmul v (of_int 100)) = Ok n) /\
  (forall l e v n, dict_get (l, e) (ht_ema t) = Some v -> flt f0 v = true ->
     py_round (fmul v (of_int 100)) = Ok n -> ((l, e, n) ∉ rep) ->
     forall h, h ∈ rep -> n <= h.2).
Proof.
  intros Hw Hn E. unfold heat_report in E. apply bind_ok in E as (snap & Es & E). injection E as <-.
  apply mapR_ok in Es. set (its := filter _ _) in Es.
  pose proof (sort_by_perm hotter snap) as Hp.
  pose proof (sort_by_sorted hotter hotter_total hotter_trans snap) as Hsort.
  pose proof (slice_drop (ht_top_n t) (sort_by hotter snap)) as Hsl.
  set (rep := slice_to (ht_top_n t) (sort_by hotter snap)) in *.
  set (rest := drop (length rep) (sort_by hotter snap)) in *. rewrite <- Hsl in Hp, Hsort.
  assert (Hkeys : (fun h : Z * Z * Z => h.1) <$> snap = its.*1).
  { revert Es. generalize its. clear. induction snap as [|[[l e] n] snap IH]; intros its Es;
      inversion Es as [|[[l' e'] v] ? its' ? Hh Ht]; subst; [done|]. cbn. rewrite (IH _ Ht).
    unfold snapshot_entry in Hh. apply bind_ok in Hh as (m & _ & Hh). by injection Hh as -> -> ->. }
  assert (Hin : forall l e n, (l, e, n) ∈ snap <-> exists v, dict_get (l, e) (ht_ema t) = Some v /\
    flt f0 v = true /\ py_round (fmul v (of_int 100)) = Ok n).
  { intros l e n. split.
    - intros Hx. apply list_elem_of_lookup in Hx as [i Hi].
      destruct (Forall2_lookup_r _ _ _ _ _ Es Hi) as ([[l' e'] v] & Hv & Hs).
      apply list_elem_of_lookup_2 in Hv. apply list_elem_of_filter in Hv as [Hpos Hv]. cbn in Hpos.
      unfold snapshot_entry in Hs. apply bind_ok in Hs as (m & Hm & Hs). injection Hs as -> -> ->.
      exists v. split; [by apply dict_in_get|done].
    - intros (v & Hg & Hpos & Hr). apply dict_get_Some_in in Hg.
      assert (Hit : (l, e, v) ∈ its) by (apply list_elem_of_filter; done).
      apply list_elem_of_lookup in Hit as [i Hi].
      destruct (Forall2_lookup_l _ _ _ _ _ Es Hi) as (y & Hy & Hs). unfold snapshot_entry in Hs.
      rewrite Hr in Hs. injection Hs as <-. by eapply list_elem_of_lookup_2. }
  assert (Hsub : rep ⊆+ snap) by (rewrite <- Hp; apply submseteq_inserts_r; done).
  split; [|split; [|split; [|split]]].
  - pose proof (slice_to_length (ht_top_n t) (sort_by hotter snap) Hn). fold rep in H. lia.
  - apply (NoDup_submseteq_map (fun h : Z * Z * Z => h.1) rep snap); [done|]. rewrite Hkeys.
    apply (NoDup_filter_map fst). exact Hw.
  - apply StronglySorted_prefix in Hsort. clear -Hsort. induction Hsort as [|a l Hs IH Hf]; constructor; [done|].
    eapply Forall_impl; [exact Hf|]. intros b. unfold hotter. cbn. lia.
  - intros l e n Hx. apply Hin. by eapply elem_of_submseteq.
  - intros l e v n Hg Hpos Hr Hno h Hh.
    assert (Hx : (l, e, n) ∈ snap) by (apply Hin; eauto). rewrite <- Hp in Hx.
    apply elem_of_app in Hx as [Hx|Hx]; [done|].
    pose proof (sorted_prefix _ _ _ _ _ Hsort Hh Hx) as Hle. unfold hotter in Hle. cbn in Hle. lia.
Qed.

(** ** Witnesses *)

Definition heat_tracker : HeatTracker :=
  heat_observe 3 [7; 7; 9] (heat_observe 3 [7; 1; 2] (ok_or (mkHeatTracker f0 0 []) (init_heat (flit 3 1) 2))).

Lemma heat_tracker_wf : dict_wf (ht_ema heat_tracker).
Proof. apply (bool_decide_unpack _). vm_compute. exact I. Qed.

Lemma heat_observe_spec_witness :
  dict_get (3, 1) (ht_ema (heat_observe 3 [7; 7; 9] heat_tracker)) =
    fmul (fsub f1 (flit 3 1)) <$> dict_get (3, 1) (ht_ema heat_tracker).
Proof. exact (proj2 (heat_observe_spec 3 [7; 7; 9] heat_tracker 3 1 heat_tracker_wf)). Defined.

Lemma heat_report_top_witness :
  NoDup ((fun h => h.1) <$> ok_or [] (heat_report heat_tracker)).
Proof.
  destruct (heat_report_top heat_tracker (ok_or [] (heat_report heat_tracker))) as (_ & H & _).
  - exact heat_tracker_wf.
  - discriminate.
  - vm_compute. reflexivity.
  - exact H.
Defined.
