(* ===== verification/Blake2b.v ===== *)
(** * BLAKE2b (RFC 7693), the hash of hashlib the code uses

    [blake2b n data] is [hashlib.blake2b(data, digest_size=n).digest()] without
    a key: 64-bit words as [Z] with the wrap-around written out, little-endian
    words, 128-byte blocks, twelve rounds. *)
From S2P Require Import Prelude PyFloat Wire Framing.
Open Scope Z_scope.

Definition w64 (n : Z) : Z := n mod 2 ^ 64.
Definition rotr64 (x n : Z) : Z := Z.lor (Z.shiftr x n) (w64 (Z.shiftl x (64 - n))).

Definition IV : list Z :=
  [0x6a09e667f3bcc908; 0xbb67ae8584caa73b; 0x3c6ef372fe94f82b; 0xa54ff53a5f1d36f1;
   0x510e527fade682d1; 0x9b05688c2b3e6c1f; 0x1f83d9abfb41bd6b; 0x5be0cd19137e2179].

Definition SIGMA : list (list nat) :=
  [[0; 1; 2; 3; 4; 5; 6; 7; 8; 9; 10; 11; 12; 13; 14; 15];
   [14; 10; 4; 8; 9; 15; 13; 6; 1; 12; 0; 2; 11; 7; 5; 3];
   [11; 8; 12; 0; 5; 2; 15; 13; 10; 14; 3; 6; 7; 1; 9; 4];
   [7; 9; 3; 1; 13; 12; 11; 14; 2; 6; 5; 10; 4; 0; 15; 8];
   [9; 0; 5; 7; 2; 4; 10; 15; 14; 1; 11; 12; 6; 8; 3; 13];
   [2; 12; 6; 10; 0; 11; 8; 3; 4; 13; 7; 5; 15; 14; 1; 9];
   [12; 5; 1; 15; 14; 13; 4; 10; 0; 7; 6; 3; 9; 2; 8; 11];
   [13; 11; 7; 14; 12; 1; 3; 9; 5; 0; 15; 4; 8; 6; 2; 10];
   [6; 15; 14; 9; 11; 3; 0; 8; 12; 2; 13; 7; 1; 4; 10; 5];
   [10; 2; 8; 4; 7; 6; 1; 5; 15; 11; 9; 14; 3; 12; 13; 0]]%nat.

Definition at_w (v : list Z) (i : nat) : Z := nth i v 0.

(** The mixing function on positions [a b c d] of the work vector. *)
Definition mix (v : list Z) (abcd : nat * nat * nat * nat) (x y : Z) : list Z :=
  let '(a, b, c, d) := abcd in
  let va := w64 (at_w v a + at_w v b + x) in
  let vd := rotr64 (Z.lxor (at_w v d) va) 32 in
  let vc := w64 (at_w v c + vd) in
  let vb := rotr64 (Z.lxor (at_w v b) vc) 24 in
  let va := w64 (va + vb + y) in
  let vd := rotr64 (Z.lxor vd va) 16 in
  let vc := w64 (vc + vd) in
  let vb := rotr64 (Z.lxor vb vc) 63 in
  <[d := vd]> (<[c := vc]> (<[b := vb]> (<[a := va]> v))).

Definition LANES : list (nat * nat * nat * nat) :=
  [(0, 4, 8, 12); (1, 5, 9, 13); (2, 6, 10, 14); (3, 7, 11, 15);
   (0, 5, 10, 15); (1, 6, 11, 12); (2, 7, 8, 13); (3, 4, 9, 14)]%nat.

Definition round (m : list Z) (v : list Z) (i : nat) : list Z :=
  let s := nth (i mod 10) SIGMA [] in
  foldl (fun v '(j, lane) => mix v lane (at_w m (nth (2 * j) s 0%nat)) (at_w m (nth (2 * j + 1) s 0%nat)))
    v (zip (seq 0 8) LANES).

Fixpoint xor_all (a b c : list Z) : list Z :=
  match a, b, c with
  | x :: a, y :: b, z :: c => Z.lxor (Z.lxor x y) z :: xor_all a b c
  | _, _, _ => []
  end.

(** One block; [t] counts the bytes so far and [last] marks the final block. *)
Definition compress (h m : list Z) (t : Z) (last : bool) : list Z :=
  let v := h ++ IV in
  let v := <[12%nat := Z.lxor (at_w v 12) (w64 t)]> v in
  let v := <[13%nat := Z.lxor (at_w v 13) (Z.shiftr t 64)]> v in
  let v := if last then <[14%nat := Z.lxor (at_w v 14) (2 ^ 64 - 1)]> v else v in
  let v := foldl (round m) v (seq 0 12) in
  xor_all h (take 8 v) (drop 8 v).

Fixpoint le_word (b : bytes) : Z :=
  match b with
  | [] => 0
  | x :: b => byte_val x + 256 * le_word b
  end.

Fixpoint le_bytes (n : nat) (w : Z) : bytes :=
  match n with
  | O => []
  | S n => byte_of w :: le_bytes n (Z.shiftr w 8)
  end.

(** The sixteen words of a block of at most 128 bytes, padded with zeros. *)
Definition block_words (b : bytes) : list Z :=
  let b := b ++ repeat x00 (128 - length b) in
  (fun i => le_word (take 8 (drop (8 * i) b))) <$> seq 0 16.

Fixpoint hash_blocks (fuel : nat) (h : list Z) (t : Z) (data : bytes) : list Z :=
  match fuel with
  | O => h
  | S fuel =>
      if decide (length data <= 128)%nat
      then compress h (block_words data) (t + Z.of_nat (length data)) true
      else hash_blocks fuel (compress h (block_words (take 128 data)) (t + 128) false) (t + 128)
             (drop 128 data)
  end.

(** A block is consumed at every step but the last: the fuel is enough. *)
Definition blake2b (n : nat) (data : bytes) : bytes :=
  let h0 := match IV with
            | x :: iv => Z.lxor x (Z.lxor 0x01010000 (Z.of_nat n)) :: iv
            | [] => []
            end in
  take n (concat (le_bytes 8 <$> hash_blocks (S (length data)) h0 0 data)).

Definition hex (b : bytes) : list Z := byte_val <$> b.

Lemma mix_length v l x y : length (mix v l x y) = length v.
Proof. destruct l as [[[a b] c] d]. unfold mix. by rewrite !length_insert. Qed.

Lemma round_length m v i : length (round m v i) = length v.
Proof.
  unfold round. generalize (zip (seq 0 8) LANES). generalize (nth (i mod 10) SIGMA []). intros s l.
  revert v. induction l as [|[j lane] l IH]; intros v; [done|]. cbn [foldl]. by rewrite IH, mix_length.
Qed.

Lemma compress_length h m t last : length h = 8%nat -> length (compress h m t last) = 8%nat.
Proof.
  intros Hh. unfold compress.
  match goal with |- context [foldl (round m) ?v0 ?l] =>
    assert (Hv : length (foldl (round m) v0 l) = 16%nat) end.
  { match goal with |- context [foldl (round m) ?v0 ?l] =>
      assert (Hv0 : length v0 = 16%nat); [|revert Hv0; generalize v0; generalize l] end.
    { destruct last; rewrite ?length_insert, length_app, Hh; done. }
    intros l. induction l as [|i l IH]; intros v Hv; [done|]. apply IH. by rewrite round_length. }
  generalize dependent (foldl (round m)). intros f Hv.
  match goal with |- context [f ?v0 ?l] => set (v := f v0 l) in * end.
  do 9 (destruct h as [|? h]; try done).
  do 17 (destruct v as [|? v]; try done).
Qed.

Lemma hash_blocks_length fuel h t data : length h = 8%nat -> length (hash_blocks fuel h t data) = 8%nat.
Proof.
  revert h t data. induction fuel as [|fuel IH]; intros h t data Hh; [done|]. cbn.
  case_decide; auto using compress_length.
Qed.

Lemma le_bytes_length n w : length (le_bytes n w) = n.
Proof. revert w. induction n; intros w; cbn; auto. Qed.

(** A digest has the requested size. *)
Lemma blake2b_length n data : (n <= 64)%nat -> length (blake2b n data) = n.
Proof.
  intros Hn. unfold blake2b. cbn zeta.
  match goal with |- context [hash_blocks ?f ?h ?t ?d] =>
    pose proof (hash_blocks_length f h t d eq_refl) as Hl; generalize dependent (hash_blocks f h t d) end.
  intros h Hl. rewrite length_take. do 9 (destruct h as [|? h]; try done).
  cbn [fmap list_fmap concat]. rewrite !length_app, !le_bytes_length. cbn. lia.
Qed.

(** The published digests of "abc" and of the empty string. *)
Example blake2b_abc : take 8 (hex (blake2b 64 [x61; x62; x63])) =
  [0xba; 0x80; 0xa5; 0x3f; 0x98; 0x1c; 0x4d; 0x0d].
Proof. vm_compute. reflexivity. Qed.

Example blake2b_empty : take 8 (hex (blake2b 32 [])) = [14; 87; 81; 192; 38; 229; 67; 178].
Proof. vm_compute. reflexivity. Qed.

(** Two blocks. *)
Example blake2b_200 : take 8 (hex (blake2b 32 (byte_of ∘ Z.of_nat <$> seq 0 200))) =
  [99; 195; 217; 122; 159; 136; 148; 213].
Proof. vm_compute. reflexivity. Qed.
