(* ===== verification/Provenance.v ===== *)
(** * request.py and provenance.py: the provenance chain

    Entries, their digest, their wire form, and [validate_chain] rule by rule in
    the order of the code.  The callbacks of [validate_chain] are arguments;
    [shard_lookup] may raise.  A node id is a string whose UTF-8 encoding is
    its bytes.  Tensors enter only through their bytes. *)
From S2P Require Import Prelude PyDict PyFloat PyList Wire WireCodec Framing Blake2b.
Open Scope Z_scope.

(** ** request.py *)

Inductive OpType : Type :=
| OP_UNSPECIFIED | OP_EMBED | OP_LAYER_ATOMIC | OP_ATTENTION_ROUTE
| OP_EXPERT | OP_AGGREGATE | OP_FINALIZE | OP_SHARED_EXPERT.

#[export] Instance OpType_eq_dec : EqDecision OpType.
Proof. solve_decision. Defined.

Definition op_int (t : OpType) : Z :=
  match t with
  | OP_UNSPECIFIED => 0 | OP_EMBED => 1 | OP_LAYER_ATOMIC => 2 | OP_ATTENTION_ROUTE => 3
  | OP_EXPERT => 4 | OP_AGGREGATE => 5 | OP_FINALIZE => 6 | OP_SHARED_EXPERT => 7
  end.

(** [OpType(n)] *)
Definition op_of_int (n : Z) : result OpType :=
  match n with
  | 0 => Ok OP_UNSPECIFIED | 1 => Ok OP_EMBED | 2 => Ok OP_LAYER_ATOMIC | 3 => Ok OP_ATTENTION_ROUTE
  | 4 => Ok OP_EXPERT | 5 => Ok OP_AGGREGATE | 6 => Ok OP_FINALIZE | 7 => Ok OP_SHARED_EXPERT
  | _ => Raise ValueError
  end.

Record OpDescriptor : Type := mkOp { opd_type : OpType; opd_layer : Z; opd_expert : Z }.

#[export] Instance OpDescriptor_eq_dec : EqDecision OpDescriptor.
Proof. solve_decision. Defined.

(** [struct.pack("<BII", ...)] *)
Definition pack_le32 (n : Z) : result bytes := if in_u32 n then Ok (le_bytes 4 n) else Raise StructError.
Definition op_pack (op : OpDescriptor) : result bytes :=
  l ← pack_le32 (opd_layer op);
  x ← pack_le32 (opd_expert op);
  Ok (byte_of (op_int (opd_type op)) :: l ++ x).

Record ProvenanceEntry : Type := mkProv {
  e_shard_id : string;
  e_node_id : string;
  e_timestamp : float;
  e_hash : bytes;
  e_parents : list bytes;
  e_op : option OpDescriptor;
}.

#[export] Instance ProvenanceEntry_eq_dec : EqDecision ProvenanceEntry.
Proof. solve_decision. Defined.

Record Request : Type := mkRequest {
  rq_request_id : string;
  rq_sequence_id : string;
  rq_prompt : list Z;
  rq_position : Z;
  rq_provenance : list ProvenanceEntry;
}.

(** [append_provenance], at time [now] *)
Definition append_provenance (shard_id node_id : string) (hash : bytes) (parents : list bytes)
    (op : option OpDescriptor) (now : float) (r : Request) : Request :=
  mkRequest (rq_request_id r) (rq_sequence_id r) (rq_prompt r) (rq_position r)
    (rq_provenance r ++ [mkProv shard_id node_id now hash parents op]).

(** ** provenance.py: digests and entries *)

Definition utf8 (s : string) : bytes := String.list_byte_of_string s.

(** What [compute_hash] feeds to the hash, in order. *)
Definition hash_input (parents : list bytes) (node_id : string) (op : OpDescriptor) (output : bytes)
    : result bytes :=
  p ← op_pack op;
  Ok (concat parents ++ utf8 node_id ++ p ++ output).

Definition compute_hash (parents : list bytes) (node_id : string) (op : OpDescriptor) (output : bytes)
    : result bytes :=
  input ← hash_input parents node_id op output;
  Ok (blake2b 32 input).

(** [build_entry] *)
Definition build_entry (node_id : string) (op : OpDescriptor) (output : bytes) (parents : list bytes)
    (now : float) : result ProvenanceEntry :=
  digest ← compute_hash parents node_id op output;
  Ok (mkProv node_id node_id now digest parents (Some op)).

Definition op_to_pb (op : OpDescriptor) : result OpDescriptorPb :=
  l ← u32 (opd_layer op);
  x ← u32 (opd_expert op);
  Ok (mkOpPb (op_int (opd_type op)) l x).

Definition entry_to_pb (e : ProvenanceEntry) : result ProvenanceEntryPb :=
  op ← match e_op e with
       | None => Ok None
       | Some op => o ← op_to_pb op; Ok (Some o)
       end;
  Ok (mkProvPb (e_hash e) (e_parents e) (e_node_id e) op (e_timestamp e)).

Definition entry_from_pb (pb : ProvenanceEntryPb) : result ProvenanceEntry :=
  op ← match pe_op pb with
       | None => Ok None
       | Some o =>
           t ← op_of_int (opp_op_type o);
           Ok (Some (mkOp t (opp_layer_idx o) (opp_expert_id o)))
       end;
  Ok (mkProv (pe_node_id pb) (pe_node_id pb) (pe_timestamp pb) (pe_hash pb) (pe_parents pb) op).

(** ** validate_chain *)

Definition has_type (t : OpType) (e : ProvenanceEntry) : bool :=
  match e_op e with
  | Some op => bool_decide (opd_type op = t)
  | None => false
  end.

(** Rule 1. *)
Fixpoint finalize_last (chain : list ProvenanceEntry) : bool :=
  match chain with
  | [] => true
  | [_] => true
  | e :: chain => negb (has_type OP_FINALIZE e) && finalize_last chain
  end.

Definition rule1 (chain : list ProvenanceEntry) : result unit :=
  match chain with
  | [] => Raise ProvenanceError
  | first :: _ =>
      _ ← require (has_type OP_EMBED first) ProvenanceError;
      require (finalize_last chain) ProvenanceError
  end.

(** Rule 2. *)
Definition covers (e : ProvenanceEntry) : option Z :=
  match e_op e with
  | Some op => if bool_decide (opd_type op = OP_LAYER_ATOMIC) || bool_decide (opd_type op = OP_AGGREGATE)
               then Some (opd_layer op) else None
  | None => None
  end.

Definition layers_covered (chain : list ProvenanceEntry) : list Z := omap covers chain.

(** [range(n)] *)
Definition zrange (n : Z) : list Z := Z.of_nat <$> seq 0 (Z.to_nat n).

Definition max_of (x : Z) (l : list Z) : Z := foldl Z.max x l.

Definition rule2 (total_layers : Z) (chain : list ProvenanceEntry) : result unit :=
  let covered := layers_covered chain in
  let all_in n := forallb (fun l => bool_decide (l ∈ covered)) (zrange n) in
  if existsb (has_type OP_FINALIZE) chain then require (all_in total_layers) ProvenanceError
  else match covered with
       | [] => Ok tt
       | l :: ls => require (all_in (max_of l ls + 1)) ProvenanceError
       end.

(** Rule 3: the split operations of each layer. *)
Record Bucket : Type := mkBucket {
  b_route : list ProvenanceEntry; b_shared : list ProvenanceEntry;
  b_expert : list ProvenanceEntry; b_aggregate : list ProvenanceEntry;
}.

#[export] Instance Bucket_eq_dec : EqDecision Bucket.
Proof. solve_decision. Defined.

Definition empty_bucket : Bucket := mkBucket [] [] [] [].

Definition add_to_bucket (t : OpType) (e : ProvenanceEntry) (b : Bucket) : option Bucket :=
  match t with
  | OP_ATTENTION_ROUTE => Some (mkBucket (b_route b ++ [e]) (b_shared b) (b_expert b) (b_aggregate b))
  | OP_SHARED_EXPERT => Some (mkBucket (b_route b) (b_shared b ++ [e]) (b_expert b) (b_aggregate b))
  | OP_EXPERT => Some (mkBucket (b_route b) (b_shared b) (b_expert b ++ [e]) (b_aggregate b))
  | OP_AGGREGATE => Some (mkBucket (b_route b) (b_shared b) (b_expert b) (b_aggregate b ++ [e]))
  | _ => None
  end.

Definition bucket_one (d : dict Z Bucket) (e : ProvenanceEntry) : dict Z Bucket :=
  match e_op e with
  | None => d
  | Some op =>
      match add_to_bucket (opd_type op) e (default empty_bucket (dict_get (opd_layer op) d)) with
      | None => d
      | Some b => dict_set (opd_layer op) b d
      end
  end.

Definition split_ops_by_layer (chain : list ProvenanceEntry) : dict Z Bucket := foldl bucket_one [] chain.

(** The expert id of an OP_EXPERT entry ([assert e.op is not None]). *)
Definition expert_of (e : ProvenanceEntry) : result Z :=
  op ← or_raise AssertionError (e_op e);
  Ok (opd_expert op).

(** The loop that looks for a duplicate expert id. *)
Fixpoint distinct_experts (seen : list Z) (es : list ProvenanceEntry) : result unit :=
  match es with
  | [] => Ok tt
  | e :: es =>
      x ← expert_of e;
      if decide (x ∈ seen) then Raise ProvenanceError else distinct_experts (x :: seen) es
  end.

Definition check_bucket (b : Bucket) : result unit :=
  match b_route b, b_shared b, b_expert b, b_aggregate b with
  | [_], [shared], _ :: _, [agg] =>
      _ ← distinct_experts [] (b_expert b);
      _ ← require (bool_decide (e_hash shared ∈ e_parents agg)) ProvenanceError;
      require (forallb (fun e => bool_decide (e_hash e ∈ e_parents agg)) (b_expert b)) ProvenanceError
  | _, _, _, _ => Raise ProvenanceError
  end.

Fixpoint check_all {A} (f : A -> result unit) (l : list A) : result unit :=
  match l with
  | [] => Ok tt
  | x :: l => _ ← f x; check_all f l
  end.

Definition rule3 (chain : list ProvenanceEntry) : result unit :=
  check_all (fun it : Z * Bucket => check_bucket it.2) (split_ops_by_layer chain).

Section validate.
Context (shard_lookup : string -> result (Z * Z)) (total_layers : Z)
  (split_layers_for_shard : string -> list Z) (live_owners_of : Z -> Z -> list string).

Definition in_range (l start end_ : Z) : bool := (start <=? l) && (l <? end_).

(** Rule 5. *)
Definition authorize (e : ProvenanceEntry) : result unit :=
  match e_op e with
  | None => Ok tt
  | Some op =>
      let sid := e_node_id e in
      '(start, end_) ← shard_lookup sid;
      let split := bool_decide (opd_layer op ∈ split_layers_for_shard sid) in
      require (match opd_type op with
               | OP_EMBED => start =? 0
               | OP_FINALIZE => end_ =? total_layers
               | OP_LAYER_ATOMIC => in_range (opd_layer op) start end_ && negb split
               | OP_ATTENTION_ROUTE | OP_SHARED_EXPERT | OP_AGGREGATE =>
                   in_range (opd_layer op) start end_ && split
               | OP_EXPERT => bool_decide (sid ∈ live_owners_of (opd_layer op) (opd_expert op))
               | OP_UNSPECIFIED => true
               end) ProvenanceError
  end.

(** Rule 4. *)
Definition tail_check (chain : list ProvenanceEntry) (tail_bytes : option bytes) : result unit :=
  match tail_bytes with
  | None => Ok tt
  | Some output =>
      tail ← or_raise IndexError (last chain);
      op ← or_raise ProvenanceError (e_op tail);
      expected ← compute_hash (e_parents tail) (e_node_id tail) op output;
      require (bool_decide (expected = e_hash tail)) ProvenanceError
  end.

(** [validate_chain]: the rules in the order of the code (1, 2, 3, 5, 4). *)
Definition validate_chain (chain : list ProvenanceEntry) (tail_bytes : option bytes) : result unit :=
  _ ← rule1 chain;
  _ ← rule2 total_layers chain;
  _ ← rule3 chain;
  _ ← check_all authorize chain;
  tail_check chain tail_bytes.

End validate.

(** ** A specification of valid chains *)

Definition is_split_type (t : OpType) : bool :=
  match t with
  | OP_ATTENTION_ROUTE | OP_SHARED_EXPERT | OP_EXPERT | OP_AGGREGATE => true
  | _ => false
  end.

(** [e] records an operation of type [t] on layer [l]. *)
Definition records (t : OpType) (l : Z) (e : ProvenanceEntry) : Prop :=
  exists op, e_op e = Some op /\ opd_type op = t /\ opd_layer op = l.

#[export] Instance records_dec t l e : Decision (records t l e).
Proof.
  unfold records. destruct (e_op e) as [op|]; [|right; naive_solver].
  destruct (decide (opd_type op = t /\ opd_layer op = l)); [left; naive_solver|right; naive_solver].
Defined.

Definition entries_of (t : OpType) (l : Z) (chain : list ProvenanceEntry) : list ProvenanceEntry :=
  filter (records t l) chain.

(** The split operations of layer [l] form one diamond: one route, one shared
    expert, pairwise different experts, and one aggregate that commits to the
    shared expert and to every expert. *)
Definition diamond (chain : list ProvenanceEntry) (l : Z) : Prop :=
  exists route shared agg,
    entries_of OP_ATTENTION_ROUTE l chain = [route] /\
    entries_of OP_SHARED_EXPERT l chain = [shared] /\
    entries_of OP_AGGREGATE l chain = [agg] /\
    entries_of OP_EXPERT l chain <> [] /\
    NoDup (fmap opd_expert <$> (e_op <$> entries_of OP_EXPERT l chain)) /\
    e_hash shared ∈ e_parents agg /\
    forall e, e ∈ entries_of OP_EXPERT l chain -> e_hash e ∈ e_parents agg.

Section valid.
Context (shard_lookup : string -> result (Z * Z)) (total_layers : Z)
  (split_layers_for_shard : string -> list Z) (live_owners_of : Z -> Z -> list string).
Implicit Types (chain : list ProvenanceEntry) (e : ProvenanceEntry).

(** The node named by the entry may perform the operation. *)
Definition authorized e : Prop :=
  match e_op e with
  | None => True
  | Some op =>
      exists start end_, shard_lookup (e_node_id e) = Ok (start, end_) /\
      let mine := start <= opd_layer op < end_ in
      let split := opd_layer op ∈ split_layers_for_shard (e_node_id e) in
      match opd_type op with
      | OP_EMBED => start = 0
      | OP_FINALIZE => end_ = total_layers
      | OP_LAYER_ATOMIC => mine /\ ~ split
      | OP_ATTENTION_ROUTE | OP_SHARED_EXPERT | OP_AGGREGATE => mine /\ split
      | OP_EXPERT => e_node_id e ∈ live_owners_of (opd_layer op) (opd_expert op)
      | OP_UNSPECIFIED => True
      end
  end.

Definition complete chain : Prop :=
  ((exists e, e ∈ chain /\ has_type OP_FINALIZE e = true) ->
     forall l, 0 <= l < total_layers -> l ∈ layers_covered chain) /\
  (~ (exists e, e ∈ chain /\ has_type OP_FINALIZE e = true) ->
     forall l l', l' ∈ layers_covered chain -> 0 <= l <= l' -> l ∈ layers_covered chain).

(** The digest of the last entry is that of the tensor it came with. *)
Definition tail_ok chain (tail_bytes : option bytes) : Prop :=
  forall output, tail_bytes = Some output -> exists tail op,
    last chain = Some tail /\ e_op tail = Some op /\
    compute_hash (e_parents tail) (e_node_id tail) op output = Ok (e_hash tail).

Record chain_valid chain tail_bytes : Prop := {
  cv_embed : exists first rest, chain = first :: rest /\ has_type OP_EMBED first = true;
  cv_finalize : forall i e, chain !! i = Some e -> has_type OP_FINALIZE e = true -> S i = length chain;
  cv_complete : complete chain;
  cv_diamonds : forall l t, is_split_type t = true -> entries_of t l chain <> [] -> diamond chain l;
  cv_authorized : forall e, e ∈ chain -> authorized e;
  cv_tail : tail_ok chain tail_bytes;
}.

(** *** Decision D8 of the design

    The rules of docs/superpowers/specs/2026-04-17-phase6b-provenance-verification-design.md,
    which [validate_chain] is documented to enforce: rule 2 asks for exactly one
    completion of every layer reached, rule 3 for experts that commit to the
    route of their layer. *)

Definition completions l chain : list ProvenanceEntry := filter (fun e => covers e = Some l) chain.

(** The chain is past layer [l], or at its end. *)
Definition reached chain (l : Z) : Prop :=
  (exists e, e ∈ chain /\ has_type OP_FINALIZE e = true) \/ exists l', l' ∈ layers_covered chain /\ l <= l'.

Definition completed_once chain : Prop := forall l, 0 <= l < total_layers -> (length (completions l chain) <= 1)%nat.
Definition experts_routed chain : Prop := forall l route x,
  route ∈ entries_of OP_ATTENTION_ROUTE l chain -> x ∈ entries_of OP_EXPERT l chain -> e_hash route ∈ e_parents x.

Record d8_valid chain tail_bytes : Prop := {
  d8_root : exists first rest, chain = first :: rest /\ has_type OP_EMBED first = true;
  d8_last : forall i e, chain !! i = Some e -> has_type OP_FINALIZE e = true -> S i = length chain;
  d8_complete : forall l, 0 <= l < total_layers -> reached chain l -> exists e, completions l chain = [e];
  d8_shape : forall l t, is_split_type t = true -> entries_of t l chain <> [] ->
    diamond chain l /\ exists route, entries_of OP_ATTENTION_ROUTE l chain = [route] /\
      forall x, x ∈ entries_of OP_EXPERT l chain -> e_hash route ∈ e_parents x;
  d8_tail : tail_ok chain tail_bytes;
  d8_authorized : forall e, e ∈ chain -> authorized e;
}.

End valid.

(** ** Rule by rule *)

Implicit Types (chain : list ProvenanceEntry) (e : ProvenanceEntry).

Lemma check_all_ok {A} (f : A -> result unit) l : check_all f l = Ok tt <-> forall x, x ∈ l -> f x = Ok tt.
Proof.
  induction l as [|x l IH]; cbn; [split; [intros _ x Hx; inversion Hx|done]|].
  rewrite bind_ok. split.
  - intros ([] & Hx & Hl) y [->|Hy]%elem_of_cons; [done|by apply IH].
  - intros H. exists tt. split; [apply H; by left|]. apply IH. intros y Hy. apply H. by right.
Qed.

Lemma check_all_raise {A} (f : A -> result unit) l x : check_all f l = Raise x -> exists a, a ∈ l /\ f a = Raise x.
Proof.
  induction l as [|a l IH]; cbn; [done|]. intros [E|(u & _ & E)]%bind_raise.
  - exists a. split; [by left|done].
  - destruct (IH E) as (b & ? & ?). exists b. split; [by right|done].
Qed.

Lemma finalize_last_spec chain :
  finalize_last chain = true <->
  forall i e, chain !! i = Some e -> has_type OP_FINALIZE e = true -> S i = length chain.
Proof.
  induction chain as [|e chain IH]; [by split|]. destruct chain as [|e' chain].
  { cbn. split; [|done]. intros _ [|i] e1; cbn; [done|by destruct i]. }
  change (finalize_last (e :: e' :: chain)) with
    (negb (has_type OP_FINALIZE e) && finalize_last (e' :: chain)).
  rewrite andb_true_iff, IH. split.
  - intros [He H] [|i] e1 Hi Ht; cbn in Hi; [simplify_eq; by rewrite Ht in He|].
    cbn. f_equal. by apply (H i e1).
  - intros H. split.
    + destruct (has_type OP_FINALIZE e) eqn:He; [|done]. by specialize (H 0%nat e eq_refl He).
    + intros i e1 Hi Ht. specialize (H (S i) e1 Hi Ht). cbn in H |- *. lia.
Qed.

Lemma zrange_in n l : l ∈ zrange n <-> 0 <= l < n.
Proof.
  unfold zrange. rewrite list_elem_of_fmap. split.
  - intros (k & -> & Hk%elem_of_seq). lia.
  - intros Hl. exists (Z.to_nat l). rewrite elem_of_seq. lia.
Qed.

Lemma max_of_spec x ls : max_of x ls ∈ x :: ls /\ forall y, y ∈ x :: ls -> y <= max_of x ls.
Proof.
  unfold max_of. revert x. induction ls as [|z ls IH]; intros x; cbn.
  - split; [by left|]. intros y ->%list_elem_of_singleton. done.
  - destruct (IH (Z.max x z)) as [H1 H2]. split.
    + apply elem_of_cons in H1 as [->|H1]; [|by right; right].
      destruct (Z.max_spec x z) as [[_ ->]|[_ ->]]; [right; left|left].
    + intros y Hy. pose proof (H2 (Z.max x z) ltac:(by left)).
      apply elem_of_cons in Hy as [->|[->|Hy]%elem_of_cons]; [lia..|apply H2; by right].
Qed.

Lemma forallb_range n (covered : list Z) :
  forallb (fun l => bool_decide (l ∈ covered)) (zrange n) = true <->
  forall l, 0 <= l < n -> l ∈ covered.
Proof.
  rewrite (forallb_elem (.∈ covered)). by setoid_rewrite zrange_in.
Qed.

Lemma existsb_spec {A} (f : A -> bool) l : existsb f l = true <-> exists x, x ∈ l /\ f x = true.
Proof. rewrite existsb_exists. by setoid_rewrite list_elem_of_In. Qed.

Lemma rule2_ok total_layers chain : rule2 total_layers chain = Ok tt <-> complete total_layers chain.
Proof.
  unfold rule2, complete. rewrite <- existsb_spec. destruct (existsb _ chain).
  - rewrite require_ok, forallb_range. naive_solver.
  - split.
    + intros H. split; [done|]. intros _ l l' Hl' Hl. destruct (layers_covered chain) as [|x ls]; [inversion Hl'|].
      apply require_ok in H. rewrite forallb_range in H. apply H.
      destruct (max_of_spec x ls) as [_ Hm]. specialize (Hm _ Hl'). lia.
    + intros [_ H]. destruct (layers_covered chain) as [|x ls]; [done|].
      apply require_ok, forallb_range. intros l Hl. destruct (max_of_spec x ls) as [Hin _].
      eapply H; [done|exact Hin|lia].
Qed.

(** *** Rule 3 *)

Definition bucket_of (l : Z) chain : Bucket :=
  mkBucket (entries_of OP_ATTENTION_ROUTE l chain) (entries_of OP_SHARED_EXPERT l chain)
    (entries_of OP_EXPERT l chain) (entries_of OP_AGGREGATE l chain).

Lemma entries_of_snoc t l chain e :
  entries_of t l (chain ++ [e]) = entries_of t l chain ++ (if decide (records t l e) then [e] else []).
Proof. unfold entries_of. by rewrite filter_app, filter_cons, filter_nil. Qed.

Lemma bucket_of_snoc_other l chain e :
  (forall t, is_split_type t = true -> ~ records t l e) -> bucket_of l (chain ++ [e]) = bucket_of l chain.
Proof.
  intros H. unfold bucket_of. rewrite !entries_of_snoc, !decide_False by (by apply H).
  by rewrite !app_nil_r.
Qed.

Lemma bucket_of_snoc l chain e op b :
  e_op e = Some op -> opd_layer op = l -> add_to_bucket (opd_type op) e (bucket_of l chain) = Some b ->
  is_split_type (opd_type op) = true /\ b = bucket_of l (chain ++ [e]).
Proof.
  intros He Hl Hb. assert (Hr : forall t, records t l e <-> opd_type op = t).
  { intros t. unfold records. rewrite He. naive_solver. }
  assert (Hd : forall t, (if decide (records t l e) then [e] else []) =
    (if decide (opd_type op = t) then [e] else [])).
  { intros t. repeat case_decide; naive_solver. }
  unfold bucket_of. rewrite !entries_of_snoc, !Hd.
  destruct (opd_type op); cbn in Hb |- *; simplify_eq; rewrite ?app_nil_r; done.
Qed.

(** The dictionary of rule 3 holds, for each layer with a split operation, the
    entries of each kind on that layer. *)
Lemma split_ops_spec chain :
  dict_wf (split_ops_by_layer chain) /\
  forall l, dict_get l (split_ops_by_layer chain) =
    if decide (bucket_of l chain = empty_bucket) then None else Some (bucket_of l chain).
Proof.
  induction chain as [|e chain [Hw IH]] using rev_ind.
  { split; [constructor|]. intros l. by rewrite decide_True. }
  unfold split_ops_by_layer in *. rewrite foldl_snoc. unfold bucket_one.
  assert (Hdef : forall l, default empty_bucket (dict_get l (foldl bucket_one [] chain)) = bucket_of l chain).
  { intros l. rewrite IH. by case_decide. }
  destruct (e_op e) as [op|] eqn:Eo.
  2: { split; [done|]. intros l. rewrite bucket_of_snoc_other; [apply IH|]. intros t _ (op & Ho & _). congruence. }
  rewrite Hdef. destruct (add_to_bucket _ _ _) as [b|] eqn:Eb.
  - destruct (bucket_of_snoc (opd_layer op) chain e op b Eo eq_refl Eb) as [Hs ->].
    split; [by apply dict_set_wf|]. intros l. rewrite dict_get_set. destruct (decide (l = opd_layer op)) as [->|Hl].
    + rewrite decide_False; [done|]. intros Hn. apply (f_equal (fun b => length (b_route b) + length (b_shared b)
        + length (b_expert b) + length (b_aggregate b))%nat) in Hn. cbn in Hn.
      rewrite !entries_of_snoc, !length_app in Hn.
      assert (Hr : records (opd_type op) (opd_layer op) e) by (exists op; done).
      clear -Hn Hr Hs. revert Hn Hr Hs. generalize (opd_layer op).
      destruct (opd_type op); intros l Hn Hr Hs; try done;
        rewrite (decide_True _ _ Hr) in Hn; cbn in Hn; lia.
    + rewrite bucket_of_snoc_other; [apply IH|]. intros t _ (op' & Ho & _ & Hl'). congruence.
  - split; [done|]. intros l. rewrite bucket_of_snoc_other; [apply IH|].
    intros t Ht (op' & Ho & <- & _). rewrite Eo in Ho. simplify_eq. by destruct (opd_type op').
Qed.

Lemma distinct_experts_ok seen es :
  (forall e, e ∈ es -> is_Some (e_op e)) ->
  distinct_experts seen es = Ok tt <->
  NoDup (fmap opd_expert <$> (e_op <$> es)) /\
  forall x, x ∈ seen -> Some x ∉ fmap opd_expert <$> (e_op <$> es).
Proof.
  revert seen. induction es as [|e es IH]; intros seen Hop; cbn.
  { split; [|done]. intros _. split; [constructor|]. intros x _ Hx. inversion Hx. }
  destruct (Hop e) as [op Ho]; [by left|]. unfold expert_of. rewrite Ho. cbn.
  rewrite NoDup_cons. setoid_rewrite not_elem_of_cons. destruct (decide (opd_expert op ∈ seen)) as [Hs|Hs].
  - split; [done|]. intros [_ H]. destruct (H _ Hs). done.
  - rewrite IH by (intros e' He'; apply Hop; by right). setoid_rewrite elem_of_cons. split.
    + intros [Hn H]. split; [split; [apply H; by left|done]|]. intros x Hx. split; [congruence|]. apply H. by right.
    + intros [[Hn1 Hn2] H]. split; [done|]. intros x [->|Hx]; [done|]. by apply H.
Qed.

Lemma entries_of_op t l chain e : e ∈ entries_of t l chain -> is_Some (e_op e).
Proof. intros (( op & Ho & _) & _)%list_elem_of_filter. by exists op. Qed.

Lemma check_bucket_ok l chain : check_bucket (bucket_of l chain) = Ok tt <-> diamond chain l.
Proof.
  unfold check_bucket, diamond. cbn. set (ar := entries_of OP_ATTENTION_ROUTE l chain).
  set (sh := entries_of OP_SHARED_EXPERT l chain). set (ag := entries_of OP_AGGREGATE l chain).
  assert (Hex : forall e, e ∈ entries_of OP_EXPERT l chain -> is_Some (e_op e)) by apply entries_of_op.
  set (ex := entries_of OP_EXPERT l chain) in *.
  destruct ar as [|a [|? ?]]; [split; [done|naive_solver]| |split; [done|naive_solver]].
  destruct sh as [|s [|? ?]]; [split; [done|naive_solver]| |split; [done|naive_solver]].
  destruct ag as [|g [|? ?]]; [destruct ex; (split; [done|naive_solver])| |destruct ex; (split; [done|naive_solver])].
  assert (Hall : (_ ← distinct_experts [] ex; _ ← require (bool_decide (e_hash s ∈ e_parents g)) ProvenanceError;
      require (forallb (fun e => bool_decide (e_hash e ∈ e_parents g)) ex) ProvenanceError) = Ok tt <->
    NoDup (fmap opd_expert <$> (e_op <$> ex)) /\ e_hash s ∈ e_parents g /\
    forall e, e ∈ ex -> e_hash e ∈ e_parents g).
  { rewrite bind_ok. setoid_rewrite bind_ok. setoid_rewrite require_ok.
    setoid_rewrite (forallb_elem (fun e => e_hash e ∈ e_parents g)). setoid_rewrite bool_decide_eq_true.
    pose proof (distinct_experts_ok [] ex Hex) as Hd. split.
    - intros ([] & H1 & [] & H2 & H3). apply Hd in H1 as [H1 _]. done.
    - intros (H1 & H2 & H3). exists tt. split; [|by exists tt]. apply Hd. split; [done|].
      intros x Hx. inversion Hx. }
  destruct ex as [|e0 ex']; [split; [done|naive_solver]|]. rewrite Hall. naive_solver.
Qed.

Lemma bucket_of_nonempty l chain :
  bucket_of l chain <> empty_bucket <-> exists t, is_split_type t = true /\ entries_of t l chain <> [].
Proof.
  split.
  - intros H. destruct (entries_of OP_ATTENTION_ROUTE l chain) eqn:E1;
      [|exists OP_ATTENTION_ROUTE; rewrite E1; done].
    destruct (entries_of OP_SHARED_EXPERT l chain) eqn:E2; [|exists OP_SHARED_EXPERT; rewrite E2; done].
    destruct (entries_of OP_EXPERT l chain) eqn:E3; [|exists OP_EXPERT; rewrite E3; done].
    destruct (entries_of OP_AGGREGATE l chain) eqn:E4; [|exists OP_AGGREGATE; rewrite E4; done].
    exfalso. apply H. unfold bucket_of. by rewrite E1, E2, E3, E4.
  - intros (t & Ht & Hn) H. unfold bucket_of, empty_bucket in H. injection H as H1 H2 H3 H4.
    by destruct t.
Qed.

Lemma rule3_ok chain :
  rule3 chain = Ok tt <->
  forall l t, is_split_type t = true -> entries_of t l chain <> [] -> diamond chain l.
Proof.
  unfold rule3. destruct (split_ops_spec chain) as [Hw Hg]. rewrite check_all_ok. split.
  - intros H l t Ht Hn. apply check_bucket_ok. apply (H (l, bucket_of l chain)).
    apply dict_get_Some_in. rewrite Hg. rewrite decide_False; [done|]. apply bucket_of_nonempty. eauto.
  - intros H [l b] Hin. apply dict_in_get in Hin; [|done]. rewrite Hg in Hin.
    case_decide as Hb; [done|]. injection Hin as <-. cbn. apply check_bucket_ok.
    apply bucket_of_nonempty in Hb as (t & Ht & Hn). by apply (H l t).
Qed.

Lemma authorize_ok shard_lookup total_layers split_layers_for_shard live_owners_of e :
  authorize shard_lookup total_layers split_layers_for_shard live_owners_of e = Ok tt <->
  authorized shard_lookup total_layers split_layers_for_shard live_owners_of e.
Proof.
  unfold authorize, authorized. destruct (e_op e) as [op|]; [|done].
  destruct (shard_lookup (e_node_id e)) as [[start end_]|x]; cbn; [|split; [done|naive_solver]].
  rewrite require_ok. unfold in_range.
  assert (Hex : forall P : Z -> Z -> Prop,
    (exists s n, Ok (start, end_) = Ok (s, n) /\ P s n) <-> P start end_) by (intros P; naive_solver).
  rewrite (Hex (fun s n => match opd_type op with
    | OP_EMBED => s = 0 | OP_FINALIZE => n = total_layers
    | OP_LAYER_ATOMIC => s <= opd_layer op < n /\ ~ opd_layer op ∈ split_layers_for_shard (e_node_id e)
    | OP_ATTENTION_ROUTE | OP_SHARED_EXPERT | OP_AGGREGATE =>
        s <= opd_layer op < n /\ opd_layer op ∈ split_layers_for_shard (e_node_id e)
    | OP_EXPERT => e_node_id e ∈ live_owners_of (opd_layer op) (opd_expert op)
    | OP_UNSPECIFIED => True end)).
  destruct (opd_type op); rewrite ?andb_true_iff, ?negb_true_iff,
    ?bool_decide_eq_true, ?bool_decide_eq_false, ?Z.leb_le, ?Z.ltb_lt, ?Z.eqb_eq; tauto.
Qed.

Lemma tail_check_ok chain tail_bytes :
  tail_check chain tail_bytes = Ok tt <-> tail_ok chain tail_bytes.
Proof.
  unfold tail_check, tail_ok. destruct tail_bytes as [output|]; [|by split].
  assert (Hall : forall P : bytes -> Prop, (forall o, Some output = Some o -> P o) <-> P output).
  { intros P. split; [by intros H; apply H|by intros H o [= <-]]. }
  rewrite (Hall (fun o => exists tail op, last chain = Some tail /\ e_op tail = Some op /\
    compute_hash (e_parents tail) (e_node_id tail) op o = Ok (e_hash tail))).
  destruct (last chain) as [tail|]; cbn; [|split; [done|by intros (? & ? & ? & _)]].
  destruct (e_op tail) as [op|] eqn:Eo; cbn.
  2: { split; [done|]. intros (t & op & [= <-] & Ho & _). congruence. }
  destruct (compute_hash _ _ _ _) as [d|] eqn:Ed; cbn.
  - rewrite require_ok, bool_decide_eq_true. split.
    + intros ->. by exists tail, op.
    + intros (t & o & [= <-] & Ho & Hc). rewrite Eo in Ho. injection Ho as <-. congruence.
  - split; [done|]. intros (t & o & [= <-] & Ho & Hc). rewrite Eo in Ho. injection Ho as <-. congruence.
Qed.

Lemma rule1_ok chain :
  rule1 chain = Ok tt <->
  (exists first rest, chain = first :: rest /\ has_type OP_EMBED first = true) /\
  forall i e, chain !! i = Some e -> has_type OP_FINALIZE e = true -> S i = length chain.
Proof.
  unfold rule1. destruct chain as [|first rest]; [split; [done|by intros [(? & ? & ? & _) _]]|].
  rewrite seq_ok, !require_ok, finalize_last_spec. split.
  - intros [He Hf]. split; [by exists first, rest|done].
  - intros [(f & r & [= <- <-] & He) Hf]. done.
Qed.

(** ** Theorems *)

Section theorems.
Context (shard_lookup : string -> result (Z * Z)) (total_layers : Z)
  (split_layers_for_shard : string -> list Z) (live_owners_of : Z -> Z -> list string).

Lemma validate_chain_ok chain tail_bytes :
  validate_chain shard_lookup total_layers split_layers_for_shard live_owners_of chain tail_bytes = Ok tt
  <-> chain_valid shard_lookup total_layers split_layers_for_shard live_owners_of chain tail_bytes.
Proof.
  unfold validate_chain. rewrite !seq_ok, rule1_ok, rule2_ok, rule3_ok, check_all_ok, tail_check_ok.
  split.
  - intros ([H1 H2] & H3 & H4 & H5 & H6). split; try done. intros e He. by apply authorize_ok, H5.
  - intros [H1 H2 H3 H4 H5 H6]. split_and!; try done. intros e He. by apply authorize_ok, H5.
Qed.

Abbreviation validate := (validate_chain shard_lookup total_layers split_layers_for_shard live_owners_of).
Abbreviation accepted_shape := (chain_valid shard_lookup total_layers split_layers_for_shard live_owners_of).
Abbreviation d8 := (d8_valid shard_lookup total_layers split_layers_for_shard live_owners_of).

(** The shards' layers are layers of the model. *)
Definition ranges_ok : Prop := forall sid start end_, shard_lookup sid = Ok (start, end_) -> 0 <= start /\ end_ <= total_layers.

Lemma completed l chain : l ∈ layers_covered chain <-> exists e, e ∈ completions l chain.
Proof.
  unfold layers_covered, completions. rewrite list_elem_of_omap. split; intros (e & He).
  - exists e. rewrite list_elem_of_filter. tauto.
  - exists e. rewrite list_elem_of_filter in He. tauto.
Qed.

(** A layer that an authorized node completes is one of the model. *)
Lemma covered_in_range chain l : ranges_ok ->
  (forall e, e ∈ chain -> authorized shard_lookup total_layers split_layers_for_shard live_owners_of e) ->
  l ∈ layers_covered chain -> 0 <= l < total_layers.
Proof.
  intros Hr Ha (e & He & Hc)%list_elem_of_omap. specialize (Ha e He). unfold authorized in Ha. unfold covers in Hc.
  destruct (e_op e) as [[t l' x]|]; [|done]. destruct Ha as (a & b & Hl & Ha). destruct (Hr _ _ _ Hl). cbn in Hc, Ha.
  destruct t; cbn in Hc; try done; injection Hc as ->; destruct Ha as [Hm _]; lia.
Qed.

Lemma complete_d8 chain : complete total_layers chain -> completed_once total_layers chain ->
  forall l, 0 <= l < total_layers -> reached chain l -> exists e, completions l chain = [e].
Proof.
  intros [Hf Hn] Ho l Hl Hr. assert (l ∈ layers_covered chain) as (e & He)%completed.
  { destruct (decide (Exists (fun e => has_type OP_FINALIZE e = true) chain)) as [Hx|Hx]; rewrite Exists_exists in Hx; [by apply Hf|].
    destruct Hr as [|(l' & Hl' & Hle)]; [done|]. apply (Hn Hx l l'); [done|lia]. }
  specialize (Ho l Hl). destruct (completions l chain) as [|y [|z ys]]; [inversion He|by exists y|cbn in Ho; lia].
Qed.

Lemma d8_complete_ok chain tail_bytes : ranges_ok -> d8 chain tail_bytes -> complete total_layers chain.
Proof.
  intros Hr [_ _ Hc _ _ Ha]. assert (Hcov : forall l, 0 <= l < total_layers -> reached chain l -> l ∈ layers_covered chain).
  { intros l Hl Hre. destruct (Hc l Hl Hre) as [e He]. apply completed. exists e. rewrite He. left. }
  split.
  - intros Hf l Hl. apply Hcov; [done|by left].
  - intros _ l l' Hl' Hl. pose proof (covered_in_range chain l' Hr Ha Hl'). apply Hcov; [lia|]. right. exists l'. split; [done|lia].
Qed.

(** C13: what [validate_chain] accepts. It accepts exactly the chains that begin
    with the embedding, finalize at most once and last, cover their layers
    without gaps, have one diamond for every split layer, name only authorized
    nodes and whose last digest is that of the tensor. Measured against decision
    D8 of the design: it accepts every chain D8 allows, and those it accepts
    that D8 does not allow are those in which a layer is completed twice or an
    expert does not commit to the route of its layer ([beyond_d8] has both). *)
Theorem validate_chain_spec chain tail_bytes :
  (validate chain tail_bytes = Ok tt <-> accepted_shape chain tail_bytes) /\
  (ranges_ok -> d8 chain tail_bytes <->
     validate chain tail_bytes = Ok tt /\ completed_once total_layers chain /\ experts_routed chain).
Proof.
  split; [apply validate_chain_ok|]. intros Hr. rewrite validate_chain_ok. split.
  - intros Hd. pose proof (d8_complete_ok chain tail_bytes Hr Hd) as Hcomp. destruct Hd as [H1' H2' H3' H4' H5' H6']. split_and!.
    + split; try done. intros l t Ht Hne. by destruct (H4' l t Ht Hne).
    + intros l Hl. destruct (completions l chain) as [|e es] eqn:E; [cbn; lia|]. destruct (H3' l Hl) as [e' He'].
      * right. exists l. split; [|lia]. apply completed. exists e. rewrite E. left.
      * rewrite E in He'. injection He' as -> ->. cbn. lia.
    + intros l route x Hro Hx. destruct (H4' l OP_EXPERT eq_refl) as (_ & r & Er & Hrx); [intros Hn; rewrite Hn in Hx; inversion Hx|].
      rewrite Er in Hro. apply list_elem_of_singleton in Hro as ->. by apply Hrx.
  - intros ([H1' H2' H3' H4' H5' H6'] & Honce & Hrouted). split; try done; [by apply complete_d8|].
    intros l t Ht Hne. pose proof (H4' l t Ht Hne) as Hd. split; [done|]. destruct Hd as (route & _ & _ & Hro & _). exists route.
    split; [done|]. intros x Hx. apply (Hrouted l); [rewrite Hro; left|done].
Qed.

(** tampering with the tensor. If the same chain is accepted with two tail
    tensors, their bytes are equal or give an explicit BLAKE2b collision. *)
Theorem tail_check_binds chain out1 out2 :
  validate_chain shard_lookup total_layers split_layers_for_shard live_owners_of chain (Some out1) = Ok tt ->
  validate_chain shard_lookup total_layers split_layers_for_shard live_owners_of chain (Some out2) = Ok tt ->
  out1 = out2 \/
  exists tail op in1 in2, last chain = Some tail /\
    hash_input (e_parents tail) (e_node_id tail) op out1 = Ok in1 /\
    hash_input (e_parents tail) (e_node_id tail) op out2 = Ok in2 /\
    in1 <> in2 /\ blake2b 32 in1 = blake2b 32 in2.
Proof.
  unfold validate_chain. rewrite !seq_ok, !tail_check_ok. intros (_ & _ & _ & _ & H1) (_ & _ & _ & _ & H2).
  destruct (H1 out1 eq_refl) as (tail & op & Hl & Ho & Hc1).
  destruct (H2 out2 eq_refl) as (tail' & op' & Hl' & Ho' & Hc2).
  rewrite Hl in Hl'. injection Hl' as <-. rewrite Ho in Ho'. injection Ho' as <-.
  unfold compute_hash in Hc1, Hc2. apply bind_ok in Hc1 as (in1 & Hi1 & Hc1). apply bind_ok in Hc2 as (in2 & Hi2 & Hc2).
  destruct (decide (out1 = out2)) as [|Hne]; [by left|]. right.
  exists tail, op, in1, in2. split_and!; try done; [|congruence].
  unfold hash_input in Hi1, Hi2. destruct (op_pack op) as [p|]; [|done]. cbn in Hi1, Hi2. intros Heq.
  by simplify_eq.
Qed.

End theorems.

(** the wire form of an entry. Encoding succeeds exactly when the layer and
    expert indices fit, and decodes to the same entry with the shard id taken
    from the node id; decoding fails exactly on an unknown operation type. *)
Theorem provenance_entry_roundtrip e :
  match entry_to_pb e with
  | Ok pb => prov_pb_ok pb = true /\
      entry_from_pb pb = Ok (mkProv (e_node_id e) (e_node_id e) (e_timestamp e) (e_hash e) (e_parents e) (e_op e))
  | Raise x => x = ValueError /\ exists op, e_op e = Some op /\
      (in_u32 (opd_layer op) = false \/ in_u32 (opd_expert op) = false)
  end.
Proof.
  destruct e as [s n ts h ps [[t l x]|]]; [|by unfold entry_to_pb, prov_pb_ok].
  unfold entry_to_pb, op_to_pb, u32, ranged. cbn.
  destruct (in_u32 l) eqn:Hl; cbn; [|split; [done|]; eexists; split; [done|]; cbn; by left].
  destruct (in_u32 x) eqn:Hx; cbn; [|split; [done|]; eexists; split; [done|]; cbn; by right].
  unfold prov_pb_ok, entry_from_pb. cbn. rewrite Hl, Hx. by destruct t.
Qed.

Lemma utf8_app s1 s2 : utf8 (s1 +:+ s2) = utf8 s1 ++ utf8 s2.
Proof.
  unfold utf8. induction s1 as [|c s1 IH]; [done|].
  change (Ascii.byte_of_ascii c :: String.list_byte_of_string (s1 +:+ s2) =
    Ascii.byte_of_ascii c :: String.list_byte_of_string s1 ++ String.list_byte_of_string s2). by rewrite IH.
Qed.

(** the digest does not separate its inputs. A parent hash that is the
    encoding of a string can be moved into the node id: two entries that name
    different nodes and different parents have the same digest. *)
Theorem compute_hash_ambiguous parents p node_id op output :
  compute_hash (parents ++ [utf8 p]) node_id op output = compute_hash parents (p +:+ node_id) op output.
Proof.
  assert (Hin : hash_input (parents ++ [utf8 p]) node_id op output = hash_input parents (p +:+ node_id) op output).
  { unfold hash_input. destruct (op_pack op) as [k|]; [|done]. cbn.
    rewrite concat_app. cbn [concat]. by rewrite app_nil_r, utf8_app, <- !app_assoc. }
  unfold compute_hash. rewrite Hin. reflexivity.
Qed.

(** ** Witnesses *)

(** A chain over two shards "a" = [0, 1) and "b" = [1, 2), layer 1 split. *)
Definition demo_lookup (sid : string) : result (Z * Z) :=
  if decide (sid = "a") then Ok (0, 1) else if decide (sid = "b") then Ok (1, 2) else Raise KeyError.
Definition demo_split (sid : string) : list Z := if decide (sid = "b") then [1] else [].
Definition demo_owners (l x : Z) : list string := ["a"; "b"].

Definition no_entry : ProvenanceEntry := mkProv "" "" f0 [] [] None.
Definition demo_entry (node : string) (t : OpType) (l x : Z) (parents : list bytes) : ProvenanceEntry :=
  ok_or no_entry (build_entry node (mkOp t l x) [x2a] parents f0).

Definition demo_chain : list ProvenanceEntry :=
  let embed := demo_entry "a" OP_EMBED 0 0 [] in
  let l0 := demo_entry "a" OP_LAYER_ATOMIC 0 0 [e_hash embed] in
  let route := demo_entry "b" OP_ATTENTION_ROUTE 1 0 [e_hash l0] in
  let shared := demo_entry "b" OP_SHARED_EXPERT 1 0 [e_hash route] in
  let x3 := demo_entry "a" OP_EXPERT 1 3 [e_hash route] in
  let agg := demo_entry "b" OP_AGGREGATE 1 0 [e_hash shared; e_hash x3] in
  [embed; l0; route; shared; x3; agg; demo_entry "b" OP_FINALIZE 0 0 [e_hash agg]].

Example demo_chain_accepted : validate_chain demo_lookup 2 demo_split demo_owners demo_chain (Some [x2a]) = Ok tt.
Proof. vm_compute. reflexivity. Qed.

(** Chains that D8 forbids and [validate_chain] accepts: layer 0 completed twice;
    an expert whose only parent is the embedding. *)
Definition twice_chain : list ProvenanceEntry :=
  let embed := demo_entry "a" OP_EMBED 0 0 [] in
  let l0 := demo_entry "a" OP_LAYER_ATOMIC 0 0 [e_hash embed] in
  [embed; l0; demo_entry "a" OP_LAYER_ATOMIC 0 0 [e_hash l0]].
Definition unrouted_chain : list ProvenanceEntry :=
  let embed := demo_entry "a" OP_EMBED 0 0 [] in
  let l0 := demo_entry "a" OP_LAYER_ATOMIC 0 0 [e_hash embed] in
  let route := demo_entry "b" OP_ATTENTION_ROUTE 1 0 [e_hash l0] in
  let shared := demo_entry "b" OP_SHARED_EXPERT 1 0 [e_hash route] in
  let x3 := demo_entry "a" OP_EXPERT 1 3 [e_hash embed] in
  [embed; l0; route; shared; x3; demo_entry "b" OP_AGGREGATE 1 0 [e_hash shared; e_hash x3]].

Lemma demo_ranges : ranges_ok demo_lookup 2.
Proof. intros sid a b. unfold demo_lookup. repeat case_decide; intros [= <- <-]; lia. Qed.

Lemma beyond_d8 :
  (validate_chain demo_lookup 2 demo_split demo_owners twice_chain (Some [x2a]) = Ok tt /\ ~ completed_once 2 twice_chain) /\
  (validate_chain demo_lookup 2 demo_split demo_owners unrouted_chain (Some [x2a]) = Ok tt /\ ~ experts_routed unrouted_chain).
Proof.
  split; (split; [vm_compute; reflexivity|]).
  - intros Ho. specialize (Ho 0 ltac:(lia)). vm_compute in Ho. lia.
  - intros Hx. set (r := demo_entry "b" OP_ATTENTION_ROUTE 1 0 [e_hash (demo_entry "a" OP_LAYER_ATOMIC 0 0 [e_hash (demo_entry "a" OP_EMBED 0 0 [])])]).
    set (x := demo_entry "a" OP_EXPERT 1 3 [e_hash (demo_entry "a" OP_EMBED 0 0 [])]).
    assert (bool_decide (e_hash r ∈ e_parents x) = false) as Hb by (vm_compute; reflexivity).
    apply (bool_decide_eq_false_1 _ Hb), (Hx 1 r x).
    + refine (bool_decide_eq_true_1 (r ∈ entries_of OP_ATTENTION_ROUTE 1 unrouted_chain) _). vm_compute. reflexivity.
    + refine (bool_decide_eq_true_1 (x ∈ entries_of OP_EXPERT 1 unrouted_chain) _). vm_compute. reflexivity.
Qed.

Definition routed_pair (r x : ProvenanceEntry) : bool :=
  match e_op r, e_op x with
  | Some op, Some op' =>
      if decide (opd_type op = OP_ATTENTION_ROUTE /\ opd_type op' = OP_EXPERT /\ opd_layer op = opd_layer op')
      then bool_decide (e_hash r ∈ e_parents x) else true
  | _, _ => true
  end.

Lemma routed_check chain : forallb (fun r => forallb (routed_pair r) chain) chain = true -> experts_routed chain.
Proof.
  intros Hall l r x [(op & Er & Et & El) Hr]%list_elem_of_filter [(op' & Ex & Et' & El') Hx]%list_elem_of_filter.
  rewrite forallb_forall in Hall. apply list_elem_of_In in Hr, Hx. specialize (Hall r Hr). rewrite forallb_forall in Hall.
  specialize (Hall x Hx). unfold routed_pair in Hall. rewrite Er, Ex in Hall. rewrite decide_True in Hall by (split_and!; congruence).
  by apply bool_decide_eq_true in Hall.
Qed.

(** The honest chain is one D8 allows. *)
Lemma validate_chain_spec_witness : d8_valid demo_lookup 2 demo_split demo_owners demo_chain (Some [x2a]).
Proof.
  apply (validate_chain_spec demo_lookup 2 demo_split demo_owners demo_chain (Some [x2a])); [exact demo_ranges|].
  split; [vm_compute; reflexivity|]. split.
  - intros l Hl. assert (l = 0 \/ l = 1) as [-> | ->] by lia; apply Nat.leb_le; vm_compute; reflexivity.
  - apply routed_check. vm_compute. reflexivity.
Defined.

Example demo_chain_tampered :
  validate_chain demo_lookup 2 demo_split demo_owners demo_chain (Some [x2b]) = Raise ProvenanceError.
Proof. vm_compute. reflexivity. Qed.

Lemma tail_check_binds_witness :
  [x2a] = [x2a] \/ exists tail op in1 in2, last demo_chain = Some tail /\
    hash_input (e_parents tail) (e_node_id tail) op [x2a] = Ok in1 /\
    hash_input (e_parents tail) (e_node_id tail) op [x2a] = Ok in2 /\
    in1 <> in2 /\ blake2b 32 in1 = blake2b 32 in2.
Proof.
  apply (tail_check_binds demo_lookup 2 demo_split demo_owners demo_chain [x2a] [x2a]);
    vm_compute; reflexivity.
Defined.
