(* ===== verification/Routing.v ===== *)
(** * moe.py: routing expert ids to owners, and the MoE arithmetic

    The owners of a layer are a dictionary from shard to the (iterated) set of
    its expert ids.  Tensors are a type with the operations the code applies to
    them, as arguments. *)
From S2P Require Import Prelude PyDict PyList PyFloat PyRandom.
Open Scope Z_scope.

Abbreviation ownership := (dict string (list Z)).

(** [by_owner.setdefault(owner, []).append(eid)] *)
Definition append_owner (owner : string) (eid : Z) (d : ownership) : ownership :=
  dict_set owner (default [] (dict_get owner d) ++ [eid]) d.

(** ** group_expert_ids_by_owner: the last owner of an id wins *)

Definition id_to_owner (owners : ownership) : dict Z string :=
  foldl (fun d it => foldl (fun d i => dict_set i it.1 d) d it.2) [] owners.

Definition group_expert_ids_by_owner (top_k : list Z) (owners : ownership) : result ownership :=
  foldM (fun d eid => owner ← or_raise KeyError (dict_get eid (id_to_owner owners));
                      Ok (append_owner owner eid d)) [] top_k.

(** ** group_expert_ids_by_owner_loaded: power of two choices *)

Definition static_candidates (owners : ownership) : dict Z (list string) :=
  foldl (fun d it => foldl (fun d i => dict_set i (default [] (dict_get i d) ++ [it.1]) d) d it.2) [] owners.

(** [list(dict.fromkeys(l))] *)
Definition dedup (l : list string) : list string :=
  dict_keys (foldl (fun d x => dict_set x tt d) [] l).

Definition UNKNOWN_LOAD : Z := 2 ^ 31 - 1.

Definition load_of (self : string) (self_load : Z) (peer_loads : dict string Z) (sid : string) : Z :=
  if decide (sid = self) then self_load else default UNKNOWN_LOAD (dict_get sid peer_loads).

Section loaded.
Context {R : Type} `{RandomSource R}.
Context (owners : ownership) (load : string -> Z) (live : Z -> list string).
Implicit Types (r : R) (eid : Z).

(** The candidates of an id, static ones first. *)
Definition candidates eid : list string :=
  dedup (default [] (dict_get eid (static_candidates owners)) ++ live eid).

Definition choose eid r : result (string * R) :=
  match candidates eid with
  | [] => Raise KeyError
  | [w] => Ok (w, r)
  | [a; b] => w ← min_by load [a; b]; Ok (w, r)
  | combined => '(pool, r) ← rng_sample2 combined r; w ← min_by load pool; Ok (w, r)
  end.

Definition route_one (acc : ownership * R) eid : result (ownership * R) :=
  let '(by_owner, r) := acc in
  '(winner, r) ← choose eid r;
  Ok (append_owner winner eid by_owner, r).

Definition group_loaded (top_k : list Z) r : result (ownership * R) := foldM route_one ([], r) top_k.

End loaded.

(** [group_expert_ids_by_owner_loaded] with its arguments; without a live
    provider the extra candidates are none. *)
Definition group_expert_ids_by_owner_loaded {R} `{RandomSource R} (top_k : list Z) (owners : ownership)
    (peer_loads : dict string Z) (self : string) (self_load : Z) (rng : R)
    (live_owners_provider : option (Z -> list string)) : result (ownership * R) :=
  group_loaded owners (load_of self self_load peer_loads)
    (fun eid => match live_owners_provider with Some f => f eid | None => [] end) top_k rng.

(** ** Lemmas: what appending builds *)

(** The ids given to [w], in the order they came. *)
Definition ids_of (w : string) (assigned : list (Z * string)) : list Z :=
  (filter (fun a : Z * string => a.2 = w) assigned).*1.

Lemma ids_of_in w eid (assigned : list (Z * string)) : eid ∈ ids_of w assigned <-> (eid, w) ∈ assigned.
Proof.
  unfold ids_of. rewrite list_elem_of_fmap. split.
  - by intros ([e o] & -> & [<- Hin]%list_elem_of_filter).
  - intros Hin. exists (eid, w). split; [done|]. by apply list_elem_of_filter.
Qed.

Definition assign (assigned : list (Z * string)) : ownership :=
  foldl (fun d a => append_owner a.2 a.1 d) [] assigned.

Lemma append_owner_get w o e (d : ownership) :
  dict_get w (append_owner o e d) =
  if decide (w = o) then Some (default [] (dict_get o d) ++ [e]) else dict_get w d.
Proof. apply dict_get_set. Qed.

Lemma assign_get w assigned :
  dict_get w (assign assigned) =
  match ids_of w assigned with
  | [] => None
  | l => Some l
  end.
Proof.
  unfold assign, ids_of. induction assigned as [|[e o] l IH] using rev_ind; [done|].
  rewrite foldl_snoc, append_owner_get. cbn [fst snd].
  rewrite filter_app, filter_cons, filter_nil, fmap_app. cbn [fst snd].
  destruct (decide (w = o)) as [->|Hw].
  - rewrite !decide_True by done. rewrite IH. by destruct (_.*1).
  - rewrite decide_False by congruence. rewrite IH. cbn [fmap list_fmap]. by rewrite app_nil_r.
Qed.

Lemma dict_set_values_perm {V} (k : string) (v v' : list V) (d : dict string (list V)) :
  default [] (dict_get k d) ++ v' = v ->
  concat (dict_values (dict_set k v d)) ≡ₚ concat (dict_values d) ++ v'.
Proof.
  unfold dict_values. induction d as [|[k' w] d IH]; cbn; intros E.
  { subst. by rewrite app_nil_r. }
  destruct (decide (k = k')) as [->|Hk]; cbn in *.
  - subst v. rewrite <- !app_assoc. f_equiv. apply Permutation_app_comm.
  - by rewrite IH, app_assoc.
Qed.

(** Every id is dispatched exactly as often as it was asked for. *)
Lemma assign_perm assigned : concat (dict_values (assign assigned)) ≡ₚ assigned.*1.
Proof.
  unfold assign. induction assigned as [|[e o] l IH] using rev_ind; [done|].
  rewrite foldl_snoc, fmap_app. unfold append_owner at 1. cbn [fst snd].
  rewrite (dict_set_values_perm _ _ [e]) by done. by rewrite IH.
Qed.

Lemma assign_wf assigned : dict_wf (assign assigned).
Proof.
  unfold assign. induction assigned as [|[e o] l IH] using rev_ind; [constructor|].
  rewrite foldl_snoc. by apply dict_set_wf.
Qed.

(** ** Candidates *)

Lemma dedup_spec l : NoDup (dedup l) /\ forall x, x ∈ dedup l <-> x ∈ l.
Proof.
  unfold dedup. induction l as [|x l [IHn IH]] using rev_ind; [split; [constructor|done]|].
  rewrite foldl_snoc. split; [by apply (dict_set_wf x tt)|]. intros y.
  rewrite dict_set_in_keys, IH, elem_of_app, list_elem_of_singleton. naive_solver.
Qed.

Lemma static_candidates_spec (owners : ownership) eid w :
  w ∈ default [] (dict_get eid (static_candidates owners)) <-> exists ids, (w, ids) ∈ owners /\ eid ∈ ids.
Proof.
  unfold static_candidates.
  assert (Hin : forall ids o (d : dict Z (list string)),
    w ∈ default [] (dict_get eid (foldl (fun d i => dict_set i (default [] (dict_get i d) ++ [o]) d) d ids))
    <-> w ∈ default [] (dict_get eid d) \/ (w = o /\ eid ∈ ids)).
  { intros ids o. induction ids as [|i ids IH]; intros d; cbn.
    - split; [by left|]. intros [?|[_ Hn]]; [done|inversion Hn].
    - rewrite IH, dict_get_set, elem_of_cons. destruct (decide (eid = i)) as [->|Hi]; cbn.
      + rewrite elem_of_app, list_elem_of_singleton. naive_solver.
      + naive_solver. }
  induction owners as [|[o ids] owners IH] using rev_ind.
  { cbn. split; [intros H; inversion H|intros (? & H & _); inversion H]. }
  rewrite foldl_snoc, Hin, IH. setoid_rewrite elem_of_app. setoid_rewrite list_elem_of_singleton.
  split.
  - intros [(ids' & ? & ?)|[-> ?]]; [exists ids'; auto|exists ids; auto].
  - intros (ids' & [Ho|Ho] & He); [left; eauto|]. injection Ho as -> ->. by right.
Qed.

Section choices.
Context {R : Type} `{RandomLaws R}.
Context (owners : ownership) (load : string -> Z) (live : Z -> list string).
Implicit Types (r : R) (eid : Z).

(** Who may serve an id: a static owner or a live one. *)
Definition may_serve eid (w : string) : Prop :=
  (exists ids, (w, ids) ∈ owners /\ eid ∈ ids) \/ w ∈ live eid.

Lemma candidates_spec eid : NoDup (candidates owners live eid) /\
  forall w, w ∈ candidates owners live eid <-> may_serve eid w.
Proof.
  unfold candidates, may_serve.
  destruct (dedup_spec (default [] (dict_get eid (static_candidates owners)) ++ live eid)) as [Hn Hi].
  split; [done|]. intros w. rewrite Hi, elem_of_app. by rewrite static_candidates_spec.
Qed.

(** A winner may serve the id, and with two or more candidates it is not more
    loaded than some other candidate. *)
Definition good_choice eid (w : string) : Prop :=
  may_serve eid w /\
  ((exists w', may_serve eid w' /\ w' <> w) -> exists w', may_serve eid w' /\ w' <> w /\ load w <= load w').

Lemma min_of_two eid a b w :
  may_serve eid a -> may_serve eid b -> a <> b -> min_by load [a; b] = Ok w -> good_choice eid w.
Proof.
  intros Ha Hb Hne E. apply min_by_ok in E as [Hin Hmin].
  pose proof (Hmin a ltac:(by left)). pose proof (Hmin b ltac:(by right; left)).
  apply elem_of_cons in Hin as [->|Hin].
  - split; [done|]. intros _. exists b. done.
  - apply list_elem_of_singleton in Hin as ->. split; [done|]. intros _. exists a. done.
Qed.

Lemma choose_spec eid r :
  match choose owners load live eid r with
  | Ok (w, _) => good_choice eid w
  | Raise e => e = KeyError /\ forall w, ~ may_serve eid w
  end.
Proof.
  destruct (candidates_spec eid) as [Hn Hi]. unfold choose.
  destruct (candidates owners live eid) as [|a [|b [|c l]]] eqn:Ec.
  - split; [done|]. intros w Hw. apply Hi in Hw. inversion Hw.
  - split; [apply Hi; by left|]. intros (w' & Hw' & Hne). apply Hi, list_elem_of_singleton in Hw'. done.
  - destruct (min_by_total load [a; b]) as [w E]; [done|]. rewrite E. cbn.
    apply NoDup_cons in Hn as [Hab _]. rewrite list_elem_of_singleton in Hab.
    apply (min_of_two eid a b); [apply Hi; by left|apply Hi; by right; left|done|done].
  - destruct (rng_sample2_total (a :: b :: c :: l) r) as (x & y & i & j & r' & E & Hx & Hy & Hij); [cbn; lia|].
    rewrite E. cbn [mbind result_bind].
    destruct (min_by_total load [x; y]) as [w Ew]; [done|]. rewrite Ew. cbn [mbind result_bind].
    apply (min_of_two eid x y); [apply Hi; by eapply list_elem_of_lookup_2..| |done].
    intros ->. apply Hij. by eapply NoDup_lookup.
Qed.

Lemma group_loaded_spec ids r :
  match group_loaded owners load live ids r with
  | Ok (d, _) => exists ws, length ws = length ids /\ d = assign (zip ids ws) /\ Forall2 good_choice ids ws
  | Raise e => e = KeyError /\ exists eid, eid ∈ ids /\ forall w, ~ may_serve eid w
  end.
Proof.
  unfold group_loaded.
  assert (Hgen : forall ids d r, match foldM (route_one owners load live) (d, r) ids with
    | Ok (d', _) => exists ws, length ws = length ids /\
        d' = foldl (fun d a => append_owner a.2 a.1 d) d (zip ids ws) /\ Forall2 good_choice ids ws
    | Raise e => e = KeyError /\ exists eid, eid ∈ ids /\ forall w, ~ may_serve eid w
    end); [|apply (Hgen ids [])].
  clear ids r. induction ids as [|eid ids IH]; intros d r; [by exists []|]. cbn [foldM].
  pose proof (choose_spec eid r) as Hc.
  change (route_one owners load live (d, r) eid) with
    ('(winner, r') ← choose owners load live eid r; Ok (append_owner winner eid d, r')).
  destruct (choose owners load live eid r) as [[w r1]|e]; cbn [mbind result_bind].
  - specialize (IH (append_owner w eid d) r1).
    destruct (foldM (route_one owners load live) (append_owner w eid d, r1) ids) as [[d' r']|e].
    + destruct IH as (ws & Hl & -> & Hf). exists (w :: ws). cbn. split; [by f_equal|]. split; [done|].
      by constructor.
    + destruct IH as (-> & eid' & Hin & Hno). split; [done|]. exists eid'. split; [by right|done].
  - destruct Hc as [-> Hno]. split; [done|]. exists eid. split; [by left|done].
Qed.

(** power-of-two routing. The router fails, with KeyError, exactly when some
    id has no owner; otherwise it partitions the ids: every id is dispatched
    once per occurrence, each shard gets its ids in the order they came, no
    shard is listed without ids, and each id goes to a shard that owns it and,
    where there is a choice, is not more loaded than another owner. *)
Theorem routing_partition ids r :
  match group_loaded owners load live ids r with
  | Ok (d, _) => dict_wf d /\ concat (dict_values d) ≡ₚ ids /\
      exists ws, length ws = length ids /\ Forall2 good_choice ids ws /\
        forall w, dict_get w d = match ids_of w (zip ids ws) with [] => None | l => Some l end
  | Raise e => e = KeyError /\ exists eid, eid ∈ ids /\ forall w, ~ may_serve eid w
  end.
Proof.
  pose proof (group_loaded_spec ids r) as Hg. destruct (group_loaded owners load live ids r) as [[d r']|e]; [|done].
  destruct Hg as (ws & Hl & -> & Hf). split; [apply assign_wf|]. split.
  - rewrite assign_perm, fst_zip by lia. done.
  - exists ws. split; [done|]. split; [done|]. intros w. apply assign_get.
Qed.

End choices.

(** ** Witness: expert 2 on two shards, 3 on three; 7 on none *)

Definition routing_owners : ownership := [("a", [0; 3]); ("b", [2; 3]); ("c", [2; 3])].
Definition routing_load (sid : string) : Z := if decide (sid = "b") then 4 else 1.

Lemma routing_partition_witness :
  (exists d r, group_loaded routing_owners routing_load (fun _ => []) [2; 0; 3; 2] ([1; 1]%nat : script) = Ok (d, r) /\
     dict_wf d /\ concat (dict_values d) ≡ₚ [2; 0; 3; 2] /\ dict_get "c" d = Some [2; 3; 2]) /\
  group_loaded routing_owners routing_load (fun _ => []) [0; 7] ([] : script) = Raise KeyError.
Proof.
  split.
  - do 2 eexists. split; [vm_compute; reflexivity|].
    destruct (routing_partition routing_owners routing_load (fun _ => []) [2; 0; 3; 2] ([1; 1]%nat : script)) as (H1 & H2 & _).
    split; [exact H1|]. split; [exact H2|reflexivity].
  - vm_compute. reflexivity.
Defined.
