(* ===== verification/Experts.v ===== *)
(** * moe.py and partial_load.py: expert weights and what a shard computes with them

    The routed experts of a layer are nine stacked tensors (three projections,
    each with weight, scales and biases), indexed along axis 0 by local slot.
    A shard that holds a subset has compact stacks and the tuple of ids in slot
    order.  A row of a stack is opaque; the array library is the class
    [StackLib], with the two facts the code relies on in [StackLaws]. *)
From S2P Require Import Prelude PyDict PyList.
Open Scope Z_scope.

(** The position [l[i]] refers to (negative indices count from the end), and [l[i]]. *)
Definition py_pos {A} (l : list A) (i : Z) : nat :=
  Z.to_nat (if i <? 0 then Z.of_nat (length l) + i else i).
Definition py_nth {A} (l : list A) (i : Z) : result A :=
  if i <? - Z.of_nat (length l) then Raise IndexError else or_raise IndexError (l !! py_pos l i).

Lemma py_pos_nat {A} (l : list A) (i : nat) : py_pos l (Z.of_nat i) = i.
Proof. unfold py_pos. rewrite (proj2 (Z.ltb_ge _ _)) by lia. lia. Qed.

Lemma py_nth_nat {A} (l : list A) (i : nat) : py_nth l (Z.of_nat i) = or_raise IndexError (l !! i).
Proof. unfold py_nth. by rewrite (proj2 (Z.ltb_ge _ _)), py_pos_nat by lia. Qed.

(** An attribute of a projection: absent, None, or a stack of rows. *)
Inductive Attr (C : Type) : Type :=
| Absent
| NoneAttr
| Stack (rows : list C).
Arguments Absent {C}.
Arguments NoneAttr {C}.
Arguments Stack {C} rows.

Class StackLib (C : Type) := {
  (** [mx.take(full, mx.array(ids), axis=0)] *)
  take_rows : list C -> list Z -> result (list C);
  (** [mx.concatenate([current, incoming[None, ...]], axis=0)] *)
  concat_row : list C -> C -> result (list C);
  (** the shape and dtype of a row *)
  kind : C -> list Z * Z;
}.

(** The row at an id. *)
Definition row_at {C} (col : list C) (i : Z) : option C :=
  if 0 <=? i then col !! Z.to_nat i else None.

Class StackLaws (C : Type) `{StackLib C} : Prop := {
  take_rows_ok col ids rows : ids <> [] -> mapM (row_at col) ids = Some rows -> take_rows col ids = Ok rows;
  concat_row_ok col c : Forall (fun c' => kind c' = kind c) col -> concat_row col c = Ok (col ++ [c]);
}.

(** [getattr(proj, attr)] used as a tensor. *)
Definition as_stack {C} (a : Attr C) : result (list C) :=
  match a with
  | Absent => Raise AttributeError
  | NoneAttr => Raise TypeError
  | Stack rows => Ok rows
  end.

(** A layer's attributes in the order of [_PROJ_ATTR_ORDER]. *)
Definition n_attrs : nat := 9.

Record LoadedModel (C : Type) : Type := mkModel {
  lm_layers : list (list (Attr C));
  lm_held : dict Z (list Z);
}.
Arguments mkModel {C} lm_layers lm_held.
Arguments lm_layers {C} _.
Arguments lm_held {C} _.

Section partial_load.
Context {C : Type} `{StackLib C}.
Implicit Types (lm : LoadedModel C) (col : list C) (attrs : list (Attr C)) (ids : list Z).

(** ** load_model_partial *)

(** The inner loops over projections and attributes. *)
Definition slice_attr ids (a : Attr C) : result (Attr C) :=
  match a with
  | Stack full => held ← take_rows full ids; Ok (Stack held)
  | _ => Ok a
  end.

Definition slice_layer (layers : list (list (Attr C))) (it : Z * list Z) : result (list (list (Attr C))) :=
  let '(layer_idx, ids) := it in
  match ids with
  | [] => Ok layers
  | _ =>
      attrs ← py_nth layers layer_idx;
      attrs' ← mapR (slice_attr ids) attrs;
      Ok (<[py_pos layers layer_idx := attrs']> layers)
  end.

Definition load_model_partial (full : list (list (Attr C))) (held : dict Z (list Z)) : result (LoadedModel C) :=
  layers ← foldM slice_layer full held;
  Ok (mkModel layers held).

(** ** slice_expert *)

(** [list(held).index(expert_id)] *)
Fixpoint index_of (x : Z) (l : list Z) : option nat :=
  match l with
  | [] => None
  | y :: l => if decide (x = y) then Some O else S <$> index_of x l
  end.

Definition held_at lm (layer_idx expert_id : Z) : result (list Z) :=
  held ← or_raise KeyError (dict_get layer_idx (lm_held lm));
  _ ← require (bool_decide (expert_id ∈ held)) KeyError;
  Ok held.

Definition take_one (slot : nat) (a : Attr C) : result C :=
  col ← as_stack a;
  rows ← take_rows col [Z.of_nat slot];
  py_nth rows 0.

Definition slice_expert lm (layer_idx expert_id : Z) : result (list C) :=
  held ← held_at lm layer_idx expert_id;
  slot ← or_raise ValueError (index_of expert_id held);
  attrs ← py_nth (lm_layers lm) layer_idx;
  mapR (take_one slot) attrs.

(** ** attach_expert and detach_expert: the attributes are replaced one by one,
    so an error leaves the ones before it replaced *)

Fixpoint update_attrs {X} (f : Attr C -> X -> result (Attr C)) attrs (xs : list X) : result unit * list (Attr C) :=
  match attrs, xs with
  | a :: attrs, x :: xs =>
      match f a x with
      | Raise e => (Raise e, a :: attrs)
      | Ok a' => let '(r, attrs') := update_attrs f attrs xs in (r, a' :: attrs')
      end
  | _, _ => (Ok tt, attrs)
  end.

Definition grow_attr (a : Attr C) (incoming : C) : result (Attr C) :=
  col ← as_stack a;
  grown ← concat_row col incoming;
  Ok (Stack grown).

Definition shrink_attr (surviving : list Z) (a : Attr C) (_ : unit) : result (Attr C) :=
  col ← as_stack a;
  shrunk ← take_rows col surviving;
  Ok (Stack shrunk).

(** Run [f] on the attributes of a layer; on success, set the held ids. *)
Definition edit_layer lm (layer_idx : Z) (held' : list Z)
    (f : list (Attr C) -> result unit * list (Attr C)) : result unit * LoadedModel C :=
  match py_nth (lm_layers lm) layer_idx with
  | Raise e => (Raise e, lm)
  | Ok attrs =>
      let '(r, attrs') := f attrs in
      let layers := <[py_pos (lm_layers lm) layer_idx := attrs']> (lm_layers lm) in
      match r with
      | Raise e => (Raise e, mkModel layers (lm_held lm))
      | Ok _ => (Ok tt, mkModel layers (dict_set layer_idx held' (lm_held lm)))
      end
  end.

Definition attach_expert lm (layer_idx expert_id : Z) (tensors : list C) : result unit * LoadedModel C :=
  if negb (bool_decide (length tensors = n_attrs)) then (Raise ValueError, lm) else
  let held_before := default [] (dict_get layer_idx (lm_held lm)) in
  if bool_decide (expert_id ∈ held_before) then (Raise ValueError, lm) else
  edit_layer lm layer_idx (held_before ++ [expert_id]) (fun attrs => update_attrs grow_attr attrs tensors).

(** [[i for i, eid in enumerate(held) if eid != expert_id]] *)
Definition surviving_slots (expert_id : Z) (held : list Z) : list Z :=
  (filter (fun it : Z * Z => it.2 <> expert_id) (imap (fun i eid => (Z.of_nat i, eid)) held)).*1.

Definition detach_expert lm (layer_idx expert_id : Z) : result unit * LoadedModel C :=
  match held_at lm layer_idx expert_id with
  | Raise e => (Raise e, lm)
  | Ok held =>
      edit_layer lm layer_idx (filter (fun e => e <> expert_id) held)
        (fun attrs => update_attrs (shrink_attr (surviving_slots expert_id held)) attrs
                        (replicate (length attrs) tt))
  end.

End partial_load.

(** ** What a compact stack holds *)

Section holds.
Context {C : Type} `{StackLaws C}.
Implicit Types (col : list C) (attrs : list (Attr C)) (ids : list Z) (full : list (list C)).

(** [rows] are the rows of [fc] at [ids]. *)
Definition rows_of (fc : list C) ids (rows : list C) : Prop := Forall2 (fun i r => row_at fc i = Some r) ids rows.

(** The rows of a column have one shape and dtype. *)
Definition uniform (fc : list C) : Prop := forall c c', c ∈ fc -> c' ∈ fc -> kind c = kind c'.

(** Every attribute is the stack of the rows of its full column at [ids]. *)
Definition holds full ids attrs : Prop :=
  Forall2 (fun fc a => exists rows, a = Stack rows /\ rows_of fc ids rows) full attrs.

(** The nine tensors of an expert. *)
Definition expert_row full (eid : Z) (row : list C) : Prop := Forall2 (fun fc r => row_at fc eid = Some r) full row.

Lemma rows_of_det fc ids r1 r2 : rows_of fc ids r1 -> rows_of fc ids r2 -> r1 = r2.
Proof.
  intros H1. revert r2. induction H1 as [|i r ids r1 Hi _ IH]; intros r2 H2; inversion H2; subst; [done|].
  f_equal; [congruence|auto].
Qed.

Lemma take_rows_of fc ids rows : ids <> [] -> rows_of fc ids rows -> take_rows fc ids = Ok rows.
Proof. intros Hne Hr. apply take_rows_ok; [done|]. by apply mapM_Some_2. Qed.

Lemma index_of_some x l : x ∈ l -> exists i, index_of x l = Some i /\ l !! i = Some x.
Proof.
  induction l as [|y l IH]; intros Hx; [inversion Hx|]. cbn. case_decide as Hd; [subst; by exists O|].
  apply elem_of_cons in Hx as [->|Hx]; [done|]. destruct (IH Hx) as (i & -> & Hi). by exists (S i).
Qed.

Lemma row_at_nat col (i : nat) : row_at col (Z.of_nat i) = col !! i.
Proof. unfold row_at. rewrite (proj2 (Z.leb_le _ _)) by lia. by rewrite Nat2Z.id. Qed.

Lemma rows_of_lookup fc ids rows i eid :
  rows_of fc ids rows -> ids !! i = Some eid -> exists r, rows !! i = Some r /\ row_at fc eid = Some r.
Proof. intros Hr Hi. by destruct (Forall2_lookup_l _ _ _ _ _ Hr Hi) as (r & ? & ?); eauto. Qed.

Lemma take_one_stack rows i r : rows !! i = Some r -> take_one i (Stack rows) = Ok r.
Proof.
  intros Hr. unfold take_one. cbn [as_stack mbind result_bind].
  rewrite (take_rows_ok rows [Z.of_nat i] [r]); [done|done|]. cbn. by rewrite row_at_nat, Hr.
Qed.

(** Slot [i] of the stacks is the expert whose id is in position [i]. *)
Lemma take_slot full ids attrs i eid :
  holds full ids attrs -> ids !! i = Some eid ->
  exists row, mapR (take_one i) attrs = Ok row /\ expert_row full eid row.
Proof.
  intros Hh Hi. unfold holds, expert_row in *. induction Hh as [|fc a full attrs (rows & -> & Hr) _ (row & IH1 & IH2)].
  { by exists []. }
  destruct (rows_of_lookup _ _ _ _ _ Hr Hi) as (r & Hl & Hf). exists (r :: row). split; [|by constructor].
  cbn [mapR]. rewrite (take_one_stack _ _ _ Hl). cbn [mbind result_bind]. by rewrite IH1.
Qed.

Lemma slice_holds full layer_idx eid lm ids attrs :
  dict_get layer_idx (lm_held lm) = Some ids -> py_nth (lm_layers lm) layer_idx = Ok attrs ->
  holds full ids attrs ->
  if decide (eid ∈ ids) then exists row, slice_expert lm layer_idx eid = Ok row /\ expert_row full eid row
  else slice_expert lm layer_idx eid = Raise KeyError.
Proof.
  intros Hd Hl Hh. unfold slice_expert, held_at. rewrite Hd. cbn [or_raise mbind result_bind]. case_decide as He.
  - rewrite (bool_decide_eq_true_2 _ He). cbn [require mbind result_bind].
    destruct (index_of_some _ _ He) as (i & -> & Hi). cbn [or_raise mbind result_bind]. rewrite Hl.
    cbn [mbind result_bind]. by eapply take_slot.
  - by rewrite (bool_decide_eq_false_2 _ He).
Qed.

(** *** Growing *)

Lemma row_at_in col i c : row_at col i = Some c -> c ∈ col.
Proof. unfold row_at. case_match; [|done]. apply list_elem_of_lookup_2. Qed.

Lemma grow_stack fc ids rows eid c :
  uniform fc -> rows_of fc ids rows -> row_at fc eid = Some c -> grow_attr (Stack rows) c = Ok (Stack (rows ++ [c])).
Proof.
  intros Hu Hr Hc. unfold grow_attr. cbn [as_stack mbind result_bind]. rewrite concat_row_ok; [done|].
  apply Forall_forall. intros c' Hc'. apply Hu; [|by eapply row_at_in].
  apply list_elem_of_lookup in Hc' as [i Hi]. destruct (Forall2_lookup_r _ _ _ _ _ Hr Hi) as (e & _ & He).
  by eapply row_at_in.
Qed.

Lemma grow_holds full ids attrs eid tensors :
  Forall uniform full -> holds full ids attrs -> expert_row full eid tensors ->
  exists attrs', update_attrs grow_attr attrs tensors = (Ok tt, attrs') /\ holds full (ids ++ [eid]) attrs'.
Proof.
  intros Hun Hh. revert tensors.
  induction Hh as [|fc a full attrs (rows & -> & Hr) _ IH]; intros tensors Hrow; inversion Hrow as [|? c ? tensors' Hc Hrow']; subst.
  { exists []. split; [done|constructor]. }
  apply Forall_cons in Hun as [Hu Hun]. destruct (IH Hun _ Hrow') as (attrs' & Hup & Hh').
  exists (Stack (rows ++ [c]) :: attrs'). cbn [update_attrs]. rewrite (grow_stack _ _ _ _ _ Hu Hr Hc), Hup.
  split; [done|]. constructor; [|done]. eexists; split; [done|]. apply Forall2_app; [done|]. by repeat constructor.
Qed.

(** *** Shrinking *)

Lemma surviving_snoc eid held e :
  surviving_slots eid (held ++ [e]) =
  surviving_slots eid held ++ (if decide (e <> eid) then [Z.of_nat (length held)] else []).
Proof.
  unfold surviving_slots. rewrite imap_app, filter_app, fmap_app. f_equal. cbn [imap].
  rewrite filter_cons, filter_nil. cbn [snd]. rewrite Nat.add_0_r. by repeat case_decide.
Qed.

Lemma mapM_row_app col r (ids : list Z) rows :
  mapM (row_at col) ids = Some rows -> mapM (row_at (col ++ r)) ids = Some rows.
Proof.
  rewrite !mapM_Some. intros Hr. eapply Forall2_impl; [exact Hr|]. intros i x. unfold row_at. case_match; [|done].
  apply lookup_app_l_Some.
Qed.

Lemma surviving_rows (R : Z -> C -> Prop) eid ids rows :
  Forall2 R ids rows ->
  exists rows', mapM (row_at rows) (surviving_slots eid ids) = Some rows' /\
    Forall2 R (filter (fun e => e <> eid) ids) rows'.
Proof.
  revert rows. induction ids as [|e ids IH] using rev_ind; intros rows Hr.
  { inversion Hr; subst. by exists []. }
  apply Forall2_app_inv_l in Hr as (rows1 & rows2 & Hr1 & Hr2 & ->).
  inversion Hr2 as [|? r ? ? Her Hnil]; subst. inversion Hnil; subst.
  destruct (IH _ Hr1) as (rows' & Hm & Hf). rewrite surviving_snoc, filter_app, filter_cons, filter_nil.
  case_decide as He.
  - exists (rows' ++ [r]). split; [|by apply Forall2_app; [|repeat constructor]].
    apply mapM_Some, Forall2_app; [by apply mapM_Some, mapM_row_app|]. constructor; [|constructor].
    rewrite row_at_nat, (Forall2_length _ _ _ Hr1). by apply list_lookup_middle.
  - exists rows'. rewrite !app_nil_r. split; [by apply mapM_row_app|done].
Qed.

Lemma surviving_nonempty eid ids : filter (fun e => e <> eid) ids <> [] -> surviving_slots eid ids <> [].
Proof.
  induction ids as [|e ids IH] using rev_ind; [done|]. rewrite surviving_snoc, filter_app, filter_cons, filter_nil.
  case_decide; [intros _ Hn; by apply app_nil in Hn as [_ ?]|]. rewrite !app_nil_r. apply IH.
Qed.

Lemma shrink_holds full ids attrs eid :
  holds full ids attrs -> filter (fun e => e <> eid) ids <> [] ->
  exists attrs', update_attrs (shrink_attr (surviving_slots eid ids)) attrs (replicate (length attrs) tt)
                   = (Ok tt, attrs') /\
    holds full (filter (fun e => e <> eid) ids) attrs'.
Proof.
  intros Hh Hne. apply surviving_nonempty in Hne.
  induction Hh as [|fc a full attrs (rows & -> & Hr) _ (attrs' & IH1 & IH2)]; [exists []; split; [done|constructor]|].
  destruct (surviving_rows _ eid _ _ Hr) as (rows' & Hm & Hf). exists (Stack rows' :: attrs').
  cbn [length replicate update_attrs].
  change (shrink_attr ?s (Stack rows) ()) with (shrunk ← take_rows rows s; Ok (Stack shrunk)).
  rewrite (take_rows_ok _ _ _ Hne Hm). cbn [mbind result_bind]. rewrite IH1. split; [done|].
  constructor; [by eexists|done].
Qed.

End holds.

(** ** A whole model *)

Section models.
Context {C : Type} `{StackLaws C}.
Implicit Types (lm : LoadedModel C) (full : list (list C)) (tables : list (list (list C))).

(** A layer with held ids has compact stacks; any other has the full ones. *)
Definition layer_ok full (held : option (list Z)) (attrs : list (Attr C)) : Prop :=
  length full = n_attrs /\ Forall uniform full /\
  match held with
  | None | Some [] => attrs = Stack <$> full
  | Some ids => holds full ids attrs
  end.

(** A model as the library loads it, with the full stacks. *)
Definition full_layers tables : list (list (Attr C)) := (fun full => Stack <$> full) <$> tables.

Lemma full_layers_lookup tables l full : tables !! l = Some full -> full_layers tables !! l = Some (Stack <$> full).
Proof. intros Hl. unfold full_layers. by rewrite list_lookup_fmap, Hl. Qed.

(** [lm] is a model whose full weights are [tables], a list of columns per layer. *)
Definition model_ok tables lm : Prop :=
  length (lm_layers lm) = length tables /\
  forall l full attrs, tables !! l = Some full -> lm_layers lm !! l = Some attrs ->
    layer_ok full (dict_get (Z.of_nat l) (lm_held lm)) attrs.

(** The ids of a layer's held list are rows of its columns. *)
Definition ids_in_range tables (it : Z * list Z) : Prop :=
  exists l full, it.1 = Z.of_nat l /\ tables !! l = Some full /\
    Forall (fun fc => is_Some (mapM (row_at fc) it.2)) full.

Lemma slice_attrs_holds full ids :
  ids <> [] -> Forall (fun fc => is_Some (mapM (row_at fc) ids)) full ->
  exists attrs, mapR (slice_attr ids) (Stack <$> full) = Ok attrs /\ holds full ids attrs.
Proof.
  intros Hne. induction 1 as [|fc full [rows Hr] _ (attrs & IH1 & IH2)]; [exists []; split; [done|constructor]|].
  exists (Stack rows :: attrs). split; [|constructor; [exists rows; split; [done|by apply mapM_Some_1]|done]].
  cbn [fmap list_fmap mapR slice_attr]. rewrite (take_rows_ok _ _ _ Hne Hr). cbn [mbind result_bind].
  by rewrite IH1.
Qed.

(** The loop over the held layers. *)
Lemma slice_layers_ok tables held layers :
  dict_wf held -> Forall (ids_in_range tables) held -> length layers = length tables ->
  (forall l full, Z.of_nat l ∈ dict_keys held -> tables !! l = Some full -> layers !! l = Some (Stack <$> full)) ->
  exists layers', foldM slice_layer layers held = Ok layers' /\ length layers' = length tables /\
    forall l, match dict_get (Z.of_nat l) held with
              | None | Some [] => layers' !! l = layers !! l
              | Some ids => forall full, tables !! l = Some full -> exists attrs, layers' !! l = Some attrs /\ holds full ids attrs
              end.
Proof.
  revert layers. induction held as [|[k ids] held IH]; intros layers Hw Hr Hlen Hfull; [by exists layers|].
  apply NoDup_cons in Hw as [Hk Hw]. apply Forall_cons in Hr as [(l0 & full0 & Hk0 & Ht0 & Hids) Hr].
  cbn [fst snd] in Hk0, Hids. subst k. cbn [fst] in Hk.
  assert (Hl0 : layers !! l0 = Some (Stack <$> full0)) by (apply Hfull; [left|done]).
  assert (Hstep : exists layers1, slice_layer layers (Z.of_nat l0, ids) = Ok layers1 /\ length layers1 = length tables /\
    (forall l, l <> l0 -> layers1 !! l = layers !! l) /\
    match ids with [] => layers1 !! l0 = layers !! l0 | _ => exists attrs, layers1 !! l0 = Some attrs /\ holds full0 ids attrs end).
  { destruct ids as [|i ids]; [by exists layers|].
    destruct (slice_attrs_holds full0 (i :: ids)) as (attrs & Ha & Hh); [done|done|].
    exists (<[l0 := attrs]> layers). unfold slice_layer. rewrite py_nth_nat, Hl0, py_pos_nat.
    cbn [or_raise mbind result_bind]. rewrite Ha. split; [done|]. split; [by rewrite length_insert|]. split.
    - intros l Hl. by rewrite list_lookup_insert_ne.
    - exists attrs. split; [|done]. apply list_lookup_insert_eq. by eapply lookup_lt_Some. }
  destruct Hstep as (layers1 & Hs & Hlen1 & Hne & Heq). cbn [foldM]. rewrite Hs. cbn [mbind result_bind].
  destruct (IH layers1 Hw Hr Hlen1) as (layers' & Hf & Hlen' & Hget).
  { intros l full Hin Htl. rewrite Hne; [apply Hfull; [by right|done]|]. intros ->. done. }
  exists layers'. split; [done|]. split; [done|]. intros l. specialize (Hget l). cbn [dict_get].
  destruct (decide (Z.of_nat l = Z.of_nat l0)) as [Hl|Hl].
  - apply Nat2Z.inj in Hl as ->. rewrite (proj2 (dict_get_None _ _) Hk) in Hget. rewrite Hget.
    destruct ids; [done|]. intros full Hf0. by simplify_eq.
  - assert (l <> l0) by (intros ->; done). by rewrite <- (Hne l).
Qed.

(** the loader builds compact stacks. For held ids in range it returns a
    model in which every listed layer holds exactly the rows of its ids, in
    their order, and every other layer its full stacks. *)
Theorem load_model_partial_ok tables held :
  dict_wf held -> Forall (ids_in_range tables) held -> 
  Forall (fun full => length full = n_attrs /\ Forall uniform full) tables ->
  exists lm, load_model_partial (full_layers tables) held = Ok lm /\ lm_held lm = held /\ model_ok tables lm.
Proof.
  intros Hw Hr Hn. destruct (slice_layers_ok tables held (full_layers tables)) as (layers & Hf & Hlen & Hget);
    [done|done|by apply length_fmap|by intros l full _; apply full_layers_lookup|].
  exists (mkModel layers held). unfold load_model_partial. rewrite Hf. split; [done|]. split; [done|].
  split; [done|]. cbn. intros l full attrs Hl Ha. destruct (Forall_lookup_1 _ _ _ _ Hn Hl) as [Hn9 Hu].
  split; [done|]. split; [done|].
  specialize (Hget l). rewrite (full_layers_lookup _ _ _ Hl), Ha in Hget.
  destruct (dict_get (Z.of_nat l) held) as [[|i ids]|]; [by simplify_option_eq| |by simplify_option_eq].
  destruct (Hget full Hl) as (attrs' & [= <-] & Hh). done.
Qed.

Lemma edit_layer_ok lm l held' f attrs attrs' :
  lm_layers lm !! l = Some attrs -> f attrs = (Ok tt, attrs') ->
  edit_layer lm (Z.of_nat l) held' f =
  (Ok tt, mkModel (<[l := attrs']> (lm_layers lm)) (dict_set (Z.of_nat l) held' (lm_held lm))).
Proof.
  intros Hl Hf. unfold edit_layer. rewrite py_nth_nat, Hl, py_pos_nat. cbn [or_raise]. by rewrite Hf.
Qed.

(** Replacing one layer's attributes and held ids consistently keeps the model right. *)
Lemma model_ok_edit tables lm l full held' attrs' :
  model_ok tables lm -> tables !! l = Some full -> layer_ok full (Some held') attrs' ->
  model_ok tables (mkModel (<[l := attrs']> (lm_layers lm)) (dict_set (Z.of_nat l) held' (lm_held lm))).
Proof.
  intros [Hlen Hm] Hl Hok. split; cbn; [by rewrite length_insert|]. intros l1 full1 attrs1 Ht Ha.
  rewrite dict_get_set. destruct (decide (Z.of_nat l1 = Z.of_nat l)) as [He|He].
  - apply Nat2Z.inj in He as ->. simplify_eq. rewrite list_lookup_insert_eq in Ha; [by simplify_eq|].
    rewrite Hlen. by eapply lookup_lt_Some.
  - rewrite list_lookup_insert_ne in Ha by (intros ->; done). by apply (Hm l1).
Qed.

Lemma layer_of tables lm l full :
  model_ok tables lm -> tables !! l = Some full ->
  exists attrs, lm_layers lm !! l = Some attrs /\ layer_ok full (dict_get (Z.of_nat l) (lm_held lm)) attrs.
Proof.
  intros [Hlen Hm] Hl. destruct (lookup_lt_is_Some_2 (lm_layers lm) l) as [attrs Ha].
  { rewrite Hlen. by eapply lookup_lt_Some. }
  exists attrs. split; [done|]. by apply (Hm l).
Qed.

Definition held_before lm (l : nat) : list Z := default [] (dict_get (Z.of_nat l) (lm_held lm)).

Lemma expert_row_length full eid row : expert_row full eid row -> length row = length full.
Proof. intros Hr. symmetry. by eapply Forall2_length. Qed.

Lemma attach_step lm l eid tensors attrs attrs' :
  lm_layers lm !! l = Some attrs -> length tensors = n_attrs -> eid ∉ held_before lm l ->
  update_attrs grow_attr attrs tensors = (Ok tt, attrs') ->
  attach_expert lm (Z.of_nat l) eid tensors =
  (Ok tt, mkModel (<[l := attrs']> (lm_layers lm)) (dict_set (Z.of_nat l) (held_before lm l ++ [eid]) (lm_held lm))).
Proof.
  intros Ha Hn He Hu. unfold attach_expert. rewrite bool_decide_eq_true_2 by done. cbn [negb].
  fold (held_before lm l). rewrite bool_decide_eq_false_2 by done. by apply (edit_layer_ok _ _ _ _ attrs).
Qed.

(** The outcome of an attach to a layer with compact stacks. *)
Definition attached lm (l : nat) (eid : Z) (attrs' : list (Attr C)) : LoadedModel C :=
  mkModel (<[l := attrs']> (lm_layers lm)) (dict_set (Z.of_nat l) (held_before lm l ++ [eid]) (lm_held lm)).

Lemma attach_compact tables lm l full ids eid tensors :
  model_ok tables lm -> tables !! l = Some full -> dict_get (Z.of_nat l) (lm_held lm) = Some ids -> ids <> [] ->
  expert_row full eid tensors -> eid ∉ ids ->
  exists attrs', attach_expert lm (Z.of_nat l) eid tensors = (Ok tt, attached lm l eid attrs') /\
    held_before lm l = ids /\ holds full (ids ++ [eid]) attrs' /\ layer_ok full (Some (ids ++ [eid])) attrs'.
Proof.
  intros Hm Hl Hd Hne Hrow He. destruct (layer_of _ _ _ _ Hm Hl) as (attrs & Ha & Hn & Hun & Hh).
  rewrite Hd in Hh. assert (Hb : held_before lm l = ids) by (unfold held_before; by rewrite Hd).
  destruct ids as [|i ids]; [done|]. destruct (grow_holds full _ attrs eid tensors Hun Hh Hrow) as (attrs' & Hu & Hh').
  exists attrs'. split; [|done]. apply (attach_step _ _ _ _ attrs); try done; [|by rewrite Hb].
  rewrite (expert_row_length _ _ _ Hrow). exact Hn.
Qed.

Lemma attach_expert_keeps tables lm l full ids eid tensors :
  model_ok tables lm -> tables !! l = Some full -> dict_get (Z.of_nat l) (lm_held lm) = Some ids -> ids <> [] ->
  expert_row full eid tensors -> eid ∉ ids ->
  exists lm', attach_expert lm (Z.of_nat l) eid tensors = (Ok tt, lm') /\
    lm_held lm' = dict_set (Z.of_nat l) (ids ++ [eid]) (lm_held lm) /\ model_ok tables lm'.
Proof.
  intros Hm Hl Hd Hne Hrow He. destruct (attach_compact _ _ _ _ _ _ _ Hm Hl Hd Hne Hrow He) as (attrs' & Hat & Hb & _ & Hok).
  exists (attached lm l eid attrs'). split; [done|]. unfold attached. rewrite Hb. split; [done|].
  by apply (model_ok_edit _ _ _ full).
Qed.

(** attaching an expert to a layer that has compact stacks. An id already
    held is refused with ValueError and nothing changes; otherwise, given the
    expert's nine tensors, the attach succeeds, the id goes after the held
    ones, and the model stays right. *)
Theorem attach_expert_ok tables lm l full ids eid tensors :
  model_ok tables lm -> tables !! l = Some full -> dict_get (Z.of_nat l) (lm_held lm) = Some ids -> ids <> [] ->
  expert_row full eid tensors ->
  if decide (eid ∈ ids) then attach_expert lm (Z.of_nat l) eid tensors = (Raise ValueError, lm)
  else exists lm', attach_expert lm (Z.of_nat l) eid tensors = (Ok tt, lm') /\
    lm_held lm' = dict_set (Z.of_nat l) (ids ++ [eid]) (lm_held lm) /\ model_ok tables lm'.
Proof.
  intros Hm Hl Hd Hne Hrow. case_decide as He.
  - unfold attach_expert. case_match; [done|]. rewrite Hd. cbn [default]. by rewrite bool_decide_eq_true_2.
  - by apply (attach_expert_keeps _ _ _ full).
Qed.

(** detaching a held expert other than the layer's last one succeeds, takes
    its id out of the held ones and keeps the model right. *)
Theorem detach_expert_ok tables lm l full ids eid :
  model_ok tables lm -> tables !! l = Some full -> dict_get (Z.of_nat l) (lm_held lm) = Some ids ->
  eid ∈ ids -> filter (fun e => e <> eid) ids <> [] ->
  exists lm', detach_expert lm (Z.of_nat l) eid = (Ok tt, lm') /\
    lm_held lm' = dict_set (Z.of_nat l) (filter (fun e => e <> eid) ids) (lm_held lm) /\ model_ok tables lm'.
Proof.
  intros Hm Hl Hd He Hne. destruct (layer_of _ _ _ _ Hm Hl) as (attrs & Ha & Hn & Hun & Hh). rewrite Hd in Hh.
  assert (holds full ids attrs) as Hh' by (destruct ids; [inversion He|done]).
  destruct (shrink_holds _ _ _ eid Hh' Hne) as (attrs' & Hu & Hs).
  unfold detach_expert, held_at. rewrite Hd. cbn [or_raise mbind result_bind].
  rewrite (bool_decide_eq_true_2 _ He). cbn [require mbind result_bind].
  rewrite (edit_layer_ok _ _ _ _ attrs attrs' Ha Hu). eexists. split; [done|]. split; [done|].
  apply (model_ok_edit _ _ _ full); [done|done|]. split; [done|]. split; [done|].
  by destruct (filter (fun e => e <> eid) ids).
Qed.

Lemma holds_det full ids a1 a2 : holds full ids a1 -> holds full ids a2 -> a1 = a2.
Proof.
  intros H1. revert a2. induction H1 as [|fc a full a1 (r & -> & Hr) _ IH]; intros a2 H2; inversion H2 as [|? ? ? ? (r' & -> & Hr')]; subst; [done|].
  f_equal; [f_equal; by eapply rows_of_det|auto].
Qed.

Lemma filter_ne_id (eid : Z) (ids : list Z) : eid ∉ ids -> filter (fun e => e <> eid) ids = ids.
Proof.
  induction ids as [|i ids IH]; [done|]. rewrite not_elem_of_cons, filter_cons. intros [Hi Hn].
  rewrite decide_True by done. by rewrite IH.
Qed.

(** detaching what was just attached restores the model exactly. *)
Theorem detach_attach tables lm l full ids eid tensors lm' :
  model_ok tables lm -> tables !! l = Some full -> dict_get (Z.of_nat l) (lm_held lm) = Some ids -> ids <> [] ->
  expert_row full eid tensors -> attach_expert lm (Z.of_nat l) eid tensors = (Ok tt, lm') ->
  detach_expert lm' (Z.of_nat l) eid = (Ok tt, lm).
Proof.
  intros Hm Hl Hd Hne Hrow Hat. assert (He : eid ∉ ids).
  { intros He. unfold attach_expert in Hat. rewrite Hd in Hat. cbn [default] in Hat.
    rewrite (bool_decide_eq_true_2 _ He) in Hat. by destruct (negb _). }
  destruct (attach_compact _ _ _ _ _ _ _ Hm Hl Hd Hne Hrow He) as (attrs' & Hat' & Hb & Hg & _).
  rewrite Hat in Hat'. injection Hat' as ->. destruct (layer_of _ _ _ _ Hm Hl) as (attrs & Ha & Hn & Hun & Hh).
  rewrite Hd in Hh. assert (Hh' : holds full ids attrs) by (by destruct ids).
  assert (Hfil : filter (fun e => e <> eid) (ids ++ [eid]) = ids).
  { rewrite filter_app, filter_cons, filter_nil, decide_False, app_nil_r by (intros Hc; done).
    apply filter_ne_id. done. }
  destruct (shrink_holds _ _ _ eid Hg) as (attrs2 & Hu2 & Hs); [by rewrite Hfil|]. rewrite Hfil in Hs.
  assert (attrs2 = attrs) as -> by (by eapply holds_det).
  unfold detach_expert, held_at, attached. cbn [lm_held]. rewrite Hb, dict_get_set_eq. cbn [or_raise mbind result_bind].
  rewrite bool_decide_eq_true_2 by (apply elem_of_app; right; by left). cbn [require mbind result_bind].
  rewrite Hfil. erewrite (edit_layer_ok _ l _ _ attrs' attrs); [| |exact Hu2];
    [|apply list_lookup_insert_eq; by eapply lookup_lt_Some].
  cbn [lm_layers lm_held]. rewrite list_insert_insert_eq, list_insert_id by done.
  rewrite dict_set_set, dict_set_id by done. by destruct lm.
Qed.

(** The slots of a full layer's stacks stay where they are when the stacks grow. *)
Lemma grow_full full (i : nat) row eid tensors :
  Forall uniform full -> expert_row full (Z.of_nat i) row -> expert_row full eid tensors ->
  exists attrs', update_attrs grow_attr (Stack <$> full) tensors = (Ok tt, attrs') /\ mapR (take_one i) attrs' = Ok row.
Proof.
  intros Hun Hrow. revert tensors. induction Hrow as [|fc r full row Hr Hrow IH]; intros tensors Ht; inversion Ht as [|? c ? tensors' Hc Ht']; subst.
  { by exists []. }
  apply Forall_cons in Hun as [Hu Hun]. destruct (IH Hun _ Ht') as (attrs' & Hup & Hm).
  exists (Stack (fc ++ [c]) :: attrs'). rewrite row_at_nat in Hr.
  assert (Hg : grow_attr (Stack fc) c = Ok (Stack (fc ++ [c]))).
  { unfold grow_attr. cbn [as_stack mbind result_bind]. rewrite concat_row_ok; [done|].
    apply Forall_forall. intros c' Hc'. apply Hu; [done|by eapply row_at_in]. }
  rewrite fmap_cons. cbn [update_attrs]. rewrite Hg, Hup. split; [done|]. cbn [mapR].
  rewrite (take_one_stack _ _ r) by (by apply lookup_app_l_Some). cbn [mbind result_bind]. by rewrite Hm.
Qed.

Lemma full_slot full (i : nat) row : expert_row full (Z.of_nat i) row -> mapR (take_one i) (Stack <$> full) = Ok row.
Proof.
  induction 1 as [|fc r full row Hr _ IH]; [done|]. rewrite row_at_nat in Hr. rewrite fmap_cons. cbn [mapR].
  rewrite (take_one_stack _ _ _ Hr). cbn [mbind result_bind]. by rewrite IH.
Qed.

(** attaching to a layer that has its full stacks. The layer becomes a
    compact one with the single id, in slot 0, where the stacks still hold the
    rows of expert 0: the shard then serves expert 0's weights as the
    attached expert's. *)
Theorem attach_unsliced tables lm l full eid tensors row0 :
  model_ok tables lm -> tables !! l = Some full -> default [] (dict_get (Z.of_nat l) (lm_held lm)) = [] ->
  expert_row full eid tensors -> expert_row full 0 row0 ->
  exists lm', attach_expert lm (Z.of_nat l) eid tensors = (Ok tt, lm') /\ slice_expert lm' (Z.of_nat l) eid = Ok row0.
Proof.
  intros Hm Hl Hd Hrow Hrow0. destruct (layer_of _ _ _ _ Hm Hl) as (attrs & Ha & Hn & Hun & Hh).
  assert (attrs = Stack <$> full) as -> by (destruct (dict_get (Z.of_nat l) (lm_held lm)) as [[|]|]; done).
  destruct (grow_full full 0 row0 eid tensors Hun Hrow0 Hrow) as (attrs' & Hu & Hs).
  exists (attached lm l eid attrs'). split.
  - apply (attach_step _ _ _ _ (Stack <$> full)); try done; [rewrite (expert_row_length _ _ _ Hrow); exact Hn|].
    unfold held_before. rewrite Hd. intros Hc. inversion Hc.
  - unfold attached, slice_expert, held_at, held_before. cbn [lm_held lm_layers]. rewrite dict_get_set_eq, Hd.
    cbn [app or_raise mbind result_bind].
    rewrite bool_decide_eq_true_2 by (by left). cbn [require mbind result_bind index_of].
    rewrite decide_True by done. cbn [or_raise mbind result_bind]. rewrite py_nth_nat.
    rewrite list_lookup_insert_eq by (by eapply lookup_lt_Some). done.
Qed.

End models.

(** ** moe.py: computing with the held experts

    Hidden states are a type [T].  [switch attrs slot x] is the call of the
    layer's Experts module with the one slot and weight 1, [norm] the layer's
    pre_feedforward_layernorm_2. *)

(** [enumerate(l)] *)
Definition enumerate {A} (l : list A) : list (nat * A) := imap pair l.

(** [{int(gid): li for li, gid in enumerate(held)}] *)
Definition slots_of (held : list Z) : dict Z nat :=
  foldl (fun d it => dict_set it.2 it.1 d) [] (enumerate held).

Section moe.
Context {C T : Type} (switch : list (Attr C) -> Z -> T -> T) (norm : Z -> T -> T).

(** The slot of a global id: by the held ids, where the layer has some. *)
Definition slot_of (held : option (list Z)) (eid : Z) : result Z :=
  match held with
  | None | Some [] => Ok eid
  | Some ids => li ← or_raise KeyError (dict_get eid (slots_of ids)); Ok (Z.of_nat li)
  end.

Definition run_selected_experts (lm : LoadedModel C) (h : T) (layer_idx : Z) (expert_ids : list Z) : result (dict Z T) :=
  match expert_ids with
  | [] => Ok []
  | _ =>
      layer ← py_nth (lm_layers lm) layer_idx;
      let h_normed := norm layer_idx h in
      foldM (fun per_expert eid =>
               slot ← slot_of (dict_get layer_idx (lm_held lm)) eid;
               Ok (dict_set eid (switch layer slot h_normed) per_expert)) [] expert_ids
  end.

(** *** aggregate_experts: [weigh w j x] is the product with the [j]-th column of
    the router's weights. *)
Context {W : Type} (weigh : W -> nat -> T -> T) (add : T -> T -> T) (post_ffn_ln_2 : T -> T).

Definition accumulate (outputs : dict Z T) (w : W) (acc : option T) (it : nat * Z) : result (option T) :=
  let '(j, eid) := it in
  x ← or_raise KeyError (dict_get eid outputs);
  let contrib := weigh w j x in
  Ok (Some (match acc with None => contrib | Some a => add a contrib end)).

Definition aggregate_experts (outputs : dict Z T) (top_k_ids : list Z) (top_k_weights : W) (shared_out : T) : result T :=
  match top_k_ids with
  | [] => Raise ValueError
  | _ =>
      acc ← foldM (accumulate outputs top_k_weights) None (enumerate top_k_ids);
      acc ← or_raise AssertionError acc;
      Ok (add shared_out (post_ffn_ln_2 acc))
  end.

(** The weighted sum in slot order, of experts given by a function. *)
Definition weighted_sum (f : Z -> T) (w : W) (first : Z) (ids : list Z) : T :=
  foldl (fun acc it => add acc (weigh w (S it.1) (f it.2))) (weigh w 0 (f first)) (enumerate ids).

Definition moe_spec (f : Z -> T) (first : Z) (ids : list Z) (w : W) (shared_out : T) : T :=
  add shared_out (post_ffn_ln_2 (weighted_sum f w first ids)).

Lemma weighted_sum_ext f g w first ids : (forall e, e ∈ first :: ids -> f e = g e) ->
  weighted_sum f w first ids = weighted_sum g w first ids.
Proof.
  intros Hfg. unfold weighted_sum. rewrite (Hfg first) by left. generalize (weigh w 0 (g first)). unfold enumerate.
  assert (Hall : forall it, it ∈ imap pair ids -> f it.2 = g it.2).
  { intros it (i & y & -> & Hi)%elem_of_lookup_imap_1. apply Hfg. right. by eapply list_elem_of_lookup_2. }
  induction (imap pair ids) as [|it its IH]; intros acc; [done|]. cbn [foldl]. rewrite (Hall it) by left.
  apply IH. intros it' Hit. apply Hall. by right.
Qed.

Lemma accumulate_sum outputs w f acc (its : list (nat * Z)) (g : nat -> nat) :
  (forall it, it ∈ its -> dict_get it.2 outputs = Some (f it.2)) ->
  foldM (accumulate outputs w) (Some acc) (prod_map g id <$> its) =
  Ok (Some (foldl (fun acc it => add acc (weigh w (g it.1) (f it.2))) acc its)).
Proof.
  revert acc. induction its as [|[j e] its IH]; intros acc Hf; [done|]. cbn [fmap list_fmap foldM accumulate prod_map fst snd].
  unfold id. pose proof (Hf (j, e) ltac:(left)) as He. cbn in He. rewrite He. cbn [or_raise mbind result_bind]. unfold id in IH. apply IH.
  intros it Hit. apply Hf. by right.
Qed.

(** The aggregate of outputs given by a function is the specification. *)
Lemma aggregate_spec outputs f first ids w shared :
  (forall e, e ∈ first :: ids -> dict_get e outputs = Some (f e)) ->
  aggregate_experts outputs (first :: ids) w shared = Ok (moe_spec f first ids w shared).
Proof.
  intros Hf. unfold aggregate_experts, enumerate. cbn [imap foldM accumulate].
  rewrite Hf by left. cbn [or_raise mbind result_bind].
  assert (imap (pair ∘ S) ids = prod_map S id <$> imap pair ids) as ->.
  { rewrite fmap_imap. apply imap_ext. done. }
  rewrite (accumulate_sum _ _ f); [done|]. intros it (i & y & -> & Hi)%elem_of_lookup_imap_1.
  cbn [snd]. apply Hf. right. by eapply list_elem_of_lookup_2.
Qed.

End moe.

Lemma slots_of_spec held eid :
  match dict_get eid (slots_of held) with
  | Some i => held !! i = Some eid
  | None => eid ∉ held
  end.
Proof.
  unfold slots_of, enumerate. induction held as [|e held IH] using rev_ind; [intros Hn; inversion Hn|].
  rewrite imap_app. cbn [imap]. rewrite foldl_snoc, dict_get_set. cbn [fst snd]. case_decide as He.
  - subst. rewrite Nat.add_0_r. by apply list_lookup_middle.
  - destruct (dict_get _ _); [by apply lookup_app_l_Some|].
    rewrite not_elem_of_app. split; [done|]. by rewrite list_elem_of_singleton.
Qed.

Section fill.
Context {T : Type}.

(** A loop that fills a dictionary with [value eid] for each id of a list. *)
Definition fills (value : Z -> T -> Prop) (bad : exn -> Z -> Prop) (body : dict Z T -> Z -> result (dict Z T)) (eid : Z) : Prop :=
  forall d, match body d eid with
            | Ok d' => exists v, value eid v /\ d' = dict_set eid v d
            | Raise e => bad e eid
            end.

Lemma fill_loop value bad body todo d :
  (forall eid, eid ∈ todo -> fills value bad body eid) ->
  (forall eid v, dict_get eid d = Some v -> value eid v) ->
  match foldM body d todo with
  | Ok out => (forall eid, eid ∈ dict_keys out <-> eid ∈ dict_keys d \/ eid ∈ todo) /\
              forall eid v, dict_get eid out = Some v -> value eid v
  | Raise e => exists eid, eid ∈ todo /\ bad e eid
  end.
Proof.
  revert d. induction todo as [|e todo IH]; intros d Hb Hd; cbn [foldM].
  { split; [|done]. intros eid. split; [by left|]. intros [?|Hn]; [done|inversion Hn]. }
  pose proof (Hb e ltac:(left) d) as He. destruct (body d e) as [d'|er]; cbn [mbind result_bind].
  2: { exists e. split; [left|done]. }
  destruct He as (v & Hv & ->). specialize (IH (dict_set e v d)).
  assert (H1 : forall eid v', dict_get eid (dict_set e v d) = Some v' -> value eid v').
  { intros eid v'. rewrite dict_get_set. case_decide; [intros [= <-]; by subst|apply Hd]. }
  specialize (IH (fun eid He => Hb eid (list_elem_of_further _ _ _ He)) H1).
  destruct (foldM body _ todo) as [out|er].
  - destruct IH as [Hk Hv']. split; [|done]. intros eid. rewrite Hk, dict_set_in_keys, elem_of_cons. tauto.
  - destruct IH as (eid & Hin & Hbad). exists eid. split; [by right|done].
Qed.

End fill.

Section serve.
Context {C T : Type} `{StackLaws C} (switch : list (Attr C) -> Z -> T -> T) (norm : Z -> T -> T).
(** What an expert with given tensors computes; the library's Experts call with
    one slot computes it from that slot's rows. *)
Context (expert_out : list C -> T -> T).
Hypothesis switch_slot : forall attrs (slot : nat) row x,
  mapR (take_one slot) attrs = Ok row -> switch attrs (Z.of_nat slot) x = expert_out row x.
Implicit Types (lm : LoadedModel C) (tables : list (list (list C))) (full : list (list C)).

Lemma expert_row_det full eid r1 r2 : expert_row full eid r1 -> expert_row full eid r2 -> r1 = r2.
Proof.
  intros H1. revert r2. induction H1 as [|fc r full r1 Hr _ IH]; intros r2 H2; inversion H2; subst; [done|].
  f_equal; [congruence|auto].
Qed.

(** The slot of a held id carries the id's rows. *)
Lemma slot_of_row full held attrs eid :
  layer_ok full held attrs -> (exists row, expert_row full eid row) -> 0 <= eid ->
  match slot_of held eid with
  | Ok slot => forall x row, expert_row full eid row -> switch attrs slot x = expert_out row x
  | Raise e => e = KeyError /\ exists ids, held = Some ids /\ ids <> [] /\ eid ∉ ids
  end.
Proof.
  intros (_ & _ & Hh) [row0 Hrow0] Hpos.
  assert (Hfull : attrs = Stack <$> full -> forall x row, expert_row full eid row -> switch attrs eid x = expert_out row x).
  { intros -> x row Hrow. rewrite <- (Z2Nat.id eid) in Hrow |- * by done. by apply switch_slot, full_slot. }
  destruct held as [[|i ids]|]; cbn [slot_of]; [by apply Hfull| |by apply Hfull].
  pose proof (slots_of_spec (i :: ids) eid) as Hs. destruct (dict_get eid (slots_of (i :: ids))) as [li|]; cbn [or_raise mbind result_bind].
  - intros x row Hrow. destruct (take_slot _ _ _ _ _ Hh Hs) as (row' & Ht & Hr').
    rewrite (expert_row_det _ _ _ _ Hrow Hr'). by apply switch_slot.
  - split; [done|]. by exists (i :: ids).
Qed.

(** a shard computes with the right weights. On a right model,
    [run_selected_experts] returns, for each requested expert, what that
    expert's own tensors compute from the normalized state, under exactly the
    requested ids; it fails only on an id a compact layer does not hold. *)
Theorem run_selected_experts_ok tables lm l full h expert_ids :
  model_ok tables lm -> tables !! l = Some full ->
  (forall eid, eid ∈ expert_ids -> 0 <= eid /\ exists row, expert_row full eid row) ->
  match run_selected_experts switch norm lm h (Z.of_nat l) expert_ids with
  | Ok out => (forall eid, eid ∈ dict_keys out <-> eid ∈ expert_ids) /\
      forall eid v, dict_get eid out = Some v -> exists row, expert_row full eid row /\
        v = expert_out row (norm (Z.of_nat l) h)
  | Raise e => exists eid, eid ∈ expert_ids /\ e = KeyError /\ exists ids,
      dict_get (Z.of_nat l) (lm_held lm) = Some ids /\ ids <> [] /\ eid ∉ ids
  end.
Proof.
  intros Hm Hl Hids. destruct (layer_of _ _ _ _ Hm Hl) as (attrs & Ha & Hok). unfold run_selected_experts.
  destruct expert_ids as [|e0 es]; [by split; [split; intros Hn; inversion Hn|]|]. set (ids := e0 :: es) in *. clearbody ids.
  rewrite py_nth_nat, Ha. cbn [or_raise mbind result_bind]. set (body := fun per_expert eid => _).
  set (value := fun eid v => exists row, expert_row full eid row /\ v = expert_out row (norm (Z.of_nat l) h)).
  set (bad := fun e eid => e = KeyError /\ exists held,
    dict_get (Z.of_nat l) (lm_held lm) = Some held /\ held <> [] /\ eid ∉ held).
  assert (Hbody : forall eid, eid ∈ ids -> fills value bad body eid).
  { intros eid He d. destruct (Hids eid He) as [Hp [row Hrow]].
    pose proof (slot_of_row _ _ _ eid Hok (ex_intro _ row Hrow) Hp) as Hs. unfold body.
    destruct (slot_of _ eid) as [slot|e]; cbn [mbind result_bind]; [|done].
    eexists. split; [by exists row|]. by rewrite (Hs _ row Hrow). }
  pose proof (fill_loop value bad body ids [] Hbody ltac:(done)) as Hloop.
  destruct (foldM body [] ids) as [out|er]; [|done]. destruct Hloop as [Hk Hv]. split; [|done].
  intros eid. rewrite Hk. split; [intros [Hn|?]; [inversion Hn|done]|by right].
Qed.

End serve.

(** ** Witnesses: two layers of three experts, layer 1 held as [2; 0] *)

Section witnesses.

#[local] Instance demo_lib : StackLib Z := {
  take_rows col ids := or_raise IndexError (mapM (row_at col) ids);
  concat_row col c := Ok (col ++ [c]);
  kind _ := ([], 0);
}.

#[local] Instance demo_laws : StackLaws Z.
Proof. split; [|done]. intros col ids rows _ Hr. cbn. by rewrite Hr. Qed.

Definition demo_column (l j : nat) : list Z := (fun e => 100 * Z.of_nat l + 10 * Z.of_nat j + e) <$> [0; 1; 2].
Definition demo_table (l : nat) : list (list Z) := demo_column l <$> seq 0 n_attrs.
Definition demo_tables : list (list (list Z)) := [demo_table 0; demo_table 1].
Definition demo_held : dict Z (list Z) := [(1, [2; 0])].
Definition demo_model (held : dict Z (list Z)) : LoadedModel Z :=
  ok_or (mkModel [] []) (load_model_partial (full_layers demo_tables) held).
Definition demo_row (l : nat) (e : Z) : list Z := (fun j => 100 * Z.of_nat l + 10 * Z.of_nat j + e) <$> seq 0 n_attrs.

Lemma demo_uniform (full : list (list Z)) : Forall uniform full.
Proof. apply Forall_forall. by intros fc _ c c' _ _. Qed.

Lemma demo_tables_ok : Forall (fun full => length full = n_attrs /\ Forall uniform full) demo_tables.
Proof. repeat constructor; apply demo_uniform. Qed.

Lemma demo_in_range l ids : l < 2 -> 0 <= l -> ids ⊆ [0; 1; 2] -> ids_in_range demo_tables (l, ids).
Proof.
  intros H2 H0 Hids. assert (l = 0 \/ l = 1) as Hl by lia.
  assert (Hc : forall l j, is_Some (mapM (row_at (demo_column l j)) ids)).
  { intros l' j. apply mapM_is_Some. apply Forall_forall. intros i Hi. apply Hids in Hi.
    repeat (apply elem_of_cons in Hi as [->|Hi]; [by eexists|]). inversion Hi. }
  destruct Hl as [->| ->]; [exists 0%nat, (demo_table 0)|exists 1%nat, (demo_table 1)]; (split; [done|]; split; [done|]);
    apply Forall_forall; intros fc Hfc; apply list_elem_of_fmap in Hfc as (j & -> & _); apply Hc.
Qed.

Lemma load_model_partial_ok_witness :
  exists lm, load_model_partial (full_layers demo_tables) demo_held = Ok lm /\ lm_held lm = demo_held /\
    model_ok demo_tables lm.
Proof.
  apply load_model_partial_ok; [apply NoDup_singleton| |apply demo_tables_ok].
  constructor; [|constructor]. apply demo_in_range; [lia|lia|]. set_solver.
Defined.

Lemma demo_model_ok : model_ok demo_tables (demo_model demo_held).
Proof.
  split; [reflexivity|]. intros [|[|l]] full attrs Hl Ha; cbn in Hl, Ha; [| |by destruct l].
  - injection Hl as <-. injection Ha as <-. split; [done|]. split; [apply demo_uniform|done].
  - injection Hl as <-. injection Ha as <-. split; [done|]. split; [apply demo_uniform|].
    repeat (constructor; [eexists; split; [reflexivity|repeat constructor]|]). constructor.
Qed.

Lemma demo_row_ok l e : l < 2 -> 0 <= l -> e ∈ [0; 1; 2] -> expert_row (demo_table (Z.to_nat l)) e (demo_row (Z.to_nat l) e).
Proof.
  intros H2 H0 He. assert (l = 0 \/ l = 1) as [->| ->] by lia;
    repeat (apply elem_of_cons in He as [->|He]; [repeat constructor|]); inversion He.
Qed.

Lemma attach_expert_ok_witness :
  (exists lm', attach_expert (demo_model demo_held) 1 1 (demo_row 1 1) = (Ok tt, lm') /\
    lm_held lm' = [(1, [2; 0; 1])] /\ model_ok demo_tables lm') /\
  attach_expert (demo_model demo_held) 1 0 (demo_row 1 0) = (Raise ValueError, demo_model demo_held).
Proof.
  split.
  - pose proof (attach_expert_ok demo_tables (demo_model demo_held) 1 (demo_table 1) [2; 0] 1 (demo_row 1 1)
      demo_model_ok eq_refl eq_refl ltac:(done) (demo_row_ok 1 1 ltac:(lia) ltac:(lia) ltac:(set_solver))) as Hw.
    exact Hw.
  - pose proof (attach_expert_ok demo_tables (demo_model demo_held) 1 (demo_table 1) [2; 0] 0 (demo_row 1 0)
      demo_model_ok eq_refl eq_refl ltac:(done) (demo_row_ok 1 0 ltac:(lia) ltac:(lia) ltac:(set_solver))) as Hw.
    exact Hw.
Defined.

Lemma detach_expert_ok_witness :
  exists lm', detach_expert (demo_model demo_held) 1 2 = (Ok tt, lm') /\ lm_held lm' = [(1, [0])] /\
    model_ok demo_tables lm'.
Proof.
  apply (detach_expert_ok demo_tables (demo_model demo_held) 1 (demo_table 1) [2; 0] 2); try done.
  - apply demo_model_ok.
  - by left.
Defined.

Lemma detach_attach_witness :
  exists lm', attach_expert (demo_model demo_held) 1 1 (demo_row 1 1) = (Ok tt, lm') /\
    detach_expert lm' 1 1 = (Ok tt, demo_model demo_held).
Proof.
  eexists. split; [vm_compute; reflexivity|].
  apply (detach_attach demo_tables (demo_model demo_held) 1 (demo_table 1) [2; 0] 1 (demo_row 1 1)); try done.
  - apply demo_model_ok.
  - apply (demo_row_ok 1 1); [lia|lia|set_solver].
Defined.

Lemma attach_unsliced_witness :
  exists lm', attach_expert (demo_model demo_held) 0 1 (demo_row 0 1) = (Ok tt, lm') /\
    slice_expert lm' 0 1 = Ok (demo_row 0 0).
Proof.
  apply (attach_unsliced demo_tables (demo_model demo_held) 0 (demo_table 0) 1 (demo_row 0 1)); try done.
  - apply demo_model_ok.
  - apply (demo_row_ok 0 1); [lia|lia|set_solver].
  - apply (demo_row_ok 0 0); [lia|lia|set_solver].
Defined.

(** An expert sums its tensors into the state. *)
Definition demo_out (row : list Z) (x : Z) : Z := foldl Z.add x row.
Definition demo_switch (attrs : list (Attr Z)) (slot x : Z) : Z :=
  match mapR (take_one (Z.to_nat slot)) attrs with
  | Ok row => demo_out row x
  | Raise _ => 0
  end.

Lemma run_selected_experts_ok_witness :
  exists out, run_selected_experts demo_switch (fun _ x => x) (demo_model demo_held) 7 1 [0; 2] = Ok out /\
    (forall eid, eid ∈ dict_keys out <-> eid ∈ [0; 2]) /\
    forall eid v, dict_get eid out = Some v -> exists row, expert_row (demo_table 1) eid row /\ v = demo_out row 7.
Proof.
  assert (Hsw : forall attrs (slot : nat) row x,
    mapR (take_one slot) attrs = Ok row -> demo_switch attrs (Z.of_nat slot) x = demo_out row x).
  { intros attrs slot row x Hr. unfold demo_switch. by rewrite Nat2Z.id, Hr. }
  assert (Hids : forall eid, eid ∈ [0; 2] -> 0 <= eid /\ exists row, expert_row (demo_table 1) eid row).
  { intros eid He. split; [set_solver by lia|]. exists (demo_row 1 eid). apply (demo_row_ok 1); [lia|lia|set_solver]. }
  eexists. split; [vm_compute; reflexivity|].
  exact (run_selected_experts_ok demo_switch (fun _ x => x) demo_out Hsw demo_tables (demo_model demo_held) 1
    (demo_table 1) 7 [0; 2] demo_model_ok eq_refl Hids).
Defined.

End witnesses.
