(* ===== verification/Effects.v ===== *)
(** * Stateful code that may raise

    A method that mutates shared state and may raise is a function from the
    state to its outcome and the state it leaves: what it did before it raised
    stays done.  The combinators are the statements the code is written in
    (try/except, try/finally, contextlib.suppress, a for loop), with the rules
    that carry an invariant of the state through them. *)
From S2P Require Import Prelude.

Definition eff (S A : Type) : Type := S -> result A * S.

#[export] Instance eff_ret {S} : MRet (eff S) := fun A a s => (Ok a, s).
#[export] Instance eff_bind {S} : MBind (eff S) := fun A B k m s =>
  match m s with
  | (Ok a, s) => k a s
  | (Raise e, s) => (Raise e, s)
  end.

Section statements.
Context {S : Type}.

Definition throw {A} (e : exn) : eff S A := fun s => (Raise e, s).
Definition lift {A} (r : result A) : eff S A := fun s => (r, s).
Definition gets {A} (f : S -> A) : eff S A := fun s => (Ok (f s), s).
Definition modify (f : S -> S) : eff S unit := fun s => (Ok tt, f s).
Definition skip : eff S unit := mret tt.

(** [try: m except ...: h], where [h] re-raises what the code does not catch. *)
Definition handle_with {A} (m : eff S A) (h : exn -> eff S A) : eff S A := fun s =>
  match m s with
  | (Ok a, s) => (Ok a, s)
  | (Raise e, s) => h e s
  end.

(** [try: m finally: f], for an [f] that does not raise. *)
Definition finally {A} (m : eff S A) (f : S -> S) : eff S A := fun s =>
  let '(r, s) := m s in (r, f s).

(** [with contextlib.suppress(...): m] *)
Definition suppress (caught : exn -> bool) (m : eff S unit) : eff S unit :=
  handle_with m (fun e => if caught e then skip else throw e).

(** The outcome as a value: [try: ... except Exception: ...]. *)
Definition outcome {A} (m : eff S A) : eff S (result A) := fun s =>
  let '(r, s) := m s in (Ok r, s).

Definition when (b : bool) (m : eff S unit) : eff S unit := if b then m else skip.

(** [for x in xs: f(x)] *)
Fixpoint for_each {X} (xs : list X) (f : X -> eff S unit) : eff S unit :=
  match xs with
  | [] => skip
  | x :: xs => _ ← f x; for_each xs f
  end.

(** A method of an object held in a field. *)
Definition focus {T A} (get : S -> T) (put : T -> S -> S) (m : eff T A) : eff S A := fun s =>
  let '(r, t) := m (get s) in (r, put t s).

End statements.

(** ** Running a sequence *)

Section run.
Context {S A B : Type}.
Implicit Types (m : eff S A) (k : A -> eff S B) (s : S).

Lemma run_bind m k s :
  (m ≫= k) s = match m s with (Ok a, s') => k a s' | (Raise e, s') => (Raise e, s') end.
Proof. done. Qed.

Lemma run_ok m k s a s' : m s = (Ok a, s') -> (m ≫= k) s = k a s'.
Proof. intros Hm. by rewrite run_bind, Hm. Qed.

Lemma run_raise m k s e s' : m s = (Raise e, s') -> (m ≫= k) s = (Raise e, s').
Proof. intros Hm. by rewrite run_bind, Hm. Qed.

End run.

(** Perform the statements whose outcome is known by computation. *)
Ltac run := repeat (erewrite run_ok by reflexivity; cbv beta).

(** ** Invariants *)

(** Whatever its outcome, [m] takes states of [P] to states of [P]. *)
Definition keeps {S A} (P : S -> Prop) (m : eff S A) : Prop := forall s, P s -> P (m s).2.

Section keeps.
Context {S : Type} (P : S -> Prop).

Lemma keeps_ret {A} (a : A) : keeps P (mret a : eff S A).
Proof. by intros s Hs. Qed.

Lemma keeps_bind {A B} (m : eff S A) (k : A -> eff S B) :
  keeps P m -> (forall a, keeps P (k a)) -> keeps P (m ≫= k).
Proof.
  intros Hm Hk s Hs. specialize (Hm s Hs). unfold mbind, eff_bind. destruct (m s) as [[a|e] s']; [|done].
  by apply Hk.
Qed.

Lemma keeps_throw {A} e : keeps P (throw e : eff S A).
Proof. by intros s Hs. Qed.

Lemma keeps_lift {A} (r : result A) : keeps P (lift r).
Proof. by intros s Hs. Qed.

Lemma keeps_gets {A} (f : S -> A) : keeps P (gets f).
Proof. by intros s Hs. Qed.

Lemma keeps_modify f : (forall s, P s -> P (f s)) -> keeps P (modify f).
Proof. intros Hf s Hs. by apply Hf. Qed.

Lemma keeps_skip : keeps P skip.
Proof. intros s Hs. exact Hs. Qed.

Lemma keeps_handle {A} (m : eff S A) h : keeps P m -> (forall e, keeps P (h e)) -> keeps P (handle_with m h).
Proof.
  intros Hm Hh s Hs. specialize (Hm s Hs). unfold handle_with. destruct (m s) as [[a|e] s']; [done|]. by apply Hh.
Qed.

Lemma keeps_finally {A} (m : eff S A) f : keeps P m -> (forall s, P s -> P (f s)) -> keeps P (finally m f).
Proof. intros Hm Hf s Hs. specialize (Hm s Hs). unfold finally. destruct (m s). by apply Hf. Qed.

Lemma keeps_suppress c m : keeps P m -> keeps P (suppress c m).
Proof. intros Hm. apply keeps_handle; [done|]. intros e. destruct (c e); [apply keeps_skip|apply keeps_throw]. Qed.

Lemma keeps_outcome {A} (m : eff S A) : keeps P m -> keeps P (outcome m).
Proof. intros Hm s Hs. specialize (Hm s Hs). unfold outcome. by destruct (m s). Qed.

Lemma keeps_when b m : keeps P m -> keeps P (when b m).
Proof. destruct b; [done|]. intros _. apply keeps_skip. Qed.

Lemma keeps_for {X} (xs : list X) (f : X -> eff S unit) : (forall x, x ∈ xs -> keeps P (f x)) -> keeps P (for_each xs f).
Proof.
  induction xs as [|x xs IH]; intros Hf; [apply keeps_skip|]. apply keeps_bind; [apply Hf; left|].
  intros _. apply IH. intros y Hy. apply Hf. by right.
Qed.

Lemma keeps_focus {T A} (get : S -> T) put (m : eff T A) :
  (forall s, P s -> P (put (m (get s)).2 s)) -> keeps P (focus get put m).
Proof. intros Hf s Hs. specialize (Hf s Hs). unfold focus. by destruct (m (get s)). Qed.

End keeps.

Create HintDb keeps.
#[export] Hint Resolve keeps_ret keeps_throw keeps_lift keeps_gets keeps_skip keeps_suppress keeps_outcome keeps_when : keeps.

(** Go through the statements of a method. *)
Ltac keeps_step :=
  match goal with
  | |- keeps _ (_ ≫= _) => apply keeps_bind; [|intros ?]
  | |- keeps _ (if ?b then _ else _) => destruct b
  | |- keeps _ (match ?x with _ => _ end) => destruct x
  | |- keeps _ (for_each _ _) => apply keeps_for; intros ? ?
  | |- keeps _ (handle_with _ _) => apply keeps_handle; [|intros ?]
  | |- keeps _ (finally _ _) => apply keeps_finally
  | |- keeps _ (suppress _ _) => apply keeps_suppress
  | |- keeps _ (outcome _) => apply keeps_outcome
  | |- keeps _ (when _ _) => apply keeps_when
  | |- keeps _ _ => solve [eauto with keeps]
  end.
Ltac keeps_all := repeat (keeps_step; cbv beta).
