(* ===== verification/Migration.v ===== *)
(** * migration.py and the ownership half of node.py

    What a node owns: the expert weights it holds, the ids it serves
    ([_live_experts]), when each was attached, and its view of who owns what
    ([_ownership_view_internal]).  The state is one record, the methods are
    stateful computations over it ([Effects.eff]); each reading of the wall
    clock takes the next value of the argument [clock].  The iteration order of
    Python sets is the argument [set_order]; the exchange of one request for one
    reply over TCP, and the tensor library, are arguments too. *)
From S2P Require Import Prelude PyDict PyFloat PyList PyRandom Records SwimState.
From S2P Require Import Wire Messages Ownership Runner ShardMap Trackers Experts Effects.
Open Scope Z_scope.

(** ** Envelopes the code builds: assigning a field out of its range raises ValueError *)

Definition PROTOCOL_VERSION_NODE : Z := 1.
Definition ERR_WRONG_SHARD : Z := 2.
Definition ERR_INTERNAL : Z := 4.
Definition ERR_SHARD_UNAVAILABLE : Z := 5.
Definition ERR_INVALID_PROVENANCE : Z := 6.
Definition QUANT_NONE : Z := 0.

Definition built (p : Payload) : result Envelope := if payload_ok p then Ok (Some p) else Raise ValueError.

Lemma built_ok p : payload_ok p = true -> built p = Ok (Some p).
Proof. intros Hp. unfold built. by rewrite Hp. Qed.

(** The envelope of [_send_error] *)
Definition error_envelope (request_id : string) (code : Z) (detail : string) : result Envelope :=
  built (PError (mkError PROTOCOL_VERSION_NODE request_id code detail)).

(** Tensors on the wire. *)
Class TensorWire (C : Type) := {
  tensor_to_bytes : C -> bytes;
  tensor_shape : C -> list Z;
  (** [dtype_to_wire], which raises ValueError on a dtype without a wire code *)
  dtype_to_wire : C -> result Z;
  (** [bytes_to_tensor(raw, shape, dtype)] *)
  bytes_to_tensor : bytes -> list Z -> Z -> result C;
}.

(** [(shape, dtype, byte_count)] of a tensor, with no quantisation. *)
Definition descriptor {C} `{TensorWire C} (t : C) : result TensorDescriptor :=
  dt ← dtype_to_wire t;
  Ok (mkTensor (tensor_shape t) dt QUANT_NONE (Z.of_nat (length (tensor_to_bytes t)))).

(** ** Moving one expert: the source's handler and the target's client *)

Section transfer.
Context {C : Type} `{TensorWire C} (str_exn : exn -> string).

(** [Node._handle_expert_weight_request]: the reply to send, for the backend's
    [slice_expert]. *)
Definition handle_expert_weight_request (slice : Z -> Z -> result (list C)) (req : WeightRequest)
    : result (Envelope * bytes) :=
  match slice (wr_layer_idx req) (wr_expert_id req) with
  | Raise KeyError =>
      env ← error_envelope (wr_request_id req) ERR_SHARD_UNAVAILABLE (str_exn KeyError);
      Ok (env, [])
  | Raise e => Raise e
  | Ok tensors =>
      ds ← mapR descriptor tensors;
      env ← built (PWeightTransfer (mkWeightTr PROTOCOL_VERSION_NODE (wr_request_id req) (wr_layer_idx req)
                     (wr_expert_id req) ds 9));
      Ok (env, concat (tensor_to_bytes <$> tensors))
  end.

(** The loop of [pull] over the descriptors: the tensors, and the bytes left over. *)
Fixpoint split_payload (ds : list TensorDescriptor) (payload : bytes) : result (list C * bytes) :=
  match ds with
  | [] => Ok ([], payload)
  | d :: ds =>
      let nbytes := Z.to_nat (td_byte_count d) in
      let blob := take nbytes payload in
      _ ← require (bool_decide (length blob = nbytes)) RuntimeError;
      arr ← bytes_to_tensor blob (td_shape d) (td_dtype d);
      '(out, rest) ← split_payload ds (drop nbytes payload);
      Ok (arr :: out, rest)
  end.

(** The reply, parsed. *)
Definition parse_transfer (env : Envelope) (tensor_bytes : bytes) : result (list C) :=
  match env with
  | Some (PWeightTransfer resp) =>
      _ ← require (bool_decide (wt_tensor_count resp = 9) && bool_decide (length (wt_tensors resp) = 9%nat)) RuntimeError;
      '(out, rest) ← split_payload (wt_tensors resp) tensor_bytes;
      _ ← require (bool_decide (rest = [])) RuntimeError;
      Ok out
  | _ => Raise RuntimeError
  end.

(** [ExpertWeightPeerRPC.pull], for the request id it makes. *)
Definition pull (addresses : dict string (string * Z)) (exchange : string * Z -> Envelope -> result (Envelope * bytes))
    (request_id : string) (source : string) (layer_idx expert_id : Z) : result (list C) :=
  addr ← or_raise KeyError (dict_get source addresses);
  req ← built (PWeightRequest (mkWeightReq 1 request_id layer_idx expert_id));
  '(env, tensor_bytes) ← exchange addr req;
  parse_transfer env tensor_bytes.

End transfer.

(** ** What a node owns *)

Record MigrationPolicy : Type := mkPolicy {
  scan_interval_s : float;
  heat_threshold : Z;
  max_experts_per_layer : Z;
  evict_cooldown_s : float;
  eviction_enabled : bool;
}.

Record OwnNode {C R : Type} : Type := mkOwn {
  o_reads : nat;
  o_model : LoadedModel C;
  o_live : dict Z (list Z);
  o_attach_ts : dict (Z * Z) float;
  o_view : own_map;
  o_heat : HeatTracker;
  o_membership : option (MembershipRunner R);
  o_in_flight : bool;
}.
Arguments OwnNode : clear implicits.
Arguments mkOwn {C R}.

Section setters.
Context {C R : Type}.
Implicit Types (o : OwnNode C R).
Definition set_reads n o : OwnNode C R := mkOwn n (o_model o) (o_live o) (o_attach_ts o) (o_view o) (o_heat o) (o_membership o) (o_in_flight o).
Definition set_model m o : OwnNode C R := mkOwn (o_reads o) m (o_live o) (o_attach_ts o) (o_view o) (o_heat o) (o_membership o) (o_in_flight o).
Definition set_live l ts o : OwnNode C R := mkOwn (o_reads o) (o_model o) l ts (o_view o) (o_heat o) (o_membership o) (o_in_flight o).
Definition set_view v o : OwnNode C R := mkOwn (o_reads o) (o_model o) (o_live o) (o_attach_ts o) v (o_heat o) (o_membership o) (o_in_flight o).
Definition set_heat h o : OwnNode C R := mkOwn (o_reads o) (o_model o) (o_live o) (o_attach_ts o) (o_view o) h (o_membership o) (o_in_flight o).
Definition set_runner r o : OwnNode C R := mkOwn (o_reads o) (o_model o) (o_live o) (o_attach_ts o) (o_view o) (o_heat o) r (o_in_flight o).
Definition set_in_flight b o : OwnNode C R := mkOwn (o_reads o) (o_model o) (o_live o) (o_attach_ts o) (o_view o) (o_heat o) (o_membership o) b.
End setters.

(** [s.add(x)] *)
Definition set_add {A} `{EqDecision A} (x : A) (s : list A) : list A := if decide (x ∈ s) then s else s ++ [x].

Definition live_at (layer : Z) (d : dict Z (list Z)) : list Z := default [] (dict_get layer d).
#[global] Arguments live_at : simpl never.

(** The view [Node.__init__] starts from: every expert of the shard map, added at 0. *)
Definition seed_view (m : ShardMap) : own_map :=
  foldl (fun v (it : string * ShardSpec) =>
           foldl (fun v (lids : Z * list Z) =>
                    foldl (fun v eid => dict_set (it.1, lids.1, eid) (0, 0) v) v lids.2) v (ss_moe it.2))
        [] (entries m).

Section node.
Context {C R : Type} `{StackLib C} `{RandomSource R}.
Context (self : ShardSpec) (evict_cooldown : float) (clock : nat -> float).
Abbreviation State := (OwnNode C R).
Implicit Types (o : State).

(** [time.time()], and [int(time.time() * 1000)] *)
Definition read_clock : eff State float := fun o => (Ok (clock (o_reads o)), set_reads (S (o_reads o)) o).
Definition now_ms : eff State Z := t ← read_clock; lift (py_int (fmul t (of_int 1000))).

(** [_ownership_view_put] *)
Definition ownership_view_put (shard_id : string) (layer_idx expert_id action ts : Z) : eff State unit :=
  modify (fun o => set_view (apply_ownership (mkOwner shard_id layer_idx expert_id action ts) (o_view o)).2 o).

(** [_on_gossip_ownership_delta] *)
Definition on_gossip_ownership_delta (od : OwnershipDeltaRecord) : eff State unit :=
  ownership_view_put (od_shard_id od) (od_layer_idx od) (od_expert_id od) (od_action od) (od_ts_unix_ms od).

(** What the runner does with a received message, the node being its ownership
    observer ([_build_membership_runner]). *)
Definition deliver_gossip (m : IncomingMessage) : eff State unit := fun o =>
  match o_membership o with
  | None => (Ok tt, o)
  | Some r =>
      let '(r, calls) := on_recv_decoded m r in
      for_each calls (fun c => on_gossip_ownership_delta c.2) (set_runner (Some r) o)
  end.

(** [owners_of], and [_ownership_seen] *)
Definition owners_of (layer_idx expert_id : Z) (v : own_map) : list string :=
  (fun it : own_key * own_entry => it.1.1.1) <$>
    filter (fun it : own_key * own_entry => layer_idx = it.1.1.2 /\ expert_id = it.1.2 /\ it.2.1 = 0)
      (v : list (own_key * own_entry)).
Definition ownership_seen o : list own_key := owned (o_view o).

(** [self._membership.announce_...], if there is one. *)
Definition announce (f : Z -> MembershipRunner R -> MembershipRunner R) : eff State unit := fun o =>
  match o_membership o with
  | None => (Ok tt, o)
  | Some _ => (t ← now_ms; modify (fun o => set_runner (f t <$> o_membership o) o)) o
  end.
Definition announce_add (layer_idx expert_id : Z) : eff State unit :=
  announce (announce_ownership_add layer_idx expert_id DEFAULT_OWNERSHIP_TTL).
Definition announce_remove (layer_idx expert_id : Z) : eff State unit :=
  announce (announce_ownership_remove layer_idx expert_id DEFAULT_OWNERSHIP_TTL).

(** The backend's model, which an attach that raises may leave half changed. *)
Definition on_model {A} (f : LoadedModel C -> result A * LoadedModel C) : eff State A :=
  focus o_model set_model f.

(** [migration_attach] *)
Definition migration_attach (layer_idx expert_id : Z) (tensors : list C) : eff State unit :=
  _ ← on_model (fun lm => attach_expert lm layer_idx expert_id tensors);
  t ← read_clock;
  _ ← modify (fun o => set_live (dict_set layer_idx (set_add expert_id (live_at layer_idx (o_live o))) (o_live o))
                         (dict_set (layer_idx, expert_id) t (o_attach_ts o)) o);
  ts ← now_ms;
  _ ← ownership_view_put (ss_shard_id self) layer_idx expert_id 0 ts;
  announce_add layer_idx expert_id.

(** [self._live_experts.get(layer, set()).discard(e)], and the attach time dropped. *)
Definition drop_live (layer_idx expert_id : Z) o : State :=
  set_live (match dict_get layer_idx (o_live o) with
            | None => o_live o
            | Some s => dict_set layer_idx (filter (fun e => e <> expert_id) s) (o_live o)
            end) (dict_pop (layer_idx, expert_id) (o_attach_ts o)) o.

Definition bootstrap_of (layer_idx : Z) : list Z := default [] (dict_get layer_idx (ss_moe self)).
Definition attach_time (layer_idx expert_id : Z) o : float := default f0 (dict_get (layer_idx, expert_id) (o_attach_ts o)).
Definition other_owners (layer_idx expert_id : Z) o : list string :=
  filter (fun s => s <> ss_shard_id self) (owners_of layer_idx expert_id (o_view o)).

(** [migration_detach] *)
Definition migration_detach (layer_idx expert_id : Z) : eff State unit :=
  _ ← lift (require (negb (bool_decide (expert_id ∈ bootstrap_of layer_idx))) ValueError);
  attach_ts ← gets (attach_time layer_idx expert_id);
  t ← read_clock;
  _ ← lift (require (negb (flt (fsub t attach_ts) evict_cooldown)) ValueError);
  others ← gets (other_owners layer_idx expert_id);
  _ ← lift (require (negb (bool_decide (others = []))) LastReplicaError);
  _ ← on_model (fun lm => detach_expert lm layer_idx expert_id);
  _ ← modify (drop_live layer_idx expert_id);
  _ ← modify (fun o => set_heat (heat_reset layer_idx expert_id (o_heat o)) o);
  ts ← now_ms;
  _ ← ownership_view_put (ss_shard_id self) layer_idx expert_id 1 ts;
  announce_remove layer_idx expert_id.

(** [_loads_snapshot] *)
Definition loads_snapshot o : dict string Z :=
  match o_membership o with
  | None => []
  | Some r => (fun it : string * LoadReportRecord => (it.1, lr_queue_depth_ema it.2)) <$> (latest_loads r : list _)
  end.

(** ** MigrationScanner *)

Context (policy : MigrationPolicy) (set_order : forall A : Type, list A -> list A).
Context (rpc_pull : string -> Z -> Z -> result (list C)).

(** [2**31 - 1] *)
Definition NO_LOAD : Z := 2 ^ 31 - 1.

(** One expert of the heat report: is it worth a pull, and from whom? *)
Definition consider (layer_idx expert_id : Z) o : result (option string) :=
  let held := live_at layer_idx (o_live o) in
  if bool_decide (expert_id ∈ held) then Ok None
  else if max_experts_per_layer policy <=? Z.of_nat (length held) then Ok None
  else
    h ← local_heat layer_idx expert_id (o_heat o);
    if h <? heat_threshold policy then Ok None
    else match other_owners layer_idx expert_id o with
         | [] => Ok None
         | owners =>
             let loads := loads_snapshot o in
             source ← min_by (fun s => default NO_LOAD (dict_get s loads)) (set_order _ owners);
             Ok (Some source)
         end.

Fixpoint first_candidate (report : list (Z * Z * Z)) o : result (option (Z * Z * string)) :=
  match report with
  | [] => Ok None
  | (layer_idx, expert_id, _) :: report =>
      pick ← consider layer_idx expert_id o;
      match pick with
      | Some source => Ok (Some (layer_idx, expert_id, source))
      | None => first_candidate report o
      end
  end.

(** [_select_candidate] *)
Definition select_candidate o : result (option (Z * Z * string)) :=
  report ← heat_report (o_heat o);
  first_candidate (sort_by hotter report) o.

(** [_maybe_pull_one] *)
Definition maybe_pull_one : eff State unit :=
  pick ← ((fun o => (select_candidate o, o)) : eff State _);
  match pick with
  | None => skip
  | Some (layer_idx, expert_id, source) =>
      match rpc_pull source layer_idx expert_id with
      | Raise _ => skip
      | Ok tensors =>
          r ← outcome (migration_attach layer_idx expert_id tensors);
          match r with
          | Raise _ => skip
          | Ok _ => announce_add layer_idx expert_id
          end
      end
  end.

(** The experts of a layer that may be evicted at time [now]. *)
Definition eligible (now : float) (layer_idx : Z) o : list Z :=
  filter (fun e => (e ∉ bootstrap_of layer_idx) /\
                   fle (evict_cooldown_s policy) (fsub now (attach_time layer_idx e o)) = true)
    (set_order _ (live_at layer_idx (o_live o))).

(** [min(eligible, key=local_heat)] *)
Definition coldest (layer_idx : Z) (es : list Z) o : result Z :=
  keyed ← mapR (fun e => h ← local_heat layer_idx e (o_heat o); Ok (h, e)) es;
  m ← min_by fst keyed;
  Ok m.2.

(** The loop over the layers, left at the first eviction. *)
Fixpoint evict_first (now : float) (layers : list Z) : eff State unit :=
  match layers with
  | [] => skip
  | layer_idx :: layers =>
      held ← gets (fun o => live_at layer_idx (o_live o));
      if Z.of_nat (length held) <? max_experts_per_layer policy then evict_first now layers else
      es ← gets (eligible now layer_idx);
      match es with
      | [] => evict_first now layers
      | _ =>
          victim ← ((fun o => (coldest layer_idx es o, o)) : eff State _);
          r ← outcome (migration_detach layer_idx victim);
          match r with
          | Raise _ => evict_first now layers
          | Ok _ => skip
          end
      end
  end.

(** [_maybe_evict_one] *)
Definition maybe_evict_one : eff State unit :=
  if eviction_enabled policy
  then now ← read_clock; layers ← gets (fun o => dict_keys (o_live o)); evict_first now layers
  else skip.

(** [_scan_once] *)
Definition scan_once : eff State unit :=
  busy ← gets o_in_flight;
  if (busy : bool) then skip
  else _ ← modify (set_in_flight true);
       finally (_ ← maybe_pull_one; maybe_evict_one) (set_in_flight false).

End node.
