(* ===== verification/MigrationTheorems.v ===== *)
(** * What migration keeps

    Moving an expert's tensors, evicting an expert, and the scanner's tick: the
    node goes on serving the right weights under the ids it announces. *)
From S2P Require Import Prelude PyDict PyFloat PyList PyRandom Records SwimState.
From S2P Require Import Wire Messages Ownership Runner ShardMap Trackers Experts Effects Migration.
Open Scope Z_scope.

(** ** Moving one expert *)

Section transfer.
Context {C : Type} `{TensorWire C} (str_exn : exn -> string).

(** Tensors that survive the wire. *)
Definition sendable (t : C) : Prop :=
  exists d, descriptor t = Ok d /\ tensor_ok d = true /\ bytes_to_tensor (tensor_to_bytes t) (td_shape d) (td_dtype d) = Ok t.

Lemma descriptor_bytes (t : C) d : descriptor t = Ok d -> Z.to_nat (td_byte_count d) = length (tensor_to_bytes t).
Proof. unfold descriptor. intros Hd. inv_ok. cbn. lia. Qed.

Lemma descriptors_of (ts : list C) : Forall sendable ts ->
  exists ds, mapR descriptor ts = Ok ds /\ forallb tensor_ok ds = true /\
    split_payload ds (concat (tensor_to_bytes <$> ts)) = Ok (ts, []).
Proof.
  induction 1 as [|t ts (d & Hd & Ht & Hb) _ (ds & IH1 & IH2 & IH3)]; [by exists []|].
  exists (d :: ds). cbn [mapR fmap list_fmap concat forallb split_payload].
  rewrite Hd, IH1, Ht, IH2, (descriptor_bytes _ _ Hd), take_app_length, drop_app_length. split; [done|]. split; [done|].
  rewrite bool_decide_eq_true_2 by done. cbn [require mbind result_bind]. rewrite Hb. cbn [mbind result_bind]. by rewrite IH3.
Qed.

(** C25: moving an expert. When the source serves the tensors of the expert and
    the exchange is a call of its handler, the pull returns exactly those
    tensors if they are nine, and fails with RuntimeError otherwise: a backend
    that keeps an expert in another number of tensors cannot migrate it. When
    the source no longer holds the expert, the pull fails with RuntimeError. *)
Theorem pull_served slice addresses exchange request_id source addr l e :
  dict_get source addresses = Some addr -> in_u32 l = true -> in_u32 e = true ->
  (forall req, exchange addr (Some (PWeightRequest req)) = handle_expert_weight_request str_exn slice req) ->
  match slice l e with
  | Ok ts => Forall sendable ts -> pull addresses exchange request_id source l e =
      if decide (length ts = 9%nat) then Ok ts else Raise RuntimeError
  | Raise KeyError => pull addresses exchange request_id source l e = Raise RuntimeError
  | Raise _ => True
  end.
Proof.
  intros Ha Hl He Hex.
  set (reply := handle_expert_weight_request str_exn slice (mkWeightReq 1 request_id l e)).
  assert (Hp : pull addresses exchange request_id source l e = '(env, bs) ← reply; parse_transfer env bs).
  { unfold pull. rewrite Ha. cbn [or_raise mbind result_bind].
    rewrite built_ok by (cbn; by rewrite Hl, He). cbn [mbind result_bind]. by rewrite Hex. }
  destruct (slice l e) as [ts|[]] eqn:Es; [|try done..].
  - intros Hs. destruct (descriptors_of ts Hs) as (ds & Hd & Hok & Hsp).
    assert (Hr : reply = Ok (Some (PWeightTransfer (mkWeightTr PROTOCOL_VERSION_NODE request_id l e ds 9)), concat (tensor_to_bytes <$> ts))).
    { unfold reply, handle_expert_weight_request. cbn [wr_layer_idx wr_expert_id wr_request_id].
      rewrite Es, Hd. cbn [mbind result_bind]. by rewrite built_ok by (cbn; by rewrite Hl, He, Hok). }
    rewrite Hp, Hr. cbn [mbind result_bind parse_transfer wt_tensor_count wt_tensors]. rewrite Hsp.
    assert (Hn : length ds = length ts) by (apply mapR_ok in Hd; symmetry; by eapply Forall2_length).
    rewrite Hn. cbn [bool_decide andb]. case_decide as H9.
    + by rewrite (bool_decide_eq_true_2 _ H9).
    + by rewrite (bool_decide_eq_false_2 _ H9).
  - by rewrite Hp; unfold reply, handle_expert_weight_request; cbn [wr_layer_idx wr_expert_id wr_request_id]; rewrite Es.
Qed.

End transfer.

(** ** The node's holdings *)

Section node.
Context {C R : Type} `{StackLaws C} `{RandomSource R}.
Context (self : ShardSpec) (evict_cooldown : float) (clock : nat -> float).
Abbreviation State := (OwnNode C R).
Implicit Types (o : State).

(** What the clock, the view and the announcements leave alone. *)
Record same_holdings o0 o : Prop := {
  sh_model : o_model o = o_model o0;
  sh_live : o_live o = o_live o0;
  sh_attach : o_attach_ts o = o_attach_ts o0;
  sh_heat : o_heat o = o_heat o0;
  sh_flight : o_in_flight o = o_in_flight o0;
}.

Lemma same_refl o : same_holdings o o.
Proof. done. Qed.

Lemma same_trans o0 o1 o2 : same_holdings o0 o1 -> same_holdings o1 o2 -> same_holdings o0 o2.
Proof. intros [] []. split; congruence. Qed.

Lemma read_clock_same o0 : keeps (same_holdings o0) (read_clock clock).
Proof. intros o Ho. by eapply same_trans. Qed.

Lemma view_put_same o0 sid l e a ts : keeps (same_holdings o0) (ownership_view_put sid l e a ts).
Proof. apply keeps_modify. intros o Ho. by eapply same_trans. Qed.

#[local] Hint Resolve read_clock_same view_put_same : keeps.

Lemma now_ms_same o0 : keeps (same_holdings o0) (now_ms clock).
Proof. unfold now_ms. keeps_all. Qed.

#[local] Hint Resolve now_ms_same : keeps.

Lemma announce_keeps (P : State -> Prop) f :
  keeps P (now_ms clock) -> (forall t o, P o -> P (set_runner (f t <$> o_membership o) o)) -> keeps P (announce clock f).
Proof.
  intros Hn Hr o Ho. unfold announce. destruct (o_membership o); [|done].
  assert (Hk : keeps P (t ← now_ms clock; modify (fun o : State => set_runner (f t <$> o_membership o) o))).
  { apply keeps_bind; [done|]. intros t. apply keeps_modify. apply Hr. }
  by apply Hk.
Qed.

Lemma announce_same o0 f : keeps (same_holdings o0) (announce clock f).
Proof. apply announce_keeps; [apply now_ms_same|]. intros r o Ho. by eapply same_trans. Qed.

#[local] Hint Resolve announce_same : keeps.

(** The last three steps of an attach or an eviction. *)
Definition publish l e a f : eff State unit :=
  ts ← now_ms clock; _ ← ownership_view_put (ss_shard_id self) l e a ts; announce clock f.

Lemma publish_same o0 l e a f : keeps (same_holdings o0) (publish l e a f).
Proof. unfold publish. keeps_all. Qed.

(** The clock shows a number. *)
Definition ticking : Prop := forall n, exists ms, py_int (fmul (clock n) (of_int 1000)) = Ok ms.

Lemma now_ms_ok o : ticking -> exists ms, now_ms clock o = (Ok ms, set_reads (S (o_reads o)) o).
Proof. intros Ht. destruct (Ht (o_reads o)) as [ms Hm]. exists ms. unfold now_ms. run. unfold lift. by rewrite Hm. Qed.

Lemma publish_returns l e a f o : ticking -> (publish l e a f o).1 = Ok tt.
Proof.
  intros Ht. unfold publish. destruct (now_ms_ok o Ht) as [ms Hm]. rewrite (run_ok _ _ _ _ _ Hm). run.
  unfold announce. destruct (o_membership _); [|done].
  match goal with |- context [@mbind (eff _) _ _ _ _ _ ?s] => destruct (now_ms_ok s Ht) as [ms2 Hm2] end.
  by rewrite (run_ok _ _ _ _ _ Hm2).
Qed.

Definition attached_own l e t lm o : State :=
  set_live (dict_set l (set_add e (live_at l (o_live o))) (o_live o)) (dict_set (l, e) t (o_attach_ts o))
    (set_model lm (set_reads (S (o_reads o)) o)).
Definition detached_own l e lm o : State :=
  set_heat (heat_reset l e (o_heat o)) (drop_live l e (set_model lm (set_reads (S (o_reads o)) o))).

(** An attach changes the holdings all at once, or only the model, by the
    attach that raised. *)
Lemma migration_attach_cases l e ts o :
  migration_attach self clock l e ts o =
  match attach_expert (o_model o) l e ts with
  | (Raise x, lm) => (Raise x, set_model lm o)
  | (Ok _, lm) => publish l e 0 (announce_ownership_add l e DEFAULT_OWNERSHIP_TTL) (attached_own l e (clock (o_reads o)) lm o)
  end.
Proof.
  unfold migration_attach. rewrite run_bind. unfold on_model, focus.
  by destruct (attach_expert (o_model o) l e ts) as [[[]|x] lm].
Qed.

(** The guards of an eviction. *)
Definition refusal l e o : option exn :=
  if decide (e ∈ bootstrap_of self l) then Some ValueError
  else if flt (fsub (clock (o_reads o)) (attach_time l e o)) evict_cooldown then Some ValueError
  else if decide (other_owners self l e o = []) then Some LastReplicaError
  else None.

Lemma migration_detach_cases l e o :
  match refusal l e o with
  | Some x => exists n, migration_detach self evict_cooldown clock l e o = (Raise x, set_reads n o)
  | None => migration_detach self evict_cooldown clock l e o =
      match detach_expert (o_model o) l e with
      | (Raise x, lm) => (Raise x, set_model lm (set_reads (S (o_reads o)) o))
      | (Ok _, lm) => publish l e 1 (announce_ownership_remove l e DEFAULT_OWNERSHIP_TTL) (detached_own l e lm o)
      end
  end.
Proof.
  unfold migration_detach, refusal.
  destruct (decide (e ∈ bootstrap_of self l)) as [Hb|Hb].
  { exists (o_reads o). erewrite run_raise by (by rewrite bool_decide_eq_true_2). by destruct o. }
  erewrite run_ok by (by rewrite bool_decide_eq_false_2). run.
  rewrite run_bind. cbn [lift]. destruct (flt _ _); cbn [negb require]; [by eexists|]. run.
  change (other_owners self l e (set_reads (S (o_reads o)) o)) with (other_owners self l e o).
  destruct (decide (other_owners self l e o = [])) as [Ho|Ho].
  { eexists. by erewrite run_raise by (by rewrite bool_decide_eq_true_2). }
  erewrite run_ok by (by rewrite bool_decide_eq_false_2). cbv beta.
  rewrite run_bind. unfold on_model, focus. cbn [set_reads o_model].
  by destruct (detach_expert (o_model o) l e) as [[[]|x] lm].
Qed.

(** *** The invariant *)

Context (tables : list (list (list C))).

(** A layer of the model with experts the node started with. *)
Definition serves (l : Z) : Prop :=
  exists n full, l = Z.of_nat n /\ tables !! n = Some full /\ bootstrap_of self l <> [].

(** The weights are right, the ids served are the ids held, the bootstrap
    experts among them, and only layers the node serves are tracked. *)
Record own_ok o : Prop := {
  ok_model : model_ok tables (o_model o);
  ok_live : forall l e, e ∈ live_at l (o_live o) <-> e ∈ live_at l (lm_held (o_model o));
  ok_nodup : forall l, NoDup (live_at l (o_live o));
  ok_boot : forall l e, e ∈ bootstrap_of self l -> e ∈ live_at l (o_live o);
  ok_served : forall l e, e ∈ live_at l (o_live o) -> serves l;
  ok_heat : forall l e v, ((l, e), v) ∈ ht_ema (o_heat o) -> serves l;
}.

Lemma own_ok_same o o' : same_holdings o o' -> own_ok o -> own_ok o'.
Proof. intros [Hm Hl _ Hh _] []. split; by rewrite ?Hm, ?Hl, ?Hh. Qed.

Lemma live_at_set l l' s (d : dict Z (list Z)) : live_at l (dict_set l' s d) = if decide (l = l') then s else live_at l d.
Proof. unfold live_at. rewrite dict_get_set. by case_decide. Qed.

Lemma set_add_in {A} `{EqDecision A} (x y : A) s : y ∈ set_add x s <-> y = x \/ y ∈ s.
Proof. unfold set_add. case_decide; [naive_solver|]. rewrite elem_of_app, list_elem_of_singleton. naive_solver. Qed.

Lemma set_add_nodup {A} `{EqDecision A} (x : A) s : NoDup s -> NoDup (set_add x s).
Proof.
  intros Hs. unfold set_add. case_decide; [done|]. apply NoDup_app. split; [done|].
  split; [by intros y Hy ->%list_elem_of_singleton|apply NoDup_singleton].
Qed.

(** The held list of a served layer. *)
Lemma held_list o l : own_ok o -> serves l ->
  exists n full b ids, l = Z.of_nat n /\ tables !! n = Some full /\ dict_get l (lm_held (o_model o)) = Some ids /\
    b ∈ bootstrap_of self l /\ b ∈ ids.
Proof.
  intros Ho (n & full & -> & Ht & Hb). destruct (bootstrap_of self (Z.of_nat n)) as [|b bs] eqn:Eb; [done|].
  assert (b ∈ live_at (Z.of_nat n) (lm_held (o_model o))) as Hin.
  { apply (ok_live _ Ho), (ok_boot _ Ho). rewrite Eb. left. }
  unfold live_at in Hin. destruct (dict_get _ _) as [ids|] eqn:Ed; [|inversion Hin].
  exists n, full, b, ids. split; [done|]. split; [done|]. split; [done|]. split; [left|done].
Qed.

(** The tensors are those of the expert. *)
Definition genuine (l e : Z) (ts : list C) : Prop :=
  forall n full, l = Z.of_nat n -> tables !! n = Some full -> expert_row full e ts.

Lemma attach_keeps_ok l e ts o :
  own_ok o -> serves l -> e ∉ live_at l (o_live o) -> genuine l e ts ->
  exists lm, attach_expert (o_model o) l e ts = (Ok tt, lm) /\ forall t, own_ok (attached_own l e t lm o).
Proof.
  intros Ho Hs Hn Hg. destruct (held_list o l Ho Hs) as (n & full & b & ids & Hl & Ht & Hd & Hb & Hi).
  assert (He : e ∉ ids). { intros He. apply Hn, (ok_live _ Ho). unfold live_at. by rewrite Hd. }
  pose proof (attach_expert_keeps tables (o_model o) n full ids e ts (ok_model _ Ho) Ht) as Ha. rewrite <- Hl in Ha.
  destruct Ha as (lm & Ha & Hh & Hok); [done|by intros ->; inversion Hi|by apply (Hg n full)|done|].
  exists lm. split; [done|]. intros t.
  split; cbn; [done| | | | |apply (ok_heat _ Ho)]; setoid_rewrite live_at_set; intros l'; case_decide as Hll;
    try (subst l'); try apply Ho.
  - intros e'. rewrite Hh, live_at_set, decide_True by done. rewrite set_add_in, (ok_live _ Ho).
    unfold live_at. rewrite Hd. rewrite elem_of_app, list_elem_of_singleton. cbn. naive_solver.
  - intros e'. rewrite Hh, live_at_set, decide_False by done. apply (ok_live _ Ho).
  - by apply set_add_nodup, (ok_nodup _ Ho).
  - intros e' He'. apply set_add_in. right. by apply (ok_boot _ Ho).
  - done.
Qed.

Lemma detach_keeps_ok l e o :
  own_ok o -> e ∈ live_at l (o_live o) -> e ∉ bootstrap_of self l ->
  exists lm, detach_expert (o_model o) l e = (Ok tt, lm) /\
    own_ok (detached_own l e lm o).
Proof.
  intros Ho He Hnb. destruct (held_list o l Ho (ok_served _ Ho _ _ He)) as (n & full & b & ids & Hl & Ht & Hd & Hb & Hi).
  assert (Hin : e ∈ ids) by (apply (ok_live _ Ho) in He; unfold live_at in He; by rewrite Hd in He).
  assert (Hne : filter (fun x => x <> e) ids <> []).
  { intros Hf. assert (b ∈ filter (fun x => x <> e) ids) as Hx by (apply list_elem_of_filter; split; [by intros ->|done]).
    rewrite Hf in Hx. inversion Hx. }
  rewrite Hl in Hd. destruct (detach_expert_ok tables (o_model o) n full ids e (ok_model _ Ho) Ht Hd Hin Hne) as (lm & Ha & Hh & Hok).
  rewrite <- Hl in Ha, Hh. exists lm. split; [done|].
  assert (Hlive : exists s, dict_get l (o_live o) = Some s /\ live_at l (o_live o) = s).
  { unfold live_at in *. destruct (dict_get l (o_live o)) as [s|]; [by exists s|inversion He]. }
  destruct Hlive as (s & Hs1 & Hs2).
  split; cbn; rewrite ?Hs1; [done| | | | |].
  - intros l' e'. rewrite Hh, !live_at_set. case_decide as Hll; [subst l'|apply (ok_live _ Ho)].
    rewrite !list_elem_of_filter, <- Hs2, (ok_live _ Ho). unfold live_at. by rewrite Hl, Hd.
  - intros l'. rewrite live_at_set. case_decide; [rewrite <- Hs2; apply NoDup_filter|]; apply (ok_nodup _ Ho).
  - intros l' e' He'. rewrite live_at_set. case_decide as Hll; [subst l'|by apply (ok_boot _ Ho)].
    apply list_elem_of_filter. split; [by intros ->|]. rewrite <- Hs2. by apply (ok_boot _ Ho).
  - intros l' e'. rewrite live_at_set. case_decide as Hll; [|apply (ok_served _ Ho)].
    subst l'. intros _. by apply (ok_served _ Ho _ _ He).
  - intros l' e' v Hv. eapply (ok_heat _ Ho l' e' v). eapply elem_of_sublist; [exact Hv|apply dict_pop_sublist].
Qed.

Lemma owners_of_in l e w (v : own_map) : w ∈ owners_of l e v <-> exists ts, ((w, l, e), (0, ts)) ∈ v.
Proof.
  unfold owners_of. rewrite list_elem_of_fmap. setoid_rewrite list_elem_of_filter. split.
  - intros ([[[w' l'] e'] [a ts]] & Hw & (Hl & He & Ha) & Hin). cbn in *. subst. by exists ts.
  - intros [ts Hin]. by exists (w, l, e, (0, ts)).
Qed.

(** What a node publishes about itself leaves the other shards in its view. *)
Lemma publish_others l e a f w l' e' :
  w <> ss_shard_id self -> keeps (fun o => w ∈ owners_of l' e' (o_view o)) (publish l e a f).
Proof.
  unfold publish. intros Hw. set (P := fun o : State => w ∈ owners_of l' e' (o_view o)).
  assert (Hn : keeps P (now_ms clock)) by (intros o Ho; exact Ho).
  apply keeps_bind; [done|]. intros ts. apply keeps_bind.
  - apply keeps_modify. intros o Ho. unfold P in *. cbn. apply owners_of_in in Ho as [ts' Hin]. apply owners_of_in.
    exists ts'. unfold apply_ownership. destruct (supersedes _ _); [|done]. cbn.
    assert (Hd : forall v : own_map, (w, l', e', (0, ts')) ∈ v ->
      (w, l', e', (0, ts')) ∈ dict_set (ss_shard_id self, l, e) (entry_of_delta (mkOwner (ss_shard_id self) l e a ts)) v).
    { induction v as [|[k x] v IH]; intros Hv; [inversion Hv|]. cbn. apply elem_of_cons in Hv as [[= <- <-]|Hv].
      - rewrite decide_False by congruence. left.
      - case_decide; right; auto. }
    by apply Hd.
  - intros _. by apply announce_keeps.
Qed.

Lemma live_at_detached l e lm o l' :
  live_at l' (o_live (detached_own l e lm o)) =
  if decide (l' = l) then filter (fun x => x <> e) (live_at l (o_live o)) else live_at l' (o_live o).
Proof.
  cbn. destruct (dict_get l (o_live o)) as [s|] eqn:E.
  - rewrite live_at_set. unfold live_at. by rewrite E.
  - case_decide as Hll; [subst|done]. unfold live_at. by rewrite E.
Qed.

(** C22: eviction. On a node whose holdings are right, an eviction of a served
    expert is refused, with nothing changed but the clock read, when the node
    started with it, when it was attached less than the cooldown ago, or when
    no other shard is known to own it. Otherwise it succeeds: the node stops
    holding and serving exactly that expert, its holdings stay right, and some
    other shard is still known to own the expert. *)
Theorem migration_detach_safe l e o :
  own_ok o -> ticking -> e ∈ live_at l (o_live o) ->
  match refusal l e o with
  | Some x => exists n, migration_detach self evict_cooldown clock l e o = (Raise x, set_reads n o)
  | None => exists o', migration_detach self evict_cooldown clock l e o = (Ok tt, o') /\ own_ok o' /\
      (forall l', live_at l' (o_live o') =
         if decide (l' = l) then filter (fun x => x <> e) (live_at l (o_live o)) else live_at l' (o_live o)) /\
      exists w, w <> ss_shard_id self /\ w ∈ owners_of l e (o_view o')
  end.
Proof.
  intros Ho Ht He. pose proof (migration_detach_cases l e o) as Hc.
  destruct (refusal l e o) as [x|] eqn:Er; [done|]. unfold refusal in Er.
  destruct (decide (e ∈ bootstrap_of self l)) as [|Hb]; [done|]. destruct (flt _ _); [done|].
  destruct (decide (other_owners self l e o = [])) as [|Hw]; [done|]. clear Er.
  destruct (detach_keeps_ok l e o Ho He Hb) as (lm & Hd & Hok). rewrite Hd in Hc. rewrite Hc. clear Hc.
  set (o1 := detached_own l e lm o) in *. set (f := announce_ownership_remove _ _ _).
  pose proof (publish_returns l e 1 f o1 Ht) as Hr. pose proof (publish_same o1 l e 1 f o1 (same_refl o1)) as Hs.
  destruct (other_owners self l e o) as [|w ws] eqn:Ew; [done|].
  assert (w <> ss_shard_id self /\ w ∈ owners_of l e (o_view o)) as [Hne Hin].
  { apply (list_elem_of_filter (fun s => s <> ss_shard_id self)). unfold other_owners in Ew. rewrite Ew. left. }
  pose proof (publish_others l e 1 f w l e Hne o1 Hin) as Hw1.
  destruct (publish l e 1 f o1) as [r o']. cbn in Hr, Hs, Hw1. subst r. exists o'. split; [done|].
  split; [by apply (own_ok_same o1)|]. split; [|by exists w].
  intros l'. rewrite (sh_live _ _ Hs). apply live_at_detached.
Qed.

(** *** The scanner *)

Context (policy : MigrationPolicy) (set_order : forall A : Type, list A -> list A).

Hypothesis set_order_perm : forall A (l : list A), set_order A l ≡ₚ l.

Lemma heat_report_tracked t rep l e n :
  heat_report t = Ok rep -> (l, e, n) ∈ rep -> exists v, ((l, e), v) ∈ ht_ema t.
Proof.
  unfold heat_report. intros Hr Hin. apply bind_ok in Hr as (snap & Hs & Hr). injection Hr as <-.
  eapply elem_of_sublist in Hin; [|apply slice_to_sublist]. rewrite sort_by_perm in Hin. apply mapR_ok in Hs.
  apply list_elem_of_lookup in Hin as [i Hi]. destruct (Forall2_lookup_r _ _ _ _ _ Hs Hi) as ([[l' e'] v] & Hv & Hx).
  apply list_elem_of_lookup_2 in Hv. apply list_elem_of_filter in Hv as [_ Hv].
  unfold snapshot_entry in Hx. apply bind_ok in Hx as (m & _ & Hx). injection Hx as -> -> ->. by exists v.
Qed.

(** An expert worth pulling: not held, its layer below capacity, hot enough,
    owned by somebody else; and the least loaded of its owners. *)
Definition wanted o l e : Prop :=
  (e ∉ live_at l (o_live o)) /\ Z.of_nat (length (live_at l (o_live o))) < max_experts_per_layer policy /\
  (exists h, local_heat l e (o_heat o) = Ok h /\ heat_threshold policy <= h) /\ other_owners self l e o <> [].
Definition best_source o l e s : Prop :=
  let load s := default NO_LOAD (dict_get s (loads_snapshot o)) in
  s ∈ other_owners self l e o /\ forall s', s' ∈ other_owners self l e o -> load s <= load s'.

Lemma consider_spec l e o pick :
  consider self policy set_order l e o = Ok pick ->
  match pick with
  | Some s => wanted o l e /\ best_source o l e s
  | None => ~ wanted o l e
  end.
Proof.
  unfold consider, wanted. case_bool_decide as He; [intros [= <-]; naive_solver|].
  destruct (Z.leb_spec (max_experts_per_layer policy) (Z.of_nat (length (live_at l (o_live o))))) as [Hc|Hc];
    [intros [= <-]; lia|].
  intros Hk. apply bind_ok in Hk as (h & Hh & Hk).
  destruct (Z.ltb_spec h (heat_threshold policy)) as [Hlt|Hge].
  { injection Hk as <-. intros (_ & _ & (h' & Hh' & Hle) & _). rewrite Hh in Hh'. injection Hh' as ->. lia. }
  destruct (other_owners self l e o) as [|w ws] eqn:Ew; [injection Hk as <-; naive_solver|].
  apply bind_ok in Hk as (s & Hs & Hk). injection Hk as <-. apply min_by_ok in Hs as [Hin Hmin].
  rewrite set_order_perm in Hin. split; [naive_solver|]. split; [by rewrite Ew|].
  intros s' Hs'. apply Hmin. by rewrite set_order_perm, <- Ew.
Qed.

Lemma first_candidate_spec report o pick :
  first_candidate self policy set_order report o = Ok pick ->
  match pick with
  | Some (l, e, s) => exists before n after, report = before ++ (l, e, n) :: after /\ wanted o l e /\ best_source o l e s /\
      Forall (fun it : Z * Z * Z => ~ wanted o it.1.1 it.1.2) before
  | None => Forall (fun it : Z * Z * Z => ~ wanted o it.1.1 it.1.2) report
  end.
Proof.
  revert pick. induction report as [|[[l e] n] report IH]; intros pick Hf; cbn in Hf; [injection Hf as <-; constructor|].
  apply bind_ok in Hf as (p & Hp & Hf). apply consider_spec in Hp. destruct p as [s|].
  - injection Hf as <-. exists [], n, report. split; [done|]. split; [apply Hp|]. split; [apply Hp|constructor].
  - apply IH in Hf. destruct pick as [[[l' e'] s]|]; [|by constructor].
    destruct Hf as (before & n' & after & -> & Hw & Hb & Hbef). exists ((l, e, n) :: before), n', after.
    split; [done|]. split; [done|]. split; [done|]. by constructor.
Qed.

(** the migration decision. The candidate is the hottest expert of the heat
    report that this node does not hold, in a layer below capacity, at least
    as hot as the threshold and owned by another shard; the source is the
    least loaded of those owners. There is none exactly when no reported
    expert qualifies. *)
Theorem select_candidate_spec o pick :
  select_candidate self policy set_order o = Ok pick ->
  exists report, heat_report (o_heat o) = Ok report /\
  match pick with
  | Some (l, e, s) => exists n, (l, e, n) ∈ report /\ wanted o l e /\ best_source o l e s /\
      forall l' e' n', (l', e', n') ∈ report -> wanted o l' e' -> n' <= n
  | None => forall l e n, (l, e, n) ∈ report -> ~ wanted o l e
  end.
Proof.
  unfold select_candidate. intros Hs. apply bind_ok in Hs as (report & Hr & Hs). exists report. split; [done|].
  apply first_candidate_spec in Hs. pose proof (sort_by_perm hotter report) as Hp.
  pose proof (sort_by_sorted hotter hotter_total hotter_trans report) as Hsort.
  destruct pick as [[[l e] s]|].
  - destruct Hs as (before & n & after & Heq & Hw & Hb & Hbef). rewrite Heq in Hp, Hsort. exists n.
    split; [rewrite <- Hp; apply elem_of_app; right; left|]. split; [done|]. split; [done|].
    intros l' e' n' Hin Hw'. rewrite <- Hp in Hin. apply elem_of_app in Hin as [Hin|Hin].
    + rewrite Forall_forall in Hbef. by destruct (Hbef _ Hin).
    + apply elem_of_cons in Hin as [[= -> -> ->]|Hin]; [lia|].
      change (before ++ (l, e, n) :: after) with (before ++ [(l, e, n)] ++ after) in Hsort. rewrite (assoc_L app) in Hsort.
      assert (hotter (l, e, n) (l', e', n') = true) as Hh.
      { eapply (sorted_prefix _ _ _ _ _ Hsort); [apply elem_of_app; right; left|done]. }
      unfold hotter in Hh. cbn in Hh. lia.
  - intros l e n Hin. rewrite <- Hp in Hin. rewrite Forall_forall in Hs. by apply (Hs _ Hin).
Qed.

(** *** A tick of the scanner *)

Context (rpc_pull : string -> Z -> Z -> result (list C)).

(** The peers send the tensors of the expert they are asked for. *)
Hypothesis honest_peers : forall source l e ts, rpc_pull source l e = Ok ts -> genuine l e ts.

Definition size l o : Z := Z.of_nat (length (live_at l (o_live o))).

(** Right holdings, and no layer grown beyond its capacity since [o0]. *)
Definition bounded o0 o : Prop := own_ok o /\ forall l, size l o <= Z.max (size l o0) (max_experts_per_layer policy).

Lemma bounded_same o0 o o' : same_holdings o o' -> bounded o0 o -> bounded o0 o'.
Proof. intros Hs [Ho Hb]. split; [by apply (own_ok_same o)|]. unfold size in *. by rewrite (sh_live _ _ Hs). Qed.

Lemma publish_bounded o0 l e a f : keeps (bounded o0) (publish l e a f).
Proof. intros o Ho. eapply bounded_same; [|exact Ho]. by apply publish_same. Qed.

Lemma announce_bounded o0 f : keeps (bounded o0) (announce clock f).
Proof. intros o Ho. eapply bounded_same; [|exact Ho]. by apply announce_same. Qed.

Lemma read_clock_bounded o0 : keeps (bounded o0) (read_clock clock).
Proof. intros o Ho. eapply bounded_same; [|exact Ho]. done. Qed.

#[local] Hint Resolve publish_bounded announce_bounded read_clock_bounded : keeps.

Lemma pull_bounded o0 : keeps (bounded o0) (maybe_pull_one self clock policy set_order rpc_pull).
Proof.
  intros o [Ho Hb]. unfold maybe_pull_one. rewrite run_bind.
  destruct (select_candidate self policy set_order o) as [[[[l e] s]|]|x] eqn:Es; [|done..].
  assert (Hsel : serves l /\ wanted o l e).
  { unfold select_candidate in Es. apply bind_ok in Es as (report & Hr & Es).
    apply first_candidate_spec in Es as (before & n & after & Heq & Hw & _). split; [|done].
    destruct (heat_report_tracked _ _ l e n Hr) as [v Hv]; [|by apply (ok_heat _ Ho l e v)].
    rewrite <- (sort_by_perm hotter report), Heq. apply elem_of_app. right. left. }
  destruct Hsel as [Hs (Hn & Hcap & _)]. destruct (rpc_pull s l e) as [ts|] eqn:Ep; [|done].
  destruct (attach_keeps_ok l e ts o Ho Hs Hn (honest_peers _ _ _ _ Ep)) as (lm & Ha & Hok).
  rewrite run_bind. unfold outcome. rewrite migration_attach_cases, Ha.
  set (o1 := attached_own _ _ _ _ _). assert (H1o : bounded o0 o1).
  { split; [apply Hok|]. intros l'. unfold size, o1. cbn. rewrite live_at_set. case_decide as Hll; [|apply Hb].
    subst l'. unfold set_add. rewrite decide_False by done. rewrite length_app. cbn [length]. lia. }
  apply (publish_bounded o0 l e 0 (announce_ownership_add l e DEFAULT_OWNERSHIP_TTL)) in H1o.
  destruct (publish _ _ _ _ _) as [[[]|x] o2]; [|done]. by apply announce_bounded.
Qed.

Lemma coldest_in l es o v : coldest l es o = Ok v -> v ∈ es.
Proof.
  unfold coldest. intros Hc. apply bind_ok in Hc as (keyed & Hk & Hc). apply bind_ok in Hc as ([h e] & Hm & [= <-]).
  apply min_by_ok in Hm as [Hin _]. apply mapR_ok in Hk. apply list_elem_of_lookup in Hin as [i Hi].
  destruct (Forall2_lookup_r _ _ _ _ _ Hk Hi) as (e' & He & Hx). apply bind_ok in Hx as (h' & _ & [= _ <-]).
  by eapply list_elem_of_lookup_2.
Qed.

Lemma detach_bounded o0 l e o :
  bounded o0 o -> e ∈ live_at l (o_live o) -> e ∉ bootstrap_of self l ->
  bounded o0 (migration_detach self evict_cooldown clock l e o).2.
Proof.
  intros [Ho Hb] He Hnb. pose proof (migration_detach_cases l e o) as Hc.
  destruct (refusal l e o) as [x|].
  { destruct Hc as [n ->]. eapply bounded_same; [|split; [exact Ho|exact Hb]]. done. }
  destruct (detach_keeps_ok l e o Ho He Hnb) as (lm & Hd & Hok). rewrite Hc, Hd. apply publish_bounded.
  split; [done|]. intros l'. unfold size. rewrite live_at_detached. specialize (Hb l'). unfold size in Hb.
  case_decide as Hll; [|done]. subst l'.
  pose proof (length_filter (fun x => x <> e) (live_at l (o_live o))). lia.
Qed.

Lemma evict_bounded o0 now layers :
  keeps (bounded o0) (evict_first self evict_cooldown clock policy set_order now layers).
Proof.
  induction layers as [|l layers IH]; [apply keeps_skip|]. intros o Ho. cbn [evict_first]. run.
  destruct (_ <? _); [by apply IH|]. run.
  destruct (eligible _ _ _ _ _ _) as [|e es] eqn:Ee; [by apply IH|]. rewrite run_bind.
  destruct (coldest l (e :: es) o) as [v|] eqn:Ec; [|done]. apply coldest_in in Ec. rewrite <- Ee in Ec.
  unfold eligible in Ec. apply list_elem_of_filter in Ec as [[Hnb _] Hin]. rewrite set_order_perm in Hin.
  rewrite run_bind. unfold outcome. pose proof (detach_bounded o0 l v o Ho Hin Hnb) as Hd.
  destruct (migration_detach _ _ _ _ _ _) as [[|] o1]; [done|]. by apply IH.
Qed.

Lemma scan_body_bounded o0 :
  keeps (bounded o0) (_ ← maybe_pull_one self clock policy set_order rpc_pull; maybe_evict_one self evict_cooldown clock policy set_order).
Proof.
  apply keeps_bind; [apply pull_bounded|]. intros _. unfold maybe_evict_one. destruct (eviction_enabled policy); [|apply keeps_skip].
  apply keeps_bind; [apply read_clock_bounded|]. intros now. apply keeps_bind; [apply keeps_gets|]. intros layers. apply evict_bounded.
Qed.

Lemma scan_bounded o : own_ok o -> bounded o (scan_once self evict_cooldown clock policy set_order rpc_pull o).2.
Proof.
  intros Ho. assert (Hb : bounded o o) by (split; [done|intros l; lia]). unfold scan_once. run.
  destruct (o_in_flight o); [done|]. run. unfold finally.
  assert (Hb1 : bounded o (set_in_flight true o)) by (destruct Hb as [Ho1 Hb1]; split; [by destruct Ho1|exact Hb1]).
  apply scan_body_bounded in Hb1. clear Hb. rename Hb1 into Hb.
  destruct (@mbind (eff _) _ _ _ _ _ _) as [r o2]. destruct Hb as [Ho2 Hb]. split; [by destruct Ho2|exact Hb].
Qed.

(** What a message of the gossip changes is the view and the runner. *)
Lemma gossip_same o0 m : keeps (same_holdings o0) (deliver_gossip m).
Proof.
  intros o Ho. unfold deliver_gossip. destruct (o_membership o) as [r|]; [|done]. destruct (on_recv_decoded m r) as [r' calls].
  assert (Hk : keeps (same_holdings o0) (for_each calls (fun c => on_gossip_ownership_delta c.2))).
  { apply keeps_for. intros c _. apply view_put_same. }
  apply Hk. by eapply same_trans.
Qed.

(** C16: the scanner keeps the node right. Whatever the heat, the gossip and the
    clock, a tick leaves right holdings (each held row is that of its expert,
    exactly the held experts are served, every expert the node started with
    still is) and no layer with more experts than it had or than its capacity;
    the lock is released. During another tick it does nothing. *)
Theorem scan_once_ok o :
  own_ok o ->
  let o' := (scan_once self evict_cooldown clock policy set_order rpc_pull o).2 in
  if o_in_flight o then o' = o
  else own_ok o' /\ o_in_flight o' = false /\
       forall l, size l o' <= Z.max (size l o) (max_experts_per_layer policy).
Proof.
  intros Ho. pose proof (scan_bounded o Ho) as [Ho' Hb]. cbv zeta. destruct (o_in_flight o) eqn:Ef.
  - unfold scan_once. run. by rewrite Ef.
  - split; [done|]. split; [|exact Hb]. unfold scan_once. run. rewrite Ef. run. unfold finally.
    by destruct (@mbind (eff _) _ _ _ _ _ _).
Qed.

End node.

(** ** Witnesses *)

Section transfer_witness.

#[local] Instance byte_tensors : TensorWire bytes := {
  tensor_to_bytes t := t;
  tensor_shape t := [Z.of_nat (length t)];
  dtype_to_wire _ := Ok 6;
  bytes_to_tensor b _ _ := Ok b;
}.

Definition serve (n : nat) (l e : Z) : result (list bytes) := Ok (replicate n [x2a; x2b]).
Definition direct (n : nat) (addr : string * Z) (env : Envelope) : result (Envelope * bytes) :=
  match env with
  | Some (PWeightRequest req) => handle_expert_weight_request (fun _ => "") (serve n) req
  | _ => Raise OSError
  end.

Lemma serve_sendable n : Forall sendable (replicate n ([x2a; x2b] : bytes)).
Proof. apply Forall_replicate. by eexists. Qed.

(** Nine tensors arrive; two do not. *)
Lemma pull_served_witness :
  pull [("b", ("h", 1))] (direct 9) "r" "b" 3 5 = Ok (replicate 9 ([x2a; x2b] : bytes)) /\
  pull (C := bytes) [("b", ("h", 1))] (direct 2) "r" "b" 3 5 = Raise RuntimeError.
Proof.
  split.
  - exact (pull_served (fun _ => "") (serve 9) [("b", ("h", 1))] (direct 9) "r" "b" ("h", 1) 3 5 eq_refl eq_refl eq_refl
      (fun _ => eq_refl) (serve_sendable 9)).
  - exact (pull_served (fun _ => "") (serve 2) [("b", ("h", 1))] (direct 2) "r" "b" ("h", 1) 3 5 eq_refl eq_refl eq_refl
      (fun _ => eq_refl) (serve_sendable 2)).
Defined.

End transfer_witness.

Section node_witness.

#[local] Existing Instance demo_lib.
#[local] Existing Instance demo_laws.

(** A node that started with expert 2 of layer 1, has attached expert 0 since,
    sees expert 1 of "b" requested, and knows "b" and "c" as owners. *)
Definition demo_self : ShardSpec := mkShard "a" (mkAddress "h" 1) 0 2 [(1, [2])].
Definition demo_clock (n : nat) : float := of_int (1000 + Z.of_nat n).
Definition demo_heat : HeatTracker :=
  heat_observe 1 [1; 1] (ok_or (mkHeatTracker f0 0 []) (init_heat (flit 3 1) 4)).
Definition demo_own : OwnNode Z script :=
  mkOwn 0 (demo_model demo_held) [(1, [2; 0])] [((1, 0), of_int 900)]
    [(("a", 1, 2), (0, 0)); (("a", 1, 0), (0, 900000)); (("b", 1, 1), (0, 0)); (("c", 1, 0), (0, 0))]
    demo_heat None false.
Definition demo_policy : MigrationPolicy := mkPolicy (of_int 10) 50 3 (of_int 30) true.
Definition any_order (A : Type) (l : list A) : list A := l.
Definition demo_pull (source : string) (l e : Z) : result (list Z) :=
  if decide (l = 1 /\ e ∈ [0; 1; 2]) then Ok (demo_row 1 e) else Raise OSError.

Lemma demo_serves : serves demo_self demo_tables 1.
Proof. by exists 1%nat, (demo_table 1). Qed.

Lemma demo_own_ok : own_ok demo_self demo_tables demo_own.
Proof.
  assert (Hl : forall l, l = 1 \/ live_at l (o_live demo_own) = []).
  { intros l. destruct (decide (l = 1)) as [|Hne]; [by left|right]. unfold live_at. cbn. by rewrite decide_False. }
  split.
  - apply demo_model_ok.
  - intros l e. reflexivity.
  - intros l. destruct (Hl l) as [->| ->]; [|constructor]. apply (bool_decide_unpack _). vm_compute. exact I.
  - intros l e He. unfold bootstrap_of in He. cbn in He. destruct (decide (l = 1)) as [->|Hne]; [|inversion He].
    apply list_elem_of_singleton in He as ->. left.
  - intros l e He. destruct (Hl l) as [->|Hn]; [apply demo_serves|]. rewrite Hn in He. inversion He.
  - intros l e v Hv. assert (l = 1) as ->; [|apply demo_serves].
    assert ((ht_ema demo_heat).*1.*1 = [1]) as Hk by (vm_compute; reflexivity).
    assert (l ∈ (ht_ema demo_heat).*1.*1) as Hin.
    { apply list_elem_of_fmap. exists (l, e). split; [done|]. apply list_elem_of_fmap. by exists (l, e, v). }
    rewrite Hk in Hin. by apply list_elem_of_singleton in Hin.
Qed.

Lemma demo_pull_genuine source l e ts : demo_pull source l e = Ok ts -> genuine demo_tables l e ts.
Proof.
  unfold demo_pull. case_decide as Hd; [|done]. destruct Hd as [-> He]. intros [= <-] n full Hn Ht.
  assert (n = 1%nat) as -> by lia. injection Ht as <-. apply (demo_row_ok 1 e); [lia|lia|done].
Qed.

Lemma select_candidate_spec_witness :
  exists report, heat_report demo_heat = Ok report /\
    exists n, (1, 1, n) ∈ report /\ wanted demo_self demo_policy demo_own 1 1 /\ best_source demo_self demo_own 1 1 "b" /\
      forall l' e' n', (l', e', n') ∈ report -> wanted demo_self demo_policy demo_own l' e' -> n' <= n.
Proof.
  apply (select_candidate_spec demo_self demo_policy any_order (fun A l => Permutation_refl l) demo_own (Some (1, 1, "b"))).
  vm_compute. reflexivity.
Defined.

(** The tick attaches expert 1, which is all the layer has room for, and then
    evicts expert 0, attached long ago and owned by "c" too. *)
Lemma scan_once_ok_witness :
  let o' := (scan_once demo_self (of_int 30) demo_clock demo_policy any_order demo_pull demo_own).2 in
  o_live o' = [(1, [2; 1])] /\ own_ok demo_self demo_tables o'.
Proof.
  split; [vm_compute; reflexivity|].
  apply (scan_once_ok demo_self (of_int 30) demo_clock demo_tables demo_policy any_order
    (fun A l => Permutation_refl l) demo_pull demo_pull_genuine demo_own demo_own_ok).
Defined.

Lemma migration_detach_safe_witness :
  exists o', migration_detach demo_self (of_int 30) (fun _ => of_int 1000) 1 0 demo_own = (Ok tt, o') /\
    own_ok demo_self demo_tables o' /\ exists w, w <> "a" /\ w ∈ owners_of 1 0 (o_view o').
Proof.
  destruct (migration_detach_safe demo_self (of_int 30) (fun _ => of_int 1000) demo_tables 1 0 demo_own demo_own_ok)
    as (o' & H1 & H2 & _ & H3).
  - intros n. eexists. vm_compute. reflexivity.
  - apply (bool_decide_unpack _). vm_compute. exact I.
  - exists o'. split; [exact H1|]. split; [exact H2|exact H3].
Defined.

End node_witness.
