(* ===== verification/Tensors.v ===== *)
(** * mlx_engine.py and pytorch_engine.py: tensors on the wire

    The dtype tables of the two backends and their conversions to and from raw
    bytes.  The arrays of MLX, numpy and torch are opaque; [MxLaws] and
    [TorchLaws] state what the libraries' own conversions preserve and refuse.
    The class [TensorWire], by which the node and the migration send tensors, is
    implemented by the MLX backend; the conversion of the PyTorch backend raises
    on some tensors ([torch_to_bytes]) and its messages are [torch_send]. *)
From S2P Require Import Prelude PyDict Wire Migration MigrationTheorems.
Open Scope Z_scope.

(** ** Wire codes and dtypes *)

(** [wire_pb2.DType] *)
Definition DTYPE_FLOAT32 : Z := 1.
Definition DTYPE_FLOAT16 : Z := 2.
Definition DTYPE_BFLOAT16 : Z := 3.
Definition DTYPE_INT32 : Z := 4.
Definition DTYPE_INT8 : Z := 5.
Definition DTYPE_UINT8 : Z := 6.
Definition DTYPE_UINT32 : Z := 7.

(** The dtypes of MLX; those of numpy the wire stages through; those of torch. *)
Inductive MxDtype : Type :=
| mx_bool | mx_uint8 | mx_uint16 | mx_uint32 | mx_uint64 | mx_int8 | mx_int16 | mx_int32 | mx_int64
| mx_float16 | mx_bfloat16 | mx_float32 | mx_float64 | mx_complex64.
Inductive NpDtype : Type := np_float32 | np_float16 | np_uint16 | np_int32 | np_int8 | np_uint8 | np_uint32.
Inductive TorchDtype : Type :=
| th_bfloat16 | th_float16 | th_float32 | th_float64 | th_int8 | th_int16 | th_int32 | th_int64 | th_uint8 | th_bool.

#[export] Instance MxDtype_eq_dec : EqDecision MxDtype.
Proof. solve_decision. Defined.
#[export] Instance NpDtype_eq_dec : EqDecision NpDtype.
Proof. solve_decision. Defined.
#[export] Instance TorchDtype_eq_dec : EqDecision TorchDtype.
Proof. solve_decision. Defined.

(** [_DTYPE_MAP]: the MLX dtype, the numpy staging dtype, the bytes per element. *)
Definition DTYPE_MAP : dict Z (MxDtype * NpDtype * Z) := [
  (DTYPE_FLOAT32, (mx_float32, np_float32, 4));
  (DTYPE_FLOAT16, (mx_float16, np_float16, 2));
  (DTYPE_BFLOAT16, (mx_bfloat16, np_uint16, 2));
  (DTYPE_INT32, (mx_int32, np_int32, 4));
  (DTYPE_INT8, (mx_int8, np_int8, 1));
  (DTYPE_UINT8, (mx_uint8, np_uint8, 1));
  (DTYPE_UINT32, (mx_uint32, np_uint32, 4))
].

(** [_mx_to_wire_dtype] *)
Fixpoint wire_of (dtype : MxDtype) (m : dict Z (MxDtype * NpDtype * Z)) : result Z :=
  match m with
  | [] => Raise ValueError
  | (wire, (mxt, _, _)) :: m => if decide (mxt = dtype) then Ok wire else wire_of dtype m
  end.
Definition mx_to_wire_dtype (dtype : MxDtype) : result Z := wire_of dtype DTYPE_MAP.

(** [_TORCH_TO_WIRE], [_WIRE_TO_TORCH] *)
Definition TORCH_TO_WIRE : dict TorchDtype Z :=
  [(th_bfloat16, DTYPE_BFLOAT16); (th_float16, DTYPE_FLOAT16); (th_float32, DTYPE_FLOAT32)].
Definition WIRE_TO_TORCH : dict Z TorchDtype := foldl (fun d it => dict_set it.2 it.1 d) [] TORCH_TO_WIRE.

(** The KeyError becomes ValueError. *)
Definition torch_to_wire_dtype (dtype : TorchDtype) : result Z := or_raise ValueError (dict_get dtype TORCH_TO_WIRE).
Definition wire_to_torch_dtype (wire : Z) : result TorchDtype := or_raise ValueError (dict_get wire WIRE_TO_TORCH).

(** ** The libraries *)

Definition elements (shape : list Z) : Z := foldr Z.mul 1 shape.

Class MxLib (A N : Type) := {
  mx_dtype : A -> MxDtype;
  mx_shape : A -> list Z;
  (** [arr.view(dtype)] *)
  mx_view : MxDtype -> A -> A;
  (** [np.array(arr)], [mx.array(staged)] *)
  np_array : A -> N;
  mx_array : N -> A;
  np_tobytes : N -> bytes;
  np_frombuffer : bytes -> NpDtype -> result N;
  np_reshape : N -> list Z -> result N;
}.

Class TorchLib (P : Type) := {
  th_dtype : P -> TorchDtype;
  th_shape : P -> list Z;
  (** [t.contiguous().cpu().view(torch.uint8).numpy().tobytes()] *)
  th_bytes : P -> result bytes;
  (** [torch.frombuffer(bytearray(raw), dtype=dt)], [flat.reshape(shape)] *)
  th_frombuffer : bytes -> TorchDtype -> result P;
  th_reshape : P -> list Z -> result P;
  (** [t.to(device)] *)
  th_to_device : P -> P;
}.

Section mlx.
Context {A N : Type} `{MxLib A N}.

(** [mlx_engine.tensor_to_bytes], [bytes_to_tensor] *)
Definition mx_to_bytes (arr : A) : bytes :=
  let staged := if decide (mx_dtype arr = mx_bfloat16) then np_array (mx_view mx_uint16 arr) else np_array arr in
  np_tobytes staged.

Definition bytes_to_mx (raw : bytes) (shape : list Z) (dtype : Z) : result A :=
  '(dt, np_stage, _) ← or_raise ValueError (dict_get dtype DTYPE_MAP);
  flat ← np_frombuffer raw np_stage;
  staged ← np_reshape flat shape;
  let arr := mx_array staged in
  Ok (if decide (dt = mx_bfloat16) then mx_view mx_bfloat16 arr else arr).

(** The MLX dtype of an array made from a staged one. *)
Definition stage_dtype (stage : NpDtype) : MxDtype :=
  match stage with
  | np_float32 => mx_float32
  | np_float16 => mx_float16
  | np_uint16 => mx_uint16
  | np_int32 => mx_int32
  | np_int8 => mx_int8
  | np_uint8 => mx_uint8
  | np_uint32 => mx_uint32
  end.
Definition stage_size (stage : NpDtype) : Z :=
  match stage with
  | np_float32 | np_int32 | np_uint32 => 4
  | np_float16 | np_uint16 => 2
  | np_int8 | np_uint8 => 1
  end.

(** The two dtypes a view exchanges. *)
Definition staged_alike (dt : MxDtype) : Prop := dt = mx_bfloat16 \/ dt = mx_uint16.

(** Arrays go through numpy unchanged: [tobytes] is row-major and without gaps,
    [frombuffer] and [reshape] read any buffer of the right size and rebuild
    what [tobytes] wrote, [mx.array] and [np.array] are inverse to each other,
    and a view there and back is the array itself. *)
Class MxLaws : Prop := {
  np_size arr stage : mx_dtype arr = stage_dtype stage ->
    Z.of_nat (length (np_tobytes (np_array arr))) = elements (mx_shape arr) * stage_size stage;
  np_read raw stage shape : Forall (Z.le 0) shape -> Z.of_nat (length raw) = elements shape * stage_size stage ->
    exists arr, (flat ← np_frombuffer raw stage; np_reshape flat shape) = Ok (np_array arr) /\
      mx_dtype arr = stage_dtype stage /\ mx_shape arr = shape /\ np_tobytes (np_array arr) = raw;
  np_rebuild arr stage : mx_dtype arr = stage_dtype stage ->
    (flat ← np_frombuffer (np_tobytes (np_array arr)) stage; np_reshape flat (mx_shape arr)) = Ok (np_array arr);
  mx_array_np arr : mx_array (np_array arr) = arr;
  view_dtype arr dt : staged_alike (mx_dtype arr) -> staged_alike dt -> mx_dtype (mx_view dt arr) = dt;
  view_shape arr dt : staged_alike (mx_dtype arr) -> staged_alike dt -> mx_shape (mx_view dt arr) = mx_shape arr;
  view_back arr dt : staged_alike (mx_dtype arr) -> staged_alike dt -> mx_view (mx_dtype arr) (mx_view dt arr) = arr;
  mx_shape_pos arr : Forall (Z.le 0) (mx_shape arr);
}.

End mlx.
Arguments MxLaws A N {_}.

Section torch.
Context {P : Type} `{TorchLib P}.

(** [pytorch_engine.tensor_to_bytes]; [PyTorchBackend.bytes_to_tensor] around
    [pytorch_engine.bytes_to_tensor] *)
Definition torch_to_bytes (t : P) : result bytes := th_bytes t.
Definition bytes_to_torch (raw : bytes) (shape : list Z) (dtype : Z) : result P :=
  torch_dt ← wire_to_torch_dtype dtype;
  flat ← th_frombuffer raw torch_dt;
  th_reshape flat shape.
Definition backend_bytes_to_torch (raw : bytes) (shape : list Z) (dtype : Z) : result P :=
  t ← bytes_to_torch raw shape dtype; Ok (th_to_device t).

Definition torch_itemsize (dt : TorchDtype) : Z :=
  match dt with
  | th_float64 | th_int64 => 8
  | th_float32 | th_int32 => 4
  | th_bfloat16 | th_float16 | th_int16 => 2
  | th_int8 | th_uint8 | th_bool => 1
  end.

(** What [_activation_envelope] makes of a state of this backend: the bytes, then
    the descriptor. *)
Definition torch_send (t : P) : result (TensorDescriptor * bytes) :=
  raw ← torch_to_bytes t;
  dt ← torch_to_wire_dtype (th_dtype t);
  Ok (mkTensor (th_shape t) dt QUANT_NONE (Z.of_nat (length raw)), raw).

(** [view(torch.uint8)] refuses a tensor without dimensions, unless its elements
    are single bytes. *)
Definition viewable (t : P) : bool := negb (bool_decide (th_shape t = [])) || (torch_itemsize (th_dtype t) =? 1).

(** A buffer of the right size is read as it is, an empty one is refused; a
    tensor gives its bytes in row-major order, where its view is defined. *)
Class TorchLaws : Prop := {
  th_empty dt : th_frombuffer [] dt = Raise ValueError;
  th_read raw dt shape : raw <> [] -> Forall (Z.le 0) shape -> Z.of_nat (length raw) = elements shape * torch_itemsize dt ->
    exists flat t, th_frombuffer raw dt = Ok flat /\ th_reshape flat shape = Ok t /\
      th_dtype t = dt /\ th_shape t = shape /\ (viewable t = true -> th_bytes t = Ok raw);
  th_viewed t : viewable t = true ->
    exists raw, th_bytes t = Ok raw /\ Z.of_nat (length raw) = elements (th_shape t) * torch_itemsize (th_dtype t);
  th_scalar t : viewable t = false -> th_bytes t = Raise RuntimeError;
  th_shape_pos t : Forall (Z.le 0) (th_shape t);
  th_device_dtype t : th_dtype (th_to_device t) = th_dtype t;
  th_device_shape t : th_shape (th_to_device t) = th_shape t;
  th_device_bytes t : th_bytes (th_to_device t) = th_bytes t;
}.

End torch.
Arguments TorchLaws P {_}.

(** ** The MLX backend implements [TensorWire] *)

#[export] Instance mlx_wire {A N} `{MxLib A N} : TensorWire A := {
  tensor_to_bytes := mx_to_bytes;
  tensor_shape := mx_shape;
  dtype_to_wire a := mx_to_wire_dtype (mx_dtype a);
  bytes_to_tensor := bytes_to_mx;
}.

(** ** Round trips *)

Section roundtrip.
Context {A N : Type} `{MxLib A N} `{!MxLaws A N}.
Implicit Types (arr : A).

(** The numpy dtype an MLX dtype of the table is staged through. *)
Definition stage_of (dt : MxDtype) : option NpDtype :=
  match dt with
  | mx_float32 => Some np_float32
  | mx_float16 => Some np_float16
  | mx_bfloat16 => Some np_uint16
  | mx_int32 => Some np_int32
  | mx_int8 => Some np_int8
  | mx_uint8 => Some np_uint8
  | mx_uint32 => Some np_uint32
  | _ => None
  end.

(** The table read both ways. *)
Lemma wire_code dt wire : mx_to_wire_dtype dt = Ok wire ->
  exists stage, stage_of dt = Some stage /\ dict_get wire DTYPE_MAP = Some (dt, stage, stage_size stage) /\ 1 <= wire <= 7.
Proof. destruct dt; cbn; intros [= <-]; eexists; (split; [reflexivity|]); (split; [reflexivity|]); unfold DTYPE_FLOAT32; by cbv. Qed.

Lemma no_wire_code dt e : mx_to_wire_dtype dt = Raise e -> e = ValueError /\ stage_of dt = None.
Proof. by destruct dt; intros [= <-]. Qed.

Lemma code_of wire dt stage size : dict_get wire DTYPE_MAP = Some (dt, stage, size) ->
  mx_to_wire_dtype dt = Ok wire /\ stage_of dt = Some stage /\ size = stage_size stage.
Proof. cbn. intros Hg. repeat (case_decide; [by injection Hg as <- <- <-; subst|]). done. Qed.

(** The array numpy gets to see. *)
Definition staged arr : A := if decide (mx_dtype arr = mx_bfloat16) then mx_view mx_uint16 arr else arr.

Lemma staged_spec arr stage : stage_of (mx_dtype arr) = Some stage ->
  mx_dtype (staged arr) = stage_dtype stage /\ mx_shape (staged arr) = mx_shape arr /\
  mx_to_bytes arr = np_tobytes (np_array (staged arr)) /\
  (if decide (mx_dtype arr = mx_bfloat16) then mx_view mx_bfloat16 (staged arr) else staged arr) = arr.
Proof.
  intros Hs. unfold staged, mx_to_bytes. case_decide as Hd.
  - rewrite Hd in Hs. injection Hs as <-. split; [apply view_dtype; [by left|by right]|].
    split; [apply view_shape; [by left|by right]|]. split; [done|]. rewrite <- Hd at 1. apply view_back; [by left|by right].
  - split_and!; try done. destruct (mx_dtype arr); by simplify_eq/=.
Qed.

Lemma mx_bytes_size arr stage : stage_of (mx_dtype arr) = Some stage ->
  Z.of_nat (length (mx_to_bytes arr)) = elements (mx_shape arr) * stage_size stage.
Proof. intros Hs. destruct (staged_spec arr stage Hs) as (Hd & Hsh & -> & _). by rewrite (np_size _ stage Hd), Hsh. Qed.

(** The round trip of one backend, on every dtype. *)
Lemma mx_roundtrip arr :
  match mx_to_wire_dtype (mx_dtype arr) with
  | Ok wire => bytes_to_mx (mx_to_bytes arr) (mx_shape arr) wire = Ok arr
  | Raise e => e = ValueError
  end.
Proof.
  destruct (mx_to_wire_dtype (mx_dtype arr)) as [wire|e] eqn:E; [|by apply no_wire_code in E as [-> _]].
  destruct (wire_code _ _ E) as (stage & Hs & Hg & _). destruct (staged_spec arr stage Hs) as (Hd & Hsh & -> & Hv).
  unfold bytes_to_mx. rewrite Hg. cbn [or_raise mbind result_bind].
  pose proof (np_rebuild (staged arr) stage Hd) as Hr. rewrite Hsh in Hr.
  destruct (np_frombuffer _ stage) as [flat|e]; [|done]. cbn [mbind result_bind] in Hr |- *. rewrite Hr. cbn [mbind result_bind].
  by rewrite mx_array_np, Hv.
Qed.

(** C33: MLX tensors survive the wire. An array whose dtype has a wire code and
    whose shape and size fit the descriptor is rebuilt exactly from its bytes
    and its descriptor; an array of any other dtype is refused with ValueError
    before anything is sent. *)
Theorem mlx_tensors_sendable arr :
  if is_ok (mx_to_wire_dtype (mx_dtype arr)) then
    forallb in_i64 (mx_shape arr) = true -> in_u64 (Z.of_nat (length (mx_to_bytes arr))) = true -> sendable arr
  else descriptor arr = Raise ValueError.
Proof.
  pose proof (mx_roundtrip arr) as Hr. unfold sendable, descriptor. cbn [dtype_to_wire mlx_wire tensor_to_bytes tensor_shape bytes_to_tensor].
  destruct (mx_to_wire_dtype (mx_dtype arr)) as [wire|e] eqn:E; cbn [is_ok mbind result_bind]; [|by subst].
  intros Hsh Hsz. destruct (wire_code _ _ E) as (stage & _ & _ & Hw). eexists. split; [reflexivity|]. split; [|exact Hr].
  unfold tensor_ok. cbn [td_shape td_dtype td_quant td_byte_count]. rewrite Hsh, Hsz. unfold in_u32, QUANT_NONE. lia.
Qed.

Context {P : Type} `{TorchLib P} `{!TorchLaws P}.
Implicit Types (t : P).

(** The same numbers in torch, for the dtypes both backends have. *)
Definition torch_of (dt : MxDtype) : option TorchDtype :=
  match dt with
  | mx_float32 => Some th_float32
  | mx_float16 => Some th_float16
  | mx_bfloat16 => Some th_bfloat16
  | _ => None
  end.

Lemma torch_code wire dt stage : dict_get wire DTYPE_MAP = Some (dt, stage, stage_size stage) ->
  match torch_of dt with
  | Some dt' => wire_to_torch_dtype wire = Ok dt' /\ torch_to_wire_dtype dt' = Ok wire /\ torch_itemsize dt' = stage_size stage
  | None => wire_to_torch_dtype wire = Raise ValueError
  end.
Proof.
  intros Hg. destruct (code_of _ _ _ _ Hg) as (Hc & Hs & _).
  destruct dt; cbn in Hc; try done; injection Hc as <-; cbn in Hs; injection Hs as <-; by split_and?.
Qed.

Lemma torch_wire_code dt wire : torch_to_wire_dtype dt = Ok wire ->
  exists mxt stage, dict_get wire DTYPE_MAP = Some (mxt, stage, stage_size stage) /\ torch_of mxt = Some dt.
Proof.
  destruct dt; cbn; intros [= <-]; [exists mx_bfloat16, np_uint16|exists mx_float16, np_float16|exists mx_float32, np_float32]; done.
Qed.

(** What torch reads of the bytes of an array. *)
Lemma torch_reads arr dt raw : Z.of_nat (length raw) = elements (mx_shape arr) * torch_itemsize dt -> elements (mx_shape arr) <> 0 ->
  exists flat t, th_frombuffer raw dt = Ok flat /\ th_reshape flat (mx_shape arr) = Ok t /\
    th_dtype t = dt /\ th_shape t = mx_shape arr /\ (viewable t = true -> th_bytes t = Ok raw).
Proof.
  intros Hlen Hne. apply th_read; [|apply mx_shape_pos|done]. intros ->. cbn in Hlen. destruct dt; cbn in Hlen; lia.
Qed.

(** A tensor of one of the three dtypes sends its bytes, if it has dimensions. *)
Lemma torch_sends t wire raw : 2 <= torch_itemsize (th_dtype t) -> torch_to_wire_dtype (th_dtype t) = Ok wire ->
  (viewable t = true -> th_bytes t = Ok raw) ->
  torch_send (th_to_device t) = if decide (th_shape t = []) then Raise RuntimeError
    else Ok (mkTensor (th_shape t) wire QUANT_NONE (Z.of_nat (length raw)), raw).
Proof.
  intros Hsz Hw Hraw. unfold torch_send, torch_to_bytes. rewrite th_device_bytes, th_device_dtype, th_device_shape, Hw.
  assert (viewable t = negb (bool_decide (th_shape t = []))) as Hv.
  { unfold viewable. assert ((torch_itemsize (th_dtype t) =? 1) = false) as -> by lia. by rewrite orb_false_r. }
  case_decide as Hs.
  - by rewrite th_scalar by (by rewrite Hv, bool_decide_eq_true_2).
  - by rewrite Hraw by (by rewrite Hv, bool_decide_eq_false_2).
Qed.

(** What MLX makes of the bytes of a tensor, and sends again. *)
Lemma mx_relays raw shape wire mxt stage : dict_get wire DTYPE_MAP = Some (mxt, stage, stage_size stage) ->
  Forall (Z.le 0) shape -> Z.of_nat (length raw) = elements shape * stage_size stage ->
  exists arr, bytes_to_mx raw shape wire = Ok arr /\ mx_dtype arr = mxt /\ mx_shape arr = shape /\ mx_to_bytes arr = raw.
Proof.
  intros Hg Hp Hl. destruct (code_of _ _ _ _ Hg) as (Hcode & Hst & _). destruct (np_read raw stage shape Hp Hl) as (arr & Hrd & Hdt & Hsh & Hby).
  unfold bytes_to_mx. rewrite Hg. cbn [or_raise mbind result_bind].
  destruct (np_frombuffer _ stage) as [flat|e]; [|done]. cbn [mbind result_bind] in Hrd |- *. rewrite Hrd. cbn [mbind result_bind].
  rewrite mx_array_np. eexists. split; [reflexivity|]. case_decide as Hb.
  - subst mxt. injection Hst as <-. cbn [stage_dtype] in Hdt. split_and!; [apply view_dtype; [by right|by left]| |].
    + rewrite view_shape; [done|by right|by left].
    + unfold mx_to_bytes. rewrite view_dtype, decide_True; [|done|by right|by left]. rewrite <- Hdt, view_back; [done|by right|by left].
  - assert (mx_dtype arr = mxt) as Hm by (rewrite Hdt; destruct mxt; by simplify_eq/=).
    split_and!; [done..|]. unfold mx_to_bytes. by rewrite Hm, decide_False.
Qed.

(** C12: a cluster of both backends. An array of MLX in one of the three
    floating-point dtypes reaches a PyTorch node as a tensor of the same dtype
    and shape, which the node sends on with the same descriptor and bytes, so
    that digests agree; but an array without elements is refused there with
    ValueError, and one without dimensions is received and cannot be sent on
    (RuntimeError). The integer dtypes of MLX, which PyTorch does not map, are
    refused with ValueError. Whatever a PyTorch node sends reaches an MLX node
    with its dtype, and is sent on unchanged. *)
Theorem heterogeneous_tensors :
  (forall arr d, descriptor arr = Ok d ->
     let received := backend_bytes_to_torch (tensor_to_bytes arr) (td_shape d) (td_dtype d) in
     match torch_of (mx_dtype arr) with
     | Some dt =>
         if decide (elements (mx_shape arr) = 0) then received = Raise ValueError
         else exists t, received = Ok t /\ th_dtype t = dt /\ th_shape t = mx_shape arr /\
           torch_send t = if decide (mx_shape arr = []) then Raise RuntimeError else Ok (d, tensor_to_bytes arr)
     | None => received = Raise ValueError
     end) /\
  (forall t d raw, torch_send t = Ok (d, raw) ->
     exists arr, bytes_to_tensor raw (td_shape d) (td_dtype d) = Ok arr /\
       torch_of (mx_dtype arr) = Some (th_dtype t) /\ descriptor arr = Ok d /\ tensor_to_bytes arr = raw).
Proof.
  unfold descriptor. cbn [dtype_to_wire mlx_wire tensor_to_bytes tensor_shape bytes_to_tensor]. split.
  - intros arr d Hd. apply bind_ok in Hd as (wire & E & [= <-]). cbn [td_dtype td_shape].
    destruct (wire_code _ _ E) as (stage & Hs & Hg & _). pose proof (torch_code _ _ _ Hg) as Hc. unfold backend_bytes_to_torch, bytes_to_torch.
    destruct (torch_of (mx_dtype arr)) as [dt|]; [|by rewrite Hc]. destruct Hc as (-> & Hto & Hsz). cbn [mbind result_bind].
    pose proof (mx_bytes_size arr stage Hs) as Hlen. rewrite <- Hsz in Hlen. case_decide as He.
    + rewrite He in Hlen. destruct (mx_to_bytes arr); [by rewrite th_empty|discriminate Hlen].
    + destruct (torch_reads arr dt _ Hlen He) as (flat & t & -> & Hr & <- & Hsh & Hraw). cbn [mbind result_bind]. rewrite Hr.
      exists (th_to_device t). split; [done|]. rewrite th_device_dtype, th_device_shape. split; [done|]. split; [done|]. rewrite <- Hsh.
      apply torch_sends; [|done|done]. rewrite Hsz. destruct (th_dtype t); try done; by destruct stage.
  - intros t d raw Hd. unfold torch_send in Hd. apply bind_ok in Hd as (raw' & Hraw & Hd).
    apply bind_ok in Hd as (wire & E & [= <- ->]). cbn [td_dtype td_shape].
    destruct (torch_wire_code _ _ E) as (mxt & stage & Hg & Hof). pose proof (torch_code _ _ _ Hg) as Hc. rewrite Hof in Hc.
    destruct Hc as (_ & _ & Hsz). destruct (viewable t) eqn:Ev; [|unfold torch_to_bytes in Hraw; by rewrite th_scalar in Hraw].
    destruct (th_viewed t Ev) as (raw' & Hb & Hl). unfold torch_to_bytes in Hraw. rewrite Hb in Hraw. injection Hraw as ->. rewrite Hsz in Hl.
    destruct (mx_relays raw (th_shape t) wire mxt stage Hg (th_shape_pos t) Hl) as (arr & Ha & Hm & Hsh & Hby).
    exists arr. rewrite Ha, Hm, Hsh, Hby. destruct (code_of _ _ _ _ Hg) as (-> & _). done.
Qed.

End roundtrip.

(** ** Buffers: arrays that are a dtype, a shape and the bytes of their elements *)

Section buffers.
Context {D : Type} `{EqDecision D} (size : D -> Z).

Definition buffer_ok (dt : D) (shape : list Z) (data : bytes) : bool :=
  forallb (Z.leb 0) shape && (Z.of_nat (length data) =? elements shape * size dt).
Record buffer : Type := mkBuffer { b_dt : D; b_shape : list Z; b_data : bytes; b_ok : buffer_ok b_dt b_shape b_data = true }.

Lemma buffer_eq (b c : buffer) : b_dt b = b_dt c -> b_shape b = b_shape c -> b_data b = b_data c -> b = c.
Proof.
  destruct b as [dt sh da p], c as [dt' sh' da' p']. cbn. intros -> -> ->. f_equal. apply (Eqdep_dec.UIP_dec bool_dec).
Qed.

(** An array of the bytes, where their number fits. *)
Definition buffer_of (dt : D) (shape : list Z) (data : bytes) : result buffer :=
  match bool_dec (buffer_ok dt shape data) true with
  | left p => Ok (mkBuffer dt shape data p)
  | right _ => Raise ValueError
  end.

Lemma buffer_of_ok dt shape data : buffer_ok dt shape data = true ->
  exists b, buffer_of dt shape data = Ok b /\ b_dt b = dt /\ b_shape b = shape /\ b_data b = data.
Proof. intros Hb. unfold buffer_of. destruct (bool_dec _ _) as [p|]; [by eexists|done]. Qed.

Definition read_flat (data : bytes) (dt : D) : result buffer := buffer_of dt [Z.of_nat (length data) / size dt] data.
Definition reshape (b : buffer) (shape : list Z) : result buffer := buffer_of (b_dt b) shape (b_data b).
(** Another dtype for the same bytes. *)
Definition view_as (dt : D) (b : buffer) : buffer :=
  match buffer_of dt (b_shape b) (b_data b) with
  | Ok c => c
  | Raise _ => b
  end.

Hypothesis size_pos : forall dt, 0 < size dt.

Lemma buffer_shape_pos b : Forall (Z.le 0) (b_shape b).
Proof.
  destruct b as [dt sh da p]. cbn. apply andb_true_iff in p as [p _]. apply Forall_forall. intros x Hx.
  rewrite forallb_forall in p. apply Z.leb_le, p. by apply list_elem_of_In.
Qed.

Lemma buffer_size b : Z.of_nat (length (b_data b)) = elements (b_shape b) * size (b_dt b).
Proof. destruct b as [dt sh da p]. cbn. apply andb_true_iff in p as [_ p]. by apply Z.eqb_eq. Qed.

Lemma shapes_ok dt shape data : Forall (Z.le 0) shape -> Z.of_nat (length data) = elements shape * size dt -> buffer_ok dt shape data = true.
Proof.
  intros Hp Hl. unfold buffer_ok. rewrite Hl, Z.eqb_refl, andb_true_r. apply forallb_forall. intros x Hx.
  apply Z.leb_le. rewrite Forall_forall in Hp. by apply Hp, list_elem_of_In.
Qed.

Lemma read_ok dt shape data : Forall (Z.le 0) shape -> Z.of_nat (length data) = elements shape * size dt ->
  exists flat b, read_flat data dt = Ok flat /\ reshape flat shape = Ok b /\ b_dt b = dt /\ b_shape b = shape /\ b_data b = data.
Proof using size_pos.
  intros Hp Hl. pose proof (size_pos dt) as Hs.
  destruct (buffer_of_ok dt [Z.of_nat (length data) / size dt] data) as (flat & Hf & Hd & _ & Hda).
  { apply shapes_ok; [repeat constructor; apply Z.div_pos; lia|]. cbn. rewrite Hl, Z.div_mul by lia. lia. }
  destruct (buffer_of_ok dt shape data (shapes_ok _ _ _ Hp Hl)) as (b & Hb & Hrest).
  exists flat, b. split; [exact Hf|]. split; [|done]. unfold reshape. by rewrite Hd, Hda.
Qed.

Lemma view_as_ok dt b : size dt = size (b_dt b) -> b_dt (view_as dt b) = dt /\ b_shape (view_as dt b) = b_shape b /\ b_data (view_as dt b) = b_data b.
Proof.
  intros Hs. unfold view_as. destruct (buffer_of_ok dt (b_shape b) (b_data b)) as (c & -> & Hc); [|done].
  apply shapes_ok; [apply buffer_shape_pos|]. by rewrite Hs, buffer_size.
Qed.

End buffers.

Definition mx_itemsize (dt : MxDtype) : Z :=
  match dt with
  | mx_bool | mx_uint8 | mx_int8 => 1
  | mx_uint16 | mx_int16 | mx_float16 | mx_bfloat16 => 2
  | mx_uint32 | mx_int32 | mx_float32 => 4
  | mx_uint64 | mx_int64 | mx_float64 | mx_complex64 => 8
  end.

#[local] Instance buffer_mx : MxLib (buffer mx_itemsize) (buffer mx_itemsize) := {
  mx_dtype := b_dt mx_itemsize;
  mx_shape := b_shape mx_itemsize;
  mx_view := view_as mx_itemsize;
  np_array a := a;
  mx_array a := a;
  np_tobytes := b_data mx_itemsize;
  np_frombuffer raw stage := read_flat mx_itemsize raw (stage_dtype stage);
  np_reshape := reshape mx_itemsize;
}.

Lemma mx_itemsize_pos dt : 0 < mx_itemsize dt.
Proof. by destruct dt. Qed.

Lemma stage_itemsize stage : mx_itemsize (stage_dtype stage) = stage_size stage.
Proof. by destruct stage. Qed.

Lemma alike_itemsize dt dt' : staged_alike dt -> staged_alike dt' -> mx_itemsize dt = mx_itemsize dt'.
Proof. by intros [->| ->] [->| ->]. Qed.

#[local] Instance buffer_mx_laws : MxLaws (buffer mx_itemsize) (buffer mx_itemsize).
Proof.
  split; cbn [mx_dtype mx_shape mx_view np_array mx_array np_tobytes np_frombuffer np_reshape buffer_mx].
  - intros a stage Hd. by rewrite buffer_size, Hd, stage_itemsize.
  - intros raw stage shape Hp Hl. rewrite <- stage_itemsize in Hl.
    destruct (read_ok mx_itemsize mx_itemsize_pos _ _ _ Hp Hl) as (flat & b & Hf & Hr & Hrest). exists b. by rewrite Hf.
  - intros a stage Hd. destruct (read_ok mx_itemsize mx_itemsize_pos (stage_dtype stage) (b_shape _ a) (b_data _ a)) as (flat & b & Hf & Hr & H1' & H2' & H3').
    { apply buffer_shape_pos. }
    { by rewrite buffer_size, Hd. }
    rewrite Hf. cbn [mbind result_bind]. rewrite Hr. f_equal. apply buffer_eq; congruence.
  - done.
  - intros a dt Ha Hd. by apply view_as_ok, alike_itemsize.
  - intros a dt Ha Hd. by apply view_as_ok, alike_itemsize.
  - intros a dt Ha Hd. destruct (view_as_ok mx_itemsize dt a) as (H1' & H2' & H3'); [by apply alike_itemsize|].
    destruct (view_as_ok mx_itemsize (b_dt _ a) (view_as mx_itemsize dt a)) as (G1 & G2 & G3); [rewrite H1'; by apply alike_itemsize|].
    apply buffer_eq; congruence.
  - apply buffer_shape_pos.
Qed.

#[local] Instance buffer_torch : TorchLib (buffer torch_itemsize) := {
  th_dtype := b_dt torch_itemsize;
  th_shape := b_shape torch_itemsize;
  th_bytes t := if bool_decide (b_shape _ t = []) && negb (torch_itemsize (b_dt _ t) =? 1) then Raise RuntimeError else Ok (b_data torch_itemsize t);
  th_frombuffer raw dt := match raw with [] => Raise ValueError | _ => read_flat torch_itemsize raw dt end;
  th_reshape := reshape torch_itemsize;
  th_to_device t := t;
}.

Lemma buffer_bytes (t : buffer torch_itemsize) : th_bytes t = if viewable t then Ok (b_data torch_itemsize t) else Raise RuntimeError.
Proof. unfold viewable. cbn. by destruct (bool_decide _), (torch_itemsize _ =? 1). Qed.

#[local] Instance buffer_torch_laws : TorchLaws (buffer torch_itemsize).
Proof.
  split; try done.
  - intros raw dt shape Hne Hp Hl. destruct raw as [|x raw]; [done|].
    destruct (read_ok torch_itemsize ltac:(by intros []) _ _ _ Hp Hl) as (flat & t & Hf & Hr & Hd & Hs & Hda). exists flat, t.
    split_and!; [exact Hf|exact Hr|exact Hd|exact Hs|]. intros Hv. by rewrite buffer_bytes, Hv, Hda.
  - intros t Hv. rewrite buffer_bytes, Hv. eexists. split; [reflexivity|]. apply buffer_size.
  - intros t Hv. by rewrite buffer_bytes, Hv.
  - apply buffer_shape_pos.
Qed.

(** A state of two positions in bfloat16, and a packed weight. *)
Definition demo_state : buffer mx_itemsize := mkBuffer mx_itemsize mx_bfloat16 [1; 2; 1] [x3f; x80; x40; x00] eq_refl.
Definition demo_packed : buffer mx_itemsize := mkBuffer mx_itemsize mx_uint32 [1] [x01; x02; x03; x04] eq_refl.

Lemma mlx_tensors_sendable_witness : sendable demo_state.
Proof. exact (mlx_tensors_sendable demo_state eq_refl eq_refl). Defined.

Definition demo_scalar : buffer mx_itemsize := mkBuffer mx_itemsize mx_float32 [] [x01; x02; x03; x04] eq_refl.

Lemma heterogeneous_tensors_witness :
  (exists t : buffer torch_itemsize, backend_bytes_to_torch (mx_to_bytes demo_state) [1; 2; 1] 3 = Ok t /\
    torch_send t = Ok (mkTensor [1; 2; 1] 3 QUANT_NONE 4, mx_to_bytes demo_state)) /\
  backend_bytes_to_torch (P := buffer torch_itemsize) (mx_to_bytes demo_packed) [1] 7 = Raise ValueError /\
  (exists t : buffer torch_itemsize, backend_bytes_to_torch (mx_to_bytes demo_scalar) [] 1 = Ok t /\ torch_send t = Raise RuntimeError).
Proof.
  destruct (heterogeneous_tensors (A := buffer mx_itemsize) (P := buffer torch_itemsize)) as [Hto _]. split_and!.
  - destruct (Hto demo_state _ eq_refl) as (t & Ht & _ & _ & Hb). exists t. split; [exact Ht|exact Hb].
  - exact (Hto demo_packed _ eq_refl).
  - destruct (Hto demo_scalar _ eq_refl) as (t & Ht & _ & _ & Hb). exists t. split; [exact Ht|exact Hb].
Defined.
