(* ===== verification/NodeView.v ===== *)
(** * The node's ownership view follows the gossip

    A node keeps two views of who owns what: its runner's, fed by gossip alone,
    and its own, which starts from the shard map and is what routing, eviction
    and provenance ask.  For every other shard the second is the first, on top
    of the shard map. *)
From S2P Require Import Prelude PyDict PyFloat PyList PyRandom Records SwimState.
From S2P Require Import Wire Messages Ownership Runner RunnerTheorems ShardMap Trackers Experts Effects.
From S2P Require Import Migration MigrationTheorems.
Open Scope Z_scope.

(** What can happen to the holdings of a node. *)
Inductive own_op {C : Type} : Type :=
| Gossip (m : IncomingMessage)
| Attach (layer_idx expert_id : Z) (tensors : list C)
| Detach (layer_idx expert_id : Z)
| Scan (rpc_pull : string -> Z -> Z -> result (list C)).
Arguments own_op : clear implicits.

Section view.
Context {C R : Type} `{StackLib C} `{RandomSource R}.
Context (self : ShardSpec) (evict_cooldown : float) (clock : nat -> float).
Context (policy : MigrationPolicy) (set_order : forall A : Type, list A -> list A).
Abbreviation State := (OwnNode C R).
Implicit Types (o : State) (P : State -> Prop).

Definition own_step (op : own_op C) : eff State unit :=
  match op with
  | Gossip m => deliver_gossip m
  | Attach l e ts => migration_attach self clock l e ts
  | Detach l e => migration_detach self evict_cooldown clock l e
  | Scan pull => scan_once self evict_cooldown clock policy set_order pull
  end.

(** The operations one after the other, whatever each raises. *)
Definition own_exec (ops : list (own_op C)) o : State := foldl (fun o op => (own_step op o).2) o ops.

(** ** Properties of the view and the runner alone *)

Definition about_view P : Prop :=
  forall o o', o_view o' = o_view o -> o_membership o' = o_membership o -> P o -> P o'.

(** Closed under what the node publishes about itself. *)
Record about_others P : Prop := {
  ao_view : about_view P;
  ao_put : forall l e a ts o, P o -> P (set_view (apply_ownership (mkOwner (ss_shard_id self) l e a ts) (o_view o)).2 o);
  ao_add : forall l e t o, P o -> P (set_runner (announce_ownership_add l e DEFAULT_OWNERSHIP_TTL t <$> o_membership o) o);
  ao_remove : forall l e t o, P o -> P (set_runner (announce_ownership_remove l e DEFAULT_OWNERSHIP_TTL t <$> o_membership o) o);
}.

Section keep.
Context P (HP : about_others P).

Lemma keep_modify f : (forall o, o_view (f o) = o_view o /\ o_membership (f o) = o_membership o) -> keeps P (modify f).
Proof. intros Hf. apply keeps_modify. intros o. destruct (Hf o). by apply (ao_view _ HP). Qed.

Lemma keep_clock : keeps P (read_clock clock).
Proof. intros o. by apply (ao_view _ HP). Qed.

Lemma keep_now : keeps P (now_ms clock).
Proof. apply keeps_bind; [apply keep_clock|]. intros t. apply keeps_lift. Qed.

Lemma keep_put l e a ts : keeps P (ownership_view_put (ss_shard_id self) l e a ts).
Proof. apply keeps_modify. intros o. apply (ao_put _ HP). Qed.

Lemma keep_add l e : keeps P (announce_add clock l e).
Proof. apply announce_keeps; [apply keep_now|]. apply (ao_add _ HP). Qed.

Lemma keep_remove l e : keeps P (announce_remove clock l e).
Proof. apply announce_keeps; [apply keep_now|]. apply (ao_remove _ HP). Qed.

Lemma keep_model {A} (f : LoadedModel C -> result A * LoadedModel C) : keeps P (on_model f).
Proof. apply keeps_focus. intros o. by apply (ao_view _ HP). Qed.

#[local] Hint Resolve keep_clock keep_now keep_put keep_add keep_remove keep_model : keeps.
#[local] Hint Extern 2 (keeps P (modify _)) => (apply keep_modify; intros ?; done) : keeps.
#[local] Hint Extern 3 (keeps P (fun o => (_, o))) => (intros ? ?; assumption) : keeps.

Lemma keep_attach l e ts : keeps P (migration_attach self clock l e ts).
Proof. unfold migration_attach. keeps_all. Qed.

Lemma keep_detach l e : keeps P (migration_detach self evict_cooldown clock l e).
Proof. unfold migration_detach. keeps_all. Qed.

#[local] Hint Resolve keep_attach keep_detach : keeps.

Lemma keep_evict now layers : keeps P (evict_first self evict_cooldown clock policy set_order now layers).
Proof. induction layers as [|l layers IH]; cbn [evict_first]; keeps_all. Qed.

#[local] Hint Resolve keep_evict : keeps.

Lemma keep_scan pull : keeps P (scan_once self evict_cooldown clock policy set_order pull).
Proof.
  unfold scan_once, maybe_pull_one, maybe_evict_one. keeps_all.
  intros o. by apply (ao_view _ HP).
Qed.

End keep.

End view.

(** ** The two views *)

(** The entry of the shard map and that of the gossip. *)
Definition merged (seed gossip : option own_entry) : option own_entry :=
  match gossip with
  | None => seed
  | Some d => newest seed d
  end.

Lemma apply_get od k (v : own_map) :
  dict_get k (apply_ownership od v).2 =
  if decide (key_of_delta od = k) then newest (dict_get k v) (entry_of_delta od) else dict_get k v.
Proof.
  unfold apply_ownership, newest. case_decide as Hk.
  - subst k. cbn. destruct (supersedes _ _) eqn:Es; cbn; [apply dict_get_set_eq|done].
  - destruct (supersedes _ _); cbn; [|done]. by rewrite dict_get_set_ne.
Qed.

(** A delta the runner applies has the same effect on the merge. *)
Lemma merged_newer s r (d : own_entry) : supersedes d.2 r = true -> newest (merged s r) d = merged s (Some d).
Proof.
  destruct r as [[a t]|]; [|done]. cbn. intros Ht. unfold newest. cbn.
  destruct s as [[a0 t0]|]; cbn; [|by rewrite Ht].
  destruct (Z.ltb_spec t0 t); cbn; [rewrite Ht|done]. by rewrite (proj2 (Z.ltb_lt t0 d.2)) by lia.
Qed.

Lemma relayed_agree k s ods (own nv : own_map) :
  dict_get k nv = merged s (dict_get k own) ->
  let '(applied, own') := apply_ownerships ods own in
  dict_get k (foldl (fun v od => (apply_ownership od v).2) nv applied) = merged s (dict_get k own').
Proof.
  revert own nv. induction ods as [|od ods IH]; intros own nv Ha; [done|]. cbn [apply_ownerships].
  unfold apply_ownership at 1. destruct (supersedes _ _) eqn:Es.
  - specialize (IH (dict_set (key_of_delta od) (entry_of_delta od) own) (apply_ownership od nv).2).
    destruct (apply_ownerships ods _) as [rest own']. cbn [foldl]. apply IH. rewrite apply_get, dict_get_set.
    destruct (decide (key_of_delta od = k)) as [Hk|Hk].
    + rewrite decide_True by done. rewrite Ha. apply merged_newer. by rewrite <- Hk.
    + by rewrite decide_False by congruence.
  - specialize (IH own nv Ha). by destruct (apply_ownerships ods own) as [rest own'].
Qed.

Section follow.
Context {C R : Type} `{StackLib C} `{RandomSource R}.
Context (self : ShardSpec) (evict_cooldown : float) (clock : nat -> float).
Context (policy : MigrationPolicy) (set_order : forall A : Type, list A -> list A).
Abbreviation State := (OwnNode C R).
Implicit Types (o : State).

Record agrees (seed : own_map) o : Prop := {
  ag_wf : dict_wf (o_view o);
  ag_runner : exists r, o_membership o = Some r /\ ps_shard_id (r_self r) = ss_shard_id self /\
    r_ownership_observers r = 1%nat /\
    forall k, k.1.1 <> ss_shard_id self -> dict_get k (o_view o) = merged (dict_get k seed) (dict_get k (r_ownership r));
}.

Lemma agrees_runner seed o (f : MembershipRunner R -> MembershipRunner R) :
  (forall r, r_self (f r) = r_self r /\ r_ownership_observers (f r) = r_ownership_observers r) ->
  (forall r k, ps_shard_id (r_self r) = ss_shard_id self -> k.1.1 <> ss_shard_id self ->
     dict_get k (r_ownership (f r)) = dict_get k (r_ownership r)) ->
  agrees seed o -> agrees seed (set_runner (f <$> o_membership o) o).
Proof.
  intros Hf Hg [Hw (r & Hr & Hid & Hn & Hk)]. split; [done|]. exists (f r). destruct (Hf r) as [-> ->]. cbn. rewrite Hr.
  split; [done|]. split; [done|]. split; [done|]. intros k Hne. by rewrite Hg, Hk.
Qed.

Lemma agrees_others seed : about_others self (agrees seed).
Proof.
  split.
  - intros o o' Hv Hm [Hw Hr]. split; by rewrite ?Hv, ?Hm.
  - intros l e a ts o [Hw (r & Hr & Hid & Hn & Hk)]. split; [by apply apply_ownership_wf|].
    exists r. split; [done|]. split; [done|]. split; [done|]. intros k Hne. cbn. rewrite apply_get, decide_False; [auto|].
    intros Heq. apply Hne. by rewrite <- Heq.
  - intros l e t o. apply agrees_runner; [done|]. intros r k Hid Hne. cbn. rewrite apply_get, decide_False; [done|].
    intros Heq. apply Hne. rewrite <- Heq. exact Hid.
  - intros l e t o. apply agrees_runner; [done|]. intros r k Hid Hne. cbn. apply dict_get_set_ne.
    intros Heq. apply Hne. rewrite Heq. exact Hid.
Qed.

Lemma relay_loop (applied : list OwnershipDeltaRecord) o :
  for_each (od ← applied; (fun i => (i, od)) <$> seq 0 1) (fun c => on_gossip_ownership_delta c.2) o =
  (Ok tt, set_view (foldl (fun v od => (apply_ownership od v).2) (o_view o) applied) o).
Proof.
  revert o. induction applied as [|od applied IH]; intros o; [by destruct o|].
  change (for_each _ _ o) with ((_ ← on_gossip_ownership_delta od;
    for_each (od ← applied; (fun i => (i, od)) <$> seq 0 1) (fun c => on_gossip_ownership_delta c.2)) o).
  unfold on_gossip_ownership_delta at 1. run. rewrite IH. by destruct od.
Qed.

Lemma fold_apply_wf (applied : list OwnershipDeltaRecord) (v : own_map) :
  dict_wf v -> dict_wf (foldl (fun v od => (apply_ownership od v).2) v applied).
Proof. revert v. induction applied as [|od applied IH]; intros v Hv; [done|]. by apply IH, apply_ownership_wf. Qed.

Lemma gossip_agrees seed m : keeps (agrees seed) (deliver_gossip m).
Proof.
  intros o [Hw (r & Hr & Hid & Hn & Hk)]. unfold deliver_gossip. rewrite Hr. unfold on_recv_decoded. rewrite Hn.
  pose proof (fun k s => relayed_agree k s (msg_ownership m) (r_ownership r) (o_view o)) as Hrel.
  destruct (apply_ownerships (msg_ownership m) (r_ownership r)) as [applied own]. rewrite relay_loop. cbn [snd].
  split; [by apply fold_apply_wf|]. eexists. split; [done|].
  split; [by case_decide|]. split; [by case_decide|]. intros k Hne.
  replace (r_ownership _) with own by (by case_decide). apply Hrel, Hk, Hne.
Qed.

Lemma own_exec_agrees seed ops o :
  agrees seed o -> agrees seed (own_exec self evict_cooldown clock policy set_order ops o).
Proof.
  unfold own_exec. revert o. induction ops as [|op ops IH]; intros o Ho; [done|]. cbn [foldl]. apply IH. clear IH.
  pose proof (agrees_others seed) as HP.
  destruct op as [m|l e ts|l e|pull]; cbn [own_step].
  - by apply gossip_agrees.
  - by apply (keep_attach self clock).
  - by apply (keep_detach self).
  - by apply (keep_scan self).
Qed.

(** C24: the node's view is the shard map corrected by the gossip. Whatever
    gossip a node receives and whatever it attaches, evicts and scans, for
    every other shard [owners_of] answers by the newest of the shard map's
    entry and the runner's, so what gossip makes converge, routing sees. *)
Theorem node_view_follows_gossip ops o r0 :
  o_membership o = Some r0 -> ps_shard_id (r_self r0) = ss_shard_id self -> r_ownership_observers r0 = 1%nat ->
  r_ownership r0 = [] -> dict_wf (o_view o) ->
  let o' := own_exec self evict_cooldown clock policy set_order ops o in
  exists r, o_membership o' = Some r /\
    forall w l e, w <> ss_shard_id self ->
      w ∈ owners_of l e (o_view o') <->
      exists ts, merged (dict_get (w, l, e) (o_view o)) (dict_get (w, l, e) (r_ownership r)) = Some (0, ts).
Proof.
  intros Hr Hid Hn Hown Hw o'.
  assert (Ha : agrees (o_view o) o').
  { apply own_exec_agrees. split; [done|]. exists r0. split; [done|]. split; [done|]. split; [done|].
    intros k _. by rewrite Hown. }
  destruct Ha as [Hw' (r & Hr' & _ & _ & Hk)]. exists r. split; [done|]. intros w l e Hne.
  rewrite <- (Hk (w, l, e) Hne). rewrite owners_of_in. split; intros [ts Hts]; exists ts.
  - by apply dict_in_get.
  - by apply dict_get_Some_in.
Qed.

End follow.

(** ** Witness: the node of [demo_own] with its runner, hearing that "b" dropped
    expert 1 and took expert 0 *)

Section view_witness.

#[local] Existing Instance demo_lib.

Definition gossip_own : OwnNode Z script :=
  set_runner (Some (register_ownership_observer runner_a)) demo_own.
Definition view_ops : list (own_op Z) :=
  [Gossip (carrying [mkOwner "b" 1 1 1 5]); Detach 1 0; Gossip (carrying [mkOwner "b" 1 0 0 7; mkOwner "b" 1 1 0 4]); Scan demo_pull].

Lemma node_view_follows_gossip_witness :
  let o' := own_exec demo_self (of_int 30) demo_clock demo_policy any_order view_ops gossip_own in
  owners_of 1 0 (o_view o') = ["c"; "b"] /\ owners_of 1 1 (o_view o') = [] /\
  exists r, o_membership o' = Some r /\
    forall w l e, w <> "a" -> w ∈ owners_of l e (o_view o') <->
      exists ts, merged (dict_get (w, l, e) (o_view gossip_own)) (dict_get (w, l, e) (r_ownership r)) = Some (0, ts).
Proof.
  split; [vm_compute; reflexivity|]. split; [vm_compute; reflexivity|].
  apply (node_view_follows_gossip demo_self (of_int 30) demo_clock demo_policy any_order view_ops gossip_own
    (register_ownership_observer runner_a)).
  - reflexivity.
  - vm_compute. reflexivity.
  - vm_compute. reflexivity.
  - vm_compute. reflexivity.
  - apply (bool_decide_unpack _). vm_compute. exact I.
Defined.

End view_witness.
