(* ===== verification/Engine.v ===== *)
(** * mlx_engine.py: running a range of layers

    [run_layers] goes through the layers of a shard: a split layer is left to
    the orchestrator, any other runs atomically and, with provenance on, adds
    its entry to the chain.  The KV cache is a list of slots that every layer
    call updates in place: the state of the computation.  The layers, their
    cache slots and the attention masks are the model library's
    ([TextModel]). *)
From S2P Require Import Prelude PyDict PyFloat PyList Wire Provenance Experts Effects.
Open Scope Z_scope.

Class TextModel (T M Slot : Type) := {
  (** [layer.layer_type == "full_attention"], for [tm.layers[i]] *)
  tm_full_attention : Z -> result bool;
  (** [tm.layer_idx_to_cache_idx[i]] *)
  tm_cache_idx : Z -> result Z;
  (** [layer(h, mask, c, per_layer_input=None)]: the output, and the slot afterwards *)
  tm_layer : Z -> T -> M -> Slot -> T * Slot;
  tm_first_full : Z;
  tm_first_sliding : Z;
  tm_window : Z;
  (** [create_attention_mask(h, c, window_size=...)] *)
  create_attention_mask : T -> option Slot -> option Z -> M;
}.

Abbreviation chain_t := (option (list ProvenanceEntry)).

(** [range(a, b)] *)
Definition range (a b : Z) : list Z := (fun i => a + i) <$> zrange (b - a).

Section engine.
Context {T M Slot : Type} `{TextModel T M Slot} (tensor_bytes : T -> bytes) (now : float).
Abbreviation Cache := (list Slot).

(** [cache[i] if i < len(cache) else None] *)
Definition slot_or_none (i : Z) (cache : Cache) : result (option Slot) :=
  if i <? Z.of_nat (length cache) then c ← py_nth cache i; Ok (Some c) else Ok None.

(** [make_masks]: the global and the sliding mask. *)
Definition make_masks (h : T) (cache : Cache) : result (M * M) :=
  full ← slot_or_none tm_first_full cache;
  sliding ← slot_or_none tm_first_sliding cache;
  Ok (create_attention_mask h full None, create_attention_mask h sliding (Some tm_window)).

Definition run_layer_atomic (layer_idx : Z) (h : T) (masks : M * M) : eff Cache T :=
  full ← lift (tm_full_attention layer_idx);
  idx ← lift (tm_cache_idx layer_idx);
  cache ← gets id;
  c ← lift (py_nth cache idx);
  let '(h, c) := tm_layer layer_idx h (if (full : bool) then masks.1 else masks.2) c in
  _ ← modify (fun cache => <[py_pos cache idx := c]> cache);
  mret h.

(** The OP_LAYER_ATOMIC entry of a layer, appended. *)
Definition record_layer (node_id : string) (i : Z) (h : T) (chain : chain_t) : result chain_t :=
  match chain with
  | None => Ok None
  | Some c =>
      let prev_hash := match last c with Some e => e_hash e | None => [] end in
      e ← build_entry node_id (mkOp OP_LAYER_ATOMIC i 0) (tensor_bytes h)
            (match prev_hash with [] => [] | _ => [prev_hash] end) now;
      Ok (Some (c ++ [e]))
  end.

Context (split_layers : list Z) (orchestrator : option (Z -> T -> M * M -> chain_t -> eff Cache (T * chain_t)))
  (node_id : string).

Definition run_layer (i : Z) (h : T) (masks : M * M) (chain : chain_t) : eff Cache (T * chain_t) :=
  if decide (i ∈ split_layers) then
    match orchestrator with
    | None => throw ValueError
    | Some run_split_layer => run_split_layer i h masks chain
    end
  else
    h ← run_layer_atomic i h masks;
    chain ← lift (record_layer node_id i h chain);
    mret (h, chain).

Fixpoint run_layer_list (layers : list Z) (h : T) (masks : M * M) (chain : chain_t) : eff Cache (T * chain_t) :=
  match layers with
  | [] => mret (h, chain)
  | i :: layers =>
      '(h, chain) ← run_layer i h masks chain;
      run_layer_list layers h masks chain
  end.

(** [run_layers] on [[start_layer, end_layer)] *)
Definition run_layers (start_layer end_layer : Z) (h : T) (masks : M * M) (chain : chain_t) : eff Cache (T * chain_t) :=
  run_layer_list (range start_layer end_layer) h masks chain.

(** [Node._run_my_layers] on the MLX path *)
Definition run_my_layers (start_layer end_layer : Z) (h : T) (chain : chain_t) : eff Cache (T * chain_t) :=
  masks ← ((fun cache => (make_masks h cache, cache)) : eff Cache (M * M));
  run_layers start_layer end_layer h masks chain.

End engine.

Lemma range_in a b x : x ∈ range a b <-> a <= x < b.
Proof.
  unfold range. rewrite list_elem_of_fmap. setoid_rewrite zrange_in. split; [intros (y & -> & ?); lia|].
  intros Hx. exists (x - a). lia.
Qed.

Lemma range_nodup a b : NoDup (range a b).
Proof. unfold range, zrange. apply NoDup_fmap; [intros x y ?; lia|]. apply NoDup_fmap; [intros x y ?; lia|]. apply NoDup_seq. Qed.

(** ** A chain on its way through the pipeline *)

Section travel.
Context (shard_lookup : string -> result (Z * Z)) (total_layers : Z)
  (split_layers_for_shard : string -> list Z) (live_owners_of : Z -> Z -> list string).
Abbreviation may := (authorized shard_lookup total_layers split_layers_for_shard live_owners_of).

(** The chain of a tensor that went through layers [0 .. n - 1], none of them
    split: the embedding, then one entry per layer, in order, each by a node
    that may run it; the last digest is that of the tensor. *)
Record travelled (n : Z) (out : bytes) (chain : list ProvenanceEntry) : Prop := {
  tr_range : 0 <= n <= 2 ^ 32;
  tr_ops : e_op <$> chain = Some (mkOp OP_EMBED 0 0) :: ((fun i => Some (mkOp OP_LAYER_ATOMIC i 0)) <$> zrange n);
  tr_may : Forall may chain;
  tr_ids : Forall (fun e => e_shard_id e = e_node_id e) chain;
  tr_tail : tail_ok chain (Some out);
}.

Lemma travelled_op n out chain i e : travelled n out chain -> chain !! i = Some e ->
  (i = O /\ e_op e = Some (mkOp OP_EMBED 0 0)) \/
  (exists l, 0 <= l < n /\ e_op e = Some (mkOp OP_LAYER_ATOMIC l 0)).
Proof.
  intros Ht Hi. assert (Hop : (e_op <$> chain) !! i = Some (e_op e)) by (by rewrite list_lookup_fmap, Hi).
  rewrite (tr_ops _ _ _ Ht) in Hop. destruct i as [|i]; cbn in Hop; [left; by injection Hop as <-|right].
  apply list_lookup_fmap_Some in Hop as (l & Hl & He). exists l. split; [|done].
  apply zrange_in. by eapply list_elem_of_lookup_2.
Qed.

Definition op_covers (o : option OpDescriptor) : option Z :=
  match o with
  | Some op => if bool_decide (opd_type op = OP_LAYER_ATOMIC) || bool_decide (opd_type op = OP_AGGREGATE)
               then Some (opd_layer op) else None
  | None => None
  end.

Lemma covers_ops chain : layers_covered chain = omap op_covers (e_op <$> chain).
Proof.
  unfold layers_covered. induction chain as [|e chain IH]; [done|]. rewrite fmap_cons. cbn [omap list_omap].
  by rewrite IH.
Qed.

Lemma atomic_ops_cover (l : list Z) : omap op_covers ((fun i => Some (mkOp OP_LAYER_ATOMIC i 0)) <$> l) = l.
Proof.
  induction l as [|i l IH]; [done|].
  change (i :: omap op_covers ((fun i => Some (mkOp OP_LAYER_ATOMIC i 0)) <$> l) = i :: l). by rewrite IH.
Qed.

Lemma travelled_covered n out chain : travelled n out chain -> layers_covered chain = zrange n.
Proof.
  intros Ht. rewrite covers_ops, (tr_ops _ _ _ Ht).
  change (omap op_covers ((fun i => Some (mkOp OP_LAYER_ATOMIC i 0)) <$> zrange n) = zrange n). apply atomic_ops_cover.
Qed.

(** Such a chain is valid: every node accepts it with the tensor. *)
Lemma travelled_valid n out chain : travelled n out chain ->
  validate_chain shard_lookup total_layers split_layers_for_shard live_owners_of chain (Some out) = Ok tt.
Proof.
  intros Ht. apply validate_chain_ok.
  assert (Hno : forall e t, e ∈ chain -> has_type t e = true -> t = OP_EMBED \/ t = OP_LAYER_ATOMIC).
  { intros e t [i Hi]%list_elem_of_lookup Hty. unfold has_type in Hty.
    destruct (travelled_op _ _ _ _ _ Ht Hi) as [[_ Ho]|(l & _ & Ho)]; rewrite Ho in Hty;
      apply bool_decide_eq_true in Hty; cbn in Hty; subst t; tauto. }
  split.
  - pose proof (tr_ops _ _ _ Ht) as Hops. destruct chain as [|e chain]; [done|]. injection Hops as Ho _.
    exists e, chain. split; [done|]. unfold has_type. by rewrite Ho.
  - intros i e Hi Hf. apply list_elem_of_lookup_2 in Hi. destruct (Hno _ _ Hi Hf); done.
  - split.
    + intros (e & He & Hf). destruct (Hno _ _ He Hf); done.
    + intros _ l l'. rewrite (travelled_covered _ _ _ Ht), !zrange_in. lia.
  - intros l t Hs Hne. destruct (entries_of t l chain) as [|e es] eqn:E; [done|].
    assert (e ∈ entries_of t l chain) as He by (rewrite E; left). apply list_elem_of_filter in He as [(op & Ho & Hty & _) He].
    destruct (Hno e t He) as [->| ->]; [unfold has_type; rewrite Ho; by apply bool_decide_eq_true|done|done].
  - intros e He. pose proof (tr_may _ _ _ Ht) as Hm. rewrite Forall_forall in Hm. by apply Hm.
  - apply (tr_tail _ _ _ Ht).
Qed.

(** It survives the wire. *)
Lemma travelled_wire n out chain : travelled n out chain ->
  exists pbs, mapR entry_to_pb chain = Ok pbs /\ forallb prov_pb_ok pbs = true /\ mapR entry_from_pb pbs = Ok chain.
Proof.
  intros Ht. assert (Hall : Forall (fun e => exists pb, entry_to_pb e = Ok pb /\ prov_pb_ok pb = true /\ entry_from_pb pb = Ok e) chain).
  { apply Forall_forall. intros e [i Hi]%list_elem_of_lookup.
    assert (Hs : e_shard_id e = e_node_id e) by (pose proof (tr_ids _ _ _ Ht) as Hf; by apply (Forall_lookup_1 _ _ _ _ Hf Hi)).
    assert (Hop : exists t l, e_op e = Some (mkOp t l 0) /\ in_u32 l = true).
    { destruct (travelled_op _ _ _ _ _ Ht Hi) as [[_ Ho]|(l & Hl & Ho)]; rewrite Ho; do 2 eexists; (split; [done|]); [done|].
      pose proof (tr_range _ _ _ Ht). unfold in_u32. lia. }
    destruct Hop as (t & l & Ho & Hl). destruct e as [sid nid ts hash parents op]. cbn in *. subst sid op.
    eexists. unfold entry_to_pb. cbn. unfold op_to_pb, u32, ranged. cbn. rewrite Hl. cbn. split; [done|].
    unfold prov_pb_ok. cbn. rewrite Hl. by destruct t. }
  clear Ht. induction Hall as [|e chain (pb & H1 & H2 & H3) _ (pbs & I1 & I2 & I3)]; [by exists []|].
  exists (pb :: pbs). cbn. by rewrite H1, I1, H2, I2, H3, I3.
Qed.

Context {T M Slot : Type} `{TextModel T M Slot} (tensor_bytes : T -> bytes) (now : float).

Lemma build_entry_ok node op out parents :
  in_u32 (opd_layer op) = true -> in_u32 (opd_expert op) = true ->
  exists e, build_entry node op out parents now = Ok e /\ e_op e = Some op /\ e_node_id e = node /\ e_shard_id e = node /\
    compute_hash (e_parents e) (e_node_id e) op out = Ok (e_hash e).
Proof.
  intros Hl Hx. unfold build_entry.
  assert (exists d, compute_hash parents node op out = Ok d) as [d Hd].
  { unfold compute_hash, hash_input, op_pack, pack_le32. rewrite Hl, Hx. by eexists. }
  rewrite Hd. eexists. split; [reflexivity|]. split; [reflexivity|]. split; [reflexivity|]. split; [reflexivity|]. exact Hd.
Qed.

Lemma zrange_succ n : 0 <= n -> zrange (n + 1) = zrange n ++ [n].
Proof.
  intros Hn. unfold zrange. rewrite Z2Nat.inj_add, Nat.add_1_r, seq_S, fmap_app by lia. cbn.
  by rewrite Z2Nat.id by lia.
Qed.

(** One atomic layer adds its entry. *)
Lemma record_layer_travelled node n out h chain :
  travelled n out chain -> n < 2 ^ 32 ->
  (forall e, e_node_id e = node -> e_op e = Some (mkOp OP_LAYER_ATOMIC n 0) -> may e) ->
  exists chain', record_layer tensor_bytes now node n h (Some chain) = Ok (Some chain') /\
    travelled (n + 1) (tensor_bytes h) chain'.
Proof.
  intros Ht Hn Hmay. unfold record_layer. set (parents := match _ with [] => _ | _ => _ end).
  pose proof (tr_range _ _ _ Ht).
  destruct (build_entry_ok node (mkOp OP_LAYER_ATOMIC n 0) (tensor_bytes h) parents) as (e & -> & Ho & Hid & Hsid & Hh);
    [unfold in_u32; cbn; lia|done|].
  eexists. split; [done|]. split; [lia| | | |].
  - rewrite fmap_app, (tr_ops _ _ _ Ht), zrange_succ, fmap_app by lia. cbn. by rewrite Ho.
  - apply Forall_app. split; [apply (tr_may _ _ _ Ht)|]. constructor; [by apply Hmay|done].
  - apply Forall_app. split; [apply (tr_ids _ _ _ Ht)|]. constructor; [by rewrite Hsid|done].
  - intros output [= <-]. exists e, (mkOp OP_LAYER_ATOMIC n 0). split; [apply last_snoc|done].
Qed.

Lemma range_empty a b : b <= a -> range a b = [].
Proof. intros Hab. unfold range, zrange. by rewrite Z2Nat.nonpos by lia. Qed.

Lemma range_cons a b : a < b -> range a b = a :: range (a + 1) b.
Proof.
  intros Hab. unfold range, zrange. replace (Z.to_nat (b - a)) with (S (Z.to_nat (b - (a + 1)))) by lia.
  cbn [seq fmap list_fmap]. f_equal; [lia|]. rewrite <- fmap_S_seq, <- !list_fmap_compose. apply list_fmap_ext.
  intros i x _. cbn. lia.
Qed.

Context (split_layers : list Z) (orchestrator : option (Z -> T -> M * M -> chain_t -> eff (list Slot) (T * chain_t)))
  (node : string).

(** A shard without split layers takes a travelled chain through its range. *)
Lemma run_layers_travelled n a b h masks chain cache h' c' cache' :
  (Z.to_nat (b - a) <= n)%nat -> a <= b <= 2 ^ 32 ->
  travelled a (tensor_bytes h) chain ->
  (forall i, a <= i < b -> (i ∉ split_layers) /\
     forall e, e_node_id e = node -> e_op e = Some (mkOp OP_LAYER_ATOMIC i 0) -> may e) ->
  run_layers tensor_bytes now split_layers orchestrator node a b h masks (Some chain) cache = (Ok (h', c'), cache') ->
  exists chain', c' = Some chain' /\ travelled b (tensor_bytes h') chain'.
Proof.
  unfold run_layers. revert a h chain cache. induction n as [|n IH]; intros a h chain cache Hn Hab Ht Hmay Hr;
    (destruct (decide (a = b)) as [->|Hne];
      [rewrite range_empty in Hr by lia; cbn in Hr; injection Hr as <- <- <-; by exists chain|]); [lia|].
  rewrite range_cons in Hr by lia. cbn [run_layer_list] in Hr. rewrite run_bind in Hr.
  destruct (Hmay a ltac:(lia)) as [Hns Ha]. unfold run_layer at 1 in Hr. rewrite decide_False in Hr by done.
  rewrite run_bind in Hr. destruct (run_layer_atomic a h masks cache) as [[h1|e] cache1]; [|done].
  destruct (record_layer_travelled node a (tensor_bytes h) h1 chain Ht ltac:(lia) Ha) as (chain1 & Hrec & Ht1).
  erewrite run_ok in Hr by (unfold lift; by rewrite Hrec). cbn in Hr.
  apply (IH (a + 1) h1 chain1 cache1); [lia|lia|done| |exact Hr]. intros i Hi. apply Hmay. lia.
Qed.

End travel.
