(* ===== verification/PtEngine.v ===== *)
(** * pytorch_engine.py: running a range of layers on PyTorch

    The layer types, the rotary embeddings of a step ([make_masks]) and the
    layer loop.  The decoder layers, the rotary embedding and the cache
    ([DynamicCache]) are the transformers library's; [TorchCacheLaws] states
    what its cache does: [get_seq_length()] is the length of the first layer's
    slot, and a layer extends its own slot by the tokens it is given. *)
From S2P Require Import Prelude PyDict PyFloat PyList Provenance Experts Effects Engine.
Open Scope Z_scope.

(** A decoder layer's [layer_type] and [self_attn.layer_type], where they are strings. *)
Record PtLayer : Type := mkPtLayer { pl_type : option string; pl_attn_type : option string }.

Class TorchModel (T Rot Mask Cache : Type) := {
  pt_layers : list PtLayer;
  (** [config.layer_types] of the text config; None without a config *)
  pt_config_types : option (list string);
  (** [rotary_emb(h, position_ids, layer_type)] *)
  rotary_emb : T -> list Z -> string -> Rot;
  (** [layer(hidden_states=h, ...)] of a layer, and the cache afterwards *)
  pt_layer : Z -> T -> Rot -> option Mask -> list Z -> Cache -> T * Cache;
  get_seq_length : Cache -> Z;
  (** [h.shape[1]] *)
  seq_len : T -> Z;
  fresh_cache : Cache;
}.

Section engine.
Context {T Rot Mask Cache : Type} `{TorchModel T Rot Mask Cache}.

(** [_resolve_layer_type] *)
Definition resolve_layer_type (layer_idx : Z) : result string :=
  layer ← py_nth pt_layers layer_idx;
  match pl_type layer, pl_attn_type layer with
  | Some lt, _ => Ok lt
  | None, Some lt => Ok lt
  | None, None =>
      let layer_types := default [] pt_config_types in
      if (0 <=? layer_idx) && (layer_idx <? Z.of_nat (length layer_types))
      then Ok (default "full_attention" (layer_types !! Z.to_nat layer_idx))
      else Ok "full_attention"
  end.

(** [torch.arange(cache_len, cache_len + seq_len)] *)
Definition position_ids (h : T) (cache : Cache) : list Z :=
  range (get_seq_length cache) (get_seq_length cache + seq_len h).

(** [sorted(set(layer_types))], or the one type of a model without a config *)
Definition string_le (a b : string) : bool :=
  match String.compare a b with Gt => false | _ => true end.
Definition unique_types : list string :=
  match sort_by string_le (remove_dups (default [] pt_config_types)) with
  | [] => ["full_attention"]
  | ts => ts
  end.

Abbreviation masks_t := (dict string Rot * option (dict string Mask))%type.

Definition make_masks (h : T) (cache : Cache) : masks_t :=
  (foldl (fun d lt => dict_set lt (rotary_emb h (position_ids h cache) lt) d) [] unique_types, None).

Definition run_layer_atomic (layer_idx : Z) (h : T) (masks : masks_t) : eff Cache T :=
  _ ← lift (py_nth pt_layers layer_idx);
  layer_type ← lift (resolve_layer_type layer_idx);
  cos_sin ← lift (or_raise KeyError (dict_get layer_type masks.1));
  let attention_mask := d ← masks.2; dict_get layer_type d in
  positions ← gets (position_ids h);
  ((fun cache => let '(out, cache) := pt_layer layer_idx h cos_sin attention_mask positions cache in (Ok out, cache)) : eff Cache T).

Fixpoint run_layer_list (is_split_layer : Z -> bool) (layers : list Z) (h : T) (masks : masks_t) : eff Cache T :=
  match layers with
  | [] => mret h
  | i :: layers =>
      if is_split_layer i then throw RuntimeError
      else h ← run_layer_atomic i h masks; run_layer_list is_split_layer layers h masks
  end.

(** [run_layers] *)
Definition run_layers (is_split_layer : Z -> bool) (start_layer end_layer : Z) (h : T) (masks : masks_t) : eff Cache T :=
  run_layer_list is_split_layer (range start_layer end_layer) h masks.

(** [Node._run_my_layers] on the PyTorch path: the provenance chain is not passed on. *)
Definition run_my_layers (split_layers : list Z) (start_layer end_layer : Z) (h : T) : eff Cache T :=
  masks ← gets (make_masks h);
  run_layers (fun i => bool_decide (i ∈ split_layers)) start_layer end_layer h masks.

(** One call after the other on the cache of a request. *)
Fixpoint serve_calls (split_layers : list Z) (start_layer end_layer : Z) (hs : list T) : eff Cache (list T) :=
  match hs with
  | [] => mret []
  | h :: hs =>
      out ← run_my_layers split_layers start_layer end_layer h;
      rest ← serve_calls split_layers start_layer end_layer hs;
      mret (out :: rest)
  end.

(** ** The masks serve every layer *)

(** The type of every layer is one of the config's. *)
Definition types_known : Prop :=
  forall i, 0 <= i < Z.of_nat (length pt_layers) -> exists lt, resolve_layer_type i = Ok lt /\ lt ∈ unique_types.

Lemma masks_get (f : string -> Rot) ts d lt :
  dict_get lt (foldl (fun d lt => dict_set lt (f lt) d) d ts) = if decide (lt ∈ ts) then Some (f lt) else dict_get lt d.
Proof.
  revert d. induction ts as [|t ts IH]; intros d; [done|]. cbn [foldl]. rewrite IH, dict_get_set.
  destruct (decide (lt ∈ ts)) as [Hin|Hn]; [by rewrite decide_True by (by right)|].
  destruct (decide (lt = t)) as [->|Hne]; [by rewrite decide_True by left|].
  rewrite decide_False; [done|]. by rewrite not_elem_of_cons.
Qed.

(** What a layer is given in a step whose rotary embeddings were made for [h0]
    on the cache [c0], when its own turn comes on [cache]. *)
Definition layer_call (h0 : T) (c0 : Cache) (i : Z) (st : T * Cache) : T * Cache :=
  let lt := ok_or "" (resolve_layer_type i) in
  pt_layer i st.1 (rotary_emb h0 (position_ids h0 c0) lt) None (position_ids st.1 st.2) st.2.

Lemma run_layer_atomic_ok h0 c0 i h cache : types_known -> 0 <= i < Z.of_nat (length pt_layers) ->
  run_layer_atomic i h (make_masks h0 c0) cache = (Ok (layer_call h0 c0 i (h, cache)).1, (layer_call h0 c0 i (h, cache)).2).
Proof.
  intros Hk Hi. destruct (Hk i Hi) as (lt & Hlt & Hin). unfold run_layer_atomic, layer_call.
  assert (exists l, py_nth pt_layers i = Ok l) as [l Hl].
  { rewrite <- (Z2Nat.id i), py_nth_nat by lia. destruct (lookup_lt_is_Some_2 pt_layers (Z.to_nat i)) as [l ->]; [lia|by exists l]. }
  erewrite run_ok by (by rewrite Hl). cbv beta. erewrite run_ok by (by rewrite Hlt). cbv beta.
  assert (Hg : dict_get lt (make_masks h0 c0).1 = Some (rotary_emb h0 (position_ids h0 c0) lt)).
  { unfold make_masks. cbn [fst]. rewrite (masks_get (rotary_emb h0 (position_ids h0 c0))). by rewrite decide_True. }
  erewrite run_ok by (by rewrite Hg).
  cbv beta. run. rewrite Hlt. cbn [ok_or fst snd]. by destruct (pt_layer _ _ _ _ _ _).
Qed.

(** The range as a loop over the layers. *)
Definition layers_call (h0 : T) (c0 : Cache) (layers : list Z) (st : T * Cache) : T * Cache :=
  foldl (fun st i => layer_call h0 c0 i st) st layers.

Lemma run_layer_list_ok split h0 c0 layers h cache :
  types_known -> Forall (fun i => 0 <= i < Z.of_nat (length pt_layers) /\ split i = false) layers ->
  run_layer_list split layers h (make_masks h0 c0) cache =
  (Ok (layers_call h0 c0 layers (h, cache)).1, (layers_call h0 c0 layers (h, cache)).2).
Proof.
  intros Hk Hl. revert h cache. induction Hl as [|i layers [Hi Hs] _ IH]; intros h cache; [done|].
  cbn [run_layer_list]. rewrite Hs. rewrite (run_ok _ _ _ _ _ (run_layer_atomic_ok h0 c0 i h cache Hk Hi)).
  rewrite IH. cbn [layers_call foldl]. by destruct (layer_call h0 c0 i (h, cache)).
Qed.

(** A range with a split layer does not run: the layer loop refuses it, and
    nothing hands it to the orchestrator. *)
Lemma split_list_raises split h0 c0 layers i h cache :
  types_known -> (forall j, j ∈ layers -> 0 <= j < Z.of_nat (length pt_layers)) -> i ∈ layers -> split i = true ->
  (run_layer_list split layers h (make_masks h0 c0) cache).1 = Raise RuntimeError.
Proof.
  intros Hk Hl Hi Hs. revert h cache Hi. induction layers as [|j layers IH]; intros h cache Hi; [inversion Hi|].
  cbn [run_layer_list]. destruct (split j) eqn:Ej; [done|]. apply elem_of_cons in Hi as [->|Hi]; [congruence|].
  rewrite (run_ok _ _ _ _ _ (run_layer_atomic_ok h0 c0 j h cache Hk (Hl j ltac:(left)))).
  apply IH; [|done]. intros j' Hj'. apply Hl. by right.
Qed.

Lemma split_layer_raises split_layers a b i h cache :
  types_known -> 0 <= a -> b <= Z.of_nat (length pt_layers) -> a <= i < b -> i ∈ split_layers ->
  (run_my_layers split_layers a b h cache).1 = Raise RuntimeError.
Proof.
  intros Hk Ha Hb Hi Hin. unfold run_my_layers, run_layers. run.
  apply (split_list_raises _ h cache (range a b) i h cache Hk); [|by apply range_in|by apply bool_decide_eq_true_2].
  intros j Hj%range_in. lia.
Qed.

(** ** The positions of a token *)

(** The library's cache: the length of each layer's slot. *)
Class TorchCacheLaws := {
  slot_len : Cache -> Z -> Z;
  first_slot_counts c : get_seq_length c = slot_len c 0;
  fresh_cache_empty i : slot_len fresh_cache i = 0;
  layer_extends_slot i h rot m pos c : let '(h', c') := pt_layer i h rot m pos c in
    seq_len h' = seq_len h /\ forall j, slot_len c' j = slot_len c j + (if decide (j = i) then seq_len h else 0);
}.

Context `{!TorchCacheLaws}.

Lemma layer_call_lengths h0 c0 i h cache :
  let st := layer_call h0 c0 i (h, cache) in
  seq_len st.1 = seq_len h /\ forall j, slot_len st.2 j = slot_len cache j + (if decide (j = i) then seq_len h else 0).
Proof.
  unfold layer_call. cbn [fst snd].
  pose proof (layer_extends_slot i h (rotary_emb h0 (position_ids h0 c0) (ok_or "" (resolve_layer_type i))) None (position_ids h cache) cache) as Hx.
  by destruct (pt_layer _ _ _ _ _ _).
Qed.

Lemma layers_call_lengths h0 c0 layers h cache :
  NoDup layers -> let st := layers_call h0 c0 layers (h, cache) in
  seq_len st.1 = seq_len h /\ forall j, slot_len st.2 j = slot_len cache j + (if decide (j ∈ layers) then seq_len h else 0).
Proof.
  revert h cache. induction layers as [|i layers IH]; intros h cache Hn; [split; [done|]; intros j; rewrite decide_False by (by intros Hx; inversion Hx); cbn; lia|].
  apply NoDup_cons in Hn as [Hi Hn]. cbn [layers_call foldl].
  destruct (layer_call_lengths h0 c0 i h cache) as [Hs Hc]. destruct (layer_call h0 c0 i (h, cache)) as [h1 c1].
  cbn [fst snd] in Hs, Hc. destruct (IH h1 c1 Hn) as [IH1 IH2].
  split; [etransitivity; [exact IH1|exact Hs]|]. intros j. etransitivity; [exact (IH2 j)|]. rewrite Hc, Hs.
  destruct (decide (j = i)) as [->|Hne].
  - rewrite (decide_False (P := i ∈ layers)) by done. rewrite decide_True by left. lia.
  - destruct (decide (j ∈ layers)); [rewrite decide_True by (by right)|rewrite decide_False by (by rewrite not_elem_of_cons)]; lia.
Qed.

(** The number of tokens before each call of a request. *)
Fixpoint token_positions (n : Z) (hs : list T) : list Z :=
  match hs with
  | [] => []
  | h :: hs => n :: token_positions (n + seq_len h) hs
  end.

(** What a call from layer [a] computes when it takes its tokens to be at [p] and
    after: the rotary embeddings of every layer are those of [p], [p + 1], ...;
    the position ids given with them are these too, save on the layers after
    layer 0 of a shard that runs it, where the tokens are counted already. *)
Definition ids_start (a p : Z) (h : T) (i : Z) : Z := if (a =? 0) && (0 <? i) then p + seq_len h else p.
Definition layer_at (a p : Z) (h : T) (st : T * Cache) (i : Z) : T * Cache :=
  let from q := range q (q + seq_len h) in
  pt_layer i st.1 (rotary_emb h (from p) (ok_or "" (resolve_layer_type i))) None (from (ids_start a p h i)) st.2.
Definition call_at (a b p : Z) (h : T) (cache : Cache) : T * Cache := foldl (layer_at a p h) (h, cache) (range a b).

(** The calls of a request, each at its position. *)
Fixpoint calls_at (a b : Z) (calls : list (Z * T)) (cache : Cache) : list T * Cache :=
  match calls with
  | [] => ([], cache)
  | (p, h) :: calls =>
      let '(out, cache) := call_at a b p h cache in
      let '(outs, cache) := calls_at a b calls cache in
      (out :: outs, cache)
  end.

Lemma layers_at a b p h c0 i st : 0 <= a <= i -> get_seq_length c0 = p -> seq_len st.1 = seq_len h ->
  get_seq_length st.2 = ids_start a p h i -> layers_call h c0 (range i b) st = foldl (layer_at a p h) st (range i b).
Proof.
  intros Hai Hp. assert (Hgen : forall n i st, Z.to_nat (b - i) = n -> 0 <= a <= i -> seq_len st.1 = seq_len h -> get_seq_length st.2 = ids_start a p h i ->
    layers_call h c0 (range i b) st = foldl (layer_at a p h) st (range i b)); [|by eapply Hgen].
  clear i st Hai. intros n. induction n as [|n IH]; intros i st Hn Hai Hs Hg.
  { unfold range, zrange. by rewrite Hn. }
  rewrite range_cons by lia. cbn [layers_call foldl]. fold (layers_call h c0 (range (i + 1) b)).
  assert (Hstep : layer_call h c0 i st = layer_at a p h st i).
  { unfold layer_call, layer_at, position_ids. by rewrite Hs, Hg, Hp. }
  destruct st as [x c]. cbn [fst snd] in Hs, Hg. destruct (layer_call_lengths h c0 i x c) as [Hs' Hc'].
  rewrite Hstep in Hs', Hc' |- *. apply IH; [lia|lia|by rewrite Hs'|].
  rewrite first_slot_counts in Hg |- *. rewrite Hc', Hg, Hs. unfold ids_start.
  destruct (Z.eqb_spec a 0) as [->|Ha]; cbn [andb].
  - destruct (Z.ltb_spec 0 i); destruct (Z.ltb_spec 0 (i + 1)); try lia; [rewrite decide_False by lia; lia|].
    rewrite decide_True by lia. lia.
  - rewrite decide_False by lia. lia.
Qed.

Lemma call_at_ok a b h cache : types_known -> 0 <= a -> b <= Z.of_nat (length pt_layers) ->
  let st := call_at a b (get_seq_length cache) h cache in
  run_my_layers [] a b h cache = (Ok st.1, st.2) /\
  (a < b -> get_seq_length st.2 = get_seq_length cache + if a =? 0 then seq_len h else 0).
Proof.
  intros Hk Ha Hb st. unfold run_my_layers, run_layers. rewrite run_bind. cbn [gets]. rewrite run_layer_list_ok; [|done|].
  2: { apply Forall_forall. intros i Hi%range_in. split; [lia|]. apply bool_decide_eq_false_2. intros Hn. inversion Hn. }
  assert (Hst : layers_call h cache (range a b) (h, cache) = st).
  { apply layers_at; [lia|done|done|]. cbn [snd]. unfold ids_start. destruct (Z.eqb_spec a 0) as [->|]; [|done]. done. }
  rewrite Hst. split; [done|]. intros Hab. destruct (layers_call_lengths h cache (range a b) h cache (range_nodup a b)) as [_ Hlen].
  rewrite Hst in Hlen. rewrite !first_slot_counts, Hlen. destruct (Z.eqb_spec a 0) as [->|Hne].
  - by rewrite decide_True by (apply range_in; lia).
  - by rewrite decide_False by (rewrite range_in; lia).
Qed.

(** The positions a shard uses for the calls of a request. *)
Definition used_positions (a n : Z) (hs : list T) : list Z := if a =? 0 then token_positions n hs else (fun _ => n) <$> hs.

Lemma serve_calls_at a b hs cache : types_known -> 0 <= a < b -> b <= Z.of_nat (length pt_layers) ->
  let r := calls_at a b (zip (used_positions a (get_seq_length cache) hs) hs) cache in
  serve_calls [] a b hs cache = (Ok r.1, r.2).
Proof.
  intros Hk Hab Hb. revert cache. induction hs as [|h hs IH]; intros cache; [by unfold used_positions; destruct (a =? 0)|].
  destruct (call_at_ok a b h cache Hk ltac:(lia) Hb) as [Hc Hn]. specialize (Hn ltac:(lia)). cbv zeta.
  assert (Hz : zip (used_positions a (get_seq_length cache) (h :: hs)) (h :: hs) =
    (get_seq_length cache, h) :: zip (used_positions a (get_seq_length (call_at a b (get_seq_length cache) h cache).2) hs) hs).
  { rewrite Hn. unfold used_positions. destruct (a =? 0); [done|]. by rewrite Z.add_0_r. }
  rewrite Hz. cbn [serve_calls calls_at]. rewrite (run_ok _ _ _ _ _ Hc). cbv beta.
  destruct (call_at a b (get_seq_length cache) h cache) as [out c1]. cbn [fst snd]. rewrite (run_ok _ _ _ _ _ (IH c1)).
  by destruct (calls_at a b _ c1).
Qed.

(** C37: the positions of the rotary embeddings. A shard computes the calls of a
    request on a fresh cache with the rotary embeddings of these positions: the
    shard that runs layer 0, for each token the number of tokens before it; any
    other shard, position 0 and after for every call: the library counts the
    tokens in the slot of layer 0, which such a shard never fills. The position
    ids given to a layer next to them are the same, but on the first shard every
    layer after layer 0 gets those of the tokens to come. *)
Theorem pt_rotary_positions a b hs :
  types_known -> 0 <= a < b -> b <= Z.of_nat (length pt_layers) ->
  let positions := if a =? 0 then token_positions 0 hs else (fun _ => 0) <$> hs in
  let '(outs, cache) := calls_at a b (zip positions hs) fresh_cache in
  serve_calls [] a b hs fresh_cache = (Ok outs, cache).
Proof.
  intros Hk Hab Hb positions. pose proof (serve_calls_at a b hs fresh_cache Hk Hab Hb) as Hs.
  rewrite first_slot_counts, fresh_cache_empty in Hs. subst positions. unfold used_positions in Hs. cbv zeta in Hs.
  rewrite Hs. by destruct (calls_at _ _ _ _).
Qed.

End engine.

(** ** A model of three layers: the cache records the tokens each layer got *)

Section witness.

Definition toy_slot (c : list (Z * Z)) (j : Z) : Z := foldr (fun it n => if decide (j = it.1) then n + it.2 else n) 0 c.

#[local] Instance toy_model : TorchModel (list Z) (list Z) unit (list (Z * Z)) := {
  pt_layers := [mkPtLayer None (Some "full_attention"); mkPtLayer None (Some "sliding_attention"); mkPtLayer None None];
  pt_config_types := Some ["full_attention"; "sliding_attention"; "full_attention"];
  rotary_emb _ pos _ := pos;
  pt_layer i h rot _ _ c := (zip_with Z.add h rot ++ drop (length rot) h, (i, Z.of_nat (length h)) :: c);
  get_seq_length c := toy_slot c 0;
  seq_len h := Z.of_nat (length h);
  fresh_cache := [];
}.

#[local] Instance toy_laws : TorchCacheLaws (T := list Z) (Cache := list (Z * Z)).
Proof.
  refine {| slot_len := toy_slot |}; [done|done|]. intros i h rot m pos c. split.
  - cbn. rewrite length_app, length_zip_with, length_drop. lia.
  - intros j. cbn [seq_len toy_model]. change (toy_slot ((i, Z.of_nat (length h)) :: c) j) with
      (if decide (j = i) then toy_slot c j + Z.of_nat (length h) else toy_slot c j). destruct (decide (j = i)); lia.
Defined.

Lemma toy_types : types_known (T := list Z) (Cache := list (Z * Z)).
Proof.
  intros i Hi. cbn in Hi. assert (i = 0 \/ i = 1 \/ i = 2) as [->|[->| ->]] by lia; eexists; (split; [reflexivity|]);
    apply (bool_decide_unpack _); vm_compute; exact I.
Qed.

(** A prompt of three tokens, then one by one, on the first shard and on the
    last: what a layer adds to a token is its position. *)
Lemma pt_rotary_positions_witness :
  (exists c, serve_calls [] 0 1 [[5; 6; 7]; [8]; [9]] fresh_cache = (Ok [[5; 7; 9]; [11]; [13]], c)) /\
  (exists c, serve_calls [] 2 3 [[5; 6; 7]; [8]; [9]] fresh_cache = (Ok [[5; 7; 9]; [8]; [9]], c)).
Proof.
  pose proof (pt_rotary_positions 0 1 [[5; 6; 7]; [8]; [9]] toy_types ltac:(cbn; lia) ltac:(cbn; lia)) as Hf.
  pose proof (pt_rotary_positions 2 3 [[5; 6; 7]; [8]; [9]] toy_types ltac:(cbn; lia) ltac:(cbn; lia)) as Hl.
  split; eexists; [exact Hf|exact Hl].
Defined.

End witness.
