(* ===== verification/PtExperts.v ===== *)
(** * pt_partial_load.py, pytorch_backend.py and pt_moe.py: experts on PyTorch

    Each layer keeps two stacks with a row for every expert, held or not; an
    attach overwrites rows, a detach zeroes them.  The ids a node holds are
    book-keeping of the backend.  The rows and what torch does with them
    ([TorchRows]) are opaque. *)
From S2P Require Import Prelude PyDict PyList Experts.
Open Scope Z_scope.

Class TorchRows (C : Type) := {
  row_shape : C -> list Z;
  (** [t.to(device=..., dtype=...)], to the device and dtype of the stacks *)
  to_stack : C -> C;
  (** a row after [zero_()] *)
  zero_row : C -> C;
}.

Record PtExperts (C : Type) : Type := mkPtExperts { gate_up_proj : list C; down_proj : list C }.
Arguments mkPtExperts {C} gate_up_proj down_proj.
Arguments gate_up_proj {C} _.
Arguments down_proj {C} _.

Section weights.
Context {C : Type} `{TorchRows C}.
Abbreviation Model := (list (PtExperts C)).
Implicit Types (m : Model).

Definition slice_expert m (layer_idx expert_id : Z) : result (list C) :=
  e ← py_nth m layer_idx;
  gate_up ← py_nth (gate_up_proj e) expert_id;
  down ← py_nth (down_proj e) expert_id;
  Ok [gate_up; down].

(** [e.gate_up_proj[expert_id].copy_(...)] and the same below, in place. *)
Definition write_rows m (layer_idx expert_id : Z) (e : PtExperts C) (gate_up down : C) : Model :=
  <[py_pos m layer_idx := mkPtExperts (<[py_pos (gate_up_proj e) expert_id := gate_up]> (gate_up_proj e))
                                      (<[py_pos (down_proj e) expert_id := down]> (down_proj e))]> m.

Definition attach_expert m (layer_idx expert_id : Z) (tensors : list C) : result Model :=
  match tensors with
  | [gate_up; down] =>
      e ← py_nth m layer_idx;
      old_gate_up ← py_nth (gate_up_proj e) expert_id;
      old_down ← py_nth (down_proj e) expert_id;
      _ ← require (bool_decide (row_shape gate_up = row_shape old_gate_up)) ValueError;
      _ ← require (bool_decide (row_shape down = row_shape old_down)) ValueError;
      Ok (write_rows m layer_idx expert_id e (to_stack gate_up) (to_stack down))
  | _ => Raise ValueError
  end.

(** An id in range of one stack only leaves that stack zeroed; the stacks have
    the same length. *)
Definition detach_expert m (layer_idx expert_id : Z) : result Model :=
  e ← py_nth m layer_idx;
  gate_up ← py_nth (gate_up_proj e) expert_id;
  down ← py_nth (down_proj e) expert_id;
  Ok (write_rows m layer_idx expert_id e (zero_row gate_up) (zero_row down)).

(** ** PyTorchBackend *)

Record PyTorchBackend : Type := mkPtBackend {
  pb_model : Model;
  pb_held : dict Z (list Z);
}.
Implicit Types (b : PyTorchBackend).

Definition held_ids b (layer_idx : Z) : list Z := default [] (dict_get layer_idx (pb_held b)).

(** [tuple(sorted(set(ids) | {x}))], and without [x] *)
Definition sorted_set (ids : list Z) : list Z := sort_by Z.leb (remove_dups ids).

Definition pt_attach b (layer_idx expert_id : Z) (tensors : list C) : result PyTorchBackend :=
  m ← attach_expert (pb_model b) layer_idx expert_id tensors;
  Ok (mkPtBackend m (dict_set layer_idx (sorted_set (held_ids b layer_idx ++ [expert_id])) (pb_held b))).

Definition pt_detach b (layer_idx expert_id : Z) : result PyTorchBackend :=
  m ← detach_expert (pb_model b) layer_idx expert_id;
  Ok (mkPtBackend m (dict_set layer_idx (sorted_set (filter (fun e => e <> expert_id) (held_ids b layer_idx))) (pb_held b))).

(** ** pt_moe.run_selected_experts *)

Definition run_selected_experts {T} (norm : Z -> T -> T) (run_one_expert : T -> C -> C -> T) m (h : T) (layer_idx : Z) (expert_ids : list Z) : result (dict Z T) :=
  e ← py_nth m layer_idx;
  foldM (fun out k =>
           gate_up ← py_nth (gate_up_proj e) k;
           down ← py_nth (down_proj e) k;
           Ok (dict_set k (run_one_expert (norm layer_idx h) gate_up down) out)) [] expert_ids.

(** ** The rows of an expert *)

Definition rows m (l e : nat) : option (C * C) :=
  x ← m !! l; g ← gate_up_proj x !! e; d ← down_proj x !! e; Some (g, d).

Lemma slice_rows m (l e : nat) :
  slice_expert m (Z.of_nat l) (Z.of_nat e) = match rows m l e with Some (g, d) => Ok [g; d] | None => Raise IndexError end.
Proof.
  unfold slice_expert, rows. rewrite py_nth_nat. destruct (m !! l) as [x|]; [|done]. cbn [or_raise mbind result_bind option_bind].
  rewrite !py_nth_nat. destruct (gate_up_proj x !! e) as [g|]; [|done]. cbn. by destruct (down_proj x !! e).
Qed.

Lemma write_rows_get m (l e l' e' : nat) x g d g0 d0 :
  m !! l = Some x -> gate_up_proj x !! e = Some g0 -> down_proj x !! e = Some d0 ->
  rows (write_rows m (Z.of_nat l) (Z.of_nat e) x g d) l' e' = if decide (l' = l /\ e' = e) then Some (g, d) else rows m l' e'.
Proof.
  intros Hl Hg Hd. unfold write_rows, rows. rewrite !py_pos_nat. destruct (decide (l' = l)) as [->|Hne].
  - rewrite list_lookup_insert_eq by (by eapply lookup_lt_Some). cbn. rewrite Hl. cbn. destruct (decide (e' = e)) as [->|Hne].
    + rewrite !list_lookup_insert_eq by (by eapply lookup_lt_Some). by rewrite decide_True.
    + rewrite !list_lookup_insert_ne by done. by rewrite decide_False by tauto.
  - rewrite list_lookup_insert_ne by done. by rewrite decide_False by tauto.
Qed.

(** ** The ids a node holds *)

Lemma sorted_set_in ids x : x ∈ sorted_set ids <-> x ∈ ids.
Proof. unfold sorted_set. rewrite sort_by_perm. apply elem_of_remove_dups. Qed.

Lemma held_ids_set m layer_idx ids b l :
  held_ids (mkPtBackend m (dict_set layer_idx ids (pb_held b))) l = if decide (l = layer_idx) then ids else held_ids b l.
Proof. unfold held_ids. cbn [pb_held]. rewrite dict_get_set. by case_decide. Qed.

(** An expert has rows in the stacks of layer [l] and the tensors fit them. *)
Definition fits m (l e : nat) (gate_up down : C) : Prop :=
  exists g d, rows m l e = Some (g, d) /\ row_shape gate_up = row_shape g /\ row_shape down = row_shape d.

Lemma rows_inv m l e g d : rows m l e = Some (g, d) ->
  exists x, m !! l = Some x /\ gate_up_proj x !! e = Some g /\ down_proj x !! e = Some d.
Proof.
  unfold rows. destruct (m !! l) as [x|]; [|done]. cbn. destruct (gate_up_proj x !! e) as [g'|] eqn:E1; [|done]. cbn.
  destruct (down_proj x !! e) as [d'|] eqn:E2; [|done]. cbn. intros [= <- <-]. by exists x.
Qed.

Lemma attach_rows m (l e : nat) gate_up down : fits m l e gate_up down ->
  exists m', attach_expert m (Z.of_nat l) (Z.of_nat e) [gate_up; down] = Ok m' /\
    forall l' e', rows m' l' e' = if decide (l' = l /\ e' = e) then Some (to_stack gate_up, to_stack down) else rows m l' e'.
Proof.
  intros (g & d & Hr & Hg & Hd). destruct (rows_inv _ _ _ _ _ Hr) as (x & Hx & Hgx & Hdx).
  exists (write_rows m (Z.of_nat l) (Z.of_nat e) x (to_stack gate_up) (to_stack down)). split.
  - unfold attach_expert. rewrite py_nth_nat, Hx. cbn [or_raise mbind result_bind].
    rewrite !py_nth_nat, Hgx, Hdx. cbn [or_raise mbind result_bind].
    by rewrite !bool_decide_eq_true_2.
  - intros l' e'. by apply write_rows_get with g d.
Qed.

Lemma detach_rows m (l e : nat) g d : rows m l e = Some (g, d) ->
  exists m', detach_expert m (Z.of_nat l) (Z.of_nat e) = Ok m' /\
    forall l' e', rows m' l' e' = if decide (l' = l /\ e' = e) then Some (zero_row g, zero_row d) else rows m l' e'.
Proof.
  intros Hr. destruct (rows_inv _ _ _ _ _ Hr) as (x & Hx & Hgx & Hdx).
  exists (write_rows m (Z.of_nat l) (Z.of_nat e) x (zero_row g) (zero_row d)). split.
  - unfold detach_expert. rewrite py_nth_nat, Hx. cbn [or_raise mbind result_bind].
    by rewrite !py_nth_nat, Hgx, Hdx.
  - intros l' e'. by apply write_rows_get with g d.
Qed.

(** attaching an expert on PyTorch. When its two tensors fit the stacks,
    the expert is held and served from then on with exactly those tensors; no
    other row and no other holding changes. Tensors that do not fit change
    nothing. *)
Theorem pt_attach_ok b (l e : nat) gate_up down g d :
  rows (pb_model b) l e = Some (g, d) ->
  if bool_decide (row_shape gate_up = row_shape g /\ row_shape down = row_shape d) then
    exists b', pt_attach b (Z.of_nat l) (Z.of_nat e) [gate_up; down] = Ok b' /\
      slice_expert (pb_model b') (Z.of_nat l) (Z.of_nat e) = Ok [to_stack gate_up; to_stack down] /\
      (forall l' e', (l', e') <> (l, e) -> rows (pb_model b') l' e' = rows (pb_model b) l' e') /\
      forall l' x, x ∈ held_ids b' l' <-> (l' = Z.of_nat l /\ x = Z.of_nat e) \/ x ∈ held_ids b l'
  else pt_attach b (Z.of_nat l) (Z.of_nat e) [gate_up; down] = Raise ValueError.
Proof.
  intros Hr. case_bool_decide as Hs.
  - destruct Hs as [Hsg Hsd].
    destruct (attach_rows (pb_model b) l e gate_up down) as (m' & Hm & Hrows); [by exists g, d|].
    eexists. unfold pt_attach. rewrite Hm. cbn [mbind result_bind pb_model]. split; [reflexivity|]. cbn [pb_model].
    split; [by rewrite slice_rows, Hrows, decide_True|]. split.
    + intros l' e' Hne. rewrite Hrows. rewrite decide_False; [done|]. intros [-> ->]. done.
    + intros l' x. rewrite held_ids_set. case_decide as Hl.
      * subst. rewrite sorted_set_in, elem_of_app, list_elem_of_singleton. naive_solver.
      * naive_solver.
  - destruct (rows_inv _ _ _ _ _ Hr) as (x & Hx & Hgx & Hdx).
    unfold pt_attach, attach_expert. rewrite py_nth_nat, Hx. cbn [or_raise mbind result_bind].
    rewrite !py_nth_nat, Hgx, Hdx. cbn [or_raise mbind result_bind].
    destruct (bool_decide (row_shape gate_up = row_shape g)) eqn:E1; [|done]. cbn [require mbind result_bind].
    apply bool_decide_eq_true in E1. by rewrite bool_decide_eq_false_2 by tauto.
Qed.

(** an evicted expert is still served. After a detach the backend no longer
    lists the expert, and every other row and holding is as before; but slicing
    it returns its zeroed rows and a request for it is computed with them, where
    the MLX loader raises KeyError. *)
Theorem pt_detached_still_served {T} (norm : Z -> T -> T) (run_one_expert : T -> C -> C -> T) b (l e : nat) g d h :
  rows (pb_model b) l e = Some (g, d) ->
  exists b', pt_detach b (Z.of_nat l) (Z.of_nat e) = Ok b' /\
    (forall l' x, x ∈ held_ids b' l' <-> ~ (l' = Z.of_nat l /\ x = Z.of_nat e) /\ x ∈ held_ids b l') /\
    (forall l' e', (l', e') <> (l, e) -> rows (pb_model b') l' e' = rows (pb_model b) l' e') /\
    slice_expert (pb_model b') (Z.of_nat l) (Z.of_nat e) = Ok [zero_row g; zero_row d] /\
    run_selected_experts norm run_one_expert (pb_model b') h (Z.of_nat l) [Z.of_nat e] =
      Ok [(Z.of_nat e, run_one_expert (norm (Z.of_nat l) h) (zero_row g) (zero_row d))].
Proof.
  intros Hr. destruct (detach_rows _ _ _ _ _ Hr) as (m' & Hm & Hrows).
  eexists. unfold pt_detach. rewrite Hm. cbn [mbind result_bind]. split; [reflexivity|]. cbn [pb_model]. split.
  - intros l' x. rewrite held_ids_set. case_decide as Hl.
    + subst. rewrite sorted_set_in, list_elem_of_filter. naive_solver.
    + naive_solver.
  - split; [|split].
    + intros l' e' Hne. rewrite Hrows. rewrite decide_False; [done|]. intros [-> ->]. done.
    + by rewrite slice_rows, Hrows, decide_True.
    + assert (Hz : rows m' l e = Some (zero_row g, zero_row d)) by (by rewrite Hrows, decide_True).
      destruct (rows_inv _ _ _ _ _ Hz) as (x & Hx & Hgx & Hdx). unfold run_selected_experts.
      rewrite py_nth_nat, Hx. cbn [or_raise mbind result_bind foldM]. by rewrite !py_nth_nat, Hgx, Hdx.
Qed.

End weights.

(** ** Witnesses: one layer of two experts, of which the node holds the first *)

Section witnesses.

#[local] Instance toy_rows : TorchRows (list Z) := {
  row_shape c := [Z.of_nat (length c)];
  to_stack c := c;
  zero_row c := (fun _ => 0) <$> c;
}.

Definition toy_backend : PyTorchBackend (C := list Z) :=
  mkPtBackend [mkPtExperts [[1; 2]; [3; 4]] [[5]; [6]]] [(0, [0])].

(** The rows of an expert, weighted by the state. *)
Definition toy_expert (x : Z) (gate_up down : list Z) : Z := x * foldr Z.add 0 (gate_up ++ down).

Lemma pt_attach_ok_witness :
  (exists b', pt_attach toy_backend 0 1 [[7; 8]; [9]] = Ok b' /\ slice_expert (pb_model b') 0 1 = Ok [[7; 8]; [9]]) /\
  pt_attach toy_backend 0 1 [[7]; [9]] = Raise ValueError.
Proof.
  split.
  - destruct (pt_attach_ok toy_backend 0 1 [7; 8] [9] [3; 4] [6] eq_refl) as (b' & Hb & Hs & _). by exists b'.
  - exact (pt_attach_ok toy_backend 0 1 [7] [9] [3; 4] [6] eq_refl).
Defined.

Lemma pt_detached_still_served_witness :
  exists b', pt_detach toy_backend 0 0 = Ok b' /\ held_ids b' 0 = [] /\ slice_expert (pb_model b') 0 0 = Ok [[0; 0]; [0]] /\
    run_selected_experts (fun _ x => x) toy_expert (pb_model b') 7 0 [0] = Ok [(0, 0)].
Proof.
  destruct (pt_detached_still_served (fun _ x => x) toy_expert toy_backend 0 0 [1; 2] [5] 7 eq_refl) as (b' & Hb & _ & _ & Hs & Hr).
  exists b'. split; [exact Hb|]. split; [|split; [exact Hs|exact Hr]]. vm_compute in Hb. injection Hb as <-. reflexivity.
Defined.

End witnesses.
