(* ===== verification/PtMoe.v ===== *)
(** * pt_moe.py and pytorch_backend.py: a split layer on PyTorch

    The pieces of a decoder layer that [PyTorchBackend] offers the orchestrator.
    The submodules of a layer and the operations on tensors are the libraries'
    ([TorchDecoder]); of a tensor of integers only its rank and its entries
    matter ([IdTensor]). *)
From S2P Require Import Prelude PyDict PyFloat PyList Trackers Experts Effects Engine PtEngine.
Open Scope Z_scope.

(** Ids of shape [N, K], and of shape [B, S, K]. *)
Inductive IdTensor : Type :=
| Rank2 (rows : list (list Z))
| Rank3 (cells : list (list (list Z))).

(** [a, b, _ = t.shape] *)
Definition unpack_three (t : IdTensor) : result (nat * nat) :=
  match t with
  | Rank2 _ => Raise ValueError
  | Rank3 cells => Ok (length cells, length (default [] (head cells)))
  end.

(** [t[b, l].reshape(-1).tolist()]: of a tensor of rank 2 a single entry. *)
Definition ids_at (t : IdTensor) (b l : nat) : result (list Z) :=
  match t with
  | Rank2 rows => row ← or_raise IndexError (rows !! b); x ← or_raise IndexError (row !! l); Ok [x]
  | Rank3 cells => row ← or_raise IndexError (cells !! b); or_raise IndexError (row !! l)
  end.

(** The arguments Python code passes to a callback. *)
Inductive PyArg : Type :=
| AInt (n : Z)
| AFloat (x : float)
| AInts (l : list Z).

(** [self._heat_tracker.observe], a bound method of two arguments *)
Definition observe_method (args : list PyArg) : eff HeatTracker unit :=
  match args with
  | [AInt layer; AInts ids] => modify (heat_observe layer ids)
  | _ => throw TypeError
  end.

Class TorchDecoder (T Rot Mask Cache W : Type) := {
  pt_input_layernorm : Z -> T -> T;
  (** [layer.self_attn(...)]: the output, and the cache afterwards *)
  pt_self_attn : Z -> T -> Rot -> option Mask -> list Z -> Cache -> T * Cache;
  pt_post_attention_layernorm : Z -> T -> T;
  (** [layer.router(flat)]: the weights and the ids, a row per position *)
  pt_router : Z -> T -> W * list (list Z);
  (** [top_k_weights.tolist()] *)
  pt_weight_rows : W -> list (list float);
  pt_pre_feedforward_layernorm : Z -> T -> T;
  pt_mlp : Z -> T -> T;
  pt_post_feedforward_layernorm_1 : Z -> T -> T;
  pt_post_feedforward_layernorm_2 : Z -> T -> T;
  pt_post_feedforward_layernorm : Z -> T -> T;
  pt_layer_scalar : Z -> option T;
  (** [x.reshape(-1, x.shape[-1])] *)
  pt_flat : T -> T;
  pt_add : T -> T -> T;
  pt_mul : T -> T -> T;
  (** [torch.stack(xs, dim=0)], and the sum over dim 0 weighted by a row of weights *)
  pt_stack : list T -> result T;
  pt_weighted_sum : T -> W -> T;
  (** [x[b : b + 1, l : l + 1, :]] *)
  pt_cell : nat -> nat -> T -> T;
  pt_cell_w : nat -> nat -> W -> W;
  (** [torch.cat(cells, dim=1)], [dim=0] *)
  pt_cat_seq : list T -> T;
  pt_cat_batch : list T -> T;
}.

Section moe.
Context {T Rot Mask Cache W Obs : Type} `{TorchModel T Rot Mask Cache} `{TorchDecoder T Rot Mask Cache W}.
Abbreviation masks_t := (dict string Rot * option (dict string Mask))%type.
Implicit Types (h : T) (masks : masks_t).

(** ** pt_moe.py *)

(** One call of the observer for every pick, [zip(..., strict=True)] twice. *)
Definition observe_row (observer : list PyArg -> eff Obs unit) (layer_idx : Z) (row : list Z * list float) : eff Obs unit :=
  _ ← for_each (zip row.1 row.2) (fun it => observer [AInt layer_idx; AInt it.1; AFloat it.2]);
  lift (require (Nat.eqb (length row.1) (length row.2)) ValueError).

Definition observe_all (observer : list PyArg -> eff Obs unit) (layer_idx : Z) (ids : list (list Z)) (weights : list (list float)) : eff Obs unit :=
  _ ← for_each (zip ids weights) (observe_row observer layer_idx);
  lift (require (Nat.eqb (length ids) (length weights)) ValueError).

Definition run_attention_and_route (layer_idx : Z) h masks (heat_observer : option (list PyArg -> eff Obs unit))
    : eff (Cache * Obs) (T * (list (list Z) * W)) :=
  _ ← lift (py_nth pt_layers layer_idx);
  layer_type ← lift (resolve_layer_type layer_idx);
  cos_sin ← lift (or_raise KeyError (dict_get layer_type masks.1));
  let attention_mask := d ← masks.2; dict_get layer_type d in
  cache ← gets fst;
  let residual := h in
  let x := pt_input_layernorm layer_idx h in
  let '(attn_out, cache') := pt_self_attn layer_idx x cos_sin attention_mask (position_ids h cache) cache in
  _ ← modify (fun s => (cache', s.2));
  let post_attn_residual := pt_add residual (pt_post_attention_layernorm layer_idx attn_out) in
  let '(top_k_weights, top_k_index) := pt_router layer_idx (pt_flat post_attn_residual) in
  _ ← match heat_observer with
      | None => mret tt
      | Some observer => focus snd (fun o s => (s.1, o)) (observe_all observer layer_idx top_k_index (pt_weight_rows top_k_weights))
      end;
  mret (post_attn_residual, (top_k_index, top_k_weights)).

Definition run_shared_expert h (layer_idx : Z) : T := pt_mlp layer_idx (pt_pre_feedforward_layernorm layer_idx h).

Definition aggregate_experts (layer_idx : Z) (expert_outputs : dict Z T) (ids_list : list Z) (top_k_weights : W) (shared_out : T) : result T :=
  picked ← mapR (fun i => or_raise KeyError (dict_get i expert_outputs)) ids_list;
  stacked ← pt_stack picked;
  let moe_branch := pt_weighted_sum stacked top_k_weights in
  let dense_normed := pt_post_feedforward_layernorm_1 layer_idx shared_out in
  let moe_normed := pt_post_feedforward_layernorm_2 layer_idx moe_branch in
  Ok (pt_add dense_normed moe_normed).

(** ** PyTorchBackend *)

(** [{eid: expert_outputs[eid][b : b + 1, ll : ll + 1, :] for eid in ids_pos}] *)
Definition outputs_at (expert_outputs : dict Z T) (b l : nat) (ids_pos : list Z) : result (dict Z T) :=
  foldM (fun d eid => x ← or_raise KeyError (dict_get eid expert_outputs); Ok (dict_set eid (pt_cell b l x) d)) [] ids_pos.

Definition aggregate_cell (layer_idx : Z) (expert_outputs : dict Z T) (top_k_ids : IdTensor) (top_k_weights : W) (shared_out : T) (b l : nat) : result T :=
  ids_pos ← ids_at top_k_ids b l;
  per_pos ← outputs_at expert_outputs b l ids_pos;
  aggregate_experts layer_idx per_pos ids_pos (pt_cell_w b l top_k_weights) (pt_cell b l shared_out).

(** The one element, or all of them joined. *)
Definition join (cat : list T -> T) (xs : list T) : result T :=
  match xs with
  | [] => Raise IndexError
  | [x] => Ok x
  | _ => Ok (cat xs)
  end.

Definition backend_aggregate (layer_idx : Z) (expert_outputs : dict Z T) (top_k_ids : IdTensor) (top_k_weights : W) (shared_out : T) : result T :=
  '(n_batch, n_seq) ← unpack_three top_k_ids;
  rows ← mapR (fun b =>
           cells ← mapR (aggregate_cell layer_idx expert_outputs top_k_ids top_k_weights shared_out b) (seq 0 n_seq);
           join pt_cat_seq cells) (seq 0 n_batch);
  join pt_cat_batch rows.

Definition backend_outer_ops (layer_idx : Z) (block_in residual : T) : T :=
  let out := pt_add residual (pt_post_feedforward_layernorm layer_idx block_in) in
  match pt_layer_scalar layer_idx with
  | Some s => pt_mul out s
  | None => out
  end.

(** ** Theorems *)

(** The router gives a row of weights for every row of ids, as long, and picks
    at least one expert. *)
Class RouterLaws := {
  router_some i x : exists first rest ids weight weights ws,
    (pt_router i x).2 = (first :: rest) :: ids /\ pt_weight_rows (pt_router i x).1 = (weight :: weights) :: ws;
}.

(** What a node with the layers and the rotary embeddings of a step computes. *)
Lemma route_run (layer_idx : Z) h masks observer layer lt cos_sin cache o :
  py_nth pt_layers layer_idx = Ok layer -> resolve_layer_type layer_idx = Ok lt -> dict_get lt masks.1 = Some cos_sin ->
  let r := pt_self_attn layer_idx (pt_input_layernorm layer_idx h) cos_sin (d ← masks.2; dict_get lt d) (position_ids h cache) cache in
  let post_attn := pt_add h (pt_post_attention_layernorm layer_idx r.1) in
  let picks := pt_router layer_idx (pt_flat post_attn) in
  run_attention_and_route layer_idx h masks observer (cache, o) =
  match observer with
  | None => (Ok (post_attn, (picks.2, picks.1)), (r.2, o))
  | Some f =>
      match observe_all f layer_idx picks.2 (pt_weight_rows picks.1) o with
      | (Ok _, o') => (Ok (post_attn, (picks.2, picks.1)), (r.2, o'))
      | (Raise e, o') => (Raise e, (r.2, o'))
      end
  end.
Proof.
  intros Hl Ht Hc r post_attn picks. unfold run_attention_and_route.
  rewrite run_bind, Hl. cbv beta iota. cbn [lift]. rewrite run_bind, Ht. cbn [lift]. rewrite run_bind, Hc. cbn [lift or_raise].
  rewrite run_bind. cbn [gets fst]. fold r. destruct r as [attn_out cache'] eqn:Er. cbn [fst snd] in *. rewrite run_bind. cbn [modify snd].
  fold post_attn. fold picks. destruct picks as [w ids]. rewrite run_bind. cbn [fst snd]. destruct observer as [f|]; [|done].
  unfold focus. cbn [snd fst]. by destruct (observe_all _ _ _ _ _) as [[[]|e] o'].
Qed.

(** The value of one cell with the experts [ids] picked there. *)
Definition cell_value (layer_idx : Z) (stack : list T -> T) (output : Z -> T) (w : W) (shared_out : T) (b l : nat) (ids : list Z) : T :=
  pt_add (pt_post_feedforward_layernorm_1 layer_idx (pt_cell b l shared_out))
    (pt_post_feedforward_layernorm_2 layer_idx
       (pt_weighted_sum (stack ((fun eid => pt_cell b l (output eid)) <$> ids)) (pt_cell_w b l w))).

Lemma outputs_at_get expert_outputs (output : Z -> T) b l ids :
  (forall eid, eid ∈ ids -> dict_get eid expert_outputs = Some (output eid)) ->
  exists d, outputs_at expert_outputs b l ids = Ok d /\ forall eid, eid ∈ ids -> dict_get eid d = Some (pt_cell b l (output eid)).
Proof.
  intros Ho. unfold outputs_at.
  assert (Hgen : forall (done : list Z) d, (forall eid, eid ∈ done -> dict_get eid d = Some (pt_cell b l (output eid))) ->
    exists d', foldM (fun d eid => x ← or_raise KeyError (dict_get eid expert_outputs); Ok (dict_set eid (pt_cell b l x) d)) d ids = Ok d' /\
      forall eid, eid ∈ done \/ eid ∈ ids -> dict_get eid d' = Some (pt_cell b l (output eid))).
  { induction ids as [|x ids IH]; intros done d Hd; cbn [foldM].
    - exists d. split; [done|]. intros eid [He|He]; [by apply Hd|inversion He].
    - rewrite (Ho x (list_elem_of_here _ _)). cbn [or_raise mbind result_bind].
      destruct (IH ltac:(intros; apply Ho; by right) (x :: done) (dict_set x (pt_cell b l (output x)) d)) as (d' & Hd' & Hg).
      + intros eid He. rewrite dict_get_set. case_decide as Hx; [by subst|]. apply Hd. by apply elem_of_cons in He as [->|].
      + exists d'. split; [done|]. intros eid [He|[->|He]%elem_of_cons]; apply Hg; [left; by right|left; left|by right]. }
  destruct (Hgen [] [] ltac:(intros ? Hn; inversion Hn)) as (d & Hd & Hg). exists d. split; [exact Hd|]. intros eid He. apply Hg. by right.
Qed.

Lemma aggregate_cell_value layer_idx (stack : list T -> T) expert_outputs output cells w shared_out b l row ids :
  (forall xs, xs <> [] -> pt_stack xs = Ok (stack xs)) ->
  cells !! b = Some row -> row !! l = Some ids -> ids <> [] ->
  (forall eid, eid ∈ ids -> dict_get eid expert_outputs = Some (output eid)) ->
  aggregate_cell layer_idx expert_outputs (Rank3 cells) w shared_out b l = Ok (cell_value layer_idx stack output w shared_out b l ids).
Proof.
  intros Hs Hb Hl Hne Ho. unfold aggregate_cell, ids_at. rewrite Hb. cbn [or_raise mbind result_bind]. rewrite Hl. cbn [or_raise mbind result_bind].
  destruct (outputs_at_get expert_outputs output b l ids Ho) as (d & -> & Hd). cbn [mbind result_bind]. unfold aggregate_experts.
  rewrite (mapR_pure _ (fun eid => pt_cell b l (output eid))); [|intros eid He; by rewrite Hd]. cbn [mbind result_bind].
  rewrite Hs; [done|]. by destruct ids.
Qed.

(** [n] values, joined when there are several. *)
Definition joined (cat : list T -> T) (f : nat -> T) (n : nat) : T :=
  match n with
  | 1%nat => f 0%nat
  | _ => cat (f <$> seq 0 n)
  end.

Lemma join_ok (cat : list T -> T) (f : nat -> T) n : (1 <= n)%nat -> join cat (f <$> seq 0 n) = Ok (joined cat f n).
Proof. intros Hn. destruct n as [|[|n]]; [lia|done|done]. Qed.

End moe.

Section theorems.
Context {T Rot Mask Cache W : Type} `{TorchModel T Rot Mask Cache} `{TorchDecoder T Rot Mask Cache W}.
Abbreviation masks_t := (dict string Rot * option (dict string Mask))%type.
Implicit Types (h : T) (masks : masks_t).

(** C40: the pieces of a split layer on PyTorch do not fit. Whatever the layer,
    the state and the caches: with the heat tracker's [observe], which is what a
    node passes, [run_attention_and_route] raises TypeError after the attention
    has extended the cache; without an observer it returns ids that
    [aggregate_experts] of the same backend refuses with ValueError, whatever
    the experts computed. *)
Theorem pt_split_pieces_fail `{!RouterLaws} layer_idx h masks layer lt cos_sin cache tracker :
  py_nth pt_layers layer_idx = Ok layer -> resolve_layer_type layer_idx = Ok lt -> dict_get lt masks.1 = Some cos_sin ->
  let cache' := (pt_self_attn layer_idx (pt_input_layernorm layer_idx h) cos_sin (d ← masks.2; dict_get lt d) (position_ids h cache) cache).2 in
  run_attention_and_route layer_idx h masks (Some observe_method) (cache, tracker) = (Raise TypeError, (cache', tracker)) /\
  exists post_attn ids w,
    run_attention_and_route layer_idx h masks None (cache, tracker) = (Ok (post_attn, (ids, w)), (cache', tracker)) /\
    forall expert_outputs shared_out, backend_aggregate layer_idx expert_outputs (Rank2 ids) w shared_out = Raise ValueError.
Proof.
  intros Hl Ht Hc cache'. split.
  - rewrite (route_run layer_idx h masks (Some observe_method) layer lt cos_sin cache tracker Hl Ht Hc).
    destruct (router_some layer_idx (pt_flat (pt_add h (pt_post_attention_layernorm layer_idx
      (pt_self_attn layer_idx (pt_input_layernorm layer_idx h) cos_sin (d ← masks.2; dict_get lt d) (position_ids h cache) cache).1))))
      as (first & rest & ids & weight & weights & ws & -> & ->). reflexivity.
  - rewrite (route_run layer_idx h masks None layer lt cos_sin cache tracker Hl Ht Hc). by do 3 eexists.
Qed.

(** the aggregation on PyTorch, for ids of shape [B, S, K]. When every
    picked expert has an output, each position gets the first post-norm of its
    shared output plus the second post-norm of the weighted sum of the outputs
    picked there, in slot order; the positions are joined along the sequence and
    then along the batch. *)
Theorem pt_aggregate_cells layer_idx (stack : list T -> T) expert_outputs (output : Z -> T) cells w shared_out (n_seq : nat) :
  (forall xs, xs <> [] -> pt_stack xs = Ok (stack xs)) ->
  cells <> [] -> (1 <= n_seq)%nat -> (forall row, row ∈ cells -> length row = n_seq) ->
  (forall row ids, row ∈ cells -> ids ∈ row -> ids <> []) ->
  (forall row ids eid, row ∈ cells -> ids ∈ row -> eid ∈ ids -> dict_get eid expert_outputs = Some (output eid)) ->
  let value b l := cell_value layer_idx stack output w shared_out b l (default [] (row ← cells !! b; row !! l)) in
  let row_value b := joined pt_cat_seq (value b) n_seq in
  backend_aggregate layer_idx expert_outputs (Rank3 cells) w shared_out =
  Ok (joined pt_cat_batch row_value (length cells)).
Proof.
  intros Hs Hne Hn Hrows Hids Ho value row_value. unfold backend_aggregate. cbn [unpack_three mbind result_bind].
  assert (length (default [] (head cells)) = n_seq) as -> by (destruct cells as [|row cells]; [done|apply Hrows; left]).
  rewrite (mapR_pure _ row_value).
  - cbn [mbind result_bind]. apply join_ok. destruct cells; [done|cbn; lia].
  - intros b Hb. apply elem_of_seq in Hb as [_ Hb]. destruct (lookup_lt_is_Some_2 cells b Hb) as [row Hrow].
    assert (Hin : row ∈ cells) by (by eapply list_elem_of_lookup_2).
    rewrite (mapR_pure _ (value b)); [cbn [mbind result_bind]; by rewrite join_ok|].
    intros l Hl. apply elem_of_seq in Hl as [_ Hl]. cbn in Hl. rewrite <- (Hrows row Hin) in Hl.
    destruct (lookup_lt_is_Some_2 row l Hl) as [ids Hl']. assert (Hin' : ids ∈ row) by (by eapply list_elem_of_lookup_2).
    unfold value. rewrite Hrow. cbn [mbind option_bind]. rewrite Hl'. cbn [default].
    apply aggregate_cell_value with row; [done..|by eapply Hids|]. intros eid He. by eapply Ho.
Qed.

End theorems.


(** ** Witnesses: one layer, states that are numbers, two experts per position *)

Section witnesses.

#[local] Instance toy_torch : TorchModel Z Z unit Z := {
  pt_layers := [mkPtLayer None (Some "full_attention")];
  pt_config_types := Some ["full_attention"];
  rotary_emb h positions _ := h + Z.of_nat (length positions);
  pt_layer _ h _ _ _ c := (h, c + 1);
  get_seq_length c := c;
  seq_len _ := 1;
  fresh_cache := 0;
}.

#[local] Instance toy_decoder : TorchDecoder Z Z unit Z (list (list float)) := {
  pt_input_layernorm _ x := x;
  pt_self_attn _ x rot _ _ c := (x + rot, c + 1);
  pt_post_attention_layernorm _ x := x;
  pt_router _ x := ([[f1; f1]], [[3; 5]]);
  pt_weight_rows w := w;
  pt_pre_feedforward_layernorm _ x := x;
  pt_mlp _ x := x;
  pt_post_feedforward_layernorm_1 _ x := 10 * x;
  pt_post_feedforward_layernorm_2 _ x := 100 * x;
  pt_post_feedforward_layernorm _ x := x;
  pt_layer_scalar _ := None;
  pt_flat x := x;
  pt_add := Z.add;
  pt_mul := Z.mul;
  pt_stack xs := match xs with [] => Raise RuntimeError | _ => Ok (foldr Z.add 0 xs) end;
  pt_weighted_sum x _ := x;
  pt_cell b l x := x + Z.of_nat l;
  pt_cell_w _ _ w := w;
  pt_cat_seq := foldr Z.add 0;
  pt_cat_batch := foldr Z.add 0;
}.

#[local] Instance toy_router : RouterLaws.
Proof. split. intros i x. by exists 3, [5], [], f1, [f1], []. Defined.

Lemma pt_split_pieces_fail_witness :
  run_attention_and_route 0 7 ([("full_attention", 2)], None) (Some observe_method) (4, mkHeatTracker f1 16 []) =
    (Raise TypeError, (5, mkHeatTracker f1 16 [])).
Proof.
  exact (proj1 (pt_split_pieces_fail 0 7 ([("full_attention", 2)], None) (mkPtLayer None (Some "full_attention")) "full_attention" 2 4
    (mkHeatTracker f1 16 []) eq_refl eq_refl eq_refl)).
Defined.

(** One batch of two positions. *)
Lemma pt_aggregate_cells_witness :
  backend_aggregate 0 [(3, 1); (5, 2)] (Rank3 [[[3; 5]; [5; 3]]]) [[f1]] 7 = Ok (10 * 7 + 100 * 3 + (10 * 8 + 100 * 5)).
Proof.
  etransitivity; [apply (pt_aggregate_cells 0 (foldr Z.add 0) [(3, 1); (5, 2)] (fun eid => if decide (eid = 3) then 1 else 2)
    [[[3; 5]; [5; 3]]] [[f1]] 7 2)|reflexivity].
  - by intros [|x xs].
  - done.
  - lia.
  - intros row Hr. by apply list_elem_of_singleton in Hr as ->.
  - intros row ids Hr Hi. apply list_elem_of_singleton in Hr as ->. by repeat (apply elem_of_cons in Hi as [->|Hi]; [done|]); inversion Hi.
  - intros row ids eid Hr Hi He. apply list_elem_of_singleton in Hr as ->.
    repeat (apply elem_of_cons in Hi as [->|Hi]; [repeat (apply elem_of_cons in He as [->|He]; [reflexivity|]); inversion He|]). inversion Hi.
Defined.

End witnesses.
