(* ===== verification/PtLoad.v ===== *)
(** * pt_partial_load.load_model_partial: which weights a PyTorch shard loads

    The model is a tree of modules whose leaves are parameters and buffers,
    built without weights; the loader walks the checkpoint's index and puts the
    tensors of some names in place.  Reading a tensor, moving it to the device
    and re-tying the output head are the libraries'. *)
From Stdlib Require Import Ascii.
From S2P Require Import Prelude PyDict PyList.
Open Scope Z_scope.

(** ** Names of tensors *)

(** [name.split(".")] *)
Fixpoint split_dots (s : string) : list string :=
  match s with
  | EmptyString => [""]
  | String c s =>
      if decide (c = "."%char) then "" :: split_dots s
      else match split_dots s with
           | [] => [String c ""]
           | p :: ps => String c p :: ps
           end
  end.

Definition digit_of (c : ascii) : option Z :=
  let n := Z.of_N (N_of_ascii c) - 48 in if (0 <=? n) && (n <=? 9) then Some n else None.

(** What follows the prefix of the pattern: digits up to a dot, as an integer;
    None where the pattern does not match. *)
Fixpoint digits_then_dot (acc : option Z) (s : string) : option Z :=
  match s with
  | EmptyString => None
  | String c s =>
      match digit_of c with
      | Some n => digits_then_dot (Some (10 * default 0 acc + n)) s
      | None => if decide (c = "."%char) then acc else None
      end
  end.

Fixpoint strip_prefix (p s : string) : option string :=
  match p, s with
  | EmptyString, _ => Some s
  | String a p, String b s => if decide (a = b) then strip_prefix p s else None
  | _, _ => None
  end.

(** [layer_re.match(name)] and its first group *)
Definition layer_of_name (name : string) : option Z :=
  s ← strip_prefix "model.language_model.layers." name; digits_then_dot None s.

(** ** The module tree *)

Inductive PtAttr (C : Type) : Type :=
| PtParameter (t : C)
| PtBuffer (t : C)
| PtModule (attrs : list (string * PtAttr C))
| PtOther.
Arguments PtParameter {C} t.
Arguments PtBuffer {C} t.
Arguments PtModule {C} attrs.
Arguments PtOther {C}.

(** The attributes of a module; other objects have none of the names looked up. *)
Definition attrs_of {C} (obj : PtAttr C) : dict string (PtAttr C) :=
  match obj with
  | PtModule attrs => attrs
  | _ => []
  end.

Section load.
Context {C : Type}.
Implicit Types (obj model : PtAttr C) (parts : list string).

(** [_set_module_attr], from [obj] on *)
Fixpoint set_at obj parts (tensor : C) : result (PtAttr C) :=
  match parts with
  | [] => Raise IndexError
  | [leaf] =>
      match dict_get leaf (attrs_of obj) with
      | Some (PtParameter _) => Ok (PtModule (dict_set leaf (PtParameter tensor) (attrs_of obj)))
      | Some (PtBuffer _) => Ok (PtModule (dict_set leaf (PtBuffer tensor) (attrs_of obj)))
      | _ => Raise ValueError
      end
  | p :: parts =>
      o ← or_raise AttributeError (dict_get p (attrs_of obj));
      o' ← set_at o parts tensor;
      Ok (PtModule (dict_set p o' (attrs_of obj)))
  end.

Definition set_module_attr model (dotted_name : string) (tensor : C) : result (PtAttr C) :=
  set_at model (split_dots dotted_name) tensor.

(** ** load_model_partial *)

(** [handles[shard_file].get_tensor(tensor_name)], [.to(device=..., dtype=...)]
    and [model.tie_weights()] *)
Context (get_tensor : string -> string -> result C) (to_device : C -> C) (tie_weights : PtAttr C -> PtAttr C).

(** A tensor of a layer that is not among the keys. *)
Definition skipped (shard_layers : list Z) (tensor_name : string) : bool :=
  match shard_layers, layer_of_name tensor_name with
  | _ :: _, Some l => bool_decide (l ∉ shard_layers)
  | _, _ => false
  end.

Definition load_tensor (shard_layers : list Z) model (it : string * string) : result (PtAttr C) :=
  let '(tensor_name, shard_file) := it in
  if skipped shard_layers tensor_name then Ok model
  else full_tensor ← get_tensor shard_file tensor_name; set_module_attr model tensor_name (to_device full_tensor).

Definition load_model_partial (empty_model : PtAttr C) (weight_map : dict string string)
    (held_experts_per_layer : dict Z (list Z)) : result (PtAttr C) :=
  model ← foldM (load_tensor (dict_keys held_experts_per_layer)) empty_model weight_map;
  Ok (tie_weights model).

(** ** Reading a slot *)

Fixpoint slot_at obj parts : option C :=
  match parts with
  | [] => match obj with PtParameter t | PtBuffer t => Some t | _ => None end
  | p :: parts => o ← dict_get p (attrs_of obj); slot_at o parts
  end.

Definition slot model (name : string) : option C := slot_at model (split_dots name).

(** Setting a slot that exists succeeds and changes that slot only. *)
Lemma set_at_ok obj parts t t0 : parts <> [] -> slot_at obj parts = Some t0 ->
  exists obj', set_at obj parts t = Ok obj' /\ forall q, slot_at obj' q = if decide (q = parts) then Some t else slot_at obj q.
Proof.
  revert obj. induction parts as [|p parts IH]; intros obj Hne Hs; [done|]. cbn [slot_at] in Hs.
  destruct (dict_get p (attrs_of obj)) as [o|] eqn:Eo; [|done]. cbn [mbind option_bind] in Hs.
  assert (Hleafy : forall q, q <> [] -> slot_at obj q = slot_at (PtModule (attrs_of obj)) q) by (intros [|? ?] ?; done).
  assert (Hnil : slot_at obj [] = None).
  { destruct obj; try done; cbn in Eo; done. }
  assert (Hset : forall o', (forall q, slot_at o' q = if decide (q = parts) then Some t else slot_at o q) ->
    forall q, slot_at (PtModule (dict_set p o' (attrs_of obj))) q = if decide (q = p :: parts) then Some t else slot_at obj q).
  { intros o' Ho' [|q0 q]; [by rewrite Hnil|]. cbn [slot_at attrs_of]. rewrite dict_get_set. destruct (decide (q0 = p)) as [->|Hp].
    - cbn [mbind option_bind]. rewrite Ho', Eo. cbn [mbind option_bind].
      destruct (decide (q = parts)) as [->|Hq]; [by rewrite decide_True|by rewrite decide_False by congruence].
    - by rewrite decide_False by congruence. }
  destruct parts as [|p' parts].
  - cbn [set_at]. rewrite Eo. destruct o as [t1|t1|attrs|]; try done; eexists; (split; [reflexivity|]); apply Hset;
      intros [|q0 q]; cbn; try done; by rewrite decide_False.
  - destruct (IH o ltac:(done) Hs) as (o' & Ho' & Hq). eexists. split; [|apply Hset, Hq].
    change (set_at obj (p :: p' :: parts) t) with
      (o ← or_raise AttributeError (dict_get p (attrs_of obj)); o' ← set_at o (p' :: parts) t; Ok (PtModule (dict_set p o' (attrs_of obj)))).
    rewrite Eo. cbn [or_raise mbind result_bind]. by rewrite Ho'.
Qed.

(** Names are told apart by their parts. *)
Fixpoint join_dots parts : string :=
  match parts with
  | [] => ""
  | [p] => p
  | p :: parts => p ++ String "." (join_dots parts)
  end.

Lemma split_dots_cons s : exists p ps, split_dots s = p :: ps.
Proof. destruct s as [|c s]; cbn; [eauto|]. case_decide; [eauto|]. destruct (split_dots s); eauto. Qed.

Lemma join_split s : join_dots (split_dots s) = s.
Proof.
  induction s as [|c s IH]; [done|]. cbn [split_dots]. destruct (split_dots_cons s) as (p & ps & Hs). rewrite Hs in *.
  case_decide as Hc.
  - subst c. change (join_dots ("" :: p :: ps)) with (String "." (join_dots (p :: ps))). by rewrite IH.
  - destruct ps as [|p' ps]; cbn [join_dots] in *; [by rewrite IH|]. rewrite <- IH. done.
Qed.

#[export] Instance split_dots_inj : Inj (=) (=) split_dots.
Proof. intros s1 s2 He. rewrite <- (join_split s1), <- (join_split s2). by rewrite He. Qed.

Lemma set_module_attr_ok model name t t0 : slot model name = Some t0 ->
  exists model', set_module_attr model name t = Ok model' /\
    forall name', slot model' name' = if decide (name' = name) then Some t else slot model name'.
Proof.
  intros Hs. destruct (set_at_ok model (split_dots name) t t0) as (model' & Hm & Hq); [|done|].
  { destruct (split_dots_cons name) as (? & ? & ->). done. }
  exists model'. split; [done|]. intros name'. unfold slot. rewrite Hq.
  destruct (decide (name' = name)) as [->|Hne]; [by rewrite decide_True|]. rewrite decide_False; [done|].
  intros He. by apply (inj split_dots) in He.
Qed.

(** The tensor a name has after the loop. *)
Definition loaded (shard_layers : list Z) (weight_map : dict string string) model (name : string) : option C :=
  match dict_get name weight_map with
  | Some file => if skipped shard_layers name then slot model name
                 else match get_tensor file name with Ok t => Some (to_device t) | Raise _ => None end
  | None => slot model name
  end.

(** The checkpoint of the model: its names are slots, its files have them. *)
Definition checkpoint_ok (weight_map : dict string string) model : Prop :=
  dict_wf weight_map /\ forall name file, (name, file) ∈ weight_map ->
    is_Some (slot model name) /\ exists t, get_tensor file name = Ok t.

Lemma load_loop layers weight_map model : checkpoint_ok weight_map model ->
  exists model', foldM (load_tensor layers) model weight_map = Ok model' /\
    forall name, slot model' name = loaded layers weight_map model name.
Proof.
  revert model. induction weight_map as [|[name file] wm IH]; intros model [Hn Hw]; [by exists model|]. cbn [foldM load_tensor].
  apply NoDup_cons in Hn as [Hnot Hn]. cbn [fst] in Hnot.
  destruct (Hw name file ltac:(left)) as [[t0 Ht0] [t Ht]].
  destruct (skipped layers name) eqn:Es; cbn [mbind result_bind].
  - destruct (IH model) as (model' & Hm & Hs); [split; [done|]; intros; apply Hw; by right|].
    exists model'. split; [done|]. intros name'. rewrite Hs. unfold loaded. cbn [dict_get]. case_decide as Hd; [|done].
    subst. rewrite Es. apply dict_get_None in Hnot. by rewrite Hnot.
  - rewrite Ht. cbn [mbind result_bind]. destruct (set_module_attr_ok model name (to_device t) t0 Ht0) as (model1 & Hm1 & Hs1).
    rewrite Hm1. cbn [mbind result_bind]. destruct (IH model1) as (model' & Hm & Hs).
    { split; [done|]. intros name' file' Hin. destruct (Hw name' file' ltac:(by right)) as [Hsl Hg]. split; [|done].
      rewrite Hs1. by case_decide. }
    exists model'. split; [done|]. intros name'. rewrite Hs. unfold loaded. cbn [dict_get]. rewrite Hs1. case_decide as Hd; [|done].
    subst. apply dict_get_None in Hnot. by rewrite Hnot, Es, Ht.
Qed.

(** [tie_weights()] re-links the output head and leaves the rest. *)
Hypothesis tie_keeps : forall model name, name <> "lm_head.weight" -> slot (tie_weights model) name = slot model name.

(** C38: what a PyTorch shard loads. With a checkpoint of the model, the loader
    succeeds. A weight of a decoder layer is loaded, in full, exactly when the
    shard lists experts for that layer or lists none at all; the layers the
    shard is to run play no part, so those without listed experts stay without
    weights. Everything outside the layers is loaded. *)
Theorem pt_partial_load_layers empty_model weight_map held : checkpoint_ok weight_map empty_model ->
  exists model, load_model_partial empty_model weight_map held = Ok model /\
    forall name file t, (name, file) ∈ weight_map -> get_tensor file name = Ok t -> name <> "lm_head.weight" ->
      slot model name =
        match layer_of_name name with
        | Some l => if bool_decide (held = [] \/ l ∈ dict_keys held) then Some (to_device t) else slot empty_model name
        | None => Some (to_device t)
        end.
Proof.
  intros Hw. destruct (load_loop (dict_keys held) weight_map empty_model Hw) as (model & Hm & Hs).
  exists (tie_weights model). unfold load_model_partial. rewrite Hm. split; [done|]. intros name file t Hin Ht Hne.
  rewrite tie_keeps, Hs by done. unfold loaded. rewrite (dict_in_get _ _ _ (proj1 Hw) Hin), Ht. unfold skipped.
  destruct held as [|[l0 ids] held]; cbn [dict_keys fmap list_fmap fst].
  - destruct (layer_of_name name); [|done]. rewrite bool_decide_eq_true_2; [done|by left].
  - destruct (layer_of_name name) as [l|]; [|done]. destruct (decide (l ∈ l0 :: held.*1)).
    + rewrite bool_decide_eq_false_2 by tauto. by rewrite bool_decide_eq_true_2 by (by right).
    + rewrite bool_decide_eq_true_2 by done. rewrite bool_decide_eq_false_2; [done|]. by intros [?|?].
Qed.

End load.

(** ** Witness: experts listed for layer 15 only, as in config/shards.yaml; the
    shard runs layers 0 to 9 *)

Section witness.

(** 0 stands for a tensor without data. *)
Definition toy_layer : PtAttr Z := PtModule [("q_proj", PtModule [("weight", PtParameter 0)])].
Definition toy_tree : PtAttr Z :=
  PtModule [("model", PtModule [("language_model", PtModule
    [("embed_tokens", PtModule [("weight", PtParameter 0)]); ("layers", PtModule [("0", toy_layer); ("15", toy_layer)])])]);
    ("lm_head", PtModule [("weight", PtParameter 0)])].
Definition toy_weights : dict string string :=
  [("model.language_model.embed_tokens.weight", "a"); ("model.language_model.layers.0.q_proj.weight", "a");
   ("model.language_model.layers.15.q_proj.weight", "b")].
Definition toy_tensor (file name : string) : result Z := Ok (Z.of_nat (String.length name)).

Lemma toy_checkpoint : checkpoint_ok toy_tensor toy_weights toy_tree.
Proof.
  split; [apply (bool_decide_unpack _); vm_compute; exact I|]. intros name file Hin. split; [|by eexists].
  repeat (apply elem_of_cons in Hin as [[= -> ->]|Hin]; [by eexists|]). inversion Hin.
Qed.

Lemma pt_partial_load_layers_witness :
  exists model, load_model_partial toy_tensor (fun t => t) (fun m => m) toy_tree toy_weights [(15, [0; 2; 3])] = Ok model /\
    slot model "model.language_model.embed_tokens.weight" = Some 40 /\
    slot model "model.language_model.layers.15.q_proj.weight" = Some 44 /\
    slot model "model.language_model.layers.0.q_proj.weight" = Some 0.
Proof.
  destruct (pt_partial_load_layers toy_tensor (fun t => t) (fun m => m) ltac:(done) toy_tree toy_weights [(15, [0; 2; 3])] toy_checkpoint)
    as (model & Hm & Hs).
  exists model. split; [exact Hm|]. split; [|split].
  - exact (Hs "model.language_model.embed_tokens.weight" "a" 40 ltac:(left) eq_refl ltac:(done)).
  - exact (Hs "model.language_model.layers.15.q_proj.weight" "b" 44 ltac:(right; right; left) eq_refl ltac:(done)).
  - exact (Hs "model.language_model.layers.0.q_proj.weight" "a" 43 ltac:(right; left) eq_refl ltac:(done)).
Defined.

End witness.
