(* ===== verification/NodeState.v ===== *)
(** * node.py: configuration, state and connections of a node

    The fields of [Node] as a record of four parts: the holdings ([Migration]),
    the requests in flight, the outbound connection, the service counters.
    [_HeadRequestState] objects live in a store and are shared by reference
    between [_head_states] and the threads in the decode loop.  A write or a
    connect takes the next value of the argument [io]: whether it succeeds or
    raises OSError. *)
From S2P Require Import Prelude PyDict PyFloat PyList PyRandom Records SwimState.
From S2P Require Import Wire Messages Ownership Runner ShardMap Trackers Provenance Experts Effects Migration.
Open Scope Z_scope.

(** ** Environment flags *)

Abbreviation environ := (dict string string).

(** [s.lower()] on ASCII *)
Definition lower_ascii (c : Ascii.ascii) : Ascii.ascii :=
  let n := Ascii.nat_of_ascii c in
  if (65 <=? n)%nat && (n <=? 90)%nat then Ascii.ascii_of_nat (n + 32) else c.
Fixpoint lower (s : string) : string :=
  match s with
  | String.EmptyString => String.EmptyString
  | String.String c s => String.String (lower_ascii c) (lower s)
  end.

Definition env_get (name default_ : string) (env : environ) : string := default default_ (dict_get name env).
Definition truthy (s : string) : bool := bool_decide (lower s ∈ ["1"; "true"; "yes"]).

Definition gossip_enabled (env : environ) : bool :=
  negb (bool_decide (lower (env_get "ENABLE_GOSSIP" "true" env) ∈ ["0"; "false"; "no"])).
Definition expert_shard_enabled (env : environ) : bool := truthy (env_get "ENABLE_EXPERT_SHARD" "false" env).
Definition partial_load_enabled (env : environ) : bool := truthy (env_get "ENABLE_PARTIAL_LOAD" "false" env).
Definition dynamic_migration_enabled (env : environ) : bool := truthy (env_get "ENABLE_DYNAMIC_MIGRATION" "false" env).
Definition expert_retry_enabled (env : environ) : bool := truthy (env_get "ENABLE_EXPERT_RETRY" "true" env).
Definition provenance_enabled (env : environ) : bool := truthy (env_get "ENABLE_PROVENANCE" "false" env).
Definition eviction_enabled_env (env : environ) : bool := truthy (env_get "ENABLE_EVICTION" "true" env).

Inductive BackendKind : Type := MLX | PyTorch.

(** [_default_backend]: [metal] is what asking MLX for Metal gives, None when
    the import fails. *)
Definition default_backend (env : environ) (metal : option bool) : BackendKind :=
  let e := lower (env_get "MODEL_SHARD_BACKEND" "" env) in
  if decide (e = "pytorch") then PyTorch
  else if decide (e = "mlx") then MLX
  else match metal with
       | Some true => MLX
       | _ => PyTorch
       end.

(** ** Topology *)

(** [_resolve_downstream]: the shard that continues where this one ends, the
    head for the tail. *)
Fixpoint first_peer (self : ShardSpec) (target_start : Z) (peers : list ShardSpec) : option ShardSpec :=
  match peers with
  | [] => None
  | peer :: peers =>
      if decide (ss_start peer = target_start /\ ss_shard_id peer <> ss_shard_id self) then Some peer
      else first_peer self target_start peers
  end.

Definition resolve_downstream (shard : ShardSpec) (m : ShardMap) (total_layers : Z) : result ShardSpec :=
  let target_start := if ss_end shard =? total_layers then 0 else ss_end shard in
  or_raise ValueError (first_peer shard target_start (dict_values (entries m))).

Record NodeConfig : Type := mkConfig {
  nc_shard : ShardSpec;
  nc_map : ShardMap;
  nc_total_layers : Z;
  nc_provenance : bool;
  nc_downstream : ShardSpec;
  nc_split_layers : list Z;
}.

Definition is_head (c : NodeConfig) : bool := ss_start (nc_shard c) =? 0.
Definition is_tail (c : NodeConfig) : bool := ss_end (nc_shard c) =? nc_total_layers c.
(** [self._orchestrator is not None] *)
Definition has_orchestrator (c : NodeConfig) : bool := negb (bool_decide (nc_split_layers c = [])).

(** [_shard_lookup], [_split_layers_for_shard] *)
Definition shard_lookup (m : ShardMap) (shard_id : string) : Z * Z :=
  match lookup_shard shard_id m with
  | Ok spec => (ss_start spec, ss_end spec)
  | Raise _ => (0, 0)
  end.
Definition split_layers_for_shard (m : ShardMap) (shard_id : string) : list Z :=
  match lookup_shard shard_id m with
  | Ok spec => dict_keys (ss_moe spec)
  | Raise _ => []
  end.

(** What [_build_expert_orchestrator] passes on: the owners of an expert id, in
    the shard map and now, over all the split layers of this node. *)
Definition orchestrator_owners (c : NodeConfig) : dict string (list Z) :=
  (fun it : string * ShardSpec =>
     (it.1, foldl (fun ids l => foldl (fun ids e => set_add e ids) ids (default [] (dict_get l (ss_moe it.2)))) []
              (nc_split_layers c))) <$> (entries (nc_map c) : list _).
Definition live_owners_for_expert (c : NodeConfig) (eid : Z) (v : own_map) : list string :=
  foldl (fun r l => foldl (fun r w => set_add w r) r (owners_of l eid v)) [] (nc_split_layers c).

(** ** State *)

Inductive Stream : Type :=
| Inbound (conn : nat)
| Outbound (conn : nat).

Inductive NetEvent : Type :=
| Connected (conn : nat) (host : string) (port : Z)
| Sent (s : Stream) (env : Envelope) (payload : bytes)
| Closed (s : Stream).

(** [_HeadRequestState] *)
Record HeadState : Type := mkHead {
  hs_client : Stream;
  hs_max_new_tokens : Z;
  hs_generated : Z;
  hs_queue : list Z;
}.

(** The outbound connection, and everything the node did on the network. *)
Record Net : Type := mkNet {
  net_out : option nat;
  net_conns : nat;
  net_ops : nat;
  net_log : list NetEvent;
}.

(** The requests: caches, head states (references), their store, the threads in
    the decode loop, and the tail's pending finalize entries. *)
Record Requests {T K : Type} : Type := mkRequests {
  rs_kv : dict string K;
  rs_heads : dict string nat;
  rs_store : list HeadState;
  rs_threads : list (string * nat);
  rs_pending : dict string ProvenanceEntry;
  rs_captures : dict string (list (Z * T));
}.
Arguments Requests : clear implicits.
Arguments mkRequests {T K}.

(** The expert service: in-flight requests, their tracker, aborted peers. *)
Record Service : Type := mkService {
  sv_in_flight : Z;
  sv_load : LoadTracker;
  sv_aborted : list string;
}.

Record NodeState {T K C R : Type} : Type := mkNode {
  n_own : OwnNode C R;
  n_req : Requests T K;
  n_net : Net;
  n_srv : Service;
}.
Arguments NodeState : clear implicits.
Arguments mkNode {T K C R}.

Section state.
Context {T K C R : Type}.
Abbreviation State := (NodeState T K C R).
Implicit Types (n : State).

Definition set_own o n : State := mkNode o (n_req n) (n_net n) (n_srv n).
Definition set_req q n : State := mkNode (n_own n) q (n_net n) (n_srv n).
Definition set_net t n : State := mkNode (n_own n) (n_req n) t (n_srv n).
Definition set_srv v n : State := mkNode (n_own n) (n_req n) (n_net n) v.

Definition on_own {A} : eff (OwnNode C R) A -> eff State A := focus n_own set_own.
Definition on_req {A} : eff (Requests T K) A -> eff State A := focus n_req set_req.
Definition on_net {A} : eff Net A -> eff State A := focus n_net set_net.
Definition on_srv {A} : eff Service A -> eff State A := focus n_srv set_srv.

End state.

Section requests.
Context {T K : Type}.
Implicit Types (q : Requests T K).
Definition set_kv kv q : Requests T K := mkRequests kv (rs_heads q) (rs_store q) (rs_threads q) (rs_pending q) (rs_captures q).
Definition set_heads h q : Requests T K := mkRequests (rs_kv q) h (rs_store q) (rs_threads q) (rs_pending q) (rs_captures q).
Definition set_store s q : Requests T K := mkRequests (rs_kv q) (rs_heads q) s (rs_threads q) (rs_pending q) (rs_captures q).
Definition set_threads ts q : Requests T K := mkRequests (rs_kv q) (rs_heads q) (rs_store q) ts (rs_pending q) (rs_captures q).
Definition set_pending p q : Requests T K := mkRequests (rs_kv q) (rs_heads q) (rs_store q) (rs_threads q) p (rs_captures q).
Definition set_captures c q : Requests T K := mkRequests (rs_kv q) (rs_heads q) (rs_store q) (rs_threads q) (rs_pending q) c.

(** [state.token_queue.put(t)] on the object at a reference *)
Definition put_token (t : Z) (h : HeadState) : HeadState :=
  mkHead (hs_client h) (hs_max_new_tokens h) (hs_generated h) (hs_queue h ++ [t]).
Definition put_at (ref : nat) (t : Z) q : Requests T K := set_store (alter (put_token t) ref (rs_store q)) q.

(** [self._kv_caches.pop(rid, None); self._head_states.pop(rid, None)] *)
Definition drop_request (rid : string) q : Requests T K :=
  set_heads (dict_pop rid (rs_heads q)) (set_kv (dict_pop rid (rs_kv q)) q).

End requests.

(** ** The network *)

Section net.
Context (io : nat -> bool).

(** One connect or write. *)
Definition net_op : eff Net unit := fun t =>
  (if io (net_ops t) then Ok tt else Raise OSError, mkNet (net_out t) (net_conns t) (S (net_ops t)) (net_log t)).

Definition log_event (e : NetEvent) : eff Net unit :=
  modify (fun t => mkNet (net_out t) (net_conns t) (net_ops t) (net_log t ++ [e])).

(** [send_envelope(stream, env, raw)] *)
Definition send (s : Stream) (env : Envelope) (raw : bytes) : eff Net unit :=
  _ ← net_op; log_event (Sent s env raw).

(** [_ensure_out_stream] *)
Definition ensure_out_stream (downstream : ShardSpec) : eff Net nat := fun t =>
  match net_out t with
  | Some k => (Ok k, t)
  | None => (_ ← net_op;
             k ← gets net_conns;
             _ ← modify (fun t => mkNet (Some k) (S k) (net_ops t) (net_log t));
             _ ← log_event (Connected k (na_host (ss_address downstream)) (na_port (ss_address downstream)));
             mret k) t
  end.

(** [_write_out] *)
Definition write_out (downstream : ShardSpec) (env : Envelope) (raw : bytes) : eff Net unit :=
  k ← ensure_out_stream downstream; send (Outbound k) env raw.

(** [_close_outbound]; errors while closing are suppressed. *)
Definition close_outbound : eff Net unit := modify (fun t =>
  match net_out t with
  | None => t
  | Some k => mkNet None (net_conns t) (net_ops t) (net_log t ++ [Closed (Outbound k)])
  end).

(** [_send_error] *)
Definition send_error (s : Stream) (request_id : string) (code : Z) (detail : string) : eff Net unit :=
  env ← lift (error_envelope request_id code detail); send s env [].

End net.

Definition is_os_error (e : exn) : bool := bool_decide (e = OSError).
