(* ===== verification/Settings.v ===== *)
(** * node.py: the numbers in the environment

    [int] and [str.split] and [str.strip] on ASCII text, the numeric settings of
    a node, and what [Node.__init__] makes of them: the policy of the migration
    scanner and the parameters of the expert orchestrator.  How [float] reads a
    string is an argument. *)
From S2P Require Import Prelude PyDict PyFloat PyList PyRandom Records SwimState.
From S2P Require Import Ownership ShardMap Experts Effects Migration NodeState.
From Stdlib Require Import Ascii DecimalString DecimalFacts DecimalPos DecimalN DecimalZ.
Open Scope Z_scope.

(** ** Python's strings *)

Definition is_space (c : Ascii.ascii) : bool :=
  let n := Ascii.nat_of_ascii c in ((9 <=? n) && (n <=? 13) || (28 <=? n) && (n <=? 32))%nat.

(** [s.strip()] *)
Fixpoint lstrip (s : string) : string :=
  match s with
  | String.EmptyString => ""
  | String.String c s' => if is_space c then lstrip s' else s
  end.
Fixpoint rstrip (s : string) : string :=
  match s with
  | String.EmptyString => ""
  | String.String c s =>
      let s := rstrip s in if is_space c && bool_decide (s = "") then "" else String.String c s
  end.
Definition strip (s : string) : string := rstrip (lstrip s).

(** [s.split(sep)] *)
Fixpoint split_on (sep : Ascii.ascii) (s : string) : list string :=
  match s with
  | String.EmptyString => [""]
  | String.String c s =>
      if Ascii.eqb c sep then "" :: split_on sep s
      else match split_on sep s with
           | [] => []
           | x :: xs => String.String c x :: xs
           end
  end.

Definition digit (c : Ascii.ascii) : option Z :=
  let n := Ascii.nat_of_ascii c in if ((48 <=? n) && (n <=? 57))%nat then Some (Z.of_nat n - 48) else None.

(** The digits of an integer, single underscores between them allowed;
    [after] says that the character before was a digit. *)
Fixpoint digits (after : bool) (acc : Z) (s : string) : option Z :=
  match s with
  | String.EmptyString => if after then Some acc else None
  | String.String c s =>
      match digit c with
      | Some d => digits true (10 * acc + d) s
      | None => if after && Ascii.eqb c "_"%char then digits false acc s else None
      end
  end.
Fixpoint count_digits (s : string) : nat :=
  match s with
  | String.EmptyString => 0
  | String.String c s => match digit c with Some _ => 1 | None => 0 end + count_digits s
  end.
Definition signed (s : string) : option Z :=
  match s with
  | String.String "-"%char s => Z.opp <$> digits false 0 s
  | String.String "+"%char s => digits false 0 s
  | _ => digits false 0 s
  end.
(** The limit of [sys.get_int_max_str_digits]. *)
Definition INT_MAX_STR_DIGITS : nat := 43 * 100.

(** [int(s)] *)
Definition py_int_of (s : string) : result Z :=
  let s := strip s in
  _ ← require (count_digits s <=? INT_MAX_STR_DIGITS)%nat ValueError;
  or_raise ValueError (signed s).

(** ** The settings *)

(** [_expert_retry_max_attempts], [_expert_retry_backoff_ms] *)
Definition expert_retry_max_attempts (env : environ) : result Z :=
  if expert_retry_enabled env then py_int_of (env_get "EXPERT_RETRY_MAX_ATTEMPTS" "3" env) else Ok 1.
Definition expert_retry_backoff_ms (env : environ) : result (list Z) :=
  mapR (fun x => py_int_of (strip x))
    (filter (fun x => strip x <> "") (split_on ","%char (env_get "EXPERT_RETRY_BACKOFF_MS" "100,500" env))).

Section settings.
Context (float_of : string -> result float).

Definition migration_scan_interval_s (env : environ) : result float := float_of (env_get "MIGRATION_SCAN_INTERVAL_SECONDS" "10.0" env).
Definition migration_heat_threshold (env : environ) : result Z := py_int_of (env_get "MIGRATION_HEAT_THRESHOLD" "50" env).
Definition migration_max_experts_per_layer (env : environ) : result Z := py_int_of (env_get "MIGRATION_MAX_EXPERTS_PER_LAYER" "128" env).
Definition migration_evict_cooldown_s (env : environ) : result float := float_of (env_get "MIGRATION_EVICT_COOLDOWN_SECONDS" "30.0" env).

(** The policy [Node.__init__] gives the scanner. *)
Definition migration_policy (env : environ) : result MigrationPolicy :=
  scan_interval ← migration_scan_interval_s env;
  threshold ← migration_heat_threshold env;
  max_experts ← migration_max_experts_per_layer env;
  cooldown ← migration_evict_cooldown_s env;
  Ok (mkPolicy scan_interval threshold max_experts cooldown (eviction_enabled_env env)).

(** The arguments of [ExpertOrchestrator] in [_build_expert_orchestrator] that
    do not change afterwards; [rpc_timeout_s] is the float 30.0. *)
Record OrchestratorSettings : Type := mkSettings {
  os_self : string;
  os_owners : dict string (list Z);
  os_addresses : dict string (string * Z);
  os_timeout_s : Z;
  os_max_attempts : Z;
  os_backoff_ms : list Z;
}.

(** The addresses given to [TcpPeerRPC], and to the scanner's client. *)
Definition peer_addresses (c : NodeConfig) : dict string (string * Z) :=
  (fun it : string * ShardSpec => (it.1, (na_host (ss_address it.2), na_port (ss_address it.2)))) <$>
  filter (fun it : string * ShardSpec => it.1 <> ss_shard_id (nc_shard c)) (entries (nc_map c) : list _).

Definition build_expert_orchestrator (env : environ) (c : NodeConfig) : result OrchestratorSettings :=
  attempts ← expert_retry_max_attempts env;
  backoff ← expert_retry_backoff_ms env;
  Ok (mkSettings (ss_shard_id (nc_shard c)) (orchestrator_owners c) (peer_addresses c) 30 attempts backoff).

End settings.

(** ** Numbers are read back *)

(** No character of [s] is white space or [sep]. *)
Fixpoint chars (P : Ascii.ascii -> bool) (s : string) : bool :=
  match s with
  | String.EmptyString => true
  | String.String c s => P c && chars P s
  end.
Definition dark (c : Ascii.ascii) : bool := negb (is_space c) && negb (Ascii.eqb c ","%char).
Definition blank (c : Ascii.ascii) : bool := is_space c.

Lemma cons_app c s t : String.String c s +:+ t = String.String c (s +:+ t).
Proof. done. Qed.

Lemma chars_app P s t : chars P (s +:+ t) = chars P s && chars P t.
Proof. induction s as [|c s IH]; [done|]. rewrite cons_app. cbn. rewrite IH. by destruct (P c). Qed.

Lemma uint_dark u : chars dark (NilEmpty.string_of_uint u) = true.
Proof. induction u; cbn; done. Qed.

Lemma fmt_dark n : chars dark (fmt_Z n) = true /\ fmt_Z n <> "".
Proof.
  unfold fmt_Z. pose proof (DecimalZ.of_to n) as Hn. destruct (Z.to_int n) as [u|u] eqn:E.
  - split; [apply uint_dark|]. intros He. destruct u; try discriminate He.
    cbn in Hn. subst n. discriminate E.
  - split; [cbn; apply uint_dark|done].
Qed.

Lemma lstrip_blank s t : chars blank s = true -> lstrip (s +:+ t) = lstrip t.
Proof. induction s as [|c s IH]; [done|]. rewrite cons_app. cbn. unfold blank at 1. intros [-> ?]%andb_true_iff. by apply IH. Qed.

Lemma lstrip_dark s t : chars dark s = true -> s <> "" -> lstrip (s +:+ t) = s +:+ t.
Proof. destruct s as [|c s]; [done|]. rewrite cons_app. cbn. intros [Hc _]%andb_true_iff _. unfold dark in Hc. by destruct (is_space c). Qed.

Lemma rstrip_blank s : chars blank s = true -> rstrip s = "".
Proof. induction s as [|c s IH]; [done|]. cbn. unfold blank at 1. intros [-> ?]%andb_true_iff. by rewrite IH. Qed.

Lemma rstrip_dark s t : chars dark s = true -> chars blank t = true -> rstrip (s +:+ t) = s.
Proof.
  intros Hs Ht. induction s as [|c s IH]; [by apply rstrip_blank|]. rewrite cons_app. cbn in Hs |- *. apply andb_true_iff in Hs as [Hc Hs].
  rewrite IH by done. unfold dark in Hc. by destruct (is_space c).
Qed.

(** White space around dark text. *)
Lemma strip_padded l s r : chars blank l = true -> chars dark s = true -> s <> "" -> chars blank r = true ->
  strip (l +:+ s +:+ r) = s.
Proof. intros Hl Hs Hne Hr. unfold strip. rewrite lstrip_blank, lstrip_dark by done. by apply rstrip_dark. Qed.

Lemma digits_step after acc c d s : digit c = Some d -> digits after acc (String.String c s) = digits true (10 * acc + d) s.
Proof. intros Hd. cbn. by rewrite Hd. Qed.

Lemma digits_acc u p after : after = true \/ u <> Decimal.Nil ->
  digits after (Zpos p) (NilEmpty.string_of_uint u) = Some (Zpos (Pos.of_uint_acc u p)).
Proof.
  revert p after. induction u as [|u IH|u IH|u IH|u IH|u IH|u IH|u IH|u IH|u IH|u IH]; intros p after Ha;
    [by destruct Ha as [->|]|..]; cbn [NilEmpty.string_of_uint Pos.of_uint_acc];
    (erewrite digits_step; [|vm_compute; reflexivity]); rewrite <- IH with (after := true) by (by left); f_equal; lia.
Qed.

Lemma digits_uint u after : after = true \/ u <> Decimal.Nil ->
  digits after 0 (NilEmpty.string_of_uint u) = Some (Z.of_uint u).
Proof.
  unfold Z.of_uint. revert after. induction u as [|u IH|u IH|u IH|u IH|u IH|u IH|u IH|u IH|u IH|u IH]; intros after Ha;
    [by destruct Ha as [->|]|..]; cbn [NilEmpty.string_of_uint Pos.of_uint];
    (erewrite digits_step; [|vm_compute; reflexivity]); [apply IH; by left|..]; cbn [Z.of_N];
    rewrite <- digits_acc with (after := true) by (by left); f_equal.
Qed.

(** [int(str(n)) == n], within the limit on digits, and with white space around. *)
Definition short (n : Z) : Prop := (count_digits (fmt_Z n) <= INT_MAX_STR_DIGITS)%nat.

Lemma py_int_of_strip s s' : strip s = strip s' -> py_int_of s = py_int_of s'.
Proof. unfold py_int_of. by intros ->. Qed.

Lemma signed_fmt n : signed (fmt_Z n) = Some n.
Proof.
  unfold fmt_Z. pose proof (DecimalZ.of_to n) as Ho. destruct (Z.to_int n) as [u|u] eqn:E; cbn [NilEmpty.string_of_int].
  - assert (u <> Decimal.Nil) as Hu by (intros ->; cbn in Ho; subst n; discriminate E).
    assert (signed (NilEmpty.string_of_uint u) = digits false 0 (NilEmpty.string_of_uint u)) as -> by by destruct u.
    rewrite digits_uint by (by right). by rewrite <- Ho.
  - assert (u <> Decimal.Nil) as Hu by (intros ->; cbn in Ho; subst n; discriminate E).
    cbn [signed]. rewrite digits_uint by (by right). cbn. by rewrite <- Ho.
Qed.

Lemma py_int_padded l n r : chars blank l = true -> chars blank r = true -> short n -> py_int_of (l +:+ fmt_Z n +:+ r) = Ok n.
Proof.
  intros Hl Hr Hn. destruct (fmt_dark n) as [Hd Hne]. unfold py_int_of. rewrite strip_padded by done.
  unfold short in Hn. apply Nat.leb_le in Hn as ->. cbn [require mbind result_bind]. by rewrite signed_fmt.
Qed.

(** *** Lists of numbers *)

Definition comma_free (s : string) : Prop := chars (fun c => negb (Ascii.eqb c ","%char)) s = true.

Lemma split_piece s t : comma_free s -> split_on ","%char (s +:+ String.String ","%char t) = s :: split_on ","%char t.
Proof.
  unfold comma_free. induction s as [|c s IH]; [done|]. rewrite cons_app. cbn. intros [Hc Hs]%andb_true_iff.
  destruct (Ascii.eqb c ","%char); [done|]. by rewrite IH.
Qed.

Lemma split_last s : comma_free s -> split_on ","%char s = [s].
Proof.
  unfold comma_free. induction s as [|c s IH]; [done|]. cbn. intros [Hc Hs]%andb_true_iff.
  destruct (Ascii.eqb c ","%char); [done|]. by rewrite IH.
Qed.

Lemma split_concat ps : ps <> [] -> Forall comma_free ps -> split_on ","%char (String.concat "," ps) = ps.
Proof.
  intros Hne Hp. induction Hp as [|p ps Hp Hps IH]; [done|]. destruct ps as [|q ps]; [by apply split_last|].
  change (String.concat "," (p :: q :: ps)) with (p +:+ String.String ","%char (String.concat "," (q :: ps))).
  rewrite split_piece by done. f_equal. by apply IH.
Qed.

(** A number, or nothing, with white space on both sides. *)
Definition spell (piece : string * option Z * string) : string :=
  piece.1.1 +:+ match piece.1.2 with Some n => fmt_Z n | None => "" end +:+ piece.2.
Definition spelled (piece : string * option Z * string) : Prop :=
  chars blank piece.1.1 = true /\ chars blank piece.2 = true /\ match piece.1.2 with Some n => short n | None => True end.

Lemma chars_weaken (P Q : Ascii.ascii -> bool) s : (forall c, P c = true -> Q c = true) -> chars P s = true -> chars Q s = true.
Proof. intros HP. induction s as [|c s IH]; [done|]. cbn. rewrite !andb_true_iff. naive_solver. Qed.

Lemma blank_comma s : chars blank s = true -> comma_free s.
Proof. apply chars_weaken. intros c Hc. destruct (Ascii.eqb_spec c ","%char) as [->|]; [discriminate Hc|done]. Qed.

Lemma dark_comma s : chars dark s = true -> comma_free s.
Proof. apply chars_weaken. intros c. unfold dark. rewrite andb_true_iff. by intros []. Qed.

Lemma spell_comma piece : spelled piece -> comma_free (spell piece).
Proof.
  intros (Hl & Hr & _). unfold spell, comma_free. rewrite !chars_app, !andb_true_iff.
  split; [by apply blank_comma|]. split; [|by apply blank_comma].
  destruct piece.1.2; [|done]. apply dark_comma, fmt_dark.
Qed.

Lemma app_empty s : s +:+ "" = s.
Proof. induction s as [|c s IH]; [done|]. by rewrite cons_app, IH. Qed.

Lemma strip_spell piece : spelled piece -> strip (spell piece) = match piece.1.2 with Some n => fmt_Z n | None => "" end.
Proof.
  intros (Hl & Hr & _). unfold spell. destruct piece.1.2 as [n|].
  - destruct (fmt_dark n). by apply strip_padded.
  - unfold strip. rewrite lstrip_blank by done. rewrite <- (app_empty piece.2). change ("" +:+ ?s) with s.
    by rewrite lstrip_blank.
Qed.

Lemma py_int_fmt n : short n -> py_int_of (fmt_Z n) = Ok n.
Proof. intros Hn. pose proof (py_int_padded "" n "" eq_refl eq_refl Hn) as Hp. by rewrite app_empty in Hp. Qed.

(** The retry schedule is what the variable spells: the numbers between the
    commas, whatever white space is around them; blank entries are skipped. *)
Theorem backoff_schedule_read env pieces : pieces <> [] -> Forall spelled pieces ->
  env_get "EXPERT_RETRY_BACKOFF_MS" "100,500" env = String.concat "," (spell <$> pieces) ->
  expert_retry_backoff_ms env = Ok (omap (fun piece => piece.1.2) pieces).
Proof.
  intros Hne Hp Hv. unfold expert_retry_backoff_ms. rewrite Hv, split_concat.
  2: { by destruct pieces. }
  2: { apply Forall_fmap. eapply Forall_impl; [exact Hp|apply spell_comma]. }
  clear Hne Hv. induction Hp as [|piece pieces Hp Hps IH]; [done|]. pose proof (strip_spell _ Hp) as Hs.
  cbn [fmap list_fmap]. rewrite filter_cons. destruct Hp as (_ & _ & Hn). cbn [omap list_omap].
  destruct piece.1.2 as [n|].
  - rewrite decide_True by (rewrite Hs; apply fmt_dark). cbn [mapR]. rewrite Hs.
    rewrite py_int_fmt by done. cbn [mbind result_bind]. by rewrite IH.
  - rewrite decide_False by (rewrite Hs; by intros ?). apply IH.
Qed.

Example default_backoff : expert_retry_backoff_ms [] = Ok [100; 500].
Proof. reflexivity. Qed.

(** A negative delay is accepted here; [time.sleep] refuses it when a call fails. *)
Example negative_backoff : expert_retry_backoff_ms [("EXPERT_RETRY_BACKOFF_MS", " 50,, -5 ")] = Ok [50; -5].
Proof. reflexivity. Qed.
