(* ===== verification/NodeInit.v ===== *)
(** * node.py: the construction of a node

    [Node.__init__]: the trackers, the membership runner, the backend, the
    migration scanner's policy and the expert orchestrator, in the order of the
    code, each with what it raises.  The arguments are what the code calls:
    [float] on strings, the loader of a model, and [bind] on a UDP port, by the
    port. *)
From S2P Require Import Prelude PyDict PyFloat PyList PyRandom Records SwimState.
From S2P Require Import Ownership Runner ShardMap Trackers Experts Effects Migration NodeState Settings.
Open Scope Z_scope.

Section init.
Context {T K C R : Type} `{StackLib C} `{RandomSource R}.
Context (float_of : string -> result float) (load_model : string -> list (list (Attr C))) (udp_bind : Z -> result unit).

(** [_build_membership_runner]; the runner opens its socket last. *)
Definition build_membership_runner (shard : ShardSpec) (m : ShardMap) (rng : R) (wall_clock_s : Z) : result (MembershipRunner R) :=
  let peer (s : ShardSpec) := mkPeer (ss_shard_id s) (na_host (ss_address s)) (ss_udp_port s) in
  let others := filter (fun it : string * ShardSpec => it.1 <> ss_shard_id shard) (entries m : list _) in
  r ← init_runner (peer shard)
        ((fun it : string * ShardSpec => mkPeer it.1 (na_host (ss_address it.2)) (ss_udp_port it.2)) <$> others)
        default_config rng (sm_model_id m) wall_clock_s;
  _ ← udp_bind (ss_udp_port shard);
  Ok (register_ownership_observer r).

(** The backend [__init__] ends up with: an explicit one, else the model it
    loads, sliced or whole. *)
Definition build_backend (env : environ) (shard : ShardSpec) (m : ShardMap) (given : option (LoadedModel C))
    : result (LoadedModel C) :=
  match given with
  | Some lm => Ok lm
  | None =>
      if decide (sm_model_id m = "") then Raise RuntimeError
      else if partial_load_enabled env && negb (bool_decide (ss_moe shard = []))
      then load_model_partial (load_model (sm_model_id m)) (ss_moe shard)
      else Ok (mkModel (load_model (sm_model_id m)) [])
  end.

(** [set(ids)] of each layer *)
Definition initial_live (shard : ShardSpec) : dict Z (list Z) :=
  (fun it : Z * list Z => (it.1, foldl (fun s e => set_add e s) [] it.2)) <$> (ss_moe shard : list _).

(** What [Node.__init__] does before it has a model: the trackers, the
    downstream shard, and the membership runner, which it starts. *)
Definition before_model (env : environ) (shard : ShardSpec) (m : ShardMap) (total_layers : Z) (rng : R) (wall_clock_s : Z)
    : result (HeatTracker * LoadTracker * ShardSpec * option (MembershipRunner R)) :=
  _ ← require (negb (dynamic_migration_enabled env && negb (partial_load_enabled env))) ValueError;
  heat ← init_heat (flit 3 1) 16;
  load ← init_load (flit 3 1) (flit 1 1);
  downstream ← resolve_downstream shard m total_layers;
  membership ← (if gossip_enabled env
                then r ← build_membership_runner shard m rng wall_clock_s;
                     Ok (Some (subscribe (start_heat_source (start_load_source r))))
                else Ok None);
  Ok (heat, load, downstream, membership).

(** The scanner of [__init__]: its policy; its other arguments are references
    to the node's fields. *)
Definition build_scanner (env : environ) : result (option MigrationPolicy) :=
  if dynamic_migration_enabled env then Some <$> migration_policy float_of env else Ok None.

(** [_split_layers] and [_orchestrator] *)
Definition split_layers_of (env : environ) (shard : ShardSpec) : list Z :=
  if expert_shard_enabled env then filter (fun l => ss_start shard <= l < ss_end shard) (dict_keys (ss_moe shard)) else [].
Definition build_orchestrator (env : environ) (c : NodeConfig) : result (option OrchestratorSettings) :=
  if has_orchestrator c then Some <$> build_expert_orchestrator env c else Ok None.

(** [Node.__init__]; what it raises after [before_model] leaves the membership
    threads running ([Lifecycle]). *)
Definition init_node (env : environ) (shard : ShardSpec) (m : ShardMap) (given : option (LoadedModel C)) (total_layers : Z)
    (rng : R) (wall_clock_s : Z) : result (NodeConfig * NodeState T K C R) :=
  '(heat, load, downstream, membership) ← before_model env shard m total_layers rng wall_clock_s;
  model ← build_backend env shard m given;
  let cfg := mkConfig shard m total_layers (provenance_enabled env) downstream (split_layers_of env shard) in
  _ ← build_scanner env;
  _ ← build_orchestrator env cfg;
  Ok (cfg,
      mkNode (mkOwn 0 model (initial_live shard) [] (seed_view m) heat membership false)
        (mkRequests [] [] [] [] [] []) (mkNet None 0 0 []) (mkService 0 load [])).

End init.
