(* ===== verification/NodeHandlers.v ===== *)
(** * node.py: the message handlers and the decode loop

    Each handler of [Node] is a computation over [NodeState].  The threads of
    the process are interleaved at the points where the code blocks: a
    connection thread dispatches one envelope, a decode thread that waits in
    [token_queue.get()] is resumed for one round, the gossip thread reports one
    transition ([node_step]).  The compute backend is the class [NodeBackend];
    running the node's layers ([Engine.run_my_layers]) is an argument, and so
    is [render], the text of the messages. *)
From S2P Require Import Prelude PyDict PyFloat PyList PyRandom Records SwimState.
From S2P Require Import Wire Messages Ownership Runner ShardMap Trackers Provenance Experts Effects Migration.
From S2P Require Import NodeState.
Open Scope Z_scope.

(** The f-strings of the error replies. *)
Inductive Detail : Type :=
| DNotHead
| DNotAlive (sid : string)
| DException (e : exn)
| DDownstream (e : exn)
| DEmptyIds (layer : Z)
| DNotHosted (missing : list Z) (layer : Z)
| DByteCount (declared actual : Z)
| DExecution (e : exn).

Definition POISON_TOKEN : Z := -1.

Class NodeBackend (T K C : Type) := {
  nb_wire :: TensorWire T;
  nb_weights :: TensorWire C;
  nb_make_cache : K;
  nb_embed : list Z -> T;
  nb_finalize : T -> T;
  nb_argmax_last : T -> Z;
  nb_run_selected : LoadedModel C -> Z -> T -> list Z -> result (dict Z T);
  nb_stack : list T -> result T;
}.

Section handlers.
Context {T K C R : Type} `{StackLib C} `{RandomSource R} `{NodeBackend T K C}.
Context (cfg : NodeConfig) (io : nat -> bool) (render : Detail -> string) (now : float).
Context (run_layers : T -> option (list ProvenanceEntry) -> eff K (T * option (list ProvenanceEntry))).
Abbreviation State := (NodeState T K C R).
Abbreviation chain_t := (option (list ProvenanceEntry)).
Implicit Types (n : State).

Definition me : string := ss_shard_id (nc_shard cfg).

Definition reply_error (s : Stream) (rid : string) (code : Z) (d : Detail) : eff State unit :=
  on_net (send_error io s rid code (render d)).
Definition quietly (m : eff State unit) : eff State unit := suppress is_os_error m.

(** [_unavailable_peer] *)
Fixpoint first_not_alive (view : dict string MemberRecord) (sids : list string) : option string :=
  match sids with
  | [] => None
  | sid :: sids =>
      match dict_get sid view with
      | Some rec => if decide (mstate rec = ALIVE) then first_not_alive view sids else Some sid
      | None => Some sid
      end
  end.
Definition unavailable_peer n : option string :=
  match o_membership (n_own n) with
  | None => None
  | Some r => first_not_alive (members (r_state r)) (all_shards (nc_map cfg))
  end.

(** ** Sending *)

(** [_activation_envelope], with the provenance [_forward_activation] adds *)
Definition activation_envelope (rid : string) (next_layer : Z) (h : T) (chain : chain_t) : result (Envelope * bytes) :=
  d ← descriptor h;
  pbs ← mapR entry_to_pb (if nc_provenance cfg then default [] chain else []);
  env ← built (PActivation (mkActivation PROTOCOL_VERSION_NODE rid next_layer d pbs));
  Ok (env, tensor_to_bytes h).

(** [_forward_activation] *)
Definition forward_activation (rid : string) (h : T) (chain : chain_t) : eff State unit :=
  _ ← lift (require (negb (is_tail cfg)) AssertionError);
  _ ← on_req (modify (fun q => set_captures
         (dict_set rid (default [] (dict_get rid (rs_captures q)) ++ [(ss_end (nc_shard cfg), h)]) (rs_captures q)) q));
  '(env, raw) ← lift (activation_envelope rid (ss_end (nc_shard cfg)) h chain);
  on_net (write_out io (nc_downstream cfg) env raw).

(** [_send_sampled_token] *)
Definition send_sampled_token (rid : string) (token_id position : Z) : eff State unit :=
  env ← lift (built (PSampledToken (mkSampled PROTOCOL_VERSION_NODE rid token_id position false)));
  on_net (write_out io (nc_downstream cfg) env []).

(** [_send_sampled_token_to] *)
Definition send_sampled_token_to (s : Stream) (rid : string) (token_id position : Z) (is_final : bool) : eff State unit :=
  env ← lift (built (PSampledToken (mkSampled PROTOCOL_VERSION_NODE rid token_id position is_final)));
  on_net (send io s env []).

(** [_broadcast_end] *)
Definition broadcast_end (rid : string) : eff State unit :=
  _ ← quietly (on_net (write_out io (nc_downstream cfg) (Some (PEnd (mkEnd PROTOCOL_VERSION_NODE rid))) []));
  on_req (modify (fun q => set_kv (dict_pop rid (rs_kv q)) q)).

Definition close_out : eff State unit := on_net close_outbound.

(** ** Running the shard's layers *)

(** The cache object is the one in [_kv_caches], updated in place. *)
Definition run_my_layers (rid : string) (cache : K) (h : T) (chain : chain_t) : eff State (T * chain_t) := fun n =>
  let '(r, cache) := run_layers h chain cache in
  (r, set_req (let q := n_req n in
               match dict_get rid (rs_kv q) with
               | None => q
               | Some _ => set_kv (dict_set rid cache (rs_kv q)) q
               end) n).

(** A chain that begins with this node's OP_EMBED entry, with provenance on. *)
Definition embed_chain (h : T) : result chain_t :=
  if nc_provenance cfg
  then e ← build_entry me (mkOp OP_EMBED 0 0) (tensor_to_bytes h) [] now; Ok (Some [e])
  else Ok None.

(** What an ExpertRpcFailure is told from. *)
Definition is_rpc_failure (e : exn) : bool :=
  match e with
  | ExpertRpcFailure _ _ => true
  | _ => false
  end.

(** ** The head *)

(** The error paths of [_drive_decode_loop], which all do the same. *)
Definition abort_decode (client : Stream) (rid : string) (d : Detail) : eff State unit :=
  _ ← quietly (reply_error client rid ERR_SHARD_UNAVAILABLE d);
  _ ← on_req (modify (drop_request rid));
  _ ← close_out;
  quietly (broadcast_end rid).

(** The end of [_drive_decode_loop]. *)
Definition finish_decode (rid : string) : eff State unit :=
  _ ← broadcast_end rid;
  _ ← on_req (modify (fun q => set_heads (dict_pop rid (rs_heads q)) q));
  close_out.

(** After a token that is not the last: embed it and send the activation. *)
Definition next_activation (rid : string) (token_id : Z) : eff State unit :=
  kv ← gets (fun n => rs_kv (n_req n));
  cache ← lift (or_raise KeyError (dict_get rid kv));
  let h := nb_embed [token_id] in
  chain ← lift (embed_chain h);
  '(h, chain) ← run_my_layers rid cache h chain;
  forward_activation rid h chain.

(** One token taken from the queue; does the loop go on? *)
Definition decode_token (rid : string) (ref : nat) (st : HeadState) (token_id : Z) : eff State bool :=
  if token_id =? POISON_TOKEN then throw PeerLeftAliveError
  else
    let generated := hs_generated st + 1 in
    let is_final := hs_max_new_tokens st <=? generated in
    _ ← on_req (modify (fun q => set_store
          (alter (fun h => mkHead (hs_client h) (hs_max_new_tokens h) generated (hs_queue h)) ref (rs_store q)) q));
    _ ← send_sampled_token_to (hs_client st) rid token_id (generated - 1) is_final;
    if is_final then _ ← finish_decode rid; mret false
    else _ ← next_activation rid token_id; mret true.

(** A resumed decode thread: take a token and go to the next [get()]; None when
    the queue is empty and the thread stays blocked. *)
Definition decode_round (rid : string) (ref : nat) : eff State bool :=
  store ← gets (fun n => rs_store (n_req n));
  match store !! ref with
  | None => mret false
  | Some st =>
      match hs_queue st with
      | [] => mret true
      | token_id :: queue =>
          _ ← on_req (modify (fun q => set_store
                (alter (fun h => mkHead (hs_client h) (hs_max_new_tokens h) (hs_generated h) queue) ref (rs_store q)) q));
          handle_with (decode_token rid ref st token_id) (fun e =>
            if is_os_error e then _ ← abort_decode (hs_client st) rid (DDownstream e); mret false
            else if is_rpc_failure e || bool_decide (e = PeerLeftAliveError)
            then _ ← abort_decode (hs_client st) rid (DException e); mret false
            else throw e)
      end
  end.

(** [_handle_begin]: the thread then waits in the decode loop. *)
Definition handle_begin (req : BeginRequest) (client : Stream) : eff State unit :=
  let rid := br_request_id req in
  if negb (is_head cfg) then reply_error client rid ERR_WRONG_SHARD DNotHead else
  un ← gets unavailable_peer;
  match un with
  | Some sid => reply_error client rid ERR_SHARD_UNAVAILABLE (DNotAlive sid)
  | None =>
      let cache := nb_make_cache in
      let max_new := if br_max_new_tokens req =? 0 then 1 else br_max_new_tokens req in
      ref ← gets (fun n => length (rs_store (n_req n)));
      _ ← on_req (modify (fun q => set_heads (dict_set rid ref (rs_heads q))
             (set_kv (dict_set rid cache (rs_kv q)) (set_store (rs_store q ++ [mkHead client max_new 0 []]) q))));
      let h := nb_embed (br_prompt req) in
      chain ← lift (embed_chain h);
      r ← handle_with (p ← run_my_layers rid cache h chain; mret (Some p)) (fun e =>
            if is_rpc_failure e then
              _ ← quietly (reply_error client rid ERR_SHARD_UNAVAILABLE (DException e));
              _ ← on_req (modify (drop_request rid));
              mret None
            else throw e);
      match r with
      | None => skip
      | Some (h, chain) =>
          _ ← forward_activation rid h chain;
          on_req (modify (fun q => set_threads (rs_threads q ++ [(rid, ref)]) q))
      end
  end.

(** [_handle_sampled_token] *)
Definition handle_sampled_token (tok : SampledToken) : eff State unit :=
  if negb (is_head cfg) then skip else
  heads ← gets (fun n => rs_heads (n_req n));
  match dict_get (sk_request_id tok) heads with
  | None => skip
  | Some ref => on_req (modify (put_at ref (sk_token_id tok)))
  end.

(** [_handle_upstream_error] *)
Definition handle_upstream_error (err : ErrorPb) : eff State unit :=
  if negb (is_head cfg) then skip else
  q ← gets (fun n => n_req n);
  match dict_get (ep_request_id err) (rs_heads q) with
  | None => skip
  | Some ref =>
      _ ← match rs_store q !! ref with
          | None => skip
          | Some st => quietly (on_net (send_error io (hs_client st) (ep_request_id err) (ep_code err) (ep_detail err)))
          end;
      _ ← on_req (modify (put_at ref POISON_TOKEN));
      on_req (modify (drop_request (ep_request_id err)))
  end.

(** ** Any shard *)

(** [validate_chain] with the node's callbacks *)
Definition check_chain (chain : list ProvenanceEntry) (tail_bytes : bytes) n : result unit :=
  validate_chain (fun sid => Ok (shard_lookup (nc_map cfg) sid)) (nc_total_layers cfg) (split_layers_for_shard (nc_map cfg))
    (fun l e => owners_of l e (o_view (n_own n))) chain (Some tail_bytes).

(** The rejection of an inbound activation. *)
Definition reject_activation (inbound : Stream) (rid : string) : eff State unit :=
  _ ← quietly (reply_error inbound rid ERR_INVALID_PROVENANCE (DException ProvenanceError));
  if negb (is_tail cfg) then close_out
  else quietly (on_net (k ← ensure_out_stream io (nc_downstream cfg);
                        send_error io (Outbound k) rid ERR_INVALID_PROVENANCE (render (DException ProvenanceError)))).

(** The tail: sample, remember the OP_FINALIZE entry, answer the head. *)
Definition finalize_request (rid : string) (h : T) (chain : chain_t) : eff State unit :=
  let logits := nb_finalize h in
  _ ← (if nc_provenance cfg then
         e ← lift (build_entry me (mkOp OP_FINALIZE 0 0) (tensor_to_bytes logits)
                    (match last (default [] chain) with Some e => [e_hash e] | None => [] end) now);
         on_req (modify (fun q => set_pending (dict_set rid e (rs_pending q)) q))
       else skip);
  send_sampled_token rid (nb_argmax_last logits) 0.

(** [_handle_activation] after the provenance check *)
Definition process_activation (act : Activation) (tensor_bytes : bytes) (inbound : Stream) (inbound_chain : chain_t)
    : eff State unit :=
  let rid := ac_request_id act in
  kv ← gets (fun n => rs_kv (n_req n));
  let '(cache, kv) := dict_setdefault rid nb_make_cache kv in
  _ ← on_req (modify (set_kv kv));
  h ← lift (bytes_to_tensor tensor_bytes (td_shape (ac_tensor act)) (td_dtype (ac_tensor act)));
  r ← handle_with (p ← run_my_layers rid cache h inbound_chain; mret (Some p)) (fun e =>
        if is_rpc_failure e then
          _ ← quietly (reply_error inbound rid ERR_SHARD_UNAVAILABLE (DException e));
          _ ← on_net (log_event (Closed inbound));
          _ ← close_out;
          _ ← on_req (modify (fun q => set_kv (dict_pop rid (rs_kv q)) q));
          mret None
        else throw e);
  match r with
  | None => skip
  | Some (h, chain) =>
      if is_tail cfg then finalize_request rid h chain else forward_activation rid h chain
  end.

(** [_handle_activation] *)
Definition handle_activation (act : Activation) (tensor_bytes : bytes) (inbound : Stream) : eff State unit :=
  if negb (ac_next_layer act =? ss_start (nc_shard cfg)) then skip else
  if nc_provenance cfg then
    inbound_chain ← lift (mapR entry_from_pb (ac_provenance act));
    verdict ← gets (fun n => match ac_provenance act with [] => Ok tt | _ => check_chain inbound_chain tensor_bytes n end);
    match verdict with
    | Ok _ => process_activation act tensor_bytes inbound (Some inbound_chain)
    | Raise ProvenanceError => reject_activation inbound (ac_request_id act)
    | Raise e => throw e
    end
  else process_activation act tensor_bytes inbound None.

(** [_handle_end] *)
Definition handle_end (req : EndRequest) : eff State unit :=
  let rid := er_request_id req in
  _ ← on_req (modify (fun q => set_pending (dict_pop rid (rs_pending q)) (drop_request rid q)));
  _ ← when (negb (is_tail cfg)) (quietly (broadcast_end rid));
  close_out.

(** ** The expert service *)

(** [self._in_flight_expert_requests += d; self._load_tracker.observe(...)] *)
Definition count_in_flight (d : Z) (v : Service) : Service :=
  mkService (sv_in_flight v + d) (load_observe (sv_in_flight v + d) (sv_load v)) (sv_aborted v).

(** The outputs of the requested experts, and their stack with its bytes. *)
Definition compute_experts (lm : LoadedModel C) (layer_idx : Z) (h : T) (requested : list Z) : result (dict Z T * T) :=
  outputs ← nb_run_selected lm layer_idx h requested;
  parts ← mapR (fun eid => or_raise KeyError (dict_get eid outputs)) requested;
  stacked ← nb_stack parts;
  Ok (outputs, stacked).

(** The OP_EXPERT entries of the reply. *)
Definition reply_entries (inbound_chain : list ProvenanceEntry) (layer_idx : Z) (requested : list Z) (outputs : dict Z T)
    : result (list ProvenanceEntryPb) :=
  match last inbound_chain with
  | None => Ok []
  | Some ar =>
      mapR (fun eid => x ← or_raise KeyError (dict_get eid outputs);
                       e ← build_entry me (mkOp OP_EXPERT layer_idx eid) (tensor_to_bytes x) [e_hash ar] now;
                       entry_to_pb e) requested
  end.

(** The body between the two observations of the load tracker. *)
Definition serve_experts (req : ExpertMsg) (tensor_bytes : bytes) (h : T) (inbound : Stream) : eff State unit :=
  let rid := ex_request_id req in
  let layer_idx := ex_layer_idx req in
  let requested := ex_expert_ids req in
  verdict ← gets (fun n => match (if nc_provenance cfg then ex_provenance req else []) with
                           | [] => Ok []
                           | pbs => chain ← mapR entry_from_pb pbs; _ ← check_chain chain tensor_bytes n; Ok chain
                           end);
  match verdict with
  | Raise ProvenanceError => reply_error inbound rid ERR_INVALID_PROVENANCE (DException ProvenanceError)
  | Raise e => throw e
  | Ok inbound_chain =>
      lm ← gets (fun n => o_model (n_own n));
      match compute_experts lm layer_idx h requested with
      | Raise e => reply_error inbound rid ERR_SHARD_UNAVAILABLE (DExecution e)
      | Ok (outputs, stacked) =>
          d ← lift (descriptor stacked);
          pbs ← lift (reply_entries inbound_chain layer_idx requested outputs);
          env ← lift (built (PExpertResponse (mkExpert PROTOCOL_VERSION_NODE rid layer_idx requested d pbs)));
          on_net (send io inbound env (tensor_to_bytes stacked))
      end
  end.

(** [_handle_expert_request] *)
Definition handle_expert_request (req : ExpertMsg) (tensor_bytes : bytes) (inbound : Stream) : eff State unit :=
  let rid := ex_request_id req in
  let layer_idx := ex_layer_idx req in
  let requested := ex_expert_ids req in
  if bool_decide (requested = []) then reply_error inbound rid ERR_INTERNAL (DEmptyIds layer_idx) else
  hosted ← gets (fun n => live_at layer_idx (o_live (n_own n)));
  match filter (fun e => e ∉ hosted) requested with
  | (_ :: _) as missing => reply_error inbound rid ERR_WRONG_SHARD (DNotHosted missing layer_idx)
  | [] =>
      let declared := td_byte_count (ex_spec req) in
      let actual := Z.of_nat (length tensor_bytes) in
      if negb (declared =? actual) then reply_error inbound rid ERR_INTERNAL (DByteCount declared actual) else
      h ← lift (bytes_to_tensor tensor_bytes (td_shape (ex_spec req)) (td_dtype (ex_spec req)));
      _ ← on_srv (modify (count_in_flight 1));
      finally (serve_experts req tensor_bytes h inbound) (fun n => set_srv (count_in_flight (-1) (n_srv n)) n)
  end.

(** [_handle_expert_weight_request] *)
Definition serve_weights (req : WeightRequest) (inbound : Stream) : eff State unit :=
  lm ← gets (fun n => o_model (n_own n));
  '(env, raw) ← lift (handle_expert_weight_request (fun e => render (DException e)) (slice_expert lm) req);
  on_net (send io inbound env raw).

(** ** Dispatch, membership and the interleaving *)

(** [_dispatch] *)
Definition dispatch (env : Envelope) (tensor_bytes : bytes) (inbound : Stream) : eff State unit :=
  match env with
  | Some (PBegin m) => handle_begin m inbound
  | Some (PActivation m) => handle_activation m tensor_bytes inbound
  | Some (PSampledToken m) => handle_sampled_token m
  | Some (PError m) => handle_upstream_error m
  | Some (PEnd m) => handle_end m
  | Some (PExpertRequest m) => handle_expert_request m tensor_bytes inbound
  | Some (PWeightRequest m) => serve_weights m inbound
  | _ => skip
  end.

(** [transition.old_state is ALIVE and the new state SUSPECT or DEAD] *)
Definition left_alive (t : StateTransition) : bool :=
  bool_decide (old_state t = Some ALIVE) && negb (bool_decide (mstate (new_record t) = ALIVE)).

(** [_on_membership_change] *)
Definition on_membership_change (t : StateTransition) : eff State unit :=
  _ ← when (bool_decide (tr_shard_id t = ss_shard_id (nc_downstream cfg)) &&
            negb (bool_decide (mstate (new_record t) = ALIVE))) close_out;
  _ ← when (left_alive t && has_orchestrator cfg)
        (on_srv (modify (fun v => mkService (sv_in_flight v) (sv_load v) (sv_aborted v ++ [tr_shard_id t]))));
  when (left_alive t)
    (on_req (modify (fun q => foldl (fun q ref => put_at ref POISON_TOKEN q) q (dict_values (rs_heads q))))).

Inductive node_event : Type :=
| Message (conn : nat) (env : Envelope) (tensor_bytes : bytes)
| Resume (thread : nat)
| Transition (t : StateTransition).

(** A decode thread resumed: it stays while its round says so. *)
Definition resume (i : nat) : eff State unit :=
  threads ← gets (fun n => rs_threads (n_req n));
  match threads !! i with
  | None => skip
  | Some (rid, ref) =>
      r ← outcome (decode_round rid ref);
      match r with
      | Ok true => skip
      | _ => on_req (modify (fun q => set_threads (delete i (rs_threads q)) q))
      end
  end.

(** What a dispatch raises is logged and dropped ([_handle_connection]). *)
Definition node_step (ev : node_event) n : State :=
  match ev with
  | Message conn env tensor_bytes => (dispatch env tensor_bytes (Inbound conn) n).2
  | Resume i => (resume i n).2
  | Transition t => (on_membership_change t n).2
  end.

Definition node_exec (evs : list node_event) n : State := foldl (fun n ev => node_step ev n) n evs.

End handlers.
