(* ===== verification/Backends.v ===== *)
(** * backends/: the Backend protocol and its two implementations

    [Backend] is the protocol of base.py: the operations on a backend object, of
    type [B].  [MLXBackend] and [PyTorchBackend] hold their model once they are
    loaded; an operation that needs it asserts that it is there.  The model
    libraries' loaders and tensor functions are arguments.  What the operations
    compute is in [Engine], [Experts], [MoeLayer], [PtEngine], [PtExperts] and
    [PtMoe]. *)
From S2P Require Import Prelude PyDict PyFloat PyList Wire Provenance Experts Effects Migration Engine NodeState NodeHandlers PtEngine PtExperts.
Open Scope Z_scope.

Class Backend (B Act Cache Masks C : Type) := {
  bk_name : B -> string;
  bk_load : string -> B -> result B;
  bk_load_partial : string -> dict Z (list Z) -> B -> result B;
  bk_num_layers : B -> result Z;
  bk_held_ids : B -> Z -> result (list Z);
  bk_is_split_layer : B -> Z -> bool;
  bk_embed : B -> list Z -> result Act;
  bk_make_cache : B -> result Cache;
  bk_make_masks : B -> Act -> Cache -> result Masks;
  bk_run_layer_atomic : B -> Z -> Act -> Masks -> eff Cache Act;
  bk_run_selected_experts : B -> Z -> Act -> list Z -> result (dict Z Act);
  bk_finalize : B -> Act -> result Act;
  bk_argmax_last : B -> Act -> Z;
  bk_slice_expert : B -> Z -> Z -> result (list C);
  (** the object afterwards, an error included *)
  bk_attach_expert : Z -> Z -> list C -> B -> result unit * B;
  bk_detach_expert : Z -> Z -> B -> result unit * B;
}.

(** [assert self._lm is not None], before the rest of a method *)
Definition loaded {L A} (lm : option L) (f : L -> result A) : result A :=
  match lm with
  | Some lm => f lm
  | None => Raise AssertionError
  end.

(** ** Choosing what to load *)

Definition slash : Ascii.ascii := Ascii.ascii_of_nat 47.
Definition is_slash (c : Ascii.ascii) : bool := bool_decide (c = slash).
Fixpoint has_slash (s : string) : bool :=
  match s with
  | String.EmptyString => false
  | String.String c s => is_slash c || has_slash s
  end.
(** [s.rsplit("/", 1)[-1]] *)
Fixpoint after_slash (s : string) : string :=
  match s with
  | String.EmptyString => s
  | String.String c rest => if has_slash rest then after_slash rest else if is_slash c then rest else s
  end.

(** [_resolve_local_for_mlx]; [is_dir] is what the file system says of a path. *)
Definition resolve_local_for_mlx (is_dir : string -> bool) (cache_root : string) (env : environ) (model_id : string) : string :=
  match dict_get "MLX_MODEL_BF16_LOCAL_PATH" env with
  | Some ((String.String _ _) as override) => override
  | _ =>
      if is_dir model_id then model_id else
      let cache_dir := cache_root +:+ "/" +:+ lower (after_slash model_id) +:+ "-bf16" in
      if is_dir cache_dir then cache_dir else model_id
  end.

(** [_default_device]: whether CUDA is there, and whether MPS is. *)
Definition default_device (cuda mps : bool) : string := if cuda then "cuda" else if mps then "mps" else "cpu".

Inductive LoadDtype : Type := bfloat16 | float16.

#[export] Instance LoadDtype_eq_dec : EqDecision LoadDtype.
Proof. solve_decision. Defined.

(** [pytorch_engine.load_model]: the dtype a model is loaded with *)
Definition load_dtype (device : string) (dtype : LoadDtype) : LoadDtype :=
  if decide (device = "mps" /\ dtype = bfloat16) then float16 else dtype.
(** [PyTorchBackend.__init__] *)
Definition backend_dtype (device : string) : LoadDtype := if decide (device = "mps") then float16 else bfloat16.

(** ** The head of the model: logits, with a soft cap *)

Class LogitOps (T F : Type) := {
  lg_norm : T -> T;
  (** [embed_tokens.as_linear], [lm_head] *)
  lg_head : T -> T;
  (** [config.final_logit_softcapping] *)
  lg_softcap : option F;
  lg_div : T -> F -> T;
  lg_tanh : T -> T;
  lg_mul : T -> F -> T;
  (** the embedding lookup, and [embed_scale] where it is not part of it *)
  lg_embed : list Z -> T;
  lg_scale : F;
  (** [int(argmax(logits[0, -1, :]))] *)
  lg_argmax : T -> Z;
}.

Section logits.
Context {T F : Type} `{LogitOps T F}.

(** [_softcap] *)
Definition softcap (cap : F) (x : T) : T := lg_mul (lg_tanh (lg_div x cap)) cap.

(** [mlx_engine.finalize] *)
Definition finalize (h : T) : T :=
  let h := lg_norm h in
  let logits := lg_head h in
  match lg_softcap with
  | Some cap => softcap cap logits
  | None => logits
  end.

(** [config.final_logit_softcapping] as [getattr] finds it, in the text
    configuration where there is one; [None] also stands for a model without. *)
Record HfConfig : Type := mkHf {
  hf_softcap : option F;
  hf_text : option (option F);
}.
Definition configured_softcap (config : option HfConfig) : option F :=
  c ← config; match hf_text c with Some text_softcap => text_softcap | None => hf_softcap c end.

(** [pytorch_engine.finalize] *)
Definition pt_finalize (config : option HfConfig) (h : T) : T :=
  let h := lg_norm h in
  let logits := lg_head h in
  match configured_softcap config with
  | Some cap => lg_mul (lg_tanh (lg_div logits cap)) cap
  | None => logits
  end.

(** Both engines cap the logits alike, when the configurations agree. *)
Lemma finalize_agree config h : configured_softcap config = lg_softcap -> pt_finalize config h = finalize h.
Proof. unfold pt_finalize. by intros ->. Qed.

(** [mlx_engine.embed_tokens], and that of pytorch_engine *)
Definition embed_tokens (token_ids : list Z) : T := lg_mul (lg_embed token_ids) lg_scale.
Definition pt_embed_tokens (token_ids : list Z) : T := lg_embed token_ids.

End logits.

(** ** MLXBackend *)

Section mlx.
Context {T M Slot C F : Type} `{StackLib C} `{TextModel T M Slot} `{LogitOps T F}.
Context (library_load : string -> result (list (list (Attr C)))) (resolve : string -> string) (make_cache : list Slot)
  (switch : list (Attr C) -> Z -> T -> T) (norm2 : Z -> T -> T).

Record MLXBackend : Type := mkMLX { mb_lm : option (LoadedModel C) }.

(** [from_loaded_model] *)
Definition mlx_from_loaded (lm : LoadedModel C) : MLXBackend := mkMLX (Some lm).

(** [mlx_engine.load_model], [load_model_partial] *)
Definition mlx_load (hf_id : string) (b : MLXBackend) : result MLXBackend :=
  layers ← library_load (resolve hf_id); Ok (mkMLX (Some (mkModel layers []))).
Definition mlx_load_partial (hf_id : string) (held_experts_per_layer : dict Z (list Z)) (b : MLXBackend) : result MLXBackend :=
  layers ← library_load (resolve hf_id);
  lm ← Experts.load_model_partial layers held_experts_per_layer;
  Ok (mkMLX (Some lm)).

(** A method that replaces the model's stacks. *)
Definition edit_mlx (f : LoadedModel C -> result unit * LoadedModel C) (b : MLXBackend) : result unit * MLXBackend :=
  match mb_lm b with
  | None => (Raise AssertionError, b)
  | Some lm => let '(r, lm) := f lm in (r, mkMLX (Some lm))
  end.

#[export] Instance mlx_methods : Backend MLXBackend T (list Slot) (M * M) C := {
  bk_name _ := "mlx";
  bk_load := mlx_load;
  bk_load_partial := mlx_load_partial;
  bk_num_layers b := loaded (mb_lm b) (fun lm => Ok (Z.of_nat (length (lm_layers lm))));
  bk_held_ids b l := loaded (mb_lm b) (fun lm => Ok (default [] (dict_get l (lm_held lm))));
  bk_is_split_layer _ _ := false;
  bk_embed b toks := loaded (mb_lm b) (fun _ => Ok (embed_tokens toks));
  bk_make_cache b := loaded (mb_lm b) (fun _ => Ok make_cache);
  bk_make_masks b h cache := loaded (mb_lm b) (fun _ => Engine.make_masks h cache);
  bk_run_layer_atomic b l h masks := _ ← lift (loaded (mb_lm b) (fun _ => Ok tt)); Engine.run_layer_atomic l h masks;
  bk_run_selected_experts b l h ids := loaded (mb_lm b) (fun lm => Experts.run_selected_experts switch norm2 lm h l ids);
  bk_finalize b h := loaded (mb_lm b) (fun _ => Ok (finalize h));
  bk_argmax_last _ := lg_argmax;
  bk_slice_expert b l e := loaded (mb_lm b) (fun lm => Experts.slice_expert lm l e);
  bk_attach_expert l e tensors := edit_mlx (fun lm => Experts.attach_expert lm l e tensors);
  bk_detach_expert l e := edit_mlx (fun lm => Experts.detach_expert lm l e);
}.

End mlx.
Arguments MLXBackend : clear implicits.

(** ** PyTorchBackend *)

Section torch.
Context {T Rot Mask Cache C F : Type} `{TorchRows C} `{TorchModel T Rot Mask Cache} `{LogitOps T F}.
Abbreviation Model := (list (PtExperts C)).
Context (config : option (HfConfig (F := F))) (library_load : string -> result Model) (load_selected : string -> dict Z (list Z) -> result Model)
  (norm2 : Z -> T -> T) (run_one_expert : T -> C -> C -> T).

(** The model, once loaded, and [_held_experts_per_layer]. *)
Record TorchBackend : Type := mkTorch { tb_model : option Model; tb_held : dict Z (list Z) }.

Definition torch_from_loaded (m : Model) : TorchBackend := mkTorch (Some m) [].

(** [load] leaves the holdings as they are. *)
Definition torch_load (hf_id : string) (b : TorchBackend) : result TorchBackend :=
  m ← library_load hf_id; Ok (mkTorch (Some m) (tb_held b)).
Definition torch_load_partial (hf_id : string) (held_experts_per_layer : dict Z (list Z)) (b : TorchBackend) : result TorchBackend :=
  m ← load_selected hf_id held_experts_per_layer; Ok (mkTorch (Some m) held_experts_per_layer).

(** [attach_expert], [detach_expert]: rows and holdings, or neither *)
Definition edit_torch (f : PyTorchBackend (C := C) -> result (PyTorchBackend (C := C))) (b : TorchBackend) : result unit * TorchBackend :=
  match tb_model b with
  | None => (Raise AssertionError, b)
  | Some m =>
      match f (mkPtBackend m (tb_held b)) with
      | Ok b' => (Ok tt, mkTorch (Some (pb_model b')) (pb_held b'))
      | Raise e => (Raise e, b)
      end
  end.

#[export] Instance torch_methods : Backend TorchBackend T Cache (dict string Rot * option (dict string Mask)) C := {
  bk_name _ := "pytorch";
  bk_load := torch_load;
  bk_load_partial := torch_load_partial;
  bk_num_layers b := loaded (tb_model b) (fun m => Ok (Z.of_nat (length m)));
  bk_held_ids b l := Ok (default [] (dict_get l (tb_held b)));
  bk_is_split_layer _ _ := false;
  bk_embed b toks := loaded (tb_model b) (fun _ => Ok (pt_embed_tokens toks));
  bk_make_cache b := loaded (tb_model b) (fun _ => Ok fresh_cache);
  bk_make_masks b h cache := loaded (tb_model b) (fun _ => Ok (PtEngine.make_masks h cache));
  bk_run_layer_atomic b l h masks := _ ← lift (loaded (tb_model b) (fun _ => Ok tt)); PtEngine.run_layer_atomic l h masks;
  bk_run_selected_experts b l h ids := loaded (tb_model b) (fun m => PtExperts.run_selected_experts norm2 run_one_expert m h l ids);
  bk_finalize b h := loaded (tb_model b) (fun _ => Ok (pt_finalize config h));
  bk_argmax_last _ := lg_argmax;
  bk_slice_expert b l e := loaded (tb_model b) (fun m => PtExperts.slice_expert m l e);
  bk_attach_expert l e tensors := edit_torch (fun b => pt_attach b l e tensors);
  bk_detach_expert l e := edit_torch (fun b => pt_detach b l e);
}.

End torch.
Arguments TorchBackend : clear implicits.

(** ** What a backend says it holds *)

Inductive Edit {C : Type} : Type :=
| Attach (layer_idx expert_id : Z) (tensors : list C)
| Detach (layer_idx expert_id : Z).
Arguments Edit : clear implicits.

Section holdings.
Context {B Act Cache Masks C : Type} `{Backend B Act Cache Masks C}.
Implicit Types (b : B).

Definition run_edit (ed : Edit C) b : result unit * B :=
  match ed with
  | Attach l e tensors => bk_attach_expert l e tensors b
  | Detach l e => bk_detach_expert l e b
  end.

(** One after the other, whatever fails: the results, and the backend after. *)
Fixpoint run_edits (eds : list (Edit C)) b : list (result unit) * B :=
  match eds with
  | [] => ([], b)
  | ed :: eds =>
      let '(r, b) := run_edit ed b in
      let '(rs, b) := run_edits eds b in (r :: rs, b)
  end.

(** The specification: a set of pairs of a layer and an expert. *)
Abbreviation holdings := (Z -> Z -> Prop).
Definition spec_edit (ed : Edit C) (r : result unit) (s : holdings) : holdings := fun l e =>
  match ed, r with
  | _, Raise _ => s l e
  | Attach l' e' _, Ok _ => (l = l' /\ e = e') \/ s l e
  | Detach l' e', Ok _ => ~ (l = l' /\ e = e') /\ s l e
  end.
Fixpoint spec_edits (eds : list (Edit C)) (rs : list (result unit)) (s : holdings) : holdings :=
  match eds, rs with
  | ed :: eds, r :: rs => spec_edits eds rs (spec_edit ed r s)
  | _, _ => s
  end.

(** The backend lists the experts of [s]. *)
Definition lists b (s : holdings) : Prop := forall l, exists ids, bk_held_ids b l = Ok ids /\ forall e, e ∈ ids <-> s l e.

(** What an implementation owes the protocol; both do, [mlx_holding_laws] and
    [torch_holding_laws]. *)
Class HoldingLaws : Prop := {
  hl_loaded hf_id held b b' : bk_load_partial hf_id held b = Ok b' -> forall l, bk_held_ids b' l = Ok (default [] (dict_get l held));
  hl_edit ed b r b' s : run_edit ed b = (r, b') -> lists b s -> lists b' (spec_edit ed r s);
}.

Lemma edits_follow `{!HoldingLaws} hf_id held b0 b eds rs b' :
  bk_load_partial hf_id held b0 = Ok b -> run_edits eds b = (rs, b') ->
  lists b' (spec_edits eds rs (fun l e => e ∈ default [] (dict_get l held))).
Proof.
  intros Hl. assert (Hs : lists b (fun l e => e ∈ default [] (dict_get l held))).
  { intros l. exists (default [] (dict_get l held)). split; [by apply (hl_loaded _ _ _ _ Hl)|done]. }
  revert Hs. generalize (fun l e => e ∈ default [] (dict_get l held)). clear Hl. revert b rs.
  induction eds as [|ed eds IH]; intros b rs s Hs Hr; cbn [run_edits] in Hr; [by injection Hr as <- <-|].
  destruct (run_edit ed b) as [r b1] eqn:E1. destruct (run_edits eds b1) as [rs1 b2] eqn:E2. injection Hr as <- <-.
  apply (IH b1 rs1); [|done]. by apply (hl_edit ed b).
Qed.

End holdings.
Arguments HoldingLaws B {Act Cache Masks C _}.

(** A table of ids per layer, edited at one layer. *)
Lemma lists_table (held : dict Z (list Z)) l ids (s s' : Z -> Z -> Prop) :
  (forall l', exists xs, Ok (default [] (dict_get l' held)) = Ok xs /\ forall e, e ∈ xs <-> s l' e) ->
  (forall e, e ∈ ids <-> s' l e) -> (forall l' e, l' <> l -> s' l' e <-> s l' e) ->
  forall l', exists xs, Ok (default [] (dict_get l' (dict_set l ids held))) = Ok xs /\ forall e, e ∈ xs <-> s' l' e.
Proof.
  intros Hs Hat Hother l'. rewrite dict_get_set. case_decide as Hl; [subst; by exists ids|].
  destruct (Hs l') as (xs & Hx & He). exists xs. split; [done|]. intros e. by rewrite Hother.
Qed.

Section mlx_holdings.
Context {T M Slot C F : Type} `{StackLib C} `{TextModel T M Slot} `{LogitOps T F}.
Context (library_load : string -> result (list (list (Attr C)))) (resolve : string -> string) (make_cache : list Slot)
  (switch : list (Attr C) -> Z -> T -> T) (norm2 : Z -> T -> T).
#[local] Instance these_mlx : Backend (MLXBackend C) T (list Slot) (M * M) C := mlx_methods library_load resolve make_cache switch norm2.

Lemma edit_layer_held (lm : LoadedModel C) l ids f r lm' : edit_layer lm l ids f = (r, lm') ->
  lm_held lm' = if r is Ok _ then dict_set l ids (lm_held lm) else lm_held lm.
Proof.
  unfold edit_layer. destruct (py_nth (lm_layers lm) l) as [attrs|e]; [|by intros [= <- <-]].
  destruct (f attrs) as [[[]|e] attrs']; by intros [= <- <-].
Qed.

#[export] Instance mlx_holding_laws : HoldingLaws (MLXBackend C).
Proof.
  split.
  - intros hf_id held b b' Hl l. cbn in Hl. unfold mlx_load_partial, Experts.load_model_partial in Hl. inv_ok. done.
  - intros ed b r b' s Hr Hs.
    assert (Hgoal : forall lm lm' l ids, mb_lm b = Some lm -> lm_held lm' = (if r is Ok _ then dict_set l ids (lm_held lm) else lm_held lm) ->
      (forall e l', l' <> l -> spec_edit ed r s l' e <-> s l' e) ->
      (forall e, (exists u, r = Ok u) -> e ∈ ids <-> spec_edit ed r s l e) ->
      lists (mkMLX (Some lm')) (spec_edit ed r s)).
    { intros lm lm' l ids Hb Hh Hother Hat. unfold lists in Hs |- *. cbn in Hs |- *. rewrite Hb in Hs. cbn [loaded] in Hs. rewrite Hh.
      destruct r as [u|e]; [|by destruct ed]. apply (lists_table (lm_held lm) l ids s); [done|intros e; apply Hat; by exists u|].
      intros l' e Hne. by apply Hother. }
    destruct (mb_lm b) as [lm|] eqn:Eb.
    2: { assert ((r, b') = (Raise AssertionError, b)) as [= -> ->] by (destruct ed; cbn in Hr; unfold edit_mlx in Hr; by rewrite Eb in Hr).
         by destruct ed. }
    destruct ed as [l e tensors|l e]; cbn in Hr; unfold edit_mlx in Hr; rewrite Eb in Hr.
    + destruct (Experts.attach_expert lm l e tensors) as [r0 lm'] eqn:Ea. injection Hr as <- <-.
      unfold Experts.attach_expert in Ea. destruct (negb _); [injection Ea as <- <-; apply (Hgoal lm lm l []); [done|done|naive_solver|intros ? [u [=]]]|].
      destruct (bool_decide _); [injection Ea as <- <-; apply (Hgoal lm lm l []); [done|done|naive_solver|intros ? [u [=]]]|].
      apply edit_layer_held in Ea. eapply Hgoal; [done|exact Ea| |].
      * intros x l' Hne. destruct r0; cbn; naive_solver.
      * intros x [u ->]. rewrite elem_of_app, list_elem_of_singleton. cbn.
        destruct (Hs l) as (xs & Hx & He). cbn in Hx. rewrite Eb in Hx. injection Hx as <-. rewrite He. naive_solver.
    + destruct (Experts.detach_expert lm l e) as [r0 lm'] eqn:Ea. injection Hr as <- <-.
      unfold Experts.detach_expert in Ea. destruct (held_at lm l e) as [held|x] eqn:Eh; [|injection Ea as <- <-; apply (Hgoal lm lm l []); [done|done|naive_solver|intros ? [u [=]]]].
      apply edit_layer_held in Ea. eapply Hgoal; [done|exact Ea| |].
      * intros x l' Hne. destruct r0; cbn; naive_solver.
      * intros x [u ->]. rewrite list_elem_of_filter. cbn.
        destruct (Hs l) as (xs & Hx & He). cbn in Hx. rewrite Eb in Hx. injection Hx as <-. rewrite <- He.
        unfold held_at in Eh. inv_ok. destruct (dict_get l (lm_held lm)) as [ys|] eqn:Ey; [|done]. simplify_eq/=. naive_solver.
Qed.

End mlx_holdings.

Section torch_holdings.
Context {T Rot Mask Cache C F : Type} `{TorchRows C} `{TorchModel T Rot Mask Cache} `{LogitOps T F}.
Context (config : option (HfConfig (F := F))) (library_load : string -> result (list (PtExperts C))) (load_selected : string -> dict Z (list Z) -> result (list (PtExperts C)))
  (norm2 : Z -> T -> T) (run_one_expert : T -> C -> C -> T).
#[local] Instance these_torch : Backend (TorchBackend C) T Cache (dict string Rot * option (dict string Mask)) C :=
  torch_methods config library_load load_selected norm2 run_one_expert.

#[export] Instance torch_holding_laws : HoldingLaws (TorchBackend C).
Proof.
  split.
  - intros hf_id held b b' Hl l. cbn in Hl. unfold torch_load_partial in Hl. inv_ok. done.
  - intros ed b r b' s Hr Hs. unfold lists in Hs |- *. cbn in Hs |- *.
    destruct ed as [l e tensors|l e]; cbn in Hr; unfold edit_torch in Hr; (destruct (tb_model b) as [m|]; [|by injection Hr as <- <-]).
    + destruct (pt_attach _ l e tensors) as [b1|x] eqn:Ea; injection Hr as <- <-; [|done]. unfold pt_attach in Ea. inv_ok. cbn [tb_held pb_held].
      eapply lists_table; [exact Hs| |].
      * intros y. rewrite sorted_set_in, elem_of_app, list_elem_of_singleton. unfold held_ids. cbn [pb_held spec_edit].
        destruct (Hs l) as (xs & [= <-] & He). rewrite He. naive_solver.
      * intros l' y Hne. cbn. naive_solver.
    + destruct (pt_detach _ l e) as [b1|x] eqn:Ea; injection Hr as <- <-; [|done]. unfold pt_detach in Ea. inv_ok. cbn [tb_held pb_held].
      eapply lists_table; [exact Hs| |].
      * intros y. rewrite sorted_set_in, list_elem_of_filter. unfold held_ids. cbn [pb_held spec_edit].
        destruct (Hs l) as (xs & [= <-] & He). rewrite He. naive_solver.
      * intros l' y Hne. cbn. naive_solver.
Qed.

(** [load] after [load_partial] brings the whole model and keeps the old
    holdings; the MLX backend forgets them. *)
Lemma torch_load_keeps_holdings hf_id b b' : bk_load hf_id b = Ok b' -> forall l, bk_held_ids b' l = bk_held_ids b l.
Proof. cbn. unfold torch_load. intros Hl. inv_ok. done. Qed.

End torch_holdings.

Section both.
Context {T M Slot Rot Mask Cache C F : Type} `{StackLib C} `{TextModel T M Slot} `{TorchRows C} `{TorchModel T Rot Mask Cache} `{LogitOps T F}.
(** The libraries of the MLX backend, and those of the PyTorch backend. *)
Context (library_load : string -> result (list (list (Attr C)))) (resolve : string -> string) (make_cache : list Slot)
  (switch : list (Attr C) -> Z -> T -> T) (norm2 : Z -> T -> T).
Context (config : option (HfConfig (F := F))) (pt_library_load : string -> result (list (PtExperts C)))
  (load_selected : string -> dict Z (list Z) -> result (list (PtExperts C))) (run_one_expert : T -> C -> C -> T).
Let mlx : Backend (MLXBackend C) T (list Slot) (M * M) C := mlx_methods library_load resolve make_cache switch norm2.
Let torch : Backend (TorchBackend C) T Cache (dict string Rot * option (dict string Mask)) C :=
  torch_methods config pt_library_load load_selected norm2 run_one_expert.

(** C23: the holdings of a backend. Whichever of the two backends it is, after a
    partial load and any sequence of attaches and detaches, some of which may
    have failed, it lists for every layer the experts of the load, plus those
    attached, less those detached, in the order of the calls; calls that failed
    count for nothing. *)
Theorem holdings_follow hf_id held eds :
  (forall b0 b rs b', bk_load_partial (Backend := mlx) hf_id held b0 = Ok b -> run_edits (H := mlx) eds b = (rs, b') ->
     lists (H := mlx) b' (spec_edits eds rs (fun l e => e ∈ default [] (dict_get l held)))) /\
  (forall b0 b rs b', bk_load_partial (Backend := torch) hf_id held b0 = Ok b -> run_edits (H := torch) eds b = (rs, b') ->
     lists (H := torch) b' (spec_edits eds rs (fun l e => e ∈ default [] (dict_get l held)))).
Proof.
  split; intros b0 b rs b'.
  - apply edits_follow.
  - apply edits_follow.
Qed.

End both.

(** ** Choosing a local copy *)

Lemma after_slash_app org name : has_slash name = false -> after_slash (org +:+ String.String slash name) = name.
Proof.
  intros Hn. assert (Hh : forall o, has_slash (o +:+ String.String slash name) = true).
  { intros o. induction o as [|d o IH]; [done|]. change (is_slash d || has_slash (o +:+ String.String slash name) = true). by rewrite IH, orb_true_r. }
  induction org as [|c org IH]; [change ((if has_slash name then after_slash name else name) = name); by rewrite Hn|].
  change ((if has_slash (org +:+ String.String slash name) then after_slash (org +:+ String.String slash name)
           else if is_slash c then org +:+ String.String slash name else String.String c (org +:+ String.String slash name)) = name).
  by rewrite Hh.
Qed.

(** What is loaded is the override, the id, or a directory that exists under the
    cache root, named after the last part of the id: the organisation of an id
    does not matter there. *)
Lemma resolve_local_spec is_dir root env id :
  dict_get "MLX_MODEL_BF16_LOCAL_PATH" env = None ->
  resolve_local_for_mlx is_dir root env id = id \/
  (is_dir id = false /\ is_dir (resolve_local_for_mlx is_dir root env id) = true /\
   resolve_local_for_mlx is_dir root env id = root +:+ "/" +:+ lower (after_slash id) +:+ "-bf16").
Proof.
  intros He. unfold resolve_local_for_mlx. rewrite He. destruct (is_dir id) eqn:Ei; [by left|].
  destruct (is_dir (root +:+ "/" +:+ lower (after_slash id) +:+ "-bf16")) eqn:Ed; [by right|by left].
Qed.

(** The dtype a backend chooses for its device is the one its model gets. *)
Lemma load_dtype_backend device : load_dtype device (backend_dtype device) = backend_dtype device.
Proof. unfold load_dtype, backend_dtype. repeat case_decide; naive_solver. Qed.

(** ** Witnesses: one layer of two experts on PyTorch, of which the first is held *)

Section witness.

#[local] Instance list_rows : TorchRows (list Z) := {
  row_shape c := [Z.of_nat (length c)];
  to_stack c := c;
  zero_row c := (fun _ => 0) <$> c;
}.
#[local] Instance one_layer : TorchModel Z Z unit Z := {
  pt_layers := [mkPtLayer None (Some "full_attention")];
  pt_config_types := None;
  rotary_emb h positions _ := h;
  pt_layer _ h _ _ _ c := (h, c + 1);
  get_seq_length c := c;
  seq_len _ := 1;
  fresh_cache := 0;
}.
#[local] Instance plain_logits : LogitOps Z Z := {
  lg_norm x := x; lg_head x := x; lg_softcap := None; lg_div := Z.div; lg_tanh x := x; lg_mul := Z.mul;
  lg_embed toks := foldr Z.add 0 toks; lg_scale := 1; lg_argmax x := x;
}.

Definition two_experts : list (PtExperts (list Z)) := [mkPtExperts [[1; 2]; [3; 4]] [[5]; [6]]].
#[local] Instance toy_methods : Backend (TorchBackend (list Z)) Z Z (dict string Z * option (dict string unit)) (list Z) :=
  torch_methods None (fun _ => Ok two_experts) (fun _ _ => Ok two_experts) (fun _ x => x) (fun x _ _ => x).
(** The second expert comes, badly shaped tensors do not, the first one goes. *)
Definition toy_edits : list (Edit (list Z)) := [Attach 0 1 [[7; 8]; [9]]; Attach 0 0 [[7]; [9]]; Detach 0 0].
Definition toy_loaded : TorchBackend (list Z) := mkTorch (Some two_experts) [(0, [0])].

(** The same on MLX: a layer of nine columns, of whose rows the first is loaded. *)
#[local] Instance list_stacks : StackLib (list Z) := {
  take_rows col ids := or_raise IndexError (mapM (row_at col) ids);
  concat_row col x := Ok (col ++ [x]);
  kind x := ([Z.of_nat (length x)], 0);
}.
#[local] Instance toy_text : TextModel Z unit unit := {
  tm_full_attention _ := Ok true; tm_cache_idx _ := Ok 0; tm_layer _ h _ c := (h, c);
  tm_first_full := 0; tm_first_sliding := 0; tm_window := 1; create_attention_mask _ _ _ := tt;
}.
Definition nine_columns : list (list (Attr (list Z))) := [replicate 9 (Stack [[1]; [2]])].
Definition mlx_edits : list (Edit (list Z)) := [Attach 0 1 (replicate 9 [2]); Attach 0 1 (replicate 9 [2]); Detach 0 0].
Abbreviation toy_mlx := (mlx_methods (T := Z) (M := unit) (fun _ => Ok nine_columns) (fun id => id) [tt] (fun _ _ x => x) (fun _ x => x)).
Definition mlx_loaded : MLXBackend (list Z) := ok_or (mkMLX None) (bk_load_partial (Backend := toy_mlx) "m" [(0, [0])] (mkMLX None)).

Lemma holdings_follow_witness :
  (let rs := (run_edits toy_edits toy_loaded).1 in
   rs = [Ok tt; Raise ValueError; Ok tt] /\
   lists (run_edits toy_edits toy_loaded).2 (spec_edits toy_edits rs (fun l e => e ∈ default [] (dict_get l [(0, [0])]))) /\
   bk_held_ids (run_edits toy_edits toy_loaded).2 0 = Ok [1]) /\
  (let rs := (run_edits (H := toy_mlx) mlx_edits mlx_loaded).1 in
   rs = [Ok tt; Raise ValueError; Ok tt] /\
   lists (H := toy_mlx) (run_edits (H := toy_mlx) mlx_edits mlx_loaded).2
     (spec_edits mlx_edits rs (fun l e => e ∈ default [] (dict_get l [(0, [0])]))) /\
   bk_held_ids (Backend := toy_mlx) (run_edits (H := toy_mlx) mlx_edits mlx_loaded).2 0 = Ok [1]).
Proof.
  pose proof (fun eds => holdings_follow (fun _ => Ok nine_columns) (fun id => id) [tt] (fun _ _ x => x) (fun _ x => x)
    None (fun _ => Ok two_experts) (fun _ _ => Ok two_experts) (fun x _ _ => x) "m" [(0, [0])] eds) as Hw. split; cbv zeta.
  - split; [reflexivity|]. split; [|reflexivity].
    exact (proj2 (Hw toy_edits) (mkTorch None []) toy_loaded _ _ eq_refl (surjective_pairing _)).
  - split; [vm_compute; reflexivity|]. split; [|vm_compute; reflexivity].
    exact (proj1 (Hw mlx_edits) (mkMLX None) mlx_loaded _ _ eq_refl (surjective_pairing _)).
Defined.

End witness.
