(* ===== verification/Client.v ===== *)
(** * client.py: the thin client

    [generate_streaming] sends one BeginRequest on a fresh connection and reads
    replies until the final token.  The tokens it yields and how it ends are
    separate, since a caller has the tokens before the end is known. *)
From S2P Require Import Prelude Wire Migration.
Open Scope Z_scope.

(** The request the client sends; [request_id] is a fresh UUID. *)
Definition begin_envelope (request_id : string) (prompt_tokens : list Z) (max_new_tokens : Z) : result Envelope :=
  built (PBegin (mkBegin 1 request_id request_id prompt_tokens true 0 max_new_tokens)).

(** The reading loop, on the envelopes that arrive before the stream ends. *)
Fixpoint generate_streaming (replies : list (Envelope * bytes)) : list Z * result unit :=
  match replies with
  | [] => ([], Raise EOFError)
  | (Some (PSampledToken tok), _) :: replies =>
      if sk_is_final tok then ([sk_token_id tok], Ok tt)
      else let '(toks, r) := generate_streaming replies in (sk_token_id tok :: toks, r)
  | _ :: _ => ([], Raise RuntimeError)
  end.

(** [generate]: the list of the tokens, when the stream completes. *)
Definition generate (replies : list (Envelope * bytes)) : result (list Z) :=
  let '(toks, r) := generate_streaming replies in _ ← r; Ok toks.
