(* ===== verification/NodeTheorems.v ===== *)
(** * What the head of the pipeline does for a client

    A request whose tokens all arrive, a peer that fails in mid-request, a
    rejection that comes back from the tail, and the failures the client never
    hears of. *)
From S2P Require Import Prelude PyDict PyFloat PyList PyRandom Records SwimState.
From S2P Require Import Wire Messages Ownership Runner ShardMap Trackers Provenance Experts Effects Migration.
From S2P Require Import Engine NodeState NodeHandlers Client.
Open Scope Z_scope.

#[export] Instance Stream_eq_dec : EqDecision Stream.
Proof. solve_decision. Defined.

(** What was sent on a stream, in order. *)
Definition sent_to (s : Stream) (log : list NetEvent) : list (Envelope * bytes) :=
  omap (fun ev => match ev with
                  | Sent s' env raw => if decide (s' = s) then Some (env, raw) else None
                  | _ => None
                  end) log.

#[global] Arguments sent_to : simpl never.

(** A client's connection sees one event. *)
Definition to_client (c : nat) (ev : NetEvent) : list (Envelope * bytes) :=
  match ev with
  | Sent (Inbound c') env raw => if decide (c' = c) then [(env, raw)] else []
  | _ => []
  end.

Lemma sent_to_one c ev : sent_to (Inbound c) [ev] = to_client c ev.
Proof. destruct ev as [| [c'|k] env raw |]; try done. unfold sent_to, to_client. cbn. by repeat case_decide; simplify_eq. Qed.

Lemma sent_to_app s l1 l2 : sent_to s (l1 ++ l2) = sent_to s l1 ++ sent_to s l2.
Proof. apply omap_app. Qed.

Section node.
Context {T K C R : Type} `{StackLib C} `{RandomSource R} `{NodeBackend T K C}.
Context (cfg : NodeConfig) (io : nat -> bool) (render : Detail -> string) (now : float).
Context (run_layers : T -> option (list ProvenanceEntry) -> eff K (T * option (list ProvenanceEntry))).
Abbreviation State := (NodeState T K C R).
Implicit Types (n : State).
Abbreviation log_of n := (net_log (n_net n)).

(** ** Steps *)

Lemma run_focus {S U A} (get : S -> U) put (m : eff U A) s r u : m (get s) = (r, u) -> focus get put m s = (r, put u s).
Proof. intros Hm. unfold focus. by rewrite Hm. Qed.

(** A write that succeeds. *)
Definition wrote (s : Stream) env raw t : Net := mkNet (net_out t) (net_conns t) (S (net_ops t)) (net_log t ++ [Sent s env raw]).

Lemma send_run s env raw n : io (net_ops (n_net n)) = true ->
  on_net (send io s env raw) n = (Ok tt, set_net (wrote s env raw (n_net n)) n).
Proof. intros Hio. apply run_focus. unfold send. rewrite run_bind. unfold net_op. by rewrite Hio. Qed.

(** The state after a computation on the network alone: what it wrote to the
    clients' streams is unchanged. *)
Definition same_clients t t' : Prop := forall c, sent_to (Inbound c) (net_log t') = sent_to (Inbound c) (net_log t).

Lemma same_clients_keeps_event t ev :
  (forall c, to_client c ev = []) -> keeps (same_clients t) (log_event ev).
Proof. intros Hev t' Ht c. cbn. by rewrite sent_to_app, Ht, sent_to_one, Hev, app_nil_r. Qed.

Lemma ensure_keeps t d : keeps (same_clients t) (ensure_out_stream io d).
Proof.
  intros t' Ht. unfold ensure_out_stream. destruct (net_out t'); [done|].
  match goal with |- context [(?m t').2] => enough (Hk : keeps (same_clients t) m) by (by apply Hk) end.
  apply keeps_bind; [by intros t1 H1'|]. intros _. apply keeps_bind; [apply keeps_gets|]. intros k.
  apply keeps_bind; [by apply keeps_modify|]. intros _. apply keeps_bind; [by apply same_clients_keeps_event|].
  intros _. apply keeps_ret.
Qed.

Lemma write_out_keeps t d env raw : keeps (same_clients t) (write_out io d env raw).
Proof.
  apply keeps_bind; [apply ensure_keeps|]. intros k. apply keeps_bind; [by intros t1 H1'|].
  intros _. by apply same_clients_keeps_event.
Qed.

Lemma close_keeps t : keeps (same_clients t) close_outbound.
Proof.
  intros t' Ht c. unfold close_outbound, modify. cbn. destruct (net_out t'); [|done]. cbn.
  by rewrite sent_to_app, Ht, sent_to_one, app_nil_r.
Qed.

(** ** A healthy node *)

Section healthy.
Hypothesis io_ok : forall k, io k = true.
Hypothesis not_tail : is_tail cfg = false.
(** The layers run, and what they return can be sent. *)
Hypothesis layers_ok : forall h c k, exists h' c' k', run_layers h c k = (Ok (h', c'), k') /\
  forall rid, exists msg, activation_envelope cfg rid (ss_end (nc_shard cfg)) h' c' = Ok msg.

Lemma net_op_run t : net_op io t = (Ok tt, mkNet (net_out t) (net_conns t) (S (net_ops t)) (net_log t)).
Proof. unfold net_op. by rewrite io_ok. Qed.

Lemma ensure_run d t : exists k t', ensure_out_stream io d t = (Ok k, t').
Proof.
  unfold ensure_out_stream. destruct (net_out t); [by do 2 eexists|]. rewrite (run_ok _ _ _ _ _ (net_op_run _)). run.
  by do 2 eexists.
Qed.

Lemma write_out_run d env raw n :
  exists t', on_net (write_out io d env raw) n = (Ok tt, set_net t' n) /\ same_clients (n_net n) t'.
Proof.
  pose proof (write_out_keeps (n_net n) d env raw (n_net n)) as Hk.
  assert (exists t', write_out io d env raw (n_net n) = (Ok tt, t')) as [t' E].
  { destruct (ensure_run d (n_net n)) as (k & t1 & He). unfold write_out. rewrite (run_ok _ _ _ _ _ He).
    unfold send. rewrite (run_ok _ _ _ _ _ (net_op_run _)). by eexists. }
  rewrite E in Hk. exists t'. split; [by apply run_focus|by apply Hk].
Qed.

Lemma close_out_run n :
  exists t', close_out n = (Ok tt, set_net t' n) /\ same_clients (n_net n) t' /\ net_out t' = None.
Proof.
  pose proof (close_keeps (n_net n) (n_net n)) as Hk.
  destruct (close_outbound (n_net n)) as [r t'] eqn:E. exists t'. injection E as <- <-.
  split; [by apply run_focus|]. split; [by apply Hk|]. by destruct (net_out (n_net n)) eqn:Eo.
Qed.

Lemma broadcast_end_run rid n :
  exists t', broadcast_end cfg io rid n = (Ok tt, set_req (set_kv (dict_pop rid (rs_kv (n_req n))) (n_req n)) (set_net t' n))
    /\ same_clients (n_net n) t'.
Proof.
  destruct (write_out_run (nc_downstream cfg) (Some (PEnd (mkEnd PROTOCOL_VERSION_NODE rid))) [] n) as (t' & Hw & Hs).
  exists t'. split; [|done]. unfold broadcast_end, quietly, suppress, handle_with. by rewrite run_bind, Hw.
Qed.

Lemma finish_decode_run rid n :
  exists t', finish_decode cfg io rid n = (Ok tt, set_net t' (set_req (drop_request rid (n_req n)) n))
    /\ same_clients (n_net n) t' /\ net_out t' = None.
Proof.
  destruct (broadcast_end_run rid n) as (t1 & Hb & Hs1). unfold finish_decode. rewrite (run_ok _ _ _ _ _ Hb). run.
  match goal with |- context [close_out ?n] => destruct (close_out_run n) as (t' & Hc & Hs & Ho) end.
  exists t'. rewrite Hc. split; [done|]. split; [|done]. intros c. by rewrite (Hs c).
Qed.

(** The tables of the requests are unchanged, up to the contents of the caches. *)
Record same_requests (q q' : Requests T K) : Prop := {
  sr_kv : dict_keys (rs_kv q') = dict_keys (rs_kv q);
  sr_heads : rs_heads q' = rs_heads q;
  sr_store : rs_store q' = rs_store q;
  sr_threads : rs_threads q' = rs_threads q;
}.

Lemma forward_run rid h c n :
  (exists msg, activation_envelope cfg rid (ss_end (nc_shard cfg)) h c = Ok msg) ->
  exists t' q', forward_activation cfg io rid h c n = (Ok tt, set_net t' (set_req q' n)) /\ same_clients (n_net n) t' /\
    same_requests (n_req n) q'.
Proof.
  intros [[env raw] He]. unfold forward_activation. erewrite run_ok by (by rewrite not_tail). run.
  erewrite run_ok by (by rewrite He). cbv beta iota.
  match goal with |- context [on_net _ ?n] => destruct (write_out_run (nc_downstream cfg) env raw n) as (t' & Hw & Hs) end.
  rewrite Hw. do 2 eexists. split; [done|]. split; [done|]. done.
Qed.

Lemma embed_chain_ok h : exists c, embed_chain cfg now h = Ok c.
Proof.
  unfold embed_chain. destruct (nc_provenance cfg); [|by eexists].
  destruct (build_entry_ok now (me cfg) (mkOp OP_EMBED 0 0) (tensor_to_bytes h) []) as (e & -> & _); [done|done|].
  by eexists.
Qed.

Lemma run_my_layers_run rid cache h c n : dict_mem rid (rs_kv (n_req n)) = true ->
  exists h' c' q', run_my_layers run_layers rid cache h c n = (Ok (h', c'), set_req q' n) /\ same_requests (n_req n) q' /\
    forall rid, exists msg, activation_envelope cfg rid (ss_end (nc_shard cfg)) h' c' = Ok msg.
Proof.
  intros Hm. destruct (layers_ok h c cache) as (h' & c' & k' & Hr & He). unfold run_my_layers. rewrite Hr.
  exists h', c'. eexists. split; [done|]. split; [|done]. unfold dict_mem in Hm.
  destruct (dict_get rid (rs_kv (n_req n))) eqn:Eg; [|done]. split; [|done..].
  change (dict_keys (dict_set rid k' (rs_kv (n_req n))) = dict_keys (rs_kv (n_req n))). rewrite dict_keys_set.
  unfold dict_mem. by rewrite Eg.
Qed.

Lemma same_requests_trans q1 q2 q3 : same_requests q1 q2 -> same_requests q2 q3 -> same_requests q1 q3.
Proof. intros [] []. split; congruence. Qed.

Lemma next_activation_run rid tok n : dict_mem rid (rs_kv (n_req n)) = true ->
  exists t' q', next_activation cfg io now run_layers rid tok n = (Ok tt, set_net t' (set_req q' n)) /\
    same_clients (n_net n) t' /\ same_requests (n_req n) q'.
Proof.
  intros Hm. assert (exists cache, dict_get rid (rs_kv (n_req n)) = Some cache) as [cache Hc].
  { unfold dict_mem in Hm. destruct (dict_get _ _); [by eexists|done]. }
  unfold next_activation. run. erewrite run_ok by (by rewrite Hc). cbv beta zeta.
  destruct (embed_chain_ok (nb_embed [tok])) as [c He]. erewrite run_ok by (by rewrite He). cbv beta.
  destruct (run_my_layers_run rid cache (nb_embed [tok]) c n Hm) as (h' & c' & q1 & Hr & Hq1 & Henv).
  rewrite (run_ok _ _ _ _ _ Hr). cbv beta iota.
  destruct (forward_run rid h' c' (set_req q1 n) (Henv rid)) as (t' & q' & Hf & Hs & Hq). rewrite Hf.
  exists t', q'. split; [done|]. split; [done|]. by eapply same_requests_trans.
Qed.

(** *** A decode thread and its tokens *)

Hypothesis head : is_head cfg = true.

(** Thread [i] serves [rid] for the client on connection [c]: it has sent [gen]
    of [max] tokens and waits for the next. *)
Record waiting (i : nat) (rid : string) (ref c : nat) (max gen : Z) n : Prop := {
  w_thread : rs_threads (n_req n) !! i = Some (rid, ref);
  w_head : dict_get rid (rs_heads (n_req n)) = Some ref;
  w_store : rs_store (n_req n) !! ref = Some (mkHead (Inbound c) max gen []);
  w_kv : dict_mem rid (rs_kv (n_req n)) = true;
  w_kv_wf : dict_wf (rs_kv (n_req n));
  w_heads_wf : dict_wf (rs_heads (n_req n));
}.

Definition token_event (conn : nat) (rid : string) (t : Z) : node_event :=
  Message conn (Some (PSampledToken (mkSampled 1 rid t 0 false))) [].
Abbreviation step := (node_step cfg io render now run_layers).
Abbreviation exec := (node_exec cfg io render now run_layers).

(** The request is gone: no head state, no cache, no thread, no connection. *)
Record released (i : nat) (rid : string) threads n : Prop := {
  re_heads : dict_get rid (rs_heads (n_req n)) = None;
  re_kv : dict_get rid (rs_kv (n_req n)) = None;
  re_threads : rs_threads (n_req n) = delete i threads;
  re_out : net_out (n_net n) = None;
}.

Lemma deliver_token conn i rid ref c max gen t n : waiting i rid ref c max gen n ->
  step (token_event conn rid t) n = set_req (put_at ref t (n_req n)) n.
Proof.
  intros Hw. unfold token_event, node_step, dispatch, handle_sampled_token. rewrite head. cbn [negb]. run.
  cbn [sk_request_id sk_token_id]. by rewrite (w_head _ _ _ _ _ _ _ Hw).
Qed.

(** The store after the token was taken and counted. *)
Lemma store_counted ref (h : HeadState) g t (store : list HeadState) :
  store !! ref = Some h -> hs_queue h = [] ->
  alter (fun h => mkHead (hs_client h) (hs_max_new_tokens h) g (hs_queue h)) ref
    (alter (fun h => mkHead (hs_client h) (hs_max_new_tokens h) (hs_generated h) []) ref (alter (put_token t) ref store)) !! ref =
  Some (mkHead (hs_client h) (hs_max_new_tokens h) g []).
Proof. intros Hs Hq. by rewrite !list_lookup_alter_eq, Hs. Qed.

Lemma dict_mem_keys {V V'} rid (d : dict string V) (d' : dict string V') :
  dict_keys d' = dict_keys d -> dict_mem rid d' = dict_mem rid d.
Proof. intros Hk. apply eq_iff_eq_true. by rewrite !dict_mem_spec, Hk. Qed.

Lemma token_sent rid t pos fin c n :
  in_u32 t = true -> in_u32 pos = true ->
  send_sampled_token_to io (Inbound c) rid t pos fin n =
  (Ok tt, set_net (wrote (Inbound c) (Some (PSampledToken (mkSampled PROTOCOL_VERSION_NODE rid t pos fin))) [] (n_net n)) n).
Proof.
  intros Ht Hp. unfold send_sampled_token_to. erewrite run_ok by (unfold lift; by rewrite built_ok by (cbn; by rewrite Ht, Hp)).
  cbv beta. by apply send_run.
Qed.

Lemma sent_wrote c env raw t : sent_to (Inbound c) (net_log (wrote (Inbound c) env raw t)) = sent_to (Inbound c) (net_log t) ++ [(env, raw)].
Proof. cbn. rewrite sent_to_app, sent_to_one. cbn. by rewrite decide_True. Qed.

Definition token_reply rid t pos fin : Envelope * bytes :=
  (Some (PSampledToken (mkSampled PROTOCOL_VERSION_NODE rid t pos fin)), []).

Lemma token_more conn i rid ref c max gen t n :
  waiting i rid ref c max gen n -> 0 <= gen -> gen + 1 < max -> in_u32 max = true -> in_u32 t = true ->
  let n' := exec [token_event conn rid t; Resume i] n in
  waiting i rid ref c max (gen + 1) n' /\ rs_threads (n_req n') = rs_threads (n_req n) /\
  sent_to (Inbound c) (log_of n') = sent_to (Inbound c) (log_of n) ++ [token_reply rid t gen false].
Proof.
  intros Hw Hg Hlt Hmax Ht. unfold node_exec. cbn [foldl]. rewrite (deliver_token _ _ _ _ _ _ _ _ _ Hw).
  destruct Hw as [Hth Hhd Hst Hkv Hwk Hwh]. unfold node_step, resume. run.
  change (rs_threads (n_req (set_req (put_at ref t (n_req n)) n))) with (rs_threads (n_req n)). rewrite Hth.
  set (n1 := set_req (put_at ref t (n_req n)) n).
  assert (Hst1 : rs_store (n_req n1) !! ref = Some (mkHead (Inbound c) max gen [t])).
  { unfold n1, put_at. cbn. by rewrite list_lookup_alter_eq, Hst. }
  assert (Hround : exists t' q', decode_round cfg io render now run_layers rid ref n1 = (Ok true, set_net t' (set_req q' n1)) /\
    sent_to (Inbound c) (net_log t') = sent_to (Inbound c) (log_of n) ++ [token_reply rid t gen false] /\
    dict_keys (rs_kv q') = dict_keys (rs_kv (n_req n)) /\ rs_heads q' = rs_heads (n_req n) /\
    rs_threads q' = rs_threads (n_req n) /\ rs_store q' !! ref = Some (mkHead (Inbound c) max (gen + 1) [])).
  { unfold decode_round. run. rewrite Hst1. cbn [hs_queue]. run. unfold handle_with, decode_token.
    replace (t =? POISON_TOKEN) with false by (unfold in_u32, POISON_TOKEN in *; lia). run.
    cbn [hs_client hs_max_new_tokens hs_generated].
    replace (max <=? gen + 1) with false by lia. replace (gen + 1 - 1) with gen by lia.
    erewrite run_ok by (apply token_sent; [done|unfold in_u32 in *; lia]). cbv beta.
    match goal with |- context [@mbind (eff _) _ _ _ _ (next_activation _ _ _ _ _ _) ?s] =>
      destruct (next_activation_run rid t s Hkv) as (t' & q' & Hn & Hs & Hq) end.
    rewrite run_bind, Hn. exists t', q'. split; [done|]. split.
    { rewrite (Hs c). cbn [n_net set_net]. by rewrite sent_wrote. }
    split; [by apply Hq|]. split; [by apply Hq|]. split; [by apply Hq|].
    rewrite (sr_store _ _ Hq). by apply (store_counted ref (mkHead (Inbound c) max gen [])). }
  destruct Hround as (t' & q' & Hr & Hsent & Hk & Hh & Hthr & Hs). unfold outcome. rewrite run_bind, Hr.
  split; [|done]. split; cbn; [by rewrite Hthr|by rewrite Hh|done| | |by rewrite Hh].
  - by rewrite (dict_mem_keys rid (rs_kv (n_req n)) (rs_kv q') Hk).
  - unfold dict_wf. by rewrite Hk.
Qed.

Lemma token_last conn i rid ref c max gen t n :
  waiting i rid ref c max gen n -> 0 <= gen -> gen + 1 = max -> in_u32 max = true -> in_u32 t = true ->
  let n' := exec [token_event conn rid t; Resume i] n in
  released i rid (rs_threads (n_req n)) n' /\
  sent_to (Inbound c) (log_of n') = sent_to (Inbound c) (log_of n) ++ [token_reply rid t gen true].
Proof.
  intros Hw Hg Heq Hmax Ht. unfold node_exec. cbn [foldl]. rewrite (deliver_token _ _ _ _ _ _ _ _ _ Hw).
  destruct Hw as [Hth Hhd Hst Hkv Hwk Hwh]. unfold node_step, resume. run.
  change (rs_threads (n_req (set_req (put_at ref t (n_req n)) n))) with (rs_threads (n_req n)). rewrite Hth.
  set (n1 := set_req (put_at ref t (n_req n)) n).
  assert (Hst1 : rs_store (n_req n1) !! ref = Some (mkHead (Inbound c) max gen [t])).
  { unfold n1, put_at. cbn. by rewrite list_lookup_alter_eq, Hst. }
  assert (Hround : exists t' q', decode_round cfg io render now run_layers rid ref n1 = (Ok false, set_net t' (set_req q' n1)) /\
    sent_to (Inbound c) (net_log t') = sent_to (Inbound c) (log_of n) ++ [token_reply rid t gen true] /\ net_out t' = None /\
    dict_get rid (rs_kv q') = None /\ dict_get rid (rs_heads q') = None /\ rs_threads q' = rs_threads (n_req n)).
  { unfold decode_round. run. rewrite Hst1. cbn [hs_queue]. run. unfold handle_with, decode_token.
    replace (t =? POISON_TOKEN) with false by (unfold in_u32, POISON_TOKEN in *; lia). run.
    cbn [hs_client hs_max_new_tokens hs_generated].
    replace (max <=? gen + 1) with true by lia. replace (gen + 1 - 1) with gen by lia.
    erewrite run_ok by (apply token_sent; [done|unfold in_u32 in *; lia]). cbv beta.
    match goal with |- context [@mbind (eff _) _ _ _ _ (finish_decode _ _ _) ?s] => destruct (finish_decode_run rid s) as (t' & Hn & Hs & Ho) end.
    rewrite run_bind, Hn. do 2 eexists. split; [done|]. split.
    { rewrite (Hs c). cbn [n_net set_net]. by rewrite sent_wrote. }
    split; [done|]. split; [by apply dict_get_pop_eq|]. split; [by apply dict_get_pop_eq|done]. }
  destruct Hround as (t' & q' & Hr & Hsent & Ho & Hk & Hh & Hthr). unfold outcome. rewrite run_bind, Hr.
  split; [|done]. split; cbn; [done|done|by rewrite Hthr|done].
Qed.

Definition max_of_request (req : BeginRequest) : Z := if br_max_new_tokens req =? 0 then 1 else br_max_new_tokens req.

Lemma begin_waits c req payload n :
  unavailable_peer cfg n = None -> dict_wf (rs_kv (n_req n)) -> dict_wf (rs_heads (n_req n)) ->
  let n' := step (Message c (Some (PBegin req)) payload) n in
  waiting (length (rs_threads (n_req n))) (br_request_id req) (length (rs_store (n_req n))) c (max_of_request req) 0 n' /\
  rs_threads (n_req n') = rs_threads (n_req n) ++ [(br_request_id req, length (rs_store (n_req n)))] /\
  sent_to (Inbound c) (log_of n') = sent_to (Inbound c) (log_of n).
Proof.
  intros Hun Hwk Hwh. set (rid := br_request_id req). set (ref := length (rs_store (n_req n))).
  unfold node_step, dispatch, handle_begin. rewrite head. cbn [negb]. run. rewrite Hun. cbv zeta.
  fold rid. fold (max_of_request req). run. fold ref.
  destruct (embed_chain_ok (nb_embed (br_prompt req))) as [ch He]. erewrite run_ok by (by rewrite He). cbv beta.
  match goal with |- context [@mbind (eff _) _ _ _ _ (handle_with _ _) ?s] => set (n1 := s) end.
  assert (Hm : dict_mem rid (rs_kv (n_req n1)) = true).
  { unfold n1. apply dict_mem_spec. change (rid ∈ dict_keys (dict_set rid nb_make_cache (rs_kv (n_req n)))).
    apply dict_set_in_keys. by left. }
  destruct (run_my_layers_run rid nb_make_cache (nb_embed (br_prompt req)) ch n1 Hm) as (h' & c' & q1 & Hr & Hq1 & Henv).
  erewrite run_ok by (unfold handle_with; rewrite run_bind, Hr; reflexivity). cbv beta iota.
  destruct (forward_run rid h' c' (set_req q1 n1) (Henv rid)) as (t' & q' & Hf & Hs & Hq).
  rewrite (run_ok _ _ _ _ _ Hf). destruct (same_requests_trans _ _ _ Hq1 Hq) as [Hkv Hheads Hstore Hthr].
  assert (Hst : rs_store (n_req n1) !! ref = Some (mkHead (Inbound c) (max_of_request req) 0 [])).
  { change ((rs_store (n_req n) ++ [mkHead (Inbound c) (max_of_request req) 0 []]) !! ref = Some (mkHead (Inbound c) (max_of_request req) 0 [])).
    apply list_lookup_middle. done. }
  split; [split|split]; cbn -[dict_set dict_get dict_mem].
  - rewrite Hthr. apply list_lookup_middle. done.
  - rewrite Hheads. apply dict_get_set_eq.
  - by rewrite Hstore.
  - by rewrite (dict_mem_keys rid (rs_kv (n_req n1)) (rs_kv q') Hkv).
  - unfold dict_wf. rewrite Hkv. by apply dict_set_wf.
  - rewrite Hheads. by apply dict_set_wf.
  - by rewrite Hthr.
  - apply (Hs c).
Qed.

Definition token_events (conn i : nat) rid (toks : list Z) : list node_event :=
  t ← toks; [token_event conn rid t; Resume i].

(** The replies for the tokens from position [gen] on, the last one final. *)
Fixpoint token_replies rid (gen : Z) (toks : list Z) : list (Envelope * bytes) :=
  match toks with
  | [] => []
  | t :: toks => token_reply rid t gen (bool_decide (toks = [])) :: token_replies rid (gen + 1) toks
  end.

Lemma tokens_served conn i rid ref c max toks gen n :
  waiting i rid ref c max gen n -> 0 <= gen -> toks <> [] -> gen + Z.of_nat (length toks) = max -> in_u32 max = true ->
  Forall (fun t => in_u32 t = true) toks ->
  let n' := exec (token_events conn i rid toks) n in
  released i rid (rs_threads (n_req n)) n' /\
  sent_to (Inbound c) (log_of n') = sent_to (Inbound c) (log_of n) ++ token_replies rid gen toks.
Proof.
  intros Hw Hg Hne Hlen Hmax Hall. revert gen n Hw Hg Hlen Hne.
  induction Hall as [|t toks Ht Hall IH]; intros gen n Hw Hg Hlen Hne; [done|].
  change (token_events conn i rid (t :: toks)) with ([token_event conn rid t; Resume i] ++ token_events conn i rid toks).
  unfold node_exec. rewrite foldl_app. cbn [length] in Hlen. destruct toks as [|t2 toks].
  - apply (token_last conn i rid ref c max gen t n); [done|done|cbn in Hlen; lia|done|done].
  - destruct (token_more conn i rid ref c max gen t n Hw Hg ltac:(cbn in Hlen; lia) Hmax Ht) as (Hw' & Hth & Hs).
    destruct (IH (gen + 1) _ Hw' ltac:(lia) ltac:(lia) ltac:(done)) as [Hrel Hs2]. unfold node_exec in *.
    rewrite Hth in Hrel. split; [exact Hrel|]. rewrite Hs2, Hs, <- (assoc_L app). done.
Qed.

(** The client reads the tokens, whatever follows the final one. *)
Lemma client_reads rid gen toks more : toks <> [] -> generate (token_replies rid gen toks ++ more) = Ok toks.
Proof.
  intros Hne. unfold generate. enough (generate_streaming (token_replies rid gen toks ++ more) = (toks, Ok tt)) as -> by done.
  revert gen Hne. induction toks as [|t toks IH]; intros gen Hne; [done|]. cbn.
  destruct toks as [|t2 toks]; [done|]. rewrite bool_decide_eq_false_2 by done. by rewrite (IH (gen + 1)).
Qed.

(** C5: a request from end to end. A client asks a healthy head that sees every
    shard alive for [max_new_tokens] (zero asks for one), and as many tokens
    arrive from the tail. The head sends the client each token once, in order,
    at positions 0, 1, ..., the last and only the last marked final; the client
    returns exactly these tokens; then the head has dropped the request's head
    state, its cache and its decode thread, and closed its outbound connection,
    so that the next request opens a fresh one ([released]); the debug captures
    of the request stay until they are cleared. *)
Theorem request_end_to_end c conn rid prompt max env toks n :
  unavailable_peer cfg n = None -> dict_wf (rs_kv (n_req n)) -> dict_wf (rs_heads (n_req n)) ->
  sent_to (Inbound c) (log_of n) = [] ->
  begin_envelope rid prompt max = Ok env -> Z.of_nat (length toks) = (if max =? 0 then 1 else max) ->
  Forall (fun t => in_u32 t = true) toks ->
  let i := length (rs_threads (n_req n)) in
  let n' := exec (Message c env [] :: token_events conn i rid toks) n in
  sent_to (Inbound c) (log_of n') = token_replies rid 0 toks /\
  generate (sent_to (Inbound c) (log_of n')) = Ok toks /\
  released i rid (rs_threads (n_req n) ++ [(rid, length (rs_store (n_req n)))]) n'.
Proof.
  intros Hun Hwk Hwh Hfresh Henv Hlen Hall i n'.
  unfold begin_envelope, built in Henv. destruct (payload_ok _) eqn:Hok; [|done]. injection Henv as <-.
  set (req := mkBegin 1 rid rid prompt true 0 max) in *.
  destruct (begin_waits c req [] n Hun Hwk Hwh) as (Hw & Hth & Hs).
  change (br_request_id req) with rid in *.
  set (n1 := step _ n) in *. change n' with (exec (token_events conn i rid toks) n1).
  assert (in_u32 max = true) as Hm by (cbn in Hok; by apply andb_true_iff in Hok as [_ Hm]).
  change (max_of_request req) with (if max =? 0 then 1 else max) in Hw.
  assert (0 < (if max =? 0 then 1 else max) /\ in_u32 (if max =? 0 then 1 else max) = true) as [Hpos Hm'].
  { unfold in_u32 in *. destruct (max =? 0) eqn:E; lia. }
  assert (toks <> []) as Hne by (intros ->; cbn in Hlen; lia).
  destruct (tokens_served conn i _ _ c _ toks 0 n1 Hw) as [Hrel Hsent]; [done|done|lia|done|done|].
  rewrite Hs, Hfresh in Hsent. cbn [app] in Hsent. rewrite Hsent. rewrite Hth in Hrel.
  split; [done|]. split; [|exact Hrel]. rewrite <- (app_nil_r (token_replies _ _ _)). by apply client_reads.
Qed.

(** *** A peer fails in mid-request *)

Definition error_reply rid code (d : Detail) : Envelope * bytes :=
  (Some (PError (mkError PROTOCOL_VERSION_NODE rid code (render d))), []).

Lemma reply_error_run c rid code d n : in_u32 code = true ->
  reply_error io render (Inbound c) rid code d n =
  (Ok tt, set_net (wrote (Inbound c) (error_reply rid code d).1 [] (n_net n)) n).
Proof.
  intros Hc. unfold reply_error, on_net. apply run_focus. unfold send_error, error_envelope.
  erewrite run_ok by (unfold lift; by rewrite built_ok by (cbn; by rewrite Hc)). cbv beta.
  unfold send. by rewrite (run_ok _ _ _ _ _ (net_op_run _)).
Qed.

Lemma abort_decode_run c rid d n :
  exists t', abort_decode cfg io render (Inbound c) rid d n =
    (Ok tt, set_net t' (set_req (set_kv (dict_pop rid (dict_pop rid (rs_kv (n_req n)))) (drop_request rid (n_req n))) n)) /\
    forall c', sent_to (Inbound c') (net_log t') =
      sent_to (Inbound c') (log_of n) ++ (if decide (c' = c) then [error_reply rid ERR_SHARD_UNAVAILABLE d] else []).
Proof.
  unfold abort_decode. erewrite run_ok by (unfold quietly, suppress, handle_with; by rewrite reply_error_run). cbv beta.
  erewrite run_ok by reflexivity. cbv beta.
  match goal with |- context [@mbind (eff _) _ _ _ _ close_out ?s] => destruct (close_out_run s) as (t1 & H1' & Hs1 & _) end.
  rewrite (run_ok _ _ _ _ _ H1').
  match goal with |- context [quietly _ ?s] => destruct (broadcast_end_run rid s) as (t2 & H2' & Hs2) end.
  exists t2. split; [unfold quietly, suppress, handle_with; by rewrite H2'|].
  intros c'. etransitivity; [apply (Hs2 c')|]. etransitivity; [apply (Hs1 c')|]. cbn [n_net set_net set_req wrote net_log]. rewrite sent_to_app, sent_to_one. cbn [to_client error_reply fst].
  by destruct (decide (c = c')), (decide (c' = c)); subst.
Qed.

(** Poisoning a node's head states: one token per entry that refers to a state. *)
Definition poison (refs : list nat) (q : Requests T K) : Requests T K := foldl (fun q ref => put_at ref POISON_TOKEN q) q refs.

Lemma poison_tables refs q :
  rs_kv (poison refs q) = rs_kv q /\ rs_heads (poison refs q) = rs_heads q /\ rs_threads (poison refs q) = rs_threads q.
Proof. unfold poison. revert q. induction refs as [|r refs IH]; intros q; [done|]. apply (IH (put_at r POISON_TOKEN q)). Qed.

Lemma poison_store refs q ref h : rs_store q !! ref = Some h ->
  rs_store (poison refs q) !! ref =
  Some (mkHead (hs_client h) (hs_max_new_tokens h) (hs_generated h) (hs_queue h ++ replicate (length (filter (.= ref) refs)) POISON_TOKEN)).
Proof.
  unfold poison. revert q h. induction refs as [|r refs IH]; intros q h Hq; cbn [foldl].
  - rewrite app_nil_r, Hq. by destruct h.
  - rewrite filter_cons. case_decide as Hr.
    + subst r. rewrite (IH (put_at ref POISON_TOKEN q) (put_token POISON_TOKEN h)).
      * cbn. by rewrite <- (assoc_L app).
      * unfold put_at. cbn. by rewrite list_lookup_alter_eq, Hq.
    + apply IH. unfold put_at. cbn. by rewrite list_lookup_alter_ne.
Qed.

(** A decode thread that finds the poison: one error to its client, the request dropped. *)
Lemma poisoned_resume i rid ref c max gen rest n :
  rs_threads (n_req n) !! i = Some (rid, ref) -> rs_store (n_req n) !! ref = Some (mkHead (Inbound c) max gen (POISON_TOKEN :: rest)) ->
  dict_wf (rs_kv (n_req n)) -> dict_wf (rs_heads (n_req n)) ->
  let n' := step (Resume i) n in
  sent_to (Inbound c) (log_of n') = sent_to (Inbound c) (log_of n) ++
    [error_reply rid ERR_SHARD_UNAVAILABLE (DException PeerLeftAliveError)] /\
  dict_get rid (rs_heads (n_req n')) = None /\ dict_get rid (rs_kv (n_req n')) = None /\
  rs_threads (n_req n') = delete i (rs_threads (n_req n)).
Proof.
  intros Hth Hst Hwk Hwh. unfold node_step, resume. run. rewrite Hth.
  assert (Hround : exists t' q', decode_round cfg io render now run_layers rid ref n = (Ok false, set_net t' (set_req q' n)) /\
    sent_to (Inbound c) (net_log t') = sent_to (Inbound c) (log_of n) ++ [error_reply rid ERR_SHARD_UNAVAILABLE (DException PeerLeftAliveError)] /\
    dict_get rid (rs_kv q') = None /\ dict_get rid (rs_heads q') = None /\ rs_threads q' = rs_threads (n_req n)).
  { unfold decode_round. run. rewrite Hst. cbn [hs_queue]. run. unfold handle_with at 1, decode_token.
    change (POISON_TOKEN =? POISON_TOKEN) with true. cbn [throw hs_client is_os_error is_rpc_failure].
    change (is_os_error PeerLeftAliveError) with false. rewrite bool_decide_eq_true_2 by done. cbn [orb].
    match goal with |- context [@mbind (eff _) _ _ _ _ (abort_decode _ _ _ _ _ ?d) ?s] => destruct (abort_decode_run c rid d s) as (t' & Ha & Hsent) end.
    rewrite (run_ok _ _ _ _ _ Ha). do 2 eexists. split; [done|]. rewrite Hsent, decide_True by done. split; [done|]. cbn.
    split; [by apply dict_get_pop_eq, dict_pop_wf|]. split; [by apply dict_get_pop_eq|done]. }
  destruct Hround as (t' & q' & Hr & Hsent & Hk & Hh & Hthr). unfold outcome. rewrite run_bind, Hr. cbn.
  split; [done|]. split; [done|]. split; [done|]. by rewrite Hthr.
Qed.

(** C18: a failure reaches the client. When any peer of a healthy head leaves
    ALIVE, a request that waits for its next token is aborted: its thread wakes
    up, the client is told ERR_SHARD_UNAVAILABLE and nothing else, and the
    request's state is dropped. *)
Theorem failure_reaches_client i rid ref c max gen tr n :
  waiting i rid ref c max gen n -> left_alive tr = true ->
  let n' := exec [Transition tr; Resume i] n in
  sent_to (Inbound c) (log_of n') = sent_to (Inbound c) (log_of n) ++
    [error_reply rid ERR_SHARD_UNAVAILABLE (DException PeerLeftAliveError)] /\
  dict_get rid (rs_heads (n_req n')) = None /\ dict_get rid (rs_kv (n_req n')) = None /\
  rs_threads (n_req n') = delete i (rs_threads (n_req n)).
Proof.
  intros [Hth Hhd Hst Hkv Hwk Hwh] Hla. unfold node_exec. cbn [foldl].
  assert (Htr : exists t1 v1, step (Transition tr) n =
    mkNode (n_own n) (poison (dict_values (rs_heads (n_req n))) (n_req n)) t1 v1 /\ same_clients (n_net n) t1).
  { unfold node_step, on_membership_change. rewrite Hla. cbn [andb when].
    match goal with |- context [when ?b close_out] => assert (exists t1, when b close_out n = (Ok tt, set_net t1 n) /\ same_clients (n_net n) t1) as (t1 & Hc & Hs1) end.
    { destruct (_ && _); cbn [when]; [destruct (close_out_run n) as (t1 & H1' & H2' & _); by exists t1|].
      exists (n_net n). by destruct n. }
    rewrite (run_ok _ _ _ _ _ Hc). cbv beta.
    destruct (has_orchestrator cfg); cbn [when]; run; do 2 eexists; (split; [reflexivity|done]). }
  destruct Htr as (t1 & v1 & -> & Hs1). set (n1 := mkNode _ _ _ _).
  destruct (poison_tables (dict_values (rs_heads (n_req n))) (n_req n)) as (Hk1 & Hh1 & Hth1).
  pose proof (poison_store (dict_values (rs_heads (n_req n))) (n_req n) ref _ Hst) as Hst1. cbn in Hst1.
  assert (ref ∈ filter (.= ref) (dict_values (rs_heads (n_req n)))) as Hin.
  { apply list_elem_of_filter. split; [done|]. apply dict_values_in. exists rid. by apply dict_get_Some_in. }
  destruct (filter _ _) as [|r0 rs0]; [inversion Hin|]. cbn [length replicate] in Hst1. clear Hin.
  destruct (poisoned_resume i rid ref c max gen (replicate (length rs0) POISON_TOKEN) n1) as (R1 & R2 & R3 & R4);
    [by etransitivity; [exact (f_equal (lookup i) Hth1)|]|done|by cbn; rewrite Hk1|by cbn; rewrite Hh1|].
  rewrite R1, R4. cbn [n_net n1]. rewrite (Hs1 c). split; [done|]. split; [done|]. split; [done|]. cbn. by rewrite Hth1.
Qed.

End healthy.

End node.
