(* ===== verification/NodeFailures.v ===== *)
(** * Failures of a node: which ones the client hears of

    A send that fails, a chain that is rejected at a middle shard or at the
    tail, and an entry by a node nobody knows. *)
From S2P Require Import Prelude PyDict PyFloat PyList PyRandom Records SwimState.
From S2P Require Import Wire Messages Ownership Runner ShardMap Trackers Provenance Experts Effects Migration.
From S2P Require Import Engine NodeState NodeHandlers Client NodeTheorems.
Open Scope Z_scope.

Section node.
Context {T K C R : Type} `{StackLib C} `{RandomSource R} `{NodeBackend T K C}.
Context (cfg : NodeConfig) (io : nat -> bool) (render : Detail -> string) (now : float).
Context (run_layers : T -> option (list ProvenanceEntry) -> eff K (T * option (list ProvenanceEntry))).
Abbreviation State := (NodeState T K C R).
Implicit Types (n : State).
Abbreviation log_of n := (net_log (n_net n)).
Abbreviation step := (node_step cfg io render now run_layers).

(** ** The first activation cannot be sent *)

(** a head that cannot connect to its downstream shard. The prefill runs,
    the connect raises OSError, and nothing catches it: the client is sent
    nothing, the head state and the cache of the request stay, and no decode
    thread exists that would ever release them. *)
Theorem first_send_failure_leaks c req payload n h' c' k' ch msg :
  is_head cfg = true -> is_tail cfg = false -> unavailable_peer cfg n = None ->
  net_out (n_net n) = None -> io (net_ops (n_net n)) = false ->
  embed_chain cfg now (nb_embed (br_prompt req)) = Ok ch ->
  run_layers (nb_embed (br_prompt req)) ch nb_make_cache = (Ok (h', c'), k') ->
  activation_envelope cfg (br_request_id req) (ss_end (nc_shard cfg)) h' c' = Ok msg ->
  (dispatch cfg io render now run_layers (Some (PBegin req)) payload (Inbound c) n).1 = Raise OSError /\
  let n' := step (Message c (Some (PBegin req)) payload) n in
  net_log (n_net n') = net_log (n_net n) /\
  dict_get (br_request_id req) (rs_heads (n_req n')) = Some (length (rs_store (n_req n))) /\
  dict_get (br_request_id req) (rs_kv (n_req n')) = Some k' /\
  rs_threads (n_req n') = rs_threads (n_req n).
Proof.
  intros Hhead Htail Hun Hout Hio Hch Hrun Henv. set (rid := br_request_id req) in *.
  enough (exists t' q', dispatch cfg io render now run_layers (Some (PBegin req)) payload (Inbound c) n = (Raise OSError, set_net t' (set_req q' n)) /\
    net_log t' = net_log (n_net n) /\ dict_get rid (rs_heads q') = Some (length (rs_store (n_req n))) /\
    dict_get rid (rs_kv q') = Some k' /\ rs_threads q' = rs_threads (n_req n)) as (t' & q' & Hd & H1' & H2' & H3' & H4').
  { unfold node_step. by rewrite Hd. }
  unfold dispatch, handle_begin. rewrite Hhead. cbn [negb]. run. rewrite Hun. cbv zeta. run.
  erewrite run_ok by (by rewrite Hch). cbv beta. fold rid.
  match goal with |- context [@mbind (eff _) _ _ _ _ (handle_with _ _) ?s] => set (n1 := s) end.
  assert (Hm : dict_get rid (rs_kv (n_req n1)) = Some nb_make_cache) by apply dict_get_set_eq.
  erewrite run_ok by (unfold handle_with, run_my_layers; rewrite run_bind, Hrun, Hm; reflexivity). cbv beta iota.
  unfold forward_activation. destruct msg as [env raw]. rewrite run_bind.
  erewrite run_ok by (by rewrite Htail). run. erewrite run_ok by (by rewrite Henv). cbv beta iota.
  unfold on_net, focus. match goal with |- context [write_out _ _ _ _ ?t0] => change t0 with (n_net n) end.
  unfold write_out. rewrite run_bind. unfold ensure_out_stream. rewrite Hout. rewrite run_bind. unfold net_op. rewrite Hio. do 2 eexists. split; [done|]. split; [done|].
  split; [apply dict_get_set_eq|]. split; [apply dict_get_set_eq|done].
Qed.

(** ** A rejected chain *)

(** The activation this shard takes and whose chain it rejects. *)
Record rejects (act : Activation) (payload : bytes) n : Prop := {
  rj_layer : ac_next_layer act = ss_start (nc_shard cfg);
  rj_on : nc_provenance cfg = true;
  rj_some : ac_provenance act <> [];
  rj_chain : exists chain, mapR entry_from_pb (ac_provenance act) = Ok chain /\ check_chain cfg chain payload n = Raise ProvenanceError;
}.

Lemma rejected act payload c n : rejects act payload n ->
  dispatch cfg io render now run_layers (Some (PActivation act)) payload (Inbound c) n =
  reject_activation cfg io render (Inbound c) (ac_request_id act) n.
Proof.
  intros [Hl Hp Hs (chain & Hc & Hv)]. unfold dispatch, handle_activation. rewrite (proj2 (Z.eqb_eq _ _) Hl), Hp. cbn [negb].
  erewrite run_ok by (by rewrite Hc). run. destruct (ac_provenance act); [done|]. by rewrite Hv.
Qed.

Lemma sent_to_other s s' env raw : s <> s' -> sent_to s [Sent s' env raw] = [].
Proof. intros Hs. unfold sent_to. cbn. by rewrite decide_False. Qed.

(** a middle shard rejects in silence. A shard that is not the tail and
    rejects the chain of an activation writes to the connection the activation
    came from, which its upstream never reads, and to no other stream: neither
    the head nor the client learns of the rejection. *)
Theorem mid_rejection_is_silent act payload c n :
  is_tail cfg = false -> rejects act payload n ->
  let n' := step (Message c (Some (PActivation act)) payload) n in
  (forall s, s <> Inbound c -> sent_to s (log_of n') = sent_to s (log_of n)) /\ n_req n' = n_req n /\
  net_out (n_net n') = None.
Proof.
  intros Htail Hr. unfold node_step. rewrite (rejected _ _ _ _ Hr). unfold reject_activation. rewrite Htail. cbn [negb].
  assert (Hq : exists t', quietly (reply_error io render (Inbound c) (ac_request_id act) ERR_INVALID_PROVENANCE (DException ProvenanceError)) n = (Ok tt, set_net t' n)
    /\ forall s, s <> Inbound c -> sent_to s (net_log t') = sent_to s (log_of n)).
  { unfold quietly, suppress, handle_with, reply_error, on_net, focus, send_error, error_envelope.
    erewrite run_ok by (unfold lift; by rewrite built_ok). cbv beta. unfold send. rewrite run_bind. unfold net_op.
    destruct (io _); cbn [log_event modify]; eexists; (split; [done|]); intros s Hs; [|done].
    cbn [net_log]. by rewrite sent_to_app, sent_to_other, app_nil_r. }
  destruct Hq as (t' & Hq & Hs). rewrite (run_ok _ _ _ _ _ Hq). cbn. split.
  - intros s Hne. rewrite <- (Hs s Hne). destruct (net_out t'); [|done]. cbn. by rewrite sent_to_app, app_nil_r.
  - split; [done|]. by destruct (net_out t') eqn:E.
Qed.

(** ** Who may embed *)

(** an unknown node may embed. [_shard_lookup] answers (0, 0) for a node
    that is not in the shard map, and that is exactly what authorizes OP_EMBED:
    a chain of one OP_EMBED entry by such a node is accepted. *)
Theorem unknown_node_may_embed sid tensor e n :
  lookup_shard sid (nc_map cfg) = Raise KeyError ->
  build_entry sid (mkOp OP_EMBED 0 0) tensor [] now = Ok e ->
  check_chain cfg [e] tensor n = Ok tt.
Proof.
  intros Hl Hb. destruct (build_entry_ok now sid (mkOp OP_EMBED 0 0) tensor []) as (e' & He & Ho & Hn & _ & Hh); [done|done|].
  rewrite Hb in He. injection He as <-. unfold check_chain, validate_chain.
  assert (Hr3 : rule3 [e] = Ok tt) by (unfold rule3, split_ops_by_layer, foldl, bucket_one; by rewrite Ho).
  assert (Hr1 : rule1 [e] = Ok tt) by (unfold rule1, has_type; cbn; by rewrite Ho).
  assert (Hr2 : rule2 (nc_total_layers cfg) [e] = Ok tt) by (unfold rule2, layers_covered, covers, has_type; cbn; by rewrite Ho).
  rewrite Hr1, Hr2, Hr3. cbn [mbind result_bind check_all]. unfold authorize. rewrite Ho, Hn. cbn [mbind result_bind].
  unfold shard_lookup. rewrite Hl. cbn [require opd_type]. unfold tail_check. cbn [last or_raise mbind result_bind].
  rewrite Ho. cbn [or_raise mbind result_bind]. rewrite Hh. cbn [mbind result_bind]. by rewrite bool_decide_eq_true_2.
Qed.

End node.

(** ** A rejection at the tail, as the client sees it *)

Section pair.
Context {T K C R : Type} `{StackLib C} `{RandomSource R} `{NodeBackend T K C}.
Context (tail_cfg head_cfg : NodeConfig) (io : nat -> bool) (render : Detail -> string) (now : float).
Context (run_tail run_head : T -> option (list ProvenanceEntry) -> eff K (T * option (list ProvenanceEntry))).
Hypothesis io_ok : forall k, io k = true.

Lemma ensure_sent d t : keeps (fun t' => forall s, sent_to s (net_log t') = sent_to s (net_log t)) (ensure_out_stream io d).
Proof.
  intros t' Ht. unfold ensure_out_stream. destruct (net_out t'); [done|].
  rewrite (run_ok _ _ _ _ _ (net_op_run io io_ok _)). run. cbn. intros s. by rewrite sent_to_app, app_nil_r.
Qed.

Lemma send_error_run s rid code detail t : in_u32 code = true ->
  send_error io s rid code detail t = (Ok tt, wrote s (Some (PError (mkError PROTOCOL_VERSION_NODE rid code detail))) [] t).
Proof.
  intros Hc. unfold send_error, error_envelope. erewrite run_ok by (unfold lift; by rewrite built_ok by (cbn; by rewrite Hc)).
  cbv beta. unfold send. by rewrite (run_ok _ _ _ _ _ (net_op_run io io_ok _)).
Qed.

Lemma sent_wrote_same s env raw t : sent_to s (net_log (wrote s env raw t)) = sent_to s (net_log t) ++ [(env, raw)].
Proof. cbn. rewrite sent_to_app. f_equal. unfold sent_to. cbn. by rewrite decide_True. Qed.

(** The tail's side. *)
Lemma tail_rejects act payload c (nt : NodeState T K C R) :
  is_tail tail_cfg = true -> rejects tail_cfg act payload nt ->
  exists k t', node_step tail_cfg io render now run_tail (Message c (Some (PActivation act)) payload) nt = set_net t' nt /\
    sent_to (Outbound k) (net_log t') = sent_to (Outbound k) (net_log (n_net nt)) ++
      [error_reply render (ac_request_id act) ERR_INVALID_PROVENANCE (DException ProvenanceError)].
Proof.
  intros Htail Hr. unfold node_step. rewrite (rejected _ _ _ _ _ _ _ _ _ Hr). unfold reject_activation. rewrite Htail. cbn [negb].
  erewrite run_ok by (unfold quietly, suppress, handle_with; by rewrite reply_error_run). cbv beta.
  set (t0 := wrote _ _ _ _). destruct (ensure_run io io_ok (nc_downstream tail_cfg) t0) as (k & t1 & He).
  pose proof (ensure_sent (nc_downstream tail_cfg) t0 t0 (fun s => eq_refl)) as Hk. rewrite He in Hk. cbn [snd] in Hk.
  unfold quietly, suppress, handle_with, on_net, focus. cbn [n_net set_net]. rewrite (run_ok _ _ _ _ _ He), send_error_run by done.
  do 2 eexists. split; [done|]. rewrite sent_wrote_same, Hk. unfold t0. cbn [wrote net_log].
  by rewrite sent_to_app, sent_to_other, app_nil_r.
Qed.

(** The head's side. *)
Lemma head_relays rid detail code conn i ref client max gen (nh : NodeState T K C R) :
  is_head head_cfg = true -> in_u32 code = true -> waiting i rid ref client max gen nh ->
  let nh' := node_exec head_cfg io render now run_head
    [Message conn (Some (PError (mkError PROTOCOL_VERSION_NODE rid code detail))) []; Resume i] nh in
  sent_to (Inbound client) (net_log (n_net nh')) = sent_to (Inbound client) (net_log (n_net nh)) ++
    [(Some (PError (mkError PROTOCOL_VERSION_NODE rid code detail)), []);
     error_reply render rid ERR_SHARD_UNAVAILABLE (DException PeerLeftAliveError)] /\
  dict_get rid (rs_heads (n_req nh')) = None /\ dict_get rid (rs_kv (n_req nh')) = None.
Proof.
  intros Hhead Hcode [Hth Hhd Hst Hkv Hwk Hwh]. unfold node_exec. cbn [foldl].
  set (err := Some (PError (mkError PROTOCOL_VERSION_NODE rid code detail))).
  set (n1 := set_req (drop_request rid (put_at ref POISON_TOKEN (n_req nh))) (set_net (wrote (Inbound client) err [] (n_net nh)) nh)).
  assert (Hstep : node_step head_cfg io render now run_head (Message conn err []) nh = n1).
  { unfold node_step, dispatch, err, handle_upstream_error. rewrite Hhead. cbn [negb]. run. cbn [ep_request_id ep_code ep_detail].
    rewrite Hhd, Hst. cbn [hs_client].
    by erewrite run_ok by (unfold quietly, suppress, handle_with, on_net, focus; by rewrite send_error_run). }
  rewrite Hstep.
  destruct (poisoned_resume head_cfg io render now run_head io_ok i rid ref client max gen [] n1) as (R1 & R2 & R3 & _).
  - exact Hth.
  - unfold n1. cbn. by rewrite list_lookup_alter_eq, Hst.
  - by apply dict_pop_wf.
  - by apply dict_pop_wf.
  - rewrite R1. split; [|done]. unfold n1. cbn [n_net set_req set_net]. by rewrite sent_wrote_same, <- (assoc_L app).
Qed.

(** C30: a rejection at the tail reaches the client. The tail that rejects a
    chain sends one error to the head, whose client gets it, followed by a
    second error from the decode thread it wakes; the client raises, and the
    head has dropped the request. *)
Theorem tail_rejection_reaches_client act payload c conn i ref client max gen (nt nh : NodeState T K C R) :
  is_tail tail_cfg = true -> is_head head_cfg = true -> rejects tail_cfg act payload nt ->
  waiting i (ac_request_id act) ref client max gen nh ->
  let nt' := node_step tail_cfg io render now run_tail (Message c (Some (PActivation act)) payload) nt in
  exists k env, sent_to (Outbound k) (net_log (n_net nt')) = sent_to (Outbound k) (net_log (n_net nt)) ++ [(env, [])] /\
  let nh' := node_exec head_cfg io render now run_head [Message conn env []; Resume i] nh in
  sent_to (Inbound client) (net_log (n_net nh')) = sent_to (Inbound client) (net_log (n_net nh)) ++
    [error_reply render (ac_request_id act) ERR_INVALID_PROVENANCE (DException ProvenanceError);
     error_reply render (ac_request_id act) ERR_SHARD_UNAVAILABLE (DException PeerLeftAliveError)] /\
  dict_get (ac_request_id act) (rs_heads (n_req nh')) = None /\ dict_get (ac_request_id act) (rs_kv (n_req nh')) = None.
Proof.
  intros Htail Hhead Hr Hw. destruct (tail_rejects act payload c nt Htail Hr) as (k & t' & Ht & Hs).
  exists k, (error_reply render (ac_request_id act) ERR_INVALID_PROVENANCE (DException ProvenanceError)).1.
  split; [by rewrite Ht|]. by apply (head_relays _ _ _ _ _ ref _ max gen).
Qed.

End pair.
