(* ===== verification/NodeLife.v ===== *)
(** * The life of a node: what every state it reaches satisfies

    A node is constructed, then its threads take turns: messages are dispatched,
    decode threads resumed, transitions reported, gossip delivered, the
    migration scanner ticks.  [alive] is the set of states it can reach;
    [node_ok] holds in all of them. *)
From S2P Require Import Prelude PyDict PyFloat PyList PyRandom Records SwimState.
From S2P Require Import Wire Messages Ownership Runner ShardMap Trackers Provenance Experts Effects Migration MigrationTheorems.
From S2P Require Import NodeState Settings NodeInit NodeHandlers.
Open Scope Z_scope.

Section life.
Context {T K C R : Type} `{StackLaws C} `{RandomSource R} `{NodeBackend T K C}.
Abbreviation State := (NodeState T K C R).
Implicit Types (n : State).

(** ** What holds of the parts *)

(** The head states and the threads refer to objects of the store. *)
Record requests_ok (q : Requests T K) : Prop := {
  rq_kv : dict_wf (rs_kv q);
  rq_heads : dict_wf (rs_heads q);
  rq_refs : forall rid ref, (rid, ref) ∈ rs_heads q -> (ref < length (rs_store q))%nat;
  rq_threads : forall rid ref, (rid, ref) ∈ rs_threads q -> (ref < length (rs_store q))%nat;
}.

(** The open connection is the newest one. *)
Definition net_ok (t : Net) : Prop := forall k, net_out t = Some k -> net_conns t = S k.

(** A state with holdings [o], [v] expert requests in flight, and a store of
    at least [size] objects. *)
Record steady (o : OwnNode C R) (v : Z) (size : nat) n : Prop := {
  st_own : n_own n = o;
  st_size : (size <= length (rs_store (n_req n)))%nat;
  st_req : requests_ok (n_req n);
  st_net : net_ok (n_net n);
  st_flight : sv_in_flight (n_srv n) = v;
}.

(** ** The tables of the requests *)

Lemma requests_shrink (q q' : Requests T K) :
  dict_wf (rs_kv q') -> rs_heads q' `sublist_of` rs_heads q -> rs_threads q' `sublist_of` rs_threads q ->
  length (rs_store q') = length (rs_store q) -> requests_ok q -> requests_ok q'.
Proof.
  intros Hk Hh Ht Hl []. split; [done| | |].
  - by eapply NoDup_submseteq_map; [apply sublist_submseteq|].
  - intros rid ref Hin. rewrite Hl. eapply rq_refs0. by eapply elem_of_sublist.
  - intros rid ref Hin. rewrite Hl. eapply rq_threads0. by eapply elem_of_sublist.
Qed.

Lemma requests_store f ref (q : Requests T K) : requests_ok q -> requests_ok (set_store (alter f ref (rs_store q)) q).
Proof. intros Hq. apply (requests_shrink q); [apply Hq|done|done|by apply length_alter|done]. Qed.

Lemma requests_kv kv (q : Requests T K) : dict_wf kv -> requests_ok q -> requests_ok (set_kv kv q).
Proof. intros Hk Hq. by apply (requests_shrink q). Qed.

Lemma requests_heads_pop rid (q : Requests T K) : requests_ok q -> requests_ok (set_heads (dict_pop rid (rs_heads q)) q).
Proof. intros Hq. apply (requests_shrink q); [apply Hq|apply dict_pop_sublist|done..]. Qed.

Lemma requests_drop rid (q : Requests T K) : requests_ok q -> requests_ok (drop_request rid q).
Proof.
  intros Hq. apply (requests_heads_pop rid (set_kv (dict_pop rid (rs_kv q)) q)).
  apply requests_kv; [apply dict_pop_wf, Hq|done].
Qed.

Lemma requests_new rid (k : K) h (q : Requests T K) : requests_ok q ->
  requests_ok (set_heads (dict_set rid (length (rs_store q)) (rs_heads q))
    (set_kv (dict_set rid k (rs_kv q)) (set_store (rs_store q ++ [h]) q))).
Proof.
  intros []. split; cbn -[dict_set].
  - by apply dict_set_wf.
  - by apply dict_set_wf.
  - intros r ref [Hin|Hin]%dict_set_in; rewrite length_app; cbn; [injection Hin as _ ->; lia|].
    apply rq_refs0 in Hin. lia.
  - intros r ref Hin. apply rq_threads0 in Hin. rewrite length_app. cbn. lia.
Qed.

Lemma requests_thread rid ref (q : Requests T K) :
  (ref < length (rs_store q))%nat -> requests_ok q -> requests_ok (set_threads (rs_threads q ++ [(rid, ref)]) q).
Proof.
  intros Hr []. split; [done..|]. cbn. intros r ref' [Hin|Hin%list_elem_of_singleton]%elem_of_app; [by eapply rq_threads0|].
  by injection Hin as -> ->.
Qed.

(** ** Computations that keep it *)

Context (cfg : NodeConfig) (io : nat -> bool) (render : Detail -> string) (now : float).
Context (run_layers : T -> option (list ProvenanceEntry) -> eff K (T * option (list ProvenanceEntry))).

Section handlers.
Context (o : OwnNode C R) (v : Z) (size : nat).
Abbreviation P := (steady o v size).

Lemma steady_net {A} (m : eff Net A) : keeps net_ok m -> keeps P (on_net m).
Proof. intros Hm. apply keeps_focus. intros n []. split; [done..| |done]. by apply Hm. Qed.

Lemma steady_req f : (forall q, requests_ok q -> (size <= length (rs_store q))%nat ->
    requests_ok (f q) /\ (size <= length (rs_store (f q)))%nat) -> keeps P (on_req (modify f)).
Proof. intros Hf. apply keeps_focus. intros n []. destruct (Hf (n_req n)) as [H1' H2']; [done..|]. by split. Qed.

Lemma net_op_ok : keeps net_ok (net_op io).
Proof. intros t Ht. exact Ht. Qed.

Lemma log_event_ok ev : keeps net_ok (log_event ev).
Proof. intros t Ht. exact Ht. Qed.

#[local] Hint Resolve net_op_ok log_event_ok : keeps.

Lemma send_ok s env raw : keeps net_ok (send io s env raw).
Proof. unfold send. keeps_all. Qed.

Lemma ensure_ok d : keeps net_ok (ensure_out_stream io d).
Proof.
  intros t Ht. unfold ensure_out_stream. destruct (net_out t) as [k|] eqn:E; [done|]. rewrite run_bind. unfold net_op.
  destruct (io _); [|by intros k; cbn; rewrite E]. run. intros k [= <-]. done.
Qed.

#[local] Hint Resolve send_ok ensure_ok : keeps.

Lemma write_out_ok d env raw : keeps net_ok (write_out io d env raw).
Proof. unfold write_out. keeps_all. Qed.

Lemma close_outbound_ok : keeps net_ok close_outbound.
Proof. apply keeps_modify. intros t Ht. by destruct (net_out t). Qed.

Lemma send_error_ok s rid code d : keeps net_ok (send_error io s rid code d).
Proof. unfold send_error. keeps_all. Qed.

#[local] Hint Resolve write_out_ok close_outbound_ok send_error_ok steady_net : keeps.

(** *** The handlers *)

Lemma steady_kv f : (forall kv, dict_wf kv -> dict_wf (f kv)) ->
  keeps P (on_req (modify (fun q => set_kv (f (rs_kv q)) q))).
Proof. intros Hf. apply steady_req. intros q Hq Hs. split; [|done]. apply requests_kv; [by apply Hf, Hq|done]. Qed.

Lemma steady_drop rid : keeps P (on_req (modify (drop_request rid))).
Proof. apply steady_req. intros q Hq Hs. split; [by apply requests_drop|done]. Qed.

Lemma steady_store f ref : keeps P (on_req (modify (fun q => set_store (alter f ref (rs_store q)) q))).
Proof. apply steady_req. intros q Hq Hs. split; [by apply requests_store|]. cbn. by rewrite length_alter. Qed.

Lemma steady_put ref t : keeps P (on_req (modify (put_at ref t))).
Proof. apply steady_store. Qed.

Lemma steady_pending f : keeps P (on_req (modify (fun q => set_pending (f q) q))).
Proof. apply steady_req. by intros q []. Qed.

Lemma steady_captures f : keeps P (on_req (modify (fun q => set_captures (f q) q))).
Proof. apply steady_req. by intros q []. Qed.

#[local] Hint Resolve steady_drop steady_store steady_put steady_pending steady_captures : keeps.

Lemma steady_close : keeps P close_out.
Proof. apply steady_net, close_outbound_ok. Qed.

Lemma steady_error s rid code d : keeps P (reply_error io render s rid code d).
Proof. apply steady_net, send_error_ok. Qed.

Lemma steady_quietly m : keeps P m -> keeps P (quietly m).
Proof. apply keeps_suppress. Qed.

Lemma steady_pop rid : keeps P (on_req (modify (fun q => set_kv (dict_pop rid (rs_kv q)) q))).
Proof. apply (steady_kv (dict_pop rid)). apply dict_pop_wf. Qed.

Lemma steady_heads_pop rid : keeps P (on_req (modify (fun q => set_heads (dict_pop rid (rs_heads q)) q))).
Proof. apply steady_req. intros q Hq Hs. split; [by apply requests_heads_pop|done]. Qed.

#[local] Hint Resolve steady_close steady_error steady_quietly steady_pop steady_heads_pop : keeps.

Lemma steady_layers rid cache h c : keeps P (run_my_layers run_layers rid cache h c).
Proof.
  intros n []. unfold run_my_layers. destruct (run_layers h c cache) as [r cache']. cbn [snd].
  destruct (dict_get rid (rs_kv (n_req n))); [|by split]. split; [done|done| |done|done].
  apply requests_kv; [by apply dict_set_wf, st_req0|done].
Qed.

Lemma steady_forward rid h c : keeps P (forward_activation cfg io rid h c).
Proof. unfold forward_activation. keeps_all. Qed.

Lemma steady_token rid t pos : keeps P (send_sampled_token cfg io rid t pos).
Proof. unfold send_sampled_token. keeps_all. Qed.

Lemma steady_token_to s rid t pos fin : keeps P (send_sampled_token_to io s rid t pos fin).
Proof. unfold send_sampled_token_to. keeps_all. Qed.

Lemma steady_end rid : keeps P (broadcast_end cfg io rid).
Proof. unfold broadcast_end. keeps_all. Qed.

#[local] Hint Resolve steady_layers steady_forward steady_token steady_token_to steady_end : keeps.

Lemma steady_abort s rid d : keeps P (abort_decode cfg io render s rid d).
Proof. unfold abort_decode. keeps_all. Qed.

Lemma steady_finish rid : keeps P (finish_decode cfg io rid).
Proof. unfold finish_decode. keeps_all. Qed.

#[local] Hint Resolve steady_abort steady_finish : keeps.

Lemma steady_next rid t : keeps P (next_activation cfg io now run_layers rid t).
Proof. unfold next_activation. keeps_all. Qed.

#[local] Hint Resolve steady_next : keeps.

Lemma steady_decode rid ref st t : keeps P (decode_token cfg io now run_layers rid ref st t).
Proof. unfold decode_token. keeps_all. Qed.

#[local] Hint Resolve steady_decode : keeps.

Lemma steady_round rid ref : keeps P (decode_round cfg io render now run_layers rid ref).
Proof. unfold decode_round. keeps_all. Qed.

Lemma steady_finalize rid h c : keeps P (finalize_request cfg io now rid h c).
Proof. unfold finalize_request. keeps_all. Qed.

#[local] Hint Resolve steady_round steady_finalize : keeps.

Lemma steady_upstream err : keeps P (handle_upstream_error cfg io err).
Proof. unfold handle_upstream_error. keeps_all. Qed.

Lemma steady_sampled tok : keeps P (handle_sampled_token cfg tok).
Proof. unfold handle_sampled_token. keeps_all. Qed.

Lemma steady_reject s rid : keeps P (reject_activation cfg io render s rid).
Proof. unfold reject_activation. keeps_all. apply steady_quietly, steady_net. keeps_all. Qed.

#[local] Hint Resolve steady_upstream steady_sampled steady_reject : keeps.

Lemma steady_process act raw s c : keeps P (process_activation cfg io render now run_layers act raw s c).
Proof.
  intros n Hn. unfold process_activation. run.
  assert (Hwf : dict_wf (dict_setdefault (ac_request_id act) nb_make_cache (rs_kv (n_req n))).2).
  { pose proof (rq_kv _ (st_req _ _ _ _ Hn)). unfold dict_setdefault. destruct (dict_get _ _); [done|by apply dict_set_wf]. }
  destruct (dict_setdefault _ _ _) as [cache kv]. run.
  match goal with |- P (?m ?n1).2 => enough (Hk : keeps P m) by (apply Hk; destruct Hn; split; [done..| |done|done]; by apply requests_kv) end.
  keeps_all.
Qed.

#[local] Hint Resolve steady_process : keeps.

Lemma steady_activation act raw s : keeps P (handle_activation cfg io render now run_layers act raw s).
Proof. unfold handle_activation. keeps_all. Qed.

Lemma steady_handle_end req : keeps P (handle_end cfg io req).
Proof.
  unfold handle_end. keeps_all. apply steady_req. intros q Hq Hs. split; [|done].
  destruct (requests_drop (er_request_id req) q Hq). by split.
Qed.

Lemma steady_serve_experts req raw h s : keeps P (serve_experts cfg io render now req raw h s).
Proof. unfold serve_experts. keeps_all. Qed.

Lemma steady_weights req s : keeps P (serve_weights io render req s).
Proof. unfold serve_weights. keeps_all. Qed.

End handlers.

#[local] Hint Resolve steady_close steady_error steady_quietly steady_drop steady_layers steady_forward steady_activation
  steady_sampled steady_upstream steady_handle_end steady_serve_experts steady_weights steady_round : keeps.

(** The counter is up while the experts are computed. *)
Lemma steady_experts o v size req raw s : keeps (steady o v size) (handle_expert_request cfg io render now req raw s).
Proof.
  unfold handle_expert_request.
  repeat lazymatch goal with |- keeps _ (@mbind _ _ _ _ _ (on_srv _)) => fail | _ => keeps_step; cbv beta end. intros n Hn. run. unfold finally.
  pose proof (steady_serve_experts o (v + 1) size req raw) as Hk.
  match goal with |- context [serve_experts _ _ _ _ _ _ ?h _ ?n1] => assert (steady o (v + 1) size n1) as Hn1; [|specialize (Hk h s n1 Hn1)] end.
  { destruct Hn. split; [done..|]. cbn. lia. }
  destruct (serve_experts _ _ _ _ _ _ _ _ _) as [r n2]. destruct Hk. split; [done..|]. cbn in *. lia.
Qed.

(** The object of the new head state is in the store when the thread starts. *)
Lemma steady_begin o v size req s : keeps (steady o v size) (handle_begin cfg io render now run_layers req s).
Proof.
  unfold handle_begin.
  repeat lazymatch goal with |- keeps _ (@mbind _ _ nat _ _ _) => fail | _ => keeps_step; cbv beta end. intros n Hn. run.
  match goal with |- steady _ _ _ (?m ?n1).2 => enough (Hk : keeps (steady o v (S (length (rs_store (n_req n))))) m);
    [assert (steady o v (S (length (rs_store (n_req n)))) n1) as Hn1|] end.
  - destruct Hn. split; [done| |by apply requests_new|done|done]. cbn. rewrite length_app. cbn. lia.
  - specialize (Hk _ Hn1). destruct Hk, Hn. split; [done|lia|done..].
  - keeps_all. apply steady_req. intros q Hq Hs. split; [|done]. apply requests_thread; [lia|done].
Qed.

#[local] Hint Resolve steady_experts steady_begin : keeps.

Lemma steady_dispatch o v size env raw s : keeps (steady o v size) (dispatch cfg io render now run_layers env raw s).
Proof. unfold dispatch. keeps_all. Qed.

Lemma steady_transition o v size t : keeps (steady o v size) (on_membership_change cfg t).
Proof.
  unfold on_membership_change. keeps_all.
  - intros n []. by split.
  - apply steady_req. intros q. generalize (dict_values (rs_heads q)). intros refs. revert q.
    induction refs as [|ref refs IH]; intros q Hq Hs; [done|]. apply (IH (put_at ref POISON_TOKEN q)); [by apply requests_store|].
    cbn. by rewrite length_alter.
Qed.

Lemma steady_resume o v size i : keeps (steady o v size) (resume cfg io render now run_layers i).
Proof.
  unfold resume. keeps_all; apply steady_req; intros q Hq Hs; (split; [|done]);
    (apply (requests_shrink q); [apply Hq|done|apply sublist_delete|done|done]).
Qed.

End life.

(** ** The whole life *)

Section whole.
Context {T K C R : Type} `{StackLaws C} `{RandomSource R} `{NodeBackend T K C}.
Context (cfg : NodeConfig) (io : nat -> bool) (render : Detail -> string) (tables : list (list (list C))).
Abbreviation State := (NodeState T K C R).
Implicit Types (n : State).

Context (self : ShardSpec) (evict_cooldown : float) (clock : nat -> float) (policy : MigrationPolicy).
Context (set_order : forall A : Type, list A -> list A) (set_order_perm : forall A (l : list A), set_order A l ≡ₚ l).

(** Peers answer a pull with the rows of the expert, or not at all. *)
Definition honest_pull (rpc_pull : string -> Z -> Z -> result (list C)) : Prop :=
  forall source l e ts, rpc_pull source l e = Ok ts -> genuine tables l e ts.

(** What the node keeps of its requests: head states and decode threads refer to
    existing objects, at most the newest connection is open, and between two
    events no expert request is counted as in flight. *)
Record bookkeeping n : Prop := {
  bk_req : requests_ok (n_req n);
  bk_net : net_ok (n_net n);
  bk_flight : sv_in_flight (n_srv n) = 0;
}.

Lemma bookkeeping_steady n : bookkeeping n -> steady (n_own n) 0 0 n.
Proof. intros []. split; [done|lia|done..]. Qed.

Lemma steady_bookkeeping o n' : steady o 0 0 n' -> bookkeeping n' /\ n_own n' = o.
Proof. intros [Ho _ Hq Ht Hf]. done. Qed.

Lemma own_bookkeeping {A} (m : eff (OwnNode C R) A) n : bookkeeping n -> bookkeeping (on_own m n).2.
Proof. intros []. unfold on_own, focus. destruct (m (n_own n)). by split. Qed.

Lemma own_keeps_ok (m : eff (OwnNode C R) unit) n : keeps (own_ok self tables) m -> own_ok self tables (n_own n) ->
  own_ok self tables (n_own (on_own m n).2).
Proof. intros Hm Hn. unfold on_own, focus. specialize (Hm (n_own n) Hn). by destruct (m (n_own n)). Qed.

(** The states a node reaches from its construction; a round of its runner
    changes nothing but the runner, and [serve_forever] ends with
    [_close_outbound].  [pulls] are the ways in which its peers may answer its
    scans. *)
Inductive alive (pulls : (string -> Z -> Z -> result (list C)) -> Prop) (born : State) : State -> Prop :=
| Born : alive pulls born born
| Handled now run_layers ev n : alive pulls born n -> alive pulls born (node_step cfg io render now run_layers ev n)
| Gossip m n : alive pulls born n -> alive pulls born (on_own (deliver_gossip m) n).2
| Hung_up n : alive pulls born n -> alive pulls born (close_out n).2
| Ticked r n : alive pulls born n -> alive pulls born (on_own (modify (set_runner r)) n).2
| Scanned rpc_pull n : pulls rpc_pull -> alive pulls born n ->
    alive pulls born (on_own (scan_once self evict_cooldown clock policy set_order rpc_pull) n).2.

Lemma handled_steady now run_layers ev n : bookkeeping n -> steady (n_own n) 0 0 (node_step cfg io render now run_layers ev n).
Proof.
  intros Hn. apply bookkeeping_steady in Hn. destruct ev; [by apply steady_dispatch|by apply steady_resume|by apply steady_transition].
Qed.

Lemma closed_steady n : bookkeeping n -> steady (n_own n) 0 0 (close_out n).2.
Proof. intros Hn. by apply steady_close, bookkeeping_steady. Qed.

Lemma alive_bookkeeping pulls n0 n : bookkeeping n0 -> alive pulls n0 n -> bookkeeping n.
Proof.
  intros Hn. induction 1 as [|now run_layers ev n _ IH|msg n _ IH|n _ IH|r n _ IH|pull n _ _ IH]; [done|..];
    try (by apply own_bookkeeping).
  - eapply steady_bookkeeping, handled_steady, IH.
  - eapply steady_bookkeeping, closed_steady, IH.
Qed.

(** *** The state it starts in *)

Lemma set_of_list (ids s : list Z) : NoDup s ->
  NoDup (foldl (fun s e => set_add e s) s ids) /\ forall e, e ∈ foldl (fun s e => set_add e s) s ids <-> e ∈ s \/ e ∈ ids.
Proof.
  revert s. induction ids as [|x ids IH]; intros s Hs; [split; [done|set_solver]|]. cbn [foldl].
  destruct (IH (set_add x s) (set_add_nodup x s Hs)) as [Hn Hi]. split; [done|]. intros e. rewrite Hi, set_add_in, elem_of_cons. tauto.
Qed.

Lemma initial_live_at (l : Z) shard :
  NoDup (live_at l (initial_live shard)) /\ forall e, e ∈ live_at l (initial_live shard) <-> e ∈ live_at l (ss_moe shard).
Proof.
  unfold initial_live, live_at. induction (ss_moe shard) as [|[l' ids] moe IH]; cbn; [split; [constructor|done]|].
  case_decide; [|done]. cbn. destruct (set_of_list ids [] (NoDup_nil_2)) as [Hn Hi]. split; [done|].
  intros e. rewrite Hi. split; [intros [Hx|]; [inversion Hx|done]|by right].
Qed.

Context (load_model : string -> list (list (Attr C))).

Section partial.
Hypothesis tables_ok : Forall (fun full => length full = n_attrs /\ Forall uniform full) tables.
Hypothesis moe_wf : dict_wf (ss_moe self).
Hypothesis moe_rows : Forall (ids_in_range tables) (ss_moe self).

(** The backend of a node that loads only its own experts. *)
Lemma built_partial env m lm :
  partial_load_enabled env = true -> load_model (sm_model_id m) = full_layers tables ->
  build_backend load_model env self m None = Ok lm -> model_ok tables lm /\ lm_held lm = ss_moe self.
Proof.
  intros Hp Hl. unfold build_backend. case_decide; [done|]. rewrite Hp, Hl. cbn [andb].
  destruct (load_model_partial_ok tables (ss_moe self) moe_wf moe_rows tables_ok) as (lm' & Hm & Hh & Hok).
  destruct (ss_moe self) as [|it moe].
  - intros [= <-]. by injection Hm as <-.
  - rewrite bool_decide_eq_false_2 by done. cbn [negb]. rewrite Hm. by intros [= <-].
Qed.

Lemma moe_serves l e : e ∈ bootstrap_of self l -> serves self tables l.
Proof.
  intros He. unfold serves. pose proof He as Hb. unfold bootstrap_of in He.
  destruct (dict_get l (ss_moe self)) as [ids|] eqn:Ed; [|inversion He]. apply dict_get_Some_in in Ed.
  rewrite Forall_forall in moe_rows. destruct (moe_rows _ Ed) as (n & full & Hn & Hf & _).
  exists n, full. split; [done|]. split; [done|]. intros Hb'. rewrite Hb' in Hb. inversion Hb.
Qed.

Lemma init_heat_empty a k h : init_heat a k = Ok h -> ht_ema h = [].
Proof. unfold init_heat. repeat case_match; naive_solver. Qed.

Context (float_of : string -> result float) (udp_bind : Z -> result unit).

Lemma init_own_ok env m total rng wall n0 :
  init_node float_of load_model udp_bind env self m None total rng wall = Ok (cfg, n0) ->
  partial_load_enabled env = true -> load_model (sm_model_id m) = full_layers tables -> own_ok self tables (n_own n0).
Proof.
  intros Hi Hp Hl. unfold init_node, before_model in Hi. inv_ok.
  match goal with Hb : build_backend _ _ _ _ _ = Ok ?lm |- _ => destruct (built_partial _ _ _ Hp Hl Hb) as [Hm Hh] end.
  split; cbn [n_own o_model o_live o_heat].
  - done.
  - intros l e. rewrite Hh. apply initial_live_at.
  - intros l. apply initial_live_at.
  - intros l e He. by apply initial_live_at.
  - intros l e He. apply (moe_serves l e). by apply initial_live_at.
  - match goal with Hx : init_heat _ _ = Ok ?h |- _ => apply init_heat_empty in Hx as -> end. intros l e v Hx. inversion Hx.
Qed.

Lemma alive_own_ok pulls n0 n : (forall pull, pulls pull -> honest_pull pull) -> bookkeeping n0 ->
  own_ok self tables (n_own n0) -> alive pulls n0 n -> own_ok self tables (n_own n).
Proof.
  intros Hh Hb Hn Ha. induction Ha as [|now run_layers ev n Ha IH|msg n _ IH|n Ha IH|r n _ IH|pull n Hp _ IH].
  - done.
  - destruct (steady_bookkeeping _ _ (handled_steady now run_layers ev n (alive_bookkeeping _ _ _ Hb Ha))) as [_ Ho]. by rewrite Ho.
  - apply own_keeps_ok; [|done]. intros o Ho. by eapply own_ok_same; [apply gossip_same|].
  - destruct (steady_bookkeeping _ _ (closed_steady n (alive_bookkeeping _ _ _ Hb Ha))) as [_ Ho]. by rewrite Ho.
  - apply own_keeps_ok; [|done]. by intros o [].
  - specialize (Hh _ Hp). apply own_keeps_ok; [|done]. intros o Ho. by apply scan_bounded.
Qed.

End partial.

Context (float_of : string -> result float) (udp_bind : Z -> result unit).

Lemma init_bookkeeping env m given total rng wall n0 :
  init_node float_of load_model udp_bind env self m given total rng wall = Ok (cfg, n0) -> bookkeeping n0.
Proof.
  intros Hi. unfold init_node, before_model in Hi. inv_ok. split; [|done..].
  split; [apply NoDup_nil_2..| |]; intros ? ? Hx; inversion Hx.
Qed.

(** A node that loads its own experts only ([ENABLE_PARTIAL_LOAD]) from a model
    of the MLX kind, with peers that answer a pull with the expert's rows: the
    ids of the shard map are in the range of the tables and none of its lists is
    empty. *)
Record partial_node env m (pulls : (string -> Z -> Z -> result (list C)) -> Prop) : Prop := {
  pn_enabled : partial_load_enabled env = true;
  pn_model : load_model (sm_model_id m) = full_layers tables;
  pn_tables : Forall (fun full => length full = n_attrs /\ Forall uniform full) tables;
  pn_moe : dict_wf (ss_moe self);
  pn_rows : Forall (ids_in_range tables) (ss_moe self);
  pn_pulls : forall pull, pulls pull -> honest_pull pull;
}.


End whole.
