(* ===== verification/NodeService.v ===== *)
(** * What a node computes for its peers

    An expert request is answered with the weights the node holds. *)
From S2P Require Import Prelude PyDict PyFloat PyList PyRandom Records SwimState.
From S2P Require Import Wire Messages Ownership Runner ShardMap Trackers Provenance Experts Effects Migration MigrationTheorems.
From S2P Require Import Engine NodeState NodeHandlers NodeTheorems.
Open Scope Z_scope.

(** ** Experts *)

Section experts.
Context {T K C R : Type} `{StackLaws C} `{RandomSource R} `{NodeBackend T K C}.
Context (cfg : NodeConfig) (io : nat -> bool) (render : Detail -> string) (now : float).
Context (run_layers : T -> option (list ProvenanceEntry) -> eff K (T * option (list ProvenanceEntry))).
Context (self : ShardSpec) (tables : list (list (list C))).
(** The backend runs the experts the way moe.py does. *)
Context (switch : list (Attr C) -> Z -> T -> T) (norm : Z -> T -> T) (expert_out : list C -> T -> T).
Hypothesis switch_slot : forall attrs (slot : nat) row x,
  mapR (take_one slot) attrs = Ok row -> switch attrs (Z.of_nat slot) x = expert_out row x.
Hypothesis backend_runs : forall lm l h ids, nb_run_selected lm l h ids = run_selected_experts switch norm lm h l ids.
Hypothesis io_ok : forall k, io k = true.
(** What it stacks has a wire type and a size that fits. *)
Hypothesis stacks_sendable : forall parts (stacked : T), nb_stack parts = Ok stacked ->
  exists d, descriptor stacked = Ok d /\ tensor_ok d = true.
Implicit Types (n : NodeState T K C R) (o : OwnNode C R).

(** The row of an expert that is served. *)
Lemma live_row l e o : own_ok self tables o -> e ∈ live_at l (o_live o) ->
  exists m full ids, l = Z.of_nat m /\ tables !! m = Some full /\ dict_get l (lm_held (o_model o)) = Some ids /\ e ∈ ids /\
    0 <= e /\ exists row, expert_row full e row.
Proof.
  intros Ho He. destruct (held_list _ _ o l Ho (ok_served _ _ _ Ho _ _ He)) as (m & full & b & ids & -> & Ht & Hd & _ & _).
  assert (e ∈ ids) as Hi by (apply (ok_live _ _ _ Ho) in He; unfold live_at in He; by rewrite Hd in He).
  destruct (layer_of _ _ _ _ (ok_model _ _ _ Ho) Ht) as (attrs & _ & Hlen & _ & Hok). rewrite Hd in Hok.
  exists m, full, ids. do 4 (split; [done|]). apply list_elem_of_lookup in Hi as [i Hi].
  assert (holds full ids attrs) as Hh by (destruct ids; [done|exact Hok]).
  destruct (take_slot full ids attrs i e Hh Hi) as (row & _ & Hrow). split; [|by exists row].
  destruct full as [|fc full]; [done|]. inversion Hrow as [|? r ? ? Hr]; subst. unfold row_at in Hr. destruct (0 <=? e) eqn:E; [lia|done].
Qed.

(** What the expert [e] of layer [l] computes from the state [h]. *)
Definition expert_value (l : Z) (h : T) (e : Z) (x : T) : Prop :=
  exists full row, tables !! Z.to_nat l = Some full /\ expert_row full e row /\ x = expert_out row (norm l h).

Lemma compute_experts_spec l h ids o :
  own_ok self tables o -> ids <> [] -> (forall e, e ∈ ids -> e ∈ live_at l (o_live o)) ->
  exists outputs parts, Forall2 (expert_value l h) ids parts /\
    compute_experts (o_model o) l h ids = (stacked ← nb_stack parts; Ok (outputs, stacked)).
Proof.
  intros Ho Hne Hlive. destruct ids as [|e0 es]; [done|]. set (ids := e0 :: es) in *.
  destruct (live_row l e0 o Ho (Hlive e0 ltac:(left))) as (m & full & held & -> & Ht & Hd & He0 & _).
  pose proof (run_selected_experts_ok switch norm expert_out switch_slot tables (o_model o) m full h ids (ok_model _ _ _ Ho) Ht) as Hrun.
  assert (Hall : forall e, e ∈ ids -> e ∈ held /\ 0 <= e /\ exists row, expert_row full e row).
  { intros e He. destruct (live_row _ e o Ho (Hlive e He)) as (m' & full' & held' & Hm' & Ht' & Hd' & Hin & Hp & Hr).
    apply Nat2Z.inj in Hm' as <-. by simplify_eq. }
  specialize (Hrun (fun e He => proj2 (Hall e He))). unfold compute_experts. rewrite backend_runs.
  destruct (run_selected_experts _ _ _ _ _ _) as [outputs|er].
  2: { destruct Hrun as (e & He & _ & held' & Hd' & _ & Hn). rewrite Hd in Hd'. injection Hd' as <-. by apply Hall in He as [? _]. }
  destruct Hrun as [Hk Hv]. exists outputs. cbn [mbind result_bind].
  assert (Hparts : exists parts, mapR (fun e => or_raise KeyError (dict_get e outputs)) ids = Ok parts /\ Forall2 (expert_value (Z.of_nat m) h) ids parts).
  { clear -Hk Hv Ht. assert (Hk' : forall e, e ∈ ids -> e ∈ dict_keys outputs) by (intros e; apply Hk). clear Hk. clearbody ids.
    induction ids as [|e ids IH]; [by exists []|]. destruct IH as (parts & IH1 & IH2); [intros e' He'; apply Hk'; by right|].
    destruct (proj2 (dict_get_in e outputs) (Hk' e ltac:(left))) as [x Hx].
    exists (x :: parts). cbn [mapR]. rewrite Hx. cbn [or_raise mbind result_bind]. rewrite IH1. split; [done|].
    constructor; [|done]. destruct (Hv e x Hx) as (row & Hr & ->). exists full, row. by rewrite Nat2Z.id. }
  destruct Hparts as (parts & Hp & Hf). exists parts. split; [exact Hf|]. by rewrite Hp.
Qed.

(** The reply to a request whose experts are all served. *)
Definition answers (req : ExpertMsg) (h : T) (reply : Envelope * bytes) : Prop :=
  exists parts, Forall2 (expert_value (ex_layer_idx req) h) (ex_expert_ids req) parts /\
    match nb_stack parts with
    | Ok stacked => exists d, descriptor stacked = Ok d /\
        reply = (Some (PExpertResponse (mkExpert PROTOCOL_VERSION_NODE (ex_request_id req) (ex_layer_idx req) (ex_expert_ids req) d [])),
                 tensor_to_bytes stacked)
    | Raise e => reply = error_reply render (ex_request_id req) ERR_SHARD_UNAVAILABLE (DExecution e)
    end.

(** The request carries no chain, or the node does not look at it. *)
Definition unchained (req : ExpertMsg) : Prop := nc_provenance cfg = false \/ ex_provenance req = [].

Lemma serve_experts_run req raw h c n :
  own_ok self tables (n_own n) -> expert_ok req = true -> ex_expert_ids req <> [] -> unchained req ->
  (forall e, e ∈ ex_expert_ids req -> e ∈ live_at (ex_layer_idx req) (o_live (n_own n))) ->
  exists reply, answers req h reply /\
    serve_experts cfg io render now req raw h (Inbound c) n = (Ok tt, set_net (wrote (Inbound c) reply.1 reply.2 (n_net n)) n).
Proof.
  intros Ho Hok Hne Hun Hlive. unfold serve_experts. run.
  assert (Hv : (if nc_provenance cfg then ex_provenance req else []) = []) by (destruct Hun as [->| ->]; [done|by destruct (nc_provenance cfg)]).
  rewrite Hv. run. destruct (compute_experts_spec _ h _ _ Ho Hne Hlive) as (outputs & parts & Hf & ->). unfold answers.
  destruct (nb_stack parts) as [stacked|e] eqn:Es; cbn [mbind result_bind].
  2: { exists (error_reply render (ex_request_id req) ERR_SHARD_UNAVAILABLE (DExecution e)). split; [exists parts; by rewrite Es|].
       by rewrite (reply_error_run io render io_ok). }
  destruct (stacks_sendable parts stacked Es) as (d & Hd & Htd). eexists (_, _). split; [exists parts; rewrite Es; by eauto|].
  erewrite run_ok by (by rewrite Hd). cbv beta. run. erewrite run_ok.
  2: { unfold lift. rewrite built_ok; [reflexivity|]. unfold payload_ok, expert_ok in *. cbn. rewrite Htd.
       repeat (apply andb_true_iff in Hok as [Hok ?]). repeat match goal with Hx : _ = true |- _ => rewrite Hx end. done. }
  by apply send_run.
Qed.

(** an expert request is answered. On a well-formed node that is asked for
    experts of a layer it serves, the reply stacks, in the order of the request,
    what each expert's own rows compute from the state sent; if the stacking
    fails the reply says so. If some expert is not served the reply names
    exactly the missing ones and nothing is computed. One reply is sent, and the
    holdings, the requests and the count in flight are as before. *)
Theorem expert_request_answered req raw h c n :
  own_ok self tables (n_own n) -> expert_ok req = true -> ex_expert_ids req <> [] -> unchained req ->
  td_byte_count (ex_spec req) = Z.of_nat (length raw) ->
  bytes_to_tensor raw (td_shape (ex_spec req)) (td_dtype (ex_spec req)) = Ok h ->
  let served e := e ∈ live_at (ex_layer_idx req) (o_live (n_own n)) in
  let n' := node_step cfg io render now run_layers (Message c (Some (PExpertRequest req)) raw) n in
  exists reply, n_net n' = wrote (Inbound c) reply.1 reply.2 (n_net n) /\
    ((forall e, e ∈ ex_expert_ids req -> served e) -> answers req h reply) /\
    (forall e, e ∈ ex_expert_ids req -> ~ served e -> exists missing,
       reply = error_reply render (ex_request_id req) ERR_WRONG_SHARD (DNotHosted missing (ex_layer_idx req)) /\
       forall e', e' ∈ missing <-> e' ∈ ex_expert_ids req /\ ~ served e') /\
    n_own n' = n_own n /\ n_req n' = n_req n /\ sv_in_flight (n_srv n') = sv_in_flight (n_srv n).
Proof.
  intros Ho Hok Hne Hun Hb Hh served n'. unfold n', node_step, dispatch, handle_expert_request.
  rewrite bool_decide_eq_false_2 by done. run.
  pose proof (list_elem_of_filter (fun e => e ∉ live_at (ex_layer_idx req) (o_live (n_own n))) (ex_expert_ids req)) as Hin.
  destruct (filter (fun e => e ∉ live_at (ex_layer_idx req) (o_live (n_own n))) (ex_expert_ids req)) as [|e0 es] eqn:Ef.
  - assert (Hall : forall e, e ∈ ex_expert_ids req -> served e).
    { intros e He. destruct (decide (served e)) as [|Hn]; [done|]. assert (e ∈ []) as Hx by (by apply Hin). inversion Hx. }
    rewrite (proj2 (Z.eqb_eq _ _) Hb). cbn [negb]. erewrite run_ok by (by rewrite Hh). run.
    match goal with |- context [finally _ _ ?s] => destruct (serve_experts_run req raw h c s) as (reply & Ha & Hs); [done..|] end.
    unfold finally. rewrite Hs. exists reply. split; [done|]. split; [done|]. split.
    { intros e He Hn. by destruct Hn; apply Hall. }
    split; [done|]. split; [done|]. cbn. lia.
  - rewrite (reply_error_run io render io_ok) by done.
    exists (error_reply render (ex_request_id req) ERR_WRONG_SHARD (DNotHosted (e0 :: es) (ex_layer_idx req))). split; [done|]. split.
    { intros Hall. destruct (proj1 (Hin e0) ltac:(left)) as [Hn He]. destruct Hn. by apply Hall. }
    split; [|done]. intros e He Hn. exists (e0 :: es). split; [done|]. intros e'. by rewrite Hin, (comm and).
Qed.

End experts.
