(* ===== verification/PeerRpc.v ===== *)
(** * expert_orchestrator.py: a call of a peer's experts

    [TcpPeerRPC.call] sends one ExpertRequest on a connection of its own, reads
    one envelope and takes the outputs apart.  The connection is an argument
    ([exchange]): what [recv_envelope] yields for what was sent, or what it
    raises.  [exchange_with] is the connection to a node: the peer handles the
    request ([NodeHandlers.node_step]) and the caller reads its reply. *)
From S2P Require Import Prelude PyDict PyFloat PyList PyRandom Records SwimState.
From S2P Require Import Wire Messages Ownership Runner ShardMap Trackers Provenance Experts Effects Migration MigrationTheorems.
From S2P Require Import Engine NodeState NodeHandlers NodeTheorems NodeService.
Open Scope Z_scope.

Abbreviation Exchange := (Envelope -> bytes -> result (Envelope * bytes)).

(** ** TcpPeerRPC *)

Section call.
Context {T : Type} `{TensorWire T}.
(** [stacked[:, :, j, :]] *)
Context (unstack : T -> nat -> result T).

(** The ExpertRequest and the bytes of the state. *)
Definition expert_request (rid : string) (layer_idx : Z) (ids : list Z) (h : T) (pb_in : list ProvenanceEntryPb) : result (Envelope * bytes) :=
  d ← descriptor h;
  env ← built (PExpertRequest (mkExpert 1 rid layer_idx ids d pb_in));
  Ok (env, tensor_to_bytes h).

(** [{int(eid): stacked[:, :, j, :] for j, eid in enumerate(resp.expert_ids)}] *)
Definition unstack_all (stacked : T) (ids : list Z) : result (dict Z T) :=
  foldM (fun d it => x ← unstack stacked it.1; Ok (dict_set it.2 x d)) [] (enumerate ids).

(** What is made of the reply: the outputs, and what was added to [provenance_pb_out]. *)
Definition read_response (reply : Envelope * bytes) : result (dict Z T) * list ProvenanceEntryPb :=
  match reply.1 with
  | Some (PExpertResponse resp) =>
      ((stacked ← bytes_to_tensor reply.2 (td_shape (ex_spec resp)) (td_dtype (ex_spec resp));
        unstack_all stacked (ex_expert_ids resp)),
       ex_provenance resp)
  | _ => (Raise RuntimeError, [])
  end.

(** [TcpPeerRPC.call]: [connect] is [socket.create_connection]. *)
Definition call (addresses : dict string (string * Z)) (connect : string -> Z -> result Exchange)
    (peer_shard_id rid : string) (layer_idx : Z) (ids : list Z) (h : T) (pb_in : list ProvenanceEntryPb)
    : result (dict Z T) * list ProvenanceEntryPb :=
  match (address ← or_raise KeyError (dict_get peer_shard_id addresses);
         exchange ← connect address.1 address.2;
         req ← expert_request rid layer_idx ids h pb_in;
         exchange req.1 req.2) with
  | Ok reply => read_response reply
  | Raise e => (Raise e, [])
  end.

(** Every position of the stack is the part it was made of. *)
Lemma unstack_all_ok stacked ids parts : length parts = length ids ->
  (forall j x, parts !! j = Some x -> unstack stacked j = Ok x) ->
  exists d, unstack_all stacked ids = Ok d /\ dict_wf d /\ (forall e, e ∈ dict_keys d <-> e ∈ ids) /\
    forall e x, dict_get e d = Some x -> exists j, ids !! j = Some e /\ parts !! j = Some x.
Proof.
  intros Hlen Hun. unfold unstack_all. induction ids as [|e ids IH] using rev_ind in parts, Hlen, Hun |- *.
  { exists []. split; [done|]. split; [constructor|]. split; [done|]. intros e x Hx. done. }
  rewrite length_app in Hlen. cbn in Hlen. destruct (lookup_lt_is_Some_2 parts (length ids)) as [x Hx]; [lia|].
  destruct (IH (take (length ids) parts)) as (d & Hd & Hwf & Hk & Hv).
  { rewrite length_take. lia. }
  { intros j y Hj. apply lookup_take_Some in Hj as [Hj _]. by apply Hun. }
  unfold enumerate. rewrite imap_app, foldM_app. unfold enumerate in Hd. rewrite Hd. cbn [mbind result_bind imap foldM].
  cbn [fst snd]. rewrite Nat.add_0_r, (Hun _ _ Hx). cbn [mbind result_bind]. eexists. split; [done|]. split; [by apply dict_set_wf|]. split.
  - intros e'. rewrite dict_set_in_keys, Hk, elem_of_app, list_elem_of_singleton. tauto.
  - intros e' y. rewrite dict_get_set. case_decide as He.
    + intros [= <-]. subst e'. exists (length ids). split; [by apply list_lookup_middle|done].
    + intros Hy. destruct (Hv _ _ Hy) as (j & Hj & Hp). exists j. apply lookup_take_Some in Hp as [Hp Hlt].
      split; [by apply lookup_app_l_Some|done].
Qed.

End call.

(** ** A node at the other end *)

Section node.
Context {T K C R : Type} `{StackLaws C} `{RandomSource R} `{NodeBackend T K C}.
Context (unstack : T -> nat -> result T).
Context (cfg : NodeConfig) (io : nat -> bool) (render : Detail -> string) (now : float).
Context (run_layers : T -> option (list ProvenanceEntry) -> eff K (T * option (list ProvenanceEntry))).
Implicit Types (n : NodeState T K C R).

Definition after_request n (c : nat) (env : Envelope) (raw : bytes) : NodeState T K C R :=
  node_step cfg io render now run_layers (Message c env raw) n.

(** The connection [c] to the node in state [n]; without a reply the read times out. *)
Definition exchange_with n (c : nat) : Exchange := fun env raw =>
  match drop (length (sent_to (Inbound c) (net_log (n_net n)))) (sent_to (Inbound c) (net_log (n_net (after_request n c env raw)))) with
  | [] => Raise OSError
  | reply :: _ => Ok reply
  end.

Lemma exchange_reply n c env raw reply :
  n_net (after_request n c env raw) = wrote (Inbound c) reply.1 reply.2 (n_net n) -> exchange_with n c env raw = Ok reply.
Proof.
  intros Hw. unfold exchange_with. rewrite Hw. cbn [net_log wrote]. rewrite sent_to_app, drop_app_length.
  unfold sent_to. cbn. rewrite decide_True by done. by destruct reply.
Qed.

Context (self : ShardSpec) (tables : list (list (list C))).
Context (switch : list (Attr C) -> Z -> T -> T) (norm : Z -> T -> T) (expert_out : list C -> T -> T).
Hypothesis switch_slot : forall attrs (slot : nat) row x,
  mapR (take_one slot) attrs = Ok row -> switch attrs (Z.of_nat slot) x = expert_out row x.
Hypothesis backend_runs : forall lm l h ids, nb_run_selected lm l h ids = run_selected_experts switch norm lm h l ids.
Hypothesis io_ok : forall k, io k = true.
(** [mx.stack] and the indexing of its result; the result survives the wire. *)
Hypothesis stack_ok : forall parts (stacked : T), nb_stack parts = Ok stacked ->
  sendable stacked /\ forall j x, parts !! j = Some x -> unstack stacked j = Ok x.

Abbreviation value := (expert_value tables norm expert_out).

(** A node reached at an address. *)
Definition reached (addresses : dict string (string * Z)) (connect : string -> Z -> result Exchange) (peer : string) n (c : nat) : Prop :=
  exists host port, dict_get peer addresses = Some (host, port) /\ connect host port = Ok (exchange_with n c).

Lemma stacks_sendable_all parts (stacked : T) : nb_stack parts = Ok stacked -> exists d, descriptor stacked = Ok d /\ tensor_ok d = true.
Proof. intros Hs. destruct (stack_ok parts stacked Hs) as [(d & Hd & Hok & _) _]. by exists d. Qed.

(** What a call of the experts [ids] of a node that serves [live] comes to. *)
Definition call_spec (live : list Z) (l : Z) (h : T) (ids : list Z) (r : result (dict Z T) * list ProvenanceEntryPb) : Prop :=
  r.2 = [] /\
  match r.1 with
  | Ok out => ids ⊆ live /\ dict_wf out /\ (forall e, e ∈ dict_keys out <-> e ∈ ids) /\
      forall e x, dict_get e out = Some x -> value l h e x
  | Raise e => e = RuntimeError /\ ((exists x, x ∈ ids /\ x ∉ live) \/
      exists parts er, Forall2 (value l h) ids parts /\ nb_stack parts = Raise er)
  end.

Lemma call_answered addresses connect peer rid l ids h n c :
  own_ok self tables (n_own n) -> reached addresses connect peer n c ->
  sendable h -> ids <> [] -> in_u32 l = true -> forallb in_u32 ids = true ->
  call_spec (live_at l (o_live (n_own n))) l h ids (call unstack addresses connect peer rid l ids h []) /\
  exists env raw, expert_request rid l ids h [] = Ok (env, raw) /\
    let n' := after_request n c env raw in
    n_own n' = n_own n /\ n_req n' = n_req n /\ sv_in_flight (n_srv n') = sv_in_flight (n_srv n).
Proof.
  intros Ho (host & port & Ha & Hc) (d & Hd & Hdok & Hback) Hne Hl Hids.
  set (req := mkExpert 1 rid l ids d []).
  assert (Hok : expert_ok req = true) by (unfold expert_ok; cbn [req ex_version ex_layer_idx ex_expert_ids ex_spec ex_provenance]; by rewrite Hl, Hids, Hdok).
  assert (Hreq : expert_request rid l ids h [] = Ok (Some (PExpertRequest req), tensor_to_bytes h)).
  { unfold expert_request. rewrite Hd. cbn [mbind result_bind]. by rewrite built_ok. }
  assert (Hcount : td_byte_count d = Z.of_nat (length (tensor_to_bytes h))) by (unfold descriptor in Hd; inv_ok; done).
  destruct (expert_request_answered cfg io render now run_layers self tables switch norm expert_out switch_slot backend_runs io_ok
    stacks_sendable_all req (tensor_to_bytes h) h c n Ho Hok Hne (or_intror eq_refl) Hcount Hback) as (reply & Hw & Hserved & Hmissing & Hsame).
  split; [|by do 2 eexists].
  unfold call. rewrite Ha. cbn [or_raise mbind result_bind fst snd]. rewrite Hc. cbn [mbind result_bind]. rewrite Hreq. cbn [mbind result_bind fst snd].
  rewrite (exchange_reply n c _ _ reply Hw). cbn [ex_layer_idx ex_expert_ids req] in Hserved, Hmissing. unfold call_spec.
  destruct (decide (Forall (fun e => e ∈ live_at l (o_live (n_own n))) ids)) as [Hall|Hno].
  - rewrite Forall_forall in Hall. destruct (Hserved Hall) as (parts & Hf & Hr).
    pose proof (Forall2_length _ _ _ Hf) as Hlen. cbn [ex_expert_ids ex_layer_idx req] in Hf, Hlen.
    destruct (nb_stack parts) as [stacked|er] eqn:Hst; [|rewrite Hr; split; [done|]; split; [done|]; right; by exists parts, er].
    destruct (stack_ok parts stacked Hst) as [(d2 & Hd2 & _ & Hb2) Hun]. destruct Hr as (d' & Hd' & ->).
    rewrite Hd2 in Hd'. injection Hd' as <-.
    destruct (unstack_all_ok unstack stacked ids parts (eq_sym Hlen) Hun) as (out & Hout & Hwf & Hk & Hv).
    unfold read_response. cbn [fst snd ex_spec ex_expert_ids ex_provenance req]. rewrite Hb2. cbn [mbind result_bind]. rewrite Hout.
    split; [done|]. split; [exact Hall|]. split; [done|]. split; [exact Hk|]. intros e x Hx. destruct (Hv e x Hx) as (j & Hj & Hp).
    by destruct (Forall2_lookup_lr _ _ _ _ _ _ Hf Hj Hp) as (full & row & ?); exists full, row.
  - apply not_Forall_Exists in Hno; [|solve_decision]. apply Exists_exists in Hno as (e & He & Hn).
    destruct (Hmissing e He Hn) as (missing & -> & _). cbn. split; [done|]. split; [done|]. left. by exists e.
Qed.

(** A call returns only if it asked for something and its ids fit the wire. *)
Lemma call_ok_inv addresses connect peer rid l ids h n c out : reached addresses connect peer n c ->
  (call unstack addresses connect peer rid l ids h []).1 = Ok out -> ids <> [] /\ in_u32 l = true /\ forallb in_u32 ids = true.
Proof.
  intros (host & port & Ha & Hc) Hr. unfold call in Hr. rewrite Ha in Hr. cbn [or_raise mbind result_bind fst snd] in Hr. rewrite Hc in Hr.
  cbn [mbind result_bind] in Hr. destruct (expert_request rid l ids h []) as [[env raw]|] eqn:Eq; [|done].
  unfold expert_request in Eq. apply bind_ok in Eq as (d & _ & Eq). apply bind_ok in Eq as (env' & Hb & Eq). injection Eq as <- <-.
  unfold built in Hb. destruct (payload_ok _) eqn:Hok; [|done]. injection Hb as <-. cbn in Hok. unfold expert_ok in Hok.
  cbn [ex_version ex_layer_idx ex_expert_ids ex_spec ex_provenance] in Hok. repeat (apply andb_true_iff in Hok as [Hok ?]). split; [|done].
  intros ->. cbn [mbind result_bind fst snd] in Hr. rewrite (exchange_reply n c _ _ (error_reply render rid ERR_INTERNAL (DEmptyIds l))) in Hr; [done|].
  unfold after_request, node_step, dispatch, handle_expert_request. cbn [ex_expert_ids ex_request_id ex_layer_idx]. rewrite bool_decide_eq_true_2 by done.
  by rewrite (reply_error_run io render io_ok) by done.
Qed.

(** C17: a call of a peer's experts. The caller asks a well-formed node for
    experts of a layer. If the node serves them all and can stack their outputs,
    the call returns, for exactly the ids asked, what each expert's own rows
    compute from the state; otherwise it raises RuntimeError, and only then.
    The node's holdings, requests and count in flight are as before. *)
Theorem expert_call_answered addresses connect peer rid l ids h n c :
  own_ok self tables (n_own n) -> reached addresses connect peer n c ->
  sendable h -> ids <> [] -> in_u32 l = true -> forallb in_u32 ids = true ->
  call_spec (live_at l (o_live (n_own n))) l h ids (call unstack addresses connect peer rid l ids h []) /\
  exists env raw, expert_request rid l ids h [] = Ok (env, raw) /\
    let n' := after_request n c env raw in
    n_own n' = n_own n /\ n_req n' = n_req n /\ sv_in_flight (n_srv n') = sv_in_flight (n_srv n).
Proof. apply call_answered. Qed.

End node.
