(* ===== verification/NodeProvenance.v ===== *)
(** * An honest pipeline accepts its own chains

    With provenance on and no split layer, the chain a shard sends passes the
    check of the next one, from the embedding at the head to the sampled token
    at the tail. *)
From S2P Require Import Prelude PyDict PyFloat PyList PyRandom Records SwimState.
From S2P Require Import Wire Messages Ownership Runner ShardMap Trackers Provenance Experts Effects Migration MigrationTheorems.
From S2P Require Import Engine NodeState NodeHandlers NodeTheorems NodeFailures.
Open Scope Z_scope.

Section pipeline.
Context {T M Slot C R : Type} `{TextModel T M Slot} `{StackLib C} `{RandomSource R} `{NodeBackend T (list Slot) C}.
Context (io : nat -> bool) (render : Detail -> string) (now : float) (m : ShardMap) (total : Z).
Abbreviation State := (NodeState T (list Slot) C R).
Implicit Types (n : State) (cfg : NodeConfig).

(** ** The layers of a shard run *)

(** [Node._run_my_layers] *)
Definition layers_of cfg : T -> chain_t -> eff (list Slot) (T * chain_t) :=
  Engine.run_my_layers tensor_to_bytes now (nc_split_layers cfg) None (me cfg) (ss_start (nc_shard cfg)) (ss_end (nc_shard cfg)).

Context (nslots : nat).
Hypothesis fresh_cache : length (nb_make_cache : list Slot) = nslots.
(** The model has its layers, each with a slot of the cache. *)
Hypothesis layers_exist : forall i, 0 <= i < total -> exists full idx,
  tm_full_attention i = Ok full /\ tm_cache_idx i = Ok idx /\ 0 <= idx < Z.of_nat nslots.
Hypothesis first_slots : 0 <= tm_first_full /\ 0 <= tm_first_sliding.
Hypothesis total_fits : total < 2 ^ 32.

Lemma py_nth_in {A} (l : list A) i : 0 <= i < Z.of_nat (length l) -> exists x, py_nth l i = Ok x.
Proof.
  intros Hi. rewrite <- (Z2Nat.id i) by lia. rewrite py_nth_nat.
  destruct (lookup_lt_is_Some_2 l (Z.to_nat i)) as [x ->]; [lia|by exists x].
Qed.

Lemma slot_or_none_ok i (cache : list Slot) : 0 <= i -> exists s, slot_or_none i cache = Ok s.
Proof.
  intros Hi. unfold slot_or_none. destruct (i <? Z.of_nat (length cache)) eqn:E; [|by eexists].
  destruct (py_nth_in cache i) as [x ->]; [lia|by eexists].
Qed.

Lemma record_layer_returns node i (h : T) chain : 0 <= i < total ->
  exists chain', record_layer tensor_to_bytes now node i h chain = Ok chain'.
Proof.
  intros Hi. unfold record_layer. destruct chain as [c|]; [|by eexists].
  destruct (build_entry_ok now node (mkOp OP_LAYER_ATOMIC i 0) (tensor_to_bytes h)
    (match (match last c with Some e => e_hash e | None => [] end) with [] => [] | _ => [match last c with Some e => e_hash e | None => [] end] end))
    as (e & He & _); [unfold in_u32; cbn; lia|done|]. rewrite He. by eexists.
Qed.

Lemma layers_run node layers h masks chain cache :
  (forall i, i ∈ layers -> 0 <= i < total) -> length cache = nslots ->
  exists h' c' cache', run_layer_list tensor_to_bytes now [] None node layers h masks chain cache = (Ok (h', c'), cache').
Proof.
  revert h chain cache. induction layers as [|i layers IH]; intros h chain cache Hl Hc; [by do 3 eexists|].
  destruct (layers_exist i (Hl i ltac:(left))) as (full & idx & Hf & Hi & Hidx).
  destruct (py_nth_in cache idx) as [slot Hs]; [lia|]. cbn [run_layer_list]. unfold run_layer at 1.
  rewrite decide_False by (intros Hn; inversion Hn). rewrite run_bind.
  assert (Ha : exists h1 c1, run_layer_atomic i h masks cache = (Ok h1, c1) /\ length c1 = nslots).
  { unfold run_layer_atomic. erewrite run_ok by (by rewrite Hf). cbv beta. erewrite run_ok by (by rewrite Hi). cbv beta. run.
    erewrite run_ok by (unfold id; by rewrite Hs). cbv beta. destruct (tm_layer _ _ _ _) as [h1 slot1]. run. do 2 eexists.
    split; [reflexivity|]. cbn. by rewrite length_insert. }
  destruct Ha as (h1 & c1 & Ha & Hlen). rewrite (run_ok _ _ _ _ _ Ha). cbv beta.
  destruct (record_layer_returns node i h1 chain) as [chain1 Hr]; [apply Hl; left|].
  erewrite run_ok by (by rewrite Hr). cbn. apply IH; [|done]. intros j Hj. apply Hl. by right.
Qed.

(** ** Shards that know each other *)

Record good_shard cfg : Prop := {
  gs_map : nc_map cfg = m;
  gs_total : nc_total_layers cfg = total;
  gs_on : nc_provenance cfg = true;
  gs_lookup : lookup_shard (me cfg) m = Ok (nc_shard cfg);
  gs_range : 0 <= ss_start (nc_shard cfg) /\ ss_start (nc_shard cfg) <= ss_end (nc_shard cfg) <= total;
  gs_unsplit : nc_split_layers cfg = [];
  gs_moe : forall l, l ∈ dict_keys (ss_moe (nc_shard cfg)) -> ~ ss_start (nc_shard cfg) <= l < ss_end (nc_shard cfg);
}.

Abbreviation went lo := (travelled (fun sid => Ok (shard_lookup m sid)) total (split_layers_for_shard m) lo).

(** Who owns an expert does not matter to such a chain. *)
Lemma went_any lo lo' l out chain : went lo l out chain -> went lo' l out chain.
Proof.
  intros Ht. pose proof Ht as [Hr Ho Hm Hi Htl]. split; [done|done| |done|done].
  rewrite Forall_lookup in Hm |- *. intros i e He. specialize (Hm i e He).
  destruct (travelled_op _ _ _ _ _ _ _ i e Ht He) as [[_ Hoe]|(j & _ & Hoe)]; unfold authorized in *; by rewrite Hoe in *.
Qed.

Lemma layers_of_travelled cfg (h : T) (chain : list ProvenanceEntry) (cache : list Slot) :
  good_shard cfg -> length cache = nslots -> went (fun _ _ => []) (ss_start (nc_shard cfg)) (tensor_to_bytes h) chain ->
  exists (h' : T) (chain' : list ProvenanceEntry) (cache' : list Slot), layers_of cfg h (Some chain) cache = (Ok (h', Some chain'), cache') /\
    went (fun _ _ => []) (ss_end (nc_shard cfg)) (tensor_to_bytes h') chain'.
Proof.
  intros [Hm Ht Hp Hl Hr Hs Hmoe] Hc Hw. unfold layers_of, Engine.run_my_layers. rewrite run_bind, Hs. unfold make_masks.
  destruct (slot_or_none_ok tm_first_full cache) as [s1 E1]; [apply first_slots|].
  destruct (slot_or_none_ok tm_first_sliding cache) as [s2 E2]; [apply first_slots|]. rewrite E1, E2. cbn [mbind result_bind].
  set (masks := (create_attention_mask h s1 None, create_attention_mask h s2 (Some tm_window))).
  destruct (layers_run (me cfg) (range (ss_start (nc_shard cfg)) (ss_end (nc_shard cfg))) h masks (Some chain) cache) as (h' & c' & cache' & Hrun).
  { intros i Hi. unfold range in Hi. apply list_elem_of_fmap in Hi as (j & -> & Hj%zrange_in). lia. }
  { done. }
  destruct (run_layers_travelled (fun sid => Ok (shard_lookup m sid)) total (split_layers_for_shard m) (fun _ _ => []) tensor_to_bytes now [] None
    (me cfg) (Z.to_nat (ss_end (nc_shard cfg) - ss_start (nc_shard cfg))) (ss_start (nc_shard cfg)) (ss_end (nc_shard cfg)) h masks chain cache h' c' cache')
    as (chain' & -> & Hw'); [done|lia|done| |exact Hrun|].
  - intros i Hi. split; [intros Hn; inversion Hn|]. intros e Hid Hop. unfold authorized. rewrite Hop, Hid.
    unfold shard_lookup, split_layers_for_shard. rewrite Hl. do 2 eexists. split; [done|]. cbn. split; [lia|].
    intros Hin. by apply (Hmoe i).
  - exists h', chain', cache'. split; [exact Hrun|done].
Qed.

(** ** Messages *)

Hypothesis io_ok : forall k, io k = true.
(** Hidden states survive the wire. *)
Hypothesis states_sendable : forall h : T, sendable h.

(** A message that brings request [rid] to the shard that starts at layer [l]:
    the state, and a chain that fits it. *)
Definition carries (rid : string) (l : Z) (msg : Envelope * bytes) : Prop :=
  exists act chain (h : T), msg = (Some (PActivation act), tensor_to_bytes h) /\
    ac_request_id act = rid /\ ac_next_layer act = l /\ mapR entry_from_pb (ac_provenance act) = Ok chain /\
    went (fun _ _ => []) l (tensor_to_bytes h) chain /\
    bytes_to_tensor (tensor_to_bytes h) (td_shape (ac_tensor act)) (td_dtype (ac_tensor act)) = Ok h.

Lemma activation_carries cfg rid (h : T) chain :
  good_shard cfg -> went (fun _ _ => []) (ss_end (nc_shard cfg)) (tensor_to_bytes h) chain ->
  exists msg, activation_envelope cfg rid (ss_end (nc_shard cfg)) h (Some chain) = Ok msg /\ carries rid (ss_end (nc_shard cfg)) msg.
Proof.
  intros Hg Hw. destruct (states_sendable h) as (d & Hd & Hok & Hb). destruct (travelled_wire _ _ _ _ _ _ _ Hw) as (pbs & H1' & H2' & H3').
  unfold activation_envelope. rewrite Hd, (gs_on _ Hg). cbn [mbind result_bind from_option id]. rewrite H1'. cbn [mbind result_bind].
  pose proof (gs_range _ Hg). rewrite built_ok.
  - eexists. split; [done|]. do 3 eexists. split; [reflexivity|]. by repeat split; try done; apply Hw.
  - unfold payload_ok. cbn [ac_version ac_next_layer ac_tensor ac_provenance]. rewrite Hok, H2'. unfold in_u32, PROTOCOL_VERSION_NODE. lia.
Qed.

(** A write appends to the stream of the open connection. *)
Lemma write_out_sent d msg n :
  exists k t', on_net (write_out io d msg.1 msg.2) n = (Ok tt, set_net t' n) /\
    sent_to (Outbound k) (net_log t') = sent_to (Outbound k) (net_log (n_net n)) ++ [msg].
Proof.
  destruct (ensure_run io io_ok d (n_net n)) as (k & t1 & He).
  pose proof (ensure_sent io io_ok d (n_net n) (n_net n) (fun s => eq_refl)) as Hk. rewrite He in Hk. cbn [snd] in Hk.
  exists k, (wrote (Outbound k) msg.1 msg.2 t1). split.
  - apply run_focus. unfold write_out. rewrite (run_ok _ _ _ _ _ He). unfold send. by rewrite (run_ok _ _ _ _ _ (net_op_run io io_ok _)).
  - rewrite sent_wrote_same, Hk. by destruct msg.
Qed.

Lemma forward_sends cfg rid (h : T) chain n :
  good_shard cfg -> is_tail cfg = false -> went (fun _ _ => []) (ss_end (nc_shard cfg)) (tensor_to_bytes h) chain ->
  exists k t' q' msg, forward_activation cfg io rid h (Some chain) n = (Ok tt, set_net t' (set_req q' n)) /\
    sent_to (Outbound k) (net_log t') = sent_to (Outbound k) (net_log (n_net n)) ++ [msg] /\ carries rid (ss_end (nc_shard cfg)) msg.
Proof.
  intros Hg Htail Hw. destruct (activation_carries cfg rid h chain Hg Hw) as (msg & Hm & Hc).
  unfold forward_activation. erewrite run_ok by (by rewrite Htail). run. erewrite run_ok by (by rewrite Hm). cbv beta.
  match goal with |- context [set_captures ?c ?q] => set (q1 := set_captures c q) end.
  destruct (write_out_sent (nc_downstream cfg) msg (set_req q1 n)) as (k & t' & Hw' & Hs).
  exists k, t', q1, msg. destruct msg as [env raw]. cbn [fst snd] in Hw'. split; [exact Hw'|done].
Qed.

Lemma my_layers_travelled cfg rid (cache : list Slot) (h : T) chain n :
  good_shard cfg -> length cache = nslots -> went (fun _ _ => []) (ss_start (nc_shard cfg)) (tensor_to_bytes h) chain ->
  exists h' chain' q', run_my_layers (layers_of cfg) rid cache h (Some chain) n = (Ok (h', Some chain'), set_req q' n) /\
    went (fun _ _ => []) (ss_end (nc_shard cfg)) (tensor_to_bytes h') chain'.
Proof.
  intros Hg Hc Hw. destruct (layers_of_travelled cfg h chain cache Hg Hc Hw) as (h' & chain' & cache' & Hr & Hw').
  unfold run_my_layers. rewrite Hr. by exists h', chain'; eexists.
Qed.

(** The shard a message is for accepts its chain and runs its layers. *)
Lemma accepts cfg c rid msg n :
  good_shard cfg -> carries rid (ss_start (nc_shard cfg)) msg -> dict_get rid (rs_kv (n_req n)) = None ->
  exists h' chain' q', went (fun _ _ => []) (ss_end (nc_shard cfg)) (tensor_to_bytes h') chain' /\
    dispatch cfg io render now (layers_of cfg) msg.1 msg.2 (Inbound c) n =
    (if is_tail cfg then finalize_request cfg io now rid h' (Some chain') else forward_activation cfg io rid h' (Some chain')) (set_req q' n).
Proof.
  intros Hg (act & chain & h & -> & Hrid & Hl & Hc & Hw & Hb) Hkv. cbn [fst snd dispatch].
  unfold handle_activation. rewrite (proj2 (Z.eqb_eq _ _) Hl), (gs_on _ Hg). cbn [negb]. erewrite run_ok by (by rewrite Hc). cbv beta. run.
  assert (Hv : match ac_provenance act with [] => Ok tt | _ => check_chain cfg chain (tensor_to_bytes h) n end = Ok tt).
  { destruct (ac_provenance act); [done|]. unfold check_chain. rewrite (gs_map _ Hg), (gs_total _ Hg).
    by eapply travelled_valid, went_any. }
  rewrite Hv. unfold process_activation. run. rewrite Hrid. unfold dict_setdefault. rewrite Hkv. run.
  erewrite run_ok by (by rewrite Hb). cbv beta.
  match goal with |- context [@mbind (eff _) _ _ _ _ (handle_with _ _) ?s] => set (n1 := s) end.
  destruct (my_layers_travelled cfg rid nb_make_cache h chain n1 Hg fresh_cache Hw) as (h' & chain' & q' & Hr & Hw').
  erewrite run_ok by (unfold handle_with; rewrite run_bind, Hr; reflexivity). cbv beta iota.
  exists h', chain', q'. done.
Qed.

(** ** From shard to shard *)

(** A shard that gets [msg] sends [out] on one of its outbound connections. *)
Definition passes cfg n (msg out : Envelope * bytes) : Prop :=
  exists c k, let n' := node_step cfg io render now (layers_of cfg) (Message c msg.1 msg.2) n in
    sent_to (Outbound k) (net_log (n_net n')) = sent_to (Outbound k) (net_log (n_net n)) ++ [out].

Lemma passes_dispatch cfg c k msg n r n' out :
  dispatch cfg io render now (layers_of cfg) msg.1 msg.2 (Inbound c) n = (r, n') ->
  sent_to (Outbound k) (net_log (n_net n')) = sent_to (Outbound k) (net_log (n_net n)) ++ [out] -> passes cfg n msg out.
Proof.
  intros Hd Hs. exists c, k. etransitivity; [|exact Hs].
  exact (f_equal (fun p : result unit * State => sent_to (Outbound k) (net_log (n_net p.2))) Hd).
Qed.

Fixpoint relayed (shards : list (NodeConfig * State)) (msg out : Envelope * bytes) : Prop :=
  match shards with
  | [] => out = msg
  | (cfg, n) :: shards => exists msg', passes cfg n msg msg' /\ relayed shards msg' out
  end.

(** Each shard starts where the one before ends. *)
Fixpoint contiguous (a : Z) (shards : list (NodeConfig * State)) (b : Z) : Prop :=
  match shards with
  | [] => a = b
  | (cfg, _) :: shards => ss_start (nc_shard cfg) = a /\ contiguous (ss_end (nc_shard cfg)) shards b
  end.

Definition ready rid cfg n : Prop := good_shard cfg /\ dict_get rid (rs_kv (n_req n)) = None.

Lemma middle_passes rid cfg n msg :
  ready rid cfg n -> is_tail cfg = false -> carries rid (ss_start (nc_shard cfg)) msg ->
  exists out, passes cfg n msg out /\ carries rid (ss_end (nc_shard cfg)) out.
Proof.
  intros [Hg Hk] Htail Hc. destruct (accepts cfg 0 rid msg n Hg Hc Hk) as (h' & chain' & q' & Hw & Hd). rewrite Htail in Hd.
  destruct (forward_sends cfg rid h' chain' (set_req q' n) Hg Htail Hw) as (k & t' & q2 & out & Hf & Hs & Ho).
  exists out. split; [|done]. apply (passes_dispatch cfg 0 k msg n (Ok tt) (set_net t' (set_req q2 (set_req q' n)))); [by rewrite Hd|exact Hs].
Qed.

Lemma middles_pass rid shards a b msg :
  Forall (fun it => ready rid it.1 it.2 /\ is_tail it.1 = false) shards -> contiguous a shards b -> carries rid a msg ->
  exists out, relayed shards msg out /\ carries rid b out.
Proof.
  intros Hs. revert a msg. induction Hs as [|[cfg n] shards [Hr Ht] _ IH]; intros a msg Hc Hm.
  - cbn in Hc. subst b. by exists msg.
  - destruct Hc as [<- Hc]. destruct (middle_passes rid cfg n msg Hr Ht Hm) as (msg' & Hp & Hm').
    destruct (IH _ _ Hc Hm') as (out & Ho & Hco). exists out. split; [|done]. by exists msg'.
Qed.

Hypothesis tokens_fit : forall h : T, in_u32 (nb_argmax_last h) = true.

Lemma tail_passes rid cfg n msg :
  ready rid cfg n -> is_tail cfg = true -> carries rid (ss_start (nc_shard cfg)) msg ->
  exists tok, passes cfg n msg (token_reply rid tok 0 false).
Proof.
  intros [Hg Hk] Htail Hc. destruct (accepts cfg 0 rid msg n Hg Hc Hk) as (h' & chain' & q' & Hw & Hd). rewrite Htail in Hd.
  exists (nb_argmax_last (nb_finalize h')). unfold finalize_request in Hd. rewrite (gs_on _ Hg) in Hd.
  destruct (build_entry_ok now (me cfg) (mkOp OP_FINALIZE 0 0) (tensor_to_bytes (nb_finalize h'))
    (match last (default [] (Some chain')) with Some e => [e_hash e] | None => [] end)) as (e & He & _); [done|done|].
  rewrite run_bind in Hd. erewrite run_ok in Hd by (unfold lift; by rewrite He). cbv beta in Hd.
  unfold send_sampled_token in Hd.
  match type of Hd with context [on_req (modify ?f) ?s] => change (on_req (modify f) s) with (Ok tt, set_req (f (n_req s)) s) in Hd end.
  cbv beta iota in Hd.
  erewrite run_ok in Hd by (unfold lift; rewrite built_ok; [reflexivity|cbn [payload_ok sk_version sk_token_id sk_position]; by rewrite tokens_fit]).
  cbv beta in Hd. match type of Hd with context [on_net _ ?s] =>
    destruct (write_out_sent (nc_downstream cfg) (token_reply rid (nb_argmax_last (nb_finalize h')) 0 false) s) as (k & t' & Hwr & Hs) end.
  cbn [fst snd token_reply] in Hwr. eapply (passes_dispatch cfg 0 k msg n (Ok tt)); [rewrite Hd; exact Hwr|exact Hs].
Qed.

(** The head's first activation. *)
Lemma head_passes cfg n req raw :
  good_shard cfg -> is_head cfg = true -> is_tail cfg = false -> unavailable_peer cfg n = None ->
  exists out, passes cfg n (Some (PBegin req), raw) out /\ carries (br_request_id req) (ss_end (nc_shard cfg)) out.
Proof.
  intros Hg Hhead Htail Hun. pose proof Hhead as H0'. unfold is_head in H0'. apply Z.eqb_eq in H0'.
  set (h := nb_embed (br_prompt req)).
  destruct (build_entry_ok now (me cfg) (mkOp OP_EMBED 0 0) (tensor_to_bytes h) []) as (e & He & Ho & Hid & Hsid & Hh); [done|done|].
  assert (Hw : went (fun _ _ => []) 0 (tensor_to_bytes h) [e]).
  { split; [lia|by cbn; rewrite Ho| | |].
    - constructor; [|done]. unfold authorized. rewrite Ho, Hid. unfold shard_lookup. rewrite (gs_lookup _ Hg). by do 2 eexists.
    - constructor; [by rewrite Hsid|done].
    - intros output [= <-]. by exists e, (mkOp OP_EMBED 0 0). }
  assert (Hch : embed_chain cfg now h = Ok (Some [e])) by (unfold embed_chain; by rewrite (gs_on _ Hg), He).
  rewrite <- H0' in Hw.
  assert (Hd : exists k t' q' out, carries (br_request_id req) (ss_end (nc_shard cfg)) out /\
    handle_begin cfg io render now (layers_of cfg) req (Inbound 0) n = (Ok tt, set_net t' (set_req q' n)) /\
    sent_to (Outbound k) (net_log t') = sent_to (Outbound k) (net_log (n_net n)) ++ [out]).
  { unfold handle_begin. rewrite Hhead. cbn [negb]. run. rewrite Hun. cbv zeta. run. fold h.
    erewrite run_ok by (by rewrite Hch). cbv beta.
    match goal with |- context [@mbind (eff _) _ _ _ _ (handle_with _ _) ?s] => set (n1 := s) end.
    destruct (my_layers_travelled cfg (br_request_id req) nb_make_cache h [e] n1 Hg fresh_cache Hw) as (h' & chain' & q' & Hr & Hw').
    erewrite run_ok by (unfold handle_with; rewrite run_bind, Hr; reflexivity). cbv beta iota.
    destruct (forward_sends cfg (br_request_id req) h' chain' (set_req q' n1) Hg Htail Hw') as (k & t' & q2 & out & Hf & Hs & Ho').
    rewrite (run_ok _ _ _ _ _ Hf). cbv beta. do 4 eexists. split; [exact Ho'|]. split; [reflexivity|exact Hs]. }
  destruct Hd as (k & t' & q' & out & Ho' & Hd & Hs). exists out. split; [|done].
  by eapply (passes_dispatch cfg 0 k).
Qed.

(** C10: an honest pipeline accepts its own chains. Shards that agree on the
    shard map and cover all layers, with provenance on and no split layer: a
    request accepted by the head travels through every shard, each accepting
    the chain of the one before and sending the state on with a chain that fits
    it, and the tail answers with a token. *)
Theorem honest_pipeline_serves req raw head nh middle tail nt :
  ready (br_request_id req) head nh -> is_head head = true -> is_tail head = false -> unavailable_peer head nh = None ->
  Forall (fun it => ready (br_request_id req) it.1 it.2 /\ is_tail it.1 = false) middle ->
  ready (br_request_id req) tail nt -> is_tail tail = true ->
  contiguous 0 ((head, nh) :: middle ++ [(tail, nt)]) total ->
  exists tok, relayed ((head, nh) :: middle ++ [(tail, nt)]) (Some (PBegin req), raw) (token_reply (br_request_id req) tok 0 false).
Proof.
  intros [Hg Hk] Hhead Htail Hun Hmid Ht Htt [_ Hc].
  destruct (head_passes head nh req raw Hg Hhead Htail Hun) as (msg & Hp & Hm).
  assert (exists b, contiguous (ss_end (nc_shard head)) middle b /\ ss_start (nc_shard tail) = b) as (b & Hcm & Hb).
  { clear Hp Hm Hmid. revert Hc. generalize (ss_end (nc_shard head)). induction middle as [|[cfg n] middle IH]; intros a Hc.
    - destruct Hc as [Hs _]. by exists a.
    - destruct Hc as [Hs Hc]. destruct (IH _ Hc) as (b & Hb & Hbs). by exists b. }
  destruct (middles_pass _ middle _ b msg Hmid Hcm Hm) as (out & Hr & Ho).
  rewrite <- Hb in Ho. destruct (tail_passes _ tail nt out Ht Htt Ho) as (tok & Hpt). exists tok, msg. split; [done|].
  clear -Hr Hpt. revert msg Hr. induction middle as [|[cfg n] middle IH]; intros msg Hr.
  - cbn in Hr. subst out. by eexists.
  - destruct Hr as (msg' & Hp & Hr). exists msg'. split; [done|]. by apply IH.
Qed.

End pipeline.
