(* ===== verification/Layers.v ===== *)
(** * The layers as a function of state and cache

    The laws of the model library a distributed forward pass relies on
    ([ModelLaws]) and, under them, what [Engine.run_layers] computes: a fold
    over the layers.  A cache with the slots of a range of layers serves for
    that range ([agree]): the masks depend on the number of positions and, for
    one position, on nothing else. *)
From S2P Require Import Prelude PyDict PyFloat PyList Wire Provenance Experts Effects Migration Engine NodeHandlers NodeProvenance.
Open Scope Z_scope.

Class ModelLaws {T M Slot C : Type} `{TextModel T M Slot} `{NodeBackend T (list Slot) C} (total : Z) (nslots : nat) := {
  (** [h.shape[1]] *)
  positions : T -> Z;
  (** a rotating cache as wide as the attention window *)
  rotating : Slot -> Prop;
  fresh_slots : length (nb_make_cache : list Slot) = nslots;
  layer_exists i : 0 <= i < total -> exists full idx,
    tm_full_attention i = Ok full /\ tm_cache_idx i = Ok idx /\ 0 <= idx < Z.of_nat nslots;
  (** no layers share a slot *)
  layer_slots i j k : 0 <= i < total -> 0 <= j < total -> tm_cache_idx i = Ok k -> tm_cache_idx j = Ok k -> i = j;
  first_exist : 0 <= tm_first_full /\ 0 <= tm_first_sliding;
  embed_one t : positions (nb_embed [t]) = 1;
  layer_positions i h m c : positions (tm_layer i h m c).1 = positions h;
  fresh_rotating i c : (nb_make_cache : list Slot) !! i = Some c -> i = Z.to_nat tm_first_sliding -> rotating c;
  layer_rotating i h m c : rotating c -> rotating (tm_layer i h m c).2;
  (** a mask depends on the state through its positions only *)
  mask_positions h h' c w : positions h = positions h' -> create_attention_mask h c w = create_attention_mask h' c w;
  (** one position needs no mask but the window of a wider cache *)
  mask_one_full h c c' : positions h = 1 -> create_attention_mask h (Some c) None = create_attention_mask h (Some c') None;
  mask_one_sliding h c c' : positions h = 1 -> rotating c -> rotating c' ->
    create_attention_mask h (Some c) (Some tm_window) = create_attention_mask h (Some c') (Some tm_window);
}.

Section layers.
Context {T M Slot C : Type} `{TextModel T M Slot} `{NodeBackend T (list Slot) C} (total : Z) (nslots : nat)
  `{!ModelLaws total nslots}.
Abbreviation Cache := (list Slot).
Implicit Types (h : T) (cache : Cache) (masks : M * M).

(** ** One layer, and a range of them *)

Definition slot_index (i : Z) : nat := Z.to_nat (ok_or 0 (tm_cache_idx i)).

Definition layer_step masks (st : T * Cache) (i : Z) : T * Cache :=
  match st.2 !! slot_index i with
  | Some c => let '(h, c) := tm_layer i st.1 (if ok_or false (tm_full_attention i) then masks.1 else masks.2) c in
              (h, <[slot_index i := c]> st.2)
  | None => st
  end.

Definition fold_layers masks (layers : list Z) (st : T * Cache) : T * Cache := foldl (layer_step masks) st layers.

Lemma fold_cons masks i layers st : fold_layers masks (i :: layers) st = fold_layers masks layers (layer_step masks st i).
Proof. done. Qed.

(** The masks, where the first slots exist. *)
Definition slot_opt (i : Z) cache : option Slot := cache !! Z.to_nat i.
Definition masks_of h cache : M * M :=
  (create_attention_mask h (slot_opt tm_first_full cache) None,
   create_attention_mask h (slot_opt tm_first_sliding cache) (Some tm_window)).

Lemma slot_or_none_opt i cache : 0 <= i -> slot_or_none i cache = Ok (slot_opt i cache).
Proof.
  intros Hi. destruct (Z_of_nat_complete i Hi) as [n ->]. unfold slot_or_none, slot_opt. rewrite py_nth_nat, Nat2Z.id.
  destruct (Z.of_nat n <? Z.of_nat (length cache)) eqn:E.
  - destruct (lookup_lt_is_Some_2 cache n) as [c ->]; [lia|done].
  - by rewrite (proj2 (lookup_ge_None cache n)) by lia.
Qed.

Lemma make_masks_ok h cache : make_masks h cache = Ok (masks_of h cache).
Proof. unfold make_masks. rewrite !slot_or_none_opt by apply first_exist. done. Qed.

Lemma slot_index_lt i : 0 <= i < total -> (slot_index i < nslots)%nat.
Proof. intros Hi. destruct (layer_exists i Hi) as (full & idx & _ & Hx & Hr). unfold slot_index. rewrite Hx. cbn. lia. Qed.

Lemma slot_index_inj i j : 0 <= i < total -> 0 <= j < total -> slot_index i = slot_index j -> i = j.
Proof.
  intros Hi Hj. destruct (layer_exists i Hi) as (f1 & x & _ & Hx & Hrx), (layer_exists j Hj) as (f2 & y & _ & Hy & Hry).
  unfold slot_index. rewrite Hx, Hy. cbn. intros He. apply (layer_slots i j x Hi Hj Hx). by rewrite Hy; f_equal; lia.
Qed.

Lemma layer_step_length masks st i : length (layer_step masks st i).2 = length st.2.
Proof. unfold layer_step. destruct (st.2 !! _); [|done]. destruct (tm_layer _ _ _ _). cbn. apply length_insert. Qed.

Lemma fold_length masks layers st : length (fold_layers masks layers st).2 = length st.2.
Proof. revert st. induction layers as [|i layers IH]; intros st; [done|]. by rewrite fold_cons, IH, layer_step_length. Qed.

Lemma fold_app masks l1 l2 st : fold_layers masks (l1 ++ l2) st = fold_layers masks l2 (fold_layers masks l1 st).
Proof. apply foldl_app. Qed.

Lemma fold_positions masks layers st : positions (fold_layers masks layers st).1 = positions st.1.
Proof.
  revert st. induction layers as [|i layers IH]; intros st; [done|]. rewrite fold_cons, IH. unfold layer_step.
  destruct (st.2 !! _) as [c|]; [|done]. pose proof (layer_positions i st.1 (if ok_or false (tm_full_attention i) then masks.1 else masks.2) c) as Hp.
  by destruct (tm_layer _ _ _ _).
Qed.

(** ** The code computes the fold *)

Lemma run_layer_atomic_step i h masks cache : 0 <= i < total -> length cache = nslots ->
  run_layer_atomic i h masks cache = (Ok (layer_step masks (h, cache) i).1, (layer_step masks (h, cache) i).2).
Proof.
  intros Hi Hc. destruct (layer_exists i Hi) as (full & idx & Hf & Hx & Hr). unfold run_layer_atomic, layer_step, slot_index.
  erewrite run_ok by (by rewrite Hf). cbv beta. erewrite run_ok by (by rewrite Hx). cbv beta. run. unfold id.
  rewrite Hf, Hx. cbn [ok_or fst snd]. destruct (Z_of_nat_complete idx) as [x ->]; [lia|]. rewrite py_nth_nat, Nat2Z.id.
  destruct (lookup_lt_is_Some_2 cache x) as [c Hl]; [lia|]. rewrite Hl. cbn [or_raise]. run.
  destruct (tm_layer _ _ _ _) as [h1 c1]. run. unfold mret, eff_ret. by rewrite py_pos_nat.
Qed.

Section run.
Context (tensor_bytes : T -> bytes) (now : float) (split_layers : list Z)
  (orchestrator : option (Z -> T -> M * M -> chain_t -> eff Cache (T * chain_t))) (node_id : string).

(** Without a chain, and with split layers that compute what the layer does. *)
Definition split_exact (i : Z) : Prop := i ∈ split_layers -> exists f, orchestrator = Some f /\
  forall h masks cache, length cache = nslots ->
    f i h masks None cache = (Ok ((layer_step masks (h, cache) i).1, None), (layer_step masks (h, cache) i).2).

Lemma run_layer_list_fold layers h masks cache :
  (forall i, i ∈ layers -> 0 <= i < total /\ split_exact i) -> length cache = nslots ->
  run_layer_list tensor_bytes now split_layers orchestrator node_id layers h masks None cache =
  (Ok ((fold_layers masks layers (h, cache)).1, None), (fold_layers masks layers (h, cache)).2).
Proof.
  revert h cache. induction layers as [|i layers IH]; intros h cache Hl Hc; [done|].
  destruct (Hl i ltac:(left)) as [Hi Hs]. cbn [run_layer_list].
  assert (Hone : run_layer tensor_bytes now split_layers orchestrator node_id i h masks None cache =
    (Ok ((layer_step masks (h, cache) i).1, None), (layer_step masks (h, cache) i).2)).
  { unfold run_layer. destruct (decide (i ∈ split_layers)) as [Hin|Hn].
    - destruct (Hs Hin) as (f & -> & Hf). by apply Hf.
    - rewrite (run_ok _ _ _ _ _ (run_layer_atomic_step i h masks cache Hi Hc)). cbv beta. by run. }
  rewrite (run_ok _ _ _ _ _ Hone). cbv beta iota. rewrite IH; [|by intros j Hj; apply Hl; right|by rewrite layer_step_length].
  rewrite fold_cons. by destruct (layer_step masks (h, cache) i).
Qed.

(** With a chain and no split layers, the same state. *)
Lemma run_layer_list_value layers h masks chain cache h' c' cache' :
  split_layers = [] -> (forall i, i ∈ layers -> 0 <= i < total) -> length cache = nslots ->
  run_layer_list tensor_bytes now split_layers orchestrator node_id layers h masks chain cache = (Ok (h', c'), cache') ->
  (h', cache') = fold_layers masks layers (h, cache).
Proof.
  intros Hsp. revert h chain cache. induction layers as [|i layers IH]; intros h chain cache Hl Hc Hr;
    [injection Hr as <- <- <-; done|].
  cbn [run_layer_list] in Hr. unfold run_layer at 1 in Hr. rewrite Hsp, decide_False in Hr by (intros Hn; inversion Hn).
  pose proof (Hl i ltac:(left)) as Hi. rewrite run_bind in Hr.
  rewrite (run_ok _ _ _ _ _ (run_layer_atomic_step i h masks cache Hi Hc)) in Hr. cbv beta in Hr.
  destruct (record_layer _ _ _ _ _ _) as [c1|e] eqn:Er; [|by rewrite run_bind in Hr; cbn in Hr].
  rewrite run_bind in Hr. cbn [lift] in Hr. rewrite <- Hsp in Hr.
  apply IH in Hr; [|by intros j Hj; apply Hl; right|by rewrite layer_step_length].
  rewrite Hr, fold_cons. by destruct (layer_step masks (h, cache) i).
Qed.

End run.

(** ** A cache for a range of layers *)

Record agree (a b : Z) cache cache' : Prop := {
  ag_length : length cache = nslots;
  ag_length' : length cache' = nslots;
  ag_slots i : a <= i < b -> cache !! slot_index i = cache' !! slot_index i;
}.

Lemma agree_refl a b cache : length cache = nslots -> agree a b cache cache.
Proof. by split. Qed.

Lemma agree_sym a b cache cache' : agree a b cache cache' -> agree a b cache' cache.
Proof. intros [H1' H2' H3']. split; [done|done|]. intros i Hi. symmetry. auto. Qed.

Lemma agree_trans a b c1 c2 c3 : agree a b c1 c2 -> agree a b c2 c3 -> agree a b c1 c3.
Proof. intros [] [Hl Hl' Hs]. split; [done|done|]. intros i Hi. rewrite <- Hs by done. auto. Qed.

(** A layer outside the range leaves it alone. *)
Lemma layer_step_other masks st i a b : 0 <= a -> b <= total -> 0 <= i < total -> ~ a <= i < b -> length st.2 = nslots ->
  agree a b st.2 (layer_step masks st i).2.
Proof.
  intros Ha Hb Hi Hn Hl. split; [done|by rewrite layer_step_length|]. intros j Hj. unfold layer_step.
  destruct (st.2 !! slot_index i) as [c|]; [|done]. destruct (tm_layer _ _ _ _). cbn.
  rewrite list_lookup_insert_ne; [done|]. intros He. apply slot_index_inj in He; lia.
Qed.

Lemma fold_other masks layers st a b : 0 <= a -> b <= total -> (forall i, i ∈ layers -> 0 <= i < total /\ ~ a <= i < b) ->
  length st.2 = nslots -> agree a b st.2 (fold_layers masks layers st).2.
Proof.
  intros Ha Hb. revert st. induction layers as [|i layers IH]; intros st Hl Hc; [by apply agree_refl|].
  destruct (Hl i ltac:(left)) as [Hi Hn]. rewrite fold_cons.
  eapply agree_trans; [by apply (layer_step_other masks st i)|]. apply IH; [|by rewrite layer_step_length].
  intros j Hj. apply Hl. by right.
Qed.

(** Two caches that agree on the layers run give the same state, and agree again. *)
Lemma fold_agree masks a b layers h cache cache' : 0 <= a -> b <= total -> (forall i, i ∈ layers -> a <= i < b) ->
  agree a b cache cache' ->
  let st := fold_layers masks layers (h, cache) in let st' := fold_layers masks layers (h, cache') in
  st.1 = st'.1 /\ agree a b st.2 st'.2.
Proof.
  intros Ha Hb. revert h cache cache'. induction layers as [|i layers IH]; intros h cache cache' Hl Hag; [done|].
  pose proof (Hl i ltac:(left)) as Hi. rewrite !fold_cons.
  assert (Hone : (layer_step masks (h, cache) i).1 = (layer_step masks (h, cache') i).1 /\
    agree a b (layer_step masks (h, cache) i).2 (layer_step masks (h, cache') i).2).
  { unfold layer_step. cbn [fst snd]. rewrite <- (ag_slots _ _ _ _ Hag i Hi). destruct (cache !! slot_index i) as [c|] eqn:Ec; [|done].
    destruct (tm_layer _ _ _ _) as [h1 c1]. cbn. split; [done|]. split; [by rewrite length_insert; apply Hag..|].
    pose proof (slot_index_lt i ltac:(lia)). destruct Hag as [L1 L2 Hs]. intros j Hj. destruct (decide (slot_index j = slot_index i)) as [->|Hne].
    - by rewrite !list_lookup_insert_eq by lia.
    - rewrite !list_lookup_insert_ne by done. auto. }
  destruct Hone as [Hh Hag']. destruct (layer_step masks (h, cache) i) as [h1 c1], (layer_step masks (h, cache') i) as [h2 c2].
  cbn in Hh. subst h2. apply (IH h1 c1 c2); [|done]. intros j Hj. apply Hl. by right.
Qed.

(** ** Masks *)

(** The sliding layers' first slot stays a rotating cache. *)
Definition sliding_ok cache : Prop := forall c, slot_opt tm_first_sliding cache = Some c -> rotating c.

Lemma fresh_sliding : sliding_ok nb_make_cache.
Proof. intros c Hc. by eapply fresh_rotating. Qed.

Lemma layer_step_sliding masks st i : sliding_ok st.2 -> sliding_ok (layer_step masks st i).2.
Proof.
  intros Hs. unfold layer_step. destruct (st.2 !! slot_index i) as [c|] eqn:Ec; [|done].
  pose proof (layer_rotating i st.1 (if ok_or false (tm_full_attention i) then masks.1 else masks.2) c) as Hl.
  destruct (tm_layer _ _ _ _) as [h1 c1]. cbn in Hl |- *. unfold sliding_ok, slot_opt in *. intros c' Hc'.
  destruct (decide (slot_index i = Z.to_nat tm_first_sliding)) as [He|Hne].
  - rewrite He in *. rewrite list_lookup_insert_eq in Hc' by (by eapply lookup_lt_Some). injection Hc' as <-. by apply Hl, Hs.
  - rewrite list_lookup_insert_ne in Hc' by done. by apply Hs.
Qed.

Lemma fold_sliding masks layers st : sliding_ok st.2 -> sliding_ok (fold_layers masks layers st).2.
Proof. revert st. induction layers as [|i layers IH]; intros st Hs; [done|]. rewrite fold_cons. by apply IH, layer_step_sliding. Qed.

(** The masks of a step are the same on every shard: it is the first, on fresh
    caches, or it has one position. *)
Lemma masks_same h h' cache cache' : positions h = positions h' -> length cache = nslots -> length cache' = nslots ->
  cache = cache' \/ (positions h = 1 /\ sliding_ok cache /\ sliding_ok cache') ->
  masks_of h cache = masks_of h' cache'.
Proof.
  intros Hp Hl Hl' Hor. unfold masks_of.
  rewrite (mask_positions h h' (slot_opt tm_first_full cache) None Hp), (mask_positions h h' (slot_opt tm_first_sliding cache) (Some tm_window) Hp).
  destruct Hor as [->|(H1' & Hs & Hs')]; [done|]. rewrite Hp in H1'. unfold sliding_ok, slot_opt in *.
  assert (Hboth : forall i, (exists c c', cache !! i = Some c /\ cache' !! i = Some c') \/ (cache !! i = None /\ cache' !! i = None)).
  { intros i. destruct (decide (i < nslots)%nat) as [Hi|Hi].
    - left. destruct (lookup_lt_is_Some_2 cache i) as [c Ec]; [lia|]. destruct (lookup_lt_is_Some_2 cache' i) as [c' Ec']; [lia|].
      by exists c, c'.
    - right. by rewrite !lookup_ge_None_2 by lia. }
  f_equal.
  - destruct (Hboth (Z.to_nat tm_first_full)) as [(c & c' & -> & ->)|[-> ->]]; [|done]. by apply mask_one_full.
  - destruct (Hboth (Z.to_nat tm_first_sliding)) as [(c & c' & Ec & Ec')|[-> ->]]; [|done].
    rewrite Ec, Ec'. apply mask_one_sliding; auto.
Qed.

End layers.
