(* ===== verification/NodeWitnesses.v ===== *)
(** * A concrete node

    A backend whose hidden states are single bytes, a pipeline of three shards,
    and the theorems about nodes applied to them. *)
From S2P Require Import Prelude PyDict PyFloat PyList PyRandom Records SwimState.
From S2P Require Import Wire Messages Ownership Runner ShardMap Trackers Provenance Experts Effects Migration MigrationTheorems.
From S2P Require Import Engine NodeState Settings NodeInit NodeHandlers Client NodeTheorems NodeFailures NodeLife NodeService NodeProvenance.
Open Scope Z_scope.

#[local] Existing Instance demo_lib.
#[local] Existing Instance demo_laws.

(** ** The backend *)

Definition byte_of (z : Z) : Byte.byte := default x00 (Byte.of_N (Z.to_N (z mod 256))).
Definition of_byte (b : Byte.byte) : Z := Z.of_N (Byte.to_N b).

#[local] Instance byte_states : TensorWire Byte.byte := {
  tensor_to_bytes t := [t];
  tensor_shape _ := [1];
  dtype_to_wire _ := Ok 6;
  bytes_to_tensor raw _ _ := match raw with [b] => Ok b | _ => Raise ValueError end;
}.

#[local] Instance row_weights : TensorWire Z := {
  tensor_to_bytes t := [byte_of t];
  tensor_shape _ := [1];
  dtype_to_wire _ := Ok 6;
  bytes_to_tensor raw _ _ := match raw with [b] => Ok (of_byte b) | _ => Raise ValueError end;
}.

(** An expert adds the sum of its rows. *)
Definition byte_expert (row : list Z) (x : Byte.byte) : Byte.byte := byte_of (foldl Z.add (of_byte x) row).
Definition byte_switch (attrs : list (Attr Z)) (slot : Z) (x : Byte.byte) : Byte.byte :=
  match mapR (take_one (Z.to_nat slot)) attrs with
  | Ok row => byte_expert row x
  | Raise _ => x00
  end.

#[local] Instance byte_backend : NodeBackend Byte.byte (list unit) Z := {
  nb_wire := byte_states;
  nb_weights := row_weights;
  nb_make_cache := [tt];
  nb_embed toks := byte_of (foldl Z.add 0 toks);
  nb_finalize h := h;
  nb_argmax_last h := of_byte h;
  nb_run_selected lm l h ids := run_selected_experts byte_switch (fun _ x => x) lm h l ids;
  nb_stack parts := match parts with [] => Raise ValueError | x :: xs => Ok (byte_of (foldl (fun a b => a + of_byte b) (of_byte x) xs)) end;
}.

(** A layer increments the state. *)
#[local] Instance byte_model : TextModel Byte.byte unit unit := {
  tm_full_attention _ := Ok true;
  tm_cache_idx _ := Ok 0;
  tm_layer _ h _ c := (byte_of (of_byte h + 1), c);
  tm_first_full := 0;
  tm_first_sliding := 0;
  tm_window := 8;
  create_attention_mask _ _ _ := tt;
}.

(** ** The pipeline *)

Definition shard_of (sid : string) (a b : Z) : ShardSpec := mkShard sid (mkAddress "h" (7000 + a)) a b [].
Definition demo_map : ShardMap :=
  mkShardMap [("a", shard_of "a" 0 1); ("b", shard_of "b" 1 2); ("c", shard_of "c" 2 3)] "m".
Definition cfg_of (sid : string) (a b : Z) (prov : bool) (next : ShardSpec) : NodeConfig :=
  mkConfig (shard_of sid a b) demo_map 3 prov next [].
Definition head_cfg prov := cfg_of "a" 0 1 prov (shard_of "b" 1 2).
Definition mid_cfg := cfg_of "b" 1 2 true (shard_of "c" 2 3).
Definition tail_cfg := cfg_of "c" 2 3 true (shard_of "a" 0 1).

Definition idle : NodeState Byte.byte (list unit) Z script :=
  mkNode demo_own (mkRequests [] [] [] [] [] []) (mkNet None 0 0 []) (mkService 0 (mkLoadTracker f0 f0 f0) []).
Definition all_well (_ : nat) : bool := true.
Definition no_text (_ : Detail) : string := "".
Definition same_state (h : Byte.byte) (c : chain_t) : eff (list unit) (Byte.byte * chain_t) := mret (h, c).

Lemma byte_sendable (h : Byte.byte) : sendable h.
Proof. eexists. split; [reflexivity|]. by split. Qed.

Lemma of_byte_u32 b : in_u32 (of_byte b) = true.
Proof. unfold of_byte, in_u32. pose proof (Byte.to_N_bounded b). lia. Qed.

(** ** Requests *)

Definition ask : Envelope := ok_or None (begin_envelope "r" [5] 2).
Definition waiting_head : NodeState Byte.byte (list unit) Z script :=
  node_step (head_cfg false) all_well no_text f0 same_state (Message 4 ask []) idle.

Lemma same_state_sent (h : Byte.byte) (c : chain_t) (k : list unit) : exists h' c' k', same_state h c k = (Ok (h', c'), k') /\
  forall rid, exists msg, activation_envelope (head_cfg false) rid (ss_end (nc_shard (head_cfg false))) h' c' = Ok msg.
Proof. exists h, c, k. split; [done|]. intros rid. by eexists. Qed.

Lemma request_end_to_end_witness :
  let n' := node_exec (head_cfg false) all_well no_text f0 same_state
    (Message 4 ask [] :: token_events 9 0 "r" [7; 8]) idle in
  generate (sent_to (Inbound 4) (net_log (n_net n'))) = Ok [7; 8].
Proof.
  apply (request_end_to_end (head_cfg false) all_well no_text f0 same_state (fun k => eq_refl) eq_refl same_state_sent eq_refl
    4 9 "r" [5] 2 ask [7; 8] idle); try done; try apply NoDup_nil_2. by repeat constructor.
Defined.

Lemma waiting_head_waits : waiting 0 "r" 0 4 2 0 waiting_head.
Proof. split; try reflexivity; apply NoDup_singleton. Qed.

(** Shard "c" leaves ALIVE in the view of the head. *)
Definition suspected : StateTransition :=
  mkTransition "c" (Some ALIVE) (mkMember "c" "h" 8002 SUSPECT 0 "m" f0 None).

Lemma failure_reaches_client_witness :
  let n' := node_exec (head_cfg false) all_well no_text f0 same_state [Transition suspected; Resume 0] waiting_head in
  sent_to (Inbound 4) (net_log (n_net n')) = [error_reply no_text "r" ERR_SHARD_UNAVAILABLE (DException PeerLeftAliveError)] /\
  rs_threads (n_req n') = [].
Proof.
  destruct (failure_reaches_client (head_cfg false) all_well no_text f0 same_state (fun k => eq_refl) 0 "r" 0 4 2 0 suspected
    waiting_head waiting_head_waits eq_refl) as (H1' & _ & _ & H2').
  split; [exact H1'|exact H2'].
Defined.

(** ** Failures *)

Definition unreachable (_ : nat) : bool := false.

Lemma first_send_failure_leaks_witness :
  let n' := node_step (head_cfg false) unreachable no_text f0 same_state (Message 4 ask []) idle in
  net_log (n_net n') = [] /\ dict_get "r" (rs_heads (n_req n')) = Some 0%nat /\ rs_threads (n_req n') = [].
Proof.
  destruct (first_send_failure_leaks (head_cfg false) unreachable no_text f0 same_state 4 (mkBegin 1 "r" "r" [5] true 0 2) [] idle
    (byte_of 5) None [tt] None (ok_or (None, []) (activation_envelope (head_cfg false) "r" 1 (byte_of 5) None)))
    as (_ & H1' & H2' & _ & H3'); try reflexivity.
  split; [exact H1'|]. split; [exact H2'|exact H3'].
Defined.

(** An entry without an operation. *)
Definition forged : ProvenanceEntryPb := mkProvPb [] [] "z" None f0.
Definition forged_activation (layer : Z) : Activation :=
  mkActivation 1 "r" layer (mkTensor [1] 6 0 1) [forged].

Lemma forged_rejected cfg layer : nc_provenance cfg = true -> ss_start (nc_shard cfg) = layer ->
  rejects cfg (forged_activation layer) [x00] idle.
Proof. intros Hp Hs. split; [done|done|done|]. by eexists. Qed.

Lemma mid_rejection_is_silent_witness :
  let n' := node_step mid_cfg all_well no_text f0 same_state (Message 5 (Some (PActivation (forged_activation 1))) [x00]) idle in
  (forall s, s <> Inbound 5 -> sent_to s (net_log (n_net n')) = []) /\ net_out (n_net n') = None.
Proof.
  destruct (mid_rejection_is_silent mid_cfg all_well no_text f0 same_state (forged_activation 1) [x00] 5 idle eq_refl
    (forged_rejected mid_cfg 1 eq_refl eq_refl)) as (H1' & _ & H2').
  split; [exact H1'|exact H2'].
Defined.

Lemma tail_rejection_reaches_client_witness :
  exists k env,
    sent_to (Outbound k) (net_log (n_net (node_step tail_cfg all_well no_text f0 same_state
      (Message 5 (Some (PActivation (forged_activation 2))) [x00]) idle))) = [(env, [])] /\
    sent_to (Inbound 4) (net_log (n_net (node_exec (head_cfg false) all_well no_text f0 same_state
      [Message 9 env []; Resume 0] waiting_head))) =
    [error_reply no_text "r" ERR_INVALID_PROVENANCE (DException ProvenanceError);
     error_reply no_text "r" ERR_SHARD_UNAVAILABLE (DException PeerLeftAliveError)].
Proof.
  destruct (tail_rejection_reaches_client tail_cfg (head_cfg false) all_well no_text f0 same_state same_state (fun k => eq_refl)
    (forged_activation 2) [x00] 5 9 0 0 4 2 0 idle waiting_head eq_refl eq_refl
    (forged_rejected tail_cfg 2 eq_refl eq_refl) waiting_head_waits) as (k & env & H1' & H2' & _).
  exists k, env. split; [exact H1'|exact H2'].
Defined.

(** "z" is in nobody's shard map. *)
Lemma unknown_node_may_embed_witness :
  exists e, build_entry "z" (mkOp OP_EMBED 0 0) [x2a] [] f0 = Ok e /\ check_chain mid_cfg [e] [x2a] idle = Ok tt.
Proof.
  destruct (build_entry_ok f0 "z" (mkOp OP_EMBED 0 0) [x2a] []) as (e & He & _); [done|done|].
  exists e. split; [exact He|]. exact (unknown_node_may_embed mid_cfg f0 "z" [x2a] e idle eq_refl He).
Defined.

(** ** Experts *)

Lemma byte_switch_slot attrs (slot : nat) row x :
  mapR (take_one slot) attrs = Ok row -> byte_switch attrs (Z.of_nat slot) x = byte_expert row x.
Proof. intros Hr. unfold byte_switch. by rewrite Nat2Z.id, Hr. Qed.

Lemma stack_sendable parts (stacked : Byte.byte) : nb_stack parts = Ok stacked ->
  exists d, descriptor stacked = Ok d /\ tensor_ok d = true.
Proof. intros _. by eexists. Qed.

(** Experts 2 and 0 of layer 1 are served, expert 1 is not. *)
Definition want (ids : list Z) : ExpertMsg := mkExpert 1 "r" 1 ids (mkTensor [1] 6 0 1) [].

Lemma expert_request_answered_witness :
  (exists reply, answers no_text demo_tables (fun _ x => x) byte_expert (want [0; 2]) x05 reply) /\
  exists reply, n_net (node_step (head_cfg false) all_well no_text f0 same_state (Message 5 (Some (PExpertRequest (want [0; 1]))) [x05]) idle)
    = wrote (Inbound 5) reply.1 reply.2 (mkNet None 0 0 []) /\
    exists missing, reply = error_reply no_text "r" ERR_WRONG_SHARD (DNotHosted missing 1) /\
      forall e, e ∈ missing <-> e ∈ [0; 1] /\ ~ e ∈ [2; 0].
Proof.
  pose proof (fun ids (H1' : expert_ok (want ids) = true) (H2' : ids <> []) =>
    expert_request_answered (head_cfg false) all_well no_text f0 same_state demo_self demo_tables byte_switch (fun _ x => x)
      byte_expert byte_switch_slot (fun _ _ _ _ => eq_refl) (fun k => eq_refl) stack_sendable (want ids) [x05] x05 5 idle
      demo_own_ok H1' H2' (or_introl eq_refl) eq_refl eq_refl) as Hw.
  split.
  - destruct (Hw [0; 2] eq_refl ltac:(done)) as (reply & _ & Ha & _). exists reply. apply Ha. intros e He. change (e ∈ [2; 0]).
    set_solver.
  - destruct (Hw [0; 1] eq_refl ltac:(done)) as (reply & Hn & _ & Hm & _). exists reply. split; [exact Hn|].
    apply (Hm 1); [set_solver|]. change (~ 1 ∈ [2; 0]). set_solver by lia.
Defined.

(** ** A pipeline with provenance *)

Lemma good_demo sid a b next : (sid, a, b) ∈ [("a", 0, 1); ("b", 1, 2); ("c", 2, 3)] -> good_shard demo_map 3 (cfg_of sid a b true next).
Proof.
  intros Hin. repeat (apply elem_of_cons in Hin as [[= -> -> ->]|Hin]; [split; try done; cbn; intros l Hl; inversion Hl|]). inversion Hin.
Qed.

Lemma honest_pipeline_serves_witness :
  exists tok, relayed all_well no_text f0 [(head_cfg true, idle); (mid_cfg, idle); (tail_cfg, idle)] (ask, [])
    (token_reply "r" tok 0 false).
Proof.
  apply (honest_pipeline_serves (H2 := byte_backend) (H := byte_model) all_well no_text f0 demo_map 3 1 eq_refl (fun i _ => ex_intro _ true (ex_intro _ 0
      (conj eq_refl (conj eq_refl (conj (Z.le_refl 0) eq_refl))))) (conj (Z.le_refl 0) (Z.le_refl 0)) eq_refl (fun k => eq_refl) byte_sendable of_byte_u32
      (mkBegin 1 "r" "r" [5] true 0 2) [] (head_cfg true) idle [(mid_cfg, idle)] tail_cfg idle); try reflexivity.
  - split; [apply good_demo; left|reflexivity].
  - constructor; [|constructor]. split; [split; [apply good_demo; right; left|reflexivity]|reflexivity].
  - split; [apply good_demo; right; right; left|reflexivity].
  - by repeat split.
Defined.

(** ** From construction on *)

Definition demo_env : environ := [("ENABLE_PARTIAL_LOAD", "1")].
Definition own_shard : ShardSpec := mkShard "a" (mkAddress "h" 7000) 0 2 [(1, [2; 0])].
Definition own_map_of : ShardMap := mkShardMap [("a", own_shard); ("b", shard_of "b" 2 3)] "m".
Definition load_demo (_ : string) : list (list (Attr Z)) := full_layers demo_tables.

Definition demo_float (_ : string) : result float := Ok (of_int 10).
Definition bound (_ : Z) : result unit := Ok tt.
Definition boot : result (NodeConfig * NodeState Byte.byte (list unit) Z script) :=
  init_node demo_float load_demo bound demo_env own_shard own_map_of None 3 [] 0.

Lemma own_rows : Forall (ids_in_range demo_tables) (ss_moe own_shard).
Proof. constructor; [|constructor]. apply demo_in_range; [lia|lia|set_solver]. Qed.

Lemma demo_partial : partial_node demo_tables own_shard load_demo demo_env own_map_of (eq demo_pull).
Proof.
  split; [reflexivity|reflexivity|apply demo_tables_ok|apply NoDup_singleton|apply own_rows|].
  intros pull <-. exact demo_pull_genuine.
Qed.

