(* ===== verification/Reference.v ===== *)
(** * reference.py: the model in one process

    [ReferenceModel] runs all the layers on one cache; what the shards compute
    together is compared with it.  It calls the same functions of mlx_engine.py
    as a shard does ([Engine]), on the whole range of layers. *)
From S2P Require Import Prelude PyDict PyFloat PyList Wire Provenance Experts Effects Migration Engine NodeHandlers NodeProvenance Layers.
Open Scope Z_scope.

Section reference.
Context {T M Slot C : Type} `{TextModel T M Slot} `{NodeBackend T (list Slot) C}.
Context (num_layers : Z) (now : float).
Abbreviation Cache := (list Slot).

(** [run_layers(lm, h, a, b, cache, global_mask, sliding_mask)] *)
Definition plain_layers (a b : Z) (h : T) (masks : M * M) : eff Cache T :=
  '(h, _) ← Engine.run_layers tensor_to_bytes now [] None "" a b h masks None; mret h.

(** One pass over all the layers, from the tokens to the state after the last. *)
Definition forward (tokens : list Z) : eff Cache T :=
  let h := nb_embed tokens in
  masks ← ((fun cache => (make_masks h cache, cache)) : eff Cache (M * M));
  plain_layers 0 num_layers h masks.

Definition next_token (h : T) : Z := nb_argmax_last (nb_finalize h).

(** [for _ in range(max_new_tokens - 1)] *)
Fixpoint decode_loop (n : nat) (token : Z) : eff Cache (list Z) :=
  match n with
  | O => mret []
  | S n =>
      h ← forward [token];
      let token := next_token h in
      generated ← decode_loop n token;
      mret (token :: generated)
  end.

Definition generate_greedy (prompt_tokens : list Z) (max_new_tokens : Z) : result (list Z) :=
  ((h ← forward prompt_tokens;
   let token := next_token h in
   generated ← decode_loop (Z.to_nat (max_new_tokens - 1)) token;
   mret (token :: generated)) nb_make_cache).1.

(** The loop of [prefill_trace]: the input of each layer, and the last output. *)
Fixpoint trace_layers (layers : list Z) (h : T) (masks : M * M) : eff Cache (list T * T) :=
  match layers with
  | [] => mret ([], h)
  | i :: layers =>
      h' ← plain_layers i (i + 1) h masks;
      '(inputs, out) ← trace_layers layers h' masks;
      mret (h :: inputs, out)
  end.

Record PrefillTrace : Type := mkTrace {
  prompt_token_ids : list Z;
  layer_inputs : list T;
  final_hidden : T;
  logits : T;
}.

(** [norm] is [lm.text_model.norm]. *)
Definition prefill_trace (norm : T -> T) (prompt_tokens : list Z) : result PrefillTrace :=
  ((let h := nb_embed prompt_tokens in
    masks ← ((fun cache => (make_masks h cache, cache)) : eff Cache (M * M));
    '(inputs, h) ← trace_layers (range 0 num_layers) h masks;
    mret (mkTrace prompt_tokens inputs (norm h) (nb_finalize h))) nb_make_cache).1.

End reference.

(** ** The steps of a generation *)

Section steps.
Context {T M Slot C : Type} `{TextModel T M Slot} `{NodeBackend T (list Slot) C} (total : Z) (nslots : nat)
  `{!ModelLaws total nslots} (now : float).
Hypothesis total_pos : 0 <= total.
Abbreviation Cache := (list Slot).
Implicit Types (cache : Cache) (k : nat) (prompt : list Z).

Definition layers_of_step (tokens : list Z) cache (a : Z) : T * Cache :=
  fold_layers (masks_of (nb_embed tokens) cache) (range 0 a) (nb_embed tokens, cache).

(** The tokens that go into step [k], and the cache before it. *)
Fixpoint step_state prompt k : list Z * Cache :=
  match k with
  | O => (prompt, nb_make_cache)
  | S k => let st := layers_of_step (step_state prompt k).1 (step_state prompt k).2 total in ([next_token st.1], st.2)
  end.

(** State and cache of step [k] before layer [a]. *)
Definition boundary prompt k (a : Z) : T * Cache :=
  layers_of_step (step_state prompt k).1 (step_state prompt k).2 a.

(** The token step [k] yields. *)
Definition step_token prompt k : Z := next_token (boundary prompt k total).1.

Lemma step_state_length prompt k : length (step_state prompt k).2 = nslots.
Proof. induction k as [|k IH]; [apply fresh_slots|]. cbn. unfold layers_of_step. by rewrite fold_length. Qed.

Lemma forward_ok tokens cache : length cache = nslots ->
  forward total now tokens cache = (Ok (layers_of_step tokens cache total).1, (layers_of_step tokens cache total).2).
Proof.
  intros Hc. unfold forward, plain_layers, Engine.run_layers. rewrite run_bind. rewrite (make_masks_ok total nslots).
  rewrite run_bind, (run_layer_list_fold total nslots); [done| |done].
  intros i Hi%range_in. split; [lia|]. intros Hn. inversion Hn.
Qed.

Lemma decode_loop_ok prompt n k :
  decode_loop total now n (step_token prompt k) (step_state prompt (S k)).2 =
  (Ok (step_token prompt <$> seq (S k) n), (step_state prompt (S k + n)).2).
Proof.
  revert k. induction n as [|n IH]; intros k; [by rewrite Nat.add_0_r|]. cbn [decode_loop seq fmap list_fmap].
  rewrite (run_ok _ _ _ _ _ (forward_ok [step_token prompt k] _ (step_state_length prompt (S k)))). cbv beta.
  rewrite run_bind. change (layers_of_step [step_token prompt k] (step_state prompt (S k)).2 total) with (boundary prompt (S k) total).
  change (boundary prompt (S k) total).2 with (step_state prompt (S (S k))).2.
  change (next_token (boundary prompt (S k) total).1) with (step_token prompt (S k)). rewrite IH.
  by replace (S k + S n)%nat with (S (S k) + n)%nat by lia.
Qed.

(** The reference returns the tokens of its steps. *)
Lemma generate_greedy_ok prompt max :
  generate_greedy total now prompt max = Ok (step_token prompt <$> seq 0 (S (Z.to_nat (max - 1)))).
Proof.
  unfold generate_greedy. rewrite run_bind, forward_ok by apply fresh_slots.
  change (layers_of_step prompt nb_make_cache total) with (boundary prompt 0 total).
  change (next_token (boundary prompt 0 total).1) with (step_token prompt 0).
  change (boundary prompt 0 total).2 with (step_state prompt 1).2. by rewrite run_bind, decode_loop_ok.
Qed.

Lemma range_app a b c : a <= b <= c -> range a c = range a b ++ range b c.
Proof.
  intros Hab. assert (Hgen : forall n a, (Z.to_nat (b - a) = n)%nat -> a <= b -> range a c = range a b ++ range b c).
  { induction n as [|n IH]; intros a' Hn Hle.
    - replace a' with b by lia. by rewrite (range_empty b b) by lia.
    - rewrite (range_cons a' c), (range_cons a' b) by lia. cbn. f_equal. apply IH; lia. }
  apply (Hgen _ a eq_refl). lia.
Qed.

Lemma boundary_range prompt k a b : 0 <= a <= b ->
  boundary prompt k b = fold_layers (masks_of (nb_embed (step_state prompt k).1) (step_state prompt k).2) (range a b) (boundary prompt k a).
Proof. intros Hab. unfold boundary, layers_of_step. by rewrite (range_app 0 a b), fold_app. Qed.

Lemma boundary_positions prompt k a : positions (boundary prompt k a).1 = positions (nb_embed (step_state prompt k).1).
Proof. unfold boundary, layers_of_step. by rewrite (fold_positions total nslots). Qed.

Lemma later_positions prompt k : positions (nb_embed (step_state prompt (S k)).1) = 1.
Proof. cbn. apply (embed_one (total := total) (nslots := nslots)). Qed.

Lemma step_sliding prompt k : sliding_ok total nslots (step_state prompt k).2.
Proof. induction k as [|k IH]; [apply (fresh_sliding total nslots)|]. cbn. unfold layers_of_step. by apply (fold_sliding total nslots). Qed.

(** ** A shard's cache *)

(** It will do for layers [a .. b - 1] of step [k]. *)
Record serves prompt k (a b : Z) cache : Prop := {
  sv_agree : agree nslots a b cache (step_state prompt k).2;
  sv_sliding : sliding_ok total nslots cache;
  sv_fresh : k = O -> cache = nb_make_cache;
}.

Lemma fresh_serves prompt a b : serves prompt 0 a b nb_make_cache.
Proof. split; [apply agree_refl, fresh_slots|apply (fresh_sliding total nslots)|done]. Qed.

(** A shard takes a step from its first to its last boundary. *)
Lemma shard_step prompt k a b cache : 0 <= a <= b -> b <= total -> serves prompt k a b cache ->
  let st := fold_layers (masks_of (boundary prompt k a).1 cache) (range a b) ((boundary prompt k a).1, cache) in
  st.1 = (boundary prompt k b).1 /\ serves prompt (S k) a b st.2.
Proof.
  intros Hab Hb [Hag Hs Hf]. pose proof (step_state_length prompt k) as Hlen.
  assert (Hm : masks_of (boundary prompt k a).1 cache = masks_of (nb_embed (step_state prompt k).1) (step_state prompt k).2).
  { apply (masks_same total nslots); [apply boundary_positions|apply Hag|done|]. destruct k as [|k]; [left; by apply Hf|right].
    rewrite boundary_positions, later_positions. split; [done|]. split; [done|]. apply step_sliding. }
  rewrite Hm. cbv zeta. set (masks := masks_of _ _).
  assert (Hbefore : agree nslots a b cache (boundary prompt k a).2).
  { eapply agree_trans; [exact Hag|]. unfold boundary, layers_of_step. apply (fold_other total nslots) with (st := (nb_embed (step_state prompt k).1, _)); [lia|done| |done].
    intros i Hi%range_in. lia. }
  assert (Hin : forall i, i ∈ range a b -> a <= i < b) by (intros i Hi; by apply range_in in Hi).
  pose proof (fold_agree total nslots masks a b (range a b) (boundary prompt k a).1 cache (boundary prompt k a).2 ltac:(lia) Hb Hin Hbefore) as [Hst Hcache].
  rewrite <- surjective_pairing in Hst, Hcache. unfold masks in Hst, Hcache |- *. rewrite <- (boundary_range prompt k a b) in Hst, Hcache by lia.
  split; [exact Hst|]. split; [|by apply (fold_sliding total nslots)|done].
  eapply agree_trans; [exact Hcache|]. change (step_state prompt (S k)).2 with (boundary prompt k total).2.
  rewrite (boundary_range prompt k b total) by lia. apply (fold_other total nslots); [lia|done| |].
  - intros i Hi%range_in. lia.
  - unfold boundary, layers_of_step. by rewrite fold_length.
Qed.

(** The trace lists the boundaries of the first step. *)
Lemma prefill_trace_ok norm prompt : prefill_trace total now norm prompt =
  Ok (mkTrace prompt ((fun i => (boundary prompt 0 i).1) <$> range 0 total) (norm (boundary prompt 0 total).1) (nb_finalize (boundary prompt 0 total).1)).
Proof.
  unfold prefill_trace. rewrite run_bind, (make_masks_ok total nslots). set (masks := masks_of _ _).
  assert (Hgen : forall n a, (Z.to_nat (total - a) = n)%nat -> 0 <= a <= total ->
    trace_layers now (range a total) (boundary prompt 0 a).1 masks (boundary prompt 0 a).2 =
    (Ok ((fun i => (boundary prompt 0 i).1) <$> range a total, (boundary prompt 0 total).1), (boundary prompt 0 total).2)).
  { induction n as [|n IH]; intros a Hn Ha.
    - replace a with total by lia. by rewrite range_empty by lia.
    - rewrite range_cons by lia. cbn [trace_layers fmap list_fmap]. unfold plain_layers, Engine.run_layers.
      rewrite run_bind, run_bind. rewrite (run_layer_list_fold total nslots); [| |by unfold boundary, layers_of_step; rewrite fold_length; apply fresh_slots].
      2: { intros i Hi%range_in. split; [lia|]. intros Hx. inversion Hx. }
      rewrite <- (surjective_pairing (boundary prompt 0 a)).
      assert (fold_layers masks (range a (a + 1)) (boundary prompt 0 a) = boundary prompt 0 (a + 1)) as ->
        by (symmetry; apply boundary_range; lia).
      unfold mret at 1, eff_ret at 1. rewrite run_bind, IH by lia. done. }
  pose proof (Hgen _ 0 eq_refl ltac:(lia)) as Hg.
  change (boundary prompt 0 0) with (nb_embed prompt, nb_make_cache : Cache) in Hg at 1 2. cbn [fst snd] in Hg.
  by rewrite run_bind, Hg.
Qed.

End steps.
