(* ===== verification/Cluster.v ===== *)
(** * The shards together

    A cluster is the state of every shard and, for each, the messages under way
    to it ([cl_step]): a message is delivered, or a decode thread takes a token
    from its queue, and what the node writes to its outbound connection joins
    the queue of its downstream shard.  Below, what one shard does with each
    message of a generation. *)
From S2P Require Import Prelude PyDict PyFloat PyList PyRandom Records SwimState.
From S2P Require Import Wire Messages Ownership Runner ShardMap Trackers Provenance Experts Effects Migration MigrationTheorems.
From S2P Require Import Engine NodeState NodeHandlers Client NodeTheorems NodeProvenance Layers Reference.
Open Scope Z_scope.

Abbreviation Msg := (Envelope * bytes)%type.

(** Everything a node wrote to its downstream shard. *)
Definition outgoing (log : list NetEvent) : list Msg :=
  omap (fun ev => match ev with
                  | Sent (Outbound _) env raw => Some (env, raw)
                  | _ => None
                  end) log.

Record Cluster {T K C R : Type} : Type := mkCluster {
  cl_nodes : list (NodeState T K C R);
  cl_queues : list (list Msg);
}.
Arguments Cluster : clear implicits.
Arguments mkCluster {T K C R}.

Section cluster.
Context {T K C R : Type} `{StackLib C} `{RandomSource R} `{NodeBackend T K C}.
Context (io : nat -> bool) (render : Detail -> string) (now : float) (cfgs : list NodeConfig).
Context (layers : NodeConfig -> T -> chain_t -> eff K (T * chain_t)).
Abbreviation State := (NodeState T K C R).
Abbreviation Cluster := (Cluster T K C R).
Implicit Types (n : State) (cl : Cluster).

Definition sent_since n n' : list Msg :=
  drop (length (outgoing (net_log (n_net n)))) (outgoing (net_log (n_net n'))).

(** The position of the shard a node's outbound connection leads to. *)
Definition downstream_of (cfg : NodeConfig) : nat :=
  match list_find (fun c => me c = ss_shard_id (nc_downstream cfg)) cfgs with
  | Some (i, _) => i
  | None => length cfgs
  end.

(** Node [i] goes from [n] to [n']. *)
Definition moved (i : nat) (cfg : NodeConfig) n n' cl : Cluster :=
  mkCluster (<[i := n']> (cl_nodes cl)) (alter (fun q => q ++ sent_since n n') (downstream_of cfg) (cl_queues cl)).

Definition handled (cfg : NodeConfig) (ev : node_event) n : State := node_step cfg io render now (layers cfg) ev n.

Inductive cl_step : Cluster -> Cluster -> Prop :=
| step_deliver i conn cfg n msg queue cl :
    cfgs !! i = Some cfg -> cl_nodes cl !! i = Some n -> cl_queues cl !! i = Some (msg :: queue) ->
    cl_step cl (moved i cfg n (handled cfg (Message conn msg.1 msg.2) n)
                  (mkCluster (cl_nodes cl) (<[i := queue]> (cl_queues cl))))
| step_wake i thread rid ref st cfg n cl :
    cfgs !! i = Some cfg -> cl_nodes cl !! i = Some n ->
    rs_threads (n_req n) !! thread = Some (rid, ref) -> rs_store (n_req n) !! ref = Some st -> hs_queue st <> [] ->
    cl_step cl (moved i cfg n (handled cfg (Resume thread) n) cl).

(** A client sends [env] to shard [i] on its connection [c]. *)
Definition asked (i c : nat) (env : Envelope) cl : Cluster :=
  match cfgs !! i, cl_nodes cl !! i with
  | Some cfg, Some n => moved i cfg n (handled cfg (Message c env []) n) cl
  | _, _ => cl
  end.

(** What shard [i] wrote to the client's connection. *)
Definition client_log (i c : nat) cl : list Msg :=
  match cl_nodes cl !! i with
  | Some n => sent_to (Inbound c) (net_log (n_net n))
  | None => []
  end.

(** ** What a piece of code writes *)

(** Downstream, and to the client on connection [c]. *)
Record writes (c : nat) (t t' : Net) (ms rs : list Msg) : Prop := {
  wr_out : outgoing (net_log t') = outgoing (net_log t) ++ ms;
  wr_client : sent_to (Inbound c) (net_log t') = sent_to (Inbound c) (net_log t) ++ rs;
}.

Lemma writes_nothing c t : writes c t t [] [].
Proof. split; by rewrite app_nil_r. Qed.

Lemma writes_trans c t1 t2 t3 ms1 rs1 ms2 rs2 :
  writes c t1 t2 ms1 rs1 -> writes c t2 t3 ms2 rs2 -> writes c t1 t3 (ms1 ++ ms2) (rs1 ++ rs2).
Proof. intros [O1 C1] [O2 C2]. split; [by rewrite O2, O1, (assoc_L app)|by rewrite C2, C1, (assoc_L app)]. Qed.

Lemma writes_event c t t' ev : net_log t' = net_log t ++ [ev] -> writes c t t' (outgoing [ev]) (to_client c ev).
Proof. intros Hl. split; rewrite Hl; [unfold outgoing; by rewrite omap_app|by rewrite sent_to_app, sent_to_one]. Qed.

Hypothesis io_ok : forall k, io k = true.

Lemma write_out_writes c d env raw n :
  exists t', on_net (write_out io d env raw) n = (Ok tt, set_net t' n) /\ writes c (n_net n) t' [(env, raw)] [].
Proof.
  assert (exists k t1, ensure_out_stream io d (n_net n) = (Ok k, t1) /\ writes c (n_net n) t1 [] []) as (k & t1 & He & Hw).
  { unfold ensure_out_stream. destruct (net_out (n_net n)) as [k|]; [do 2 eexists; split; [done|apply writes_nothing]|].
    rewrite (run_ok _ _ _ _ _ (net_op_run io io_ok _)). run. do 2 eexists. split; [done|]. by apply (writes_event c _ _ (Connected (net_conns (n_net n)) (na_host (ss_address d)) (na_port (ss_address d)))). }
  eexists. split.
  - apply run_focus. unfold write_out. rewrite (run_ok _ _ _ _ _ He). unfold send.
    rewrite (run_ok _ _ _ _ _ (net_op_run io io_ok _)). reflexivity.
  - eapply (writes_trans c _ _ _ [] []); [exact Hw|]. by apply (writes_event c _ _ (Sent (Outbound k) env raw)).
Qed.

Lemma close_out_writes c n : exists t', close_out n = (Ok tt, set_net t' n) /\ writes c (n_net n) t' [] [].
Proof.
  eexists. split; [apply run_focus; reflexivity|]. destruct (net_out (n_net n)) as [k|]; [by apply (writes_event c _ _ (Closed (Outbound k)))|apply writes_nothing].
Qed.

Definition end_message rid : Msg := (Some (PEnd (mkEnd PROTOCOL_VERSION_NODE rid)), []).

Lemma broadcast_end_writes c cfg rid n : exists t',
  broadcast_end cfg io rid n = (Ok tt, set_req (set_kv (dict_pop rid (rs_kv (n_req n))) (n_req n)) (set_net t' n)) /\
  writes c (n_net n) t' [end_message rid] [].
Proof.
  destruct (write_out_writes c (nc_downstream cfg) (end_message rid).1 [] n) as (t' & Hw & Hs).
  exists t'. split; [|done]. unfold broadcast_end, quietly, suppress, handle_with. cbn [end_message fst] in Hw. by rewrite run_bind, Hw.
Qed.

Lemma sent_since_writes c n n' ms rs : writes c (n_net n) (n_net n') ms rs -> sent_since n n' = ms.
Proof. intros [Ho _]. unfold sent_since. rewrite Ho. apply drop_app_length. Qed.

(** ** The captures of a request, the tables *)

Definition captured rid (x : Z * T) (q : Requests T K) : Requests T K :=
  set_captures (dict_set rid (default [] (dict_get rid (rs_captures q)) ++ [x]) (rs_captures q)) q.

Lemma forward_writes c cfg rid h chain msg n : is_tail cfg = false ->
  activation_envelope cfg rid (ss_end (nc_shard cfg)) h chain = Ok msg ->
  exists t', forward_activation cfg io rid h chain n =
      (Ok tt, set_net t' (set_req (captured rid (ss_end (nc_shard cfg), h) (n_req n)) n)) /\
    writes c (n_net n) t' [msg] [].
Proof.
  intros Ht He. destruct msg as [env raw]. unfold forward_activation. erewrite run_ok by (by rewrite Ht). run.
  erewrite run_ok by (by rewrite He). cbv beta iota.
  match goal with |- context [on_net _ ?s] => destruct (write_out_writes c (nc_downstream cfg) env raw s) as (t' & Hw & Hs) end.
  exists t'. split; [exact Hw|exact Hs].
Qed.

Lemma run_my_layers_result cfg rid cache h chain h' chain' cache' n old :
  layers cfg h chain cache = (Ok (h', chain'), cache') -> dict_get rid (rs_kv (n_req n)) = Some old ->
  run_my_layers (layers cfg) rid cache h chain n =
  (Ok (h', chain'), set_req (set_kv (dict_set rid cache' (rs_kv (n_req n))) (n_req n)) n).
Proof. intros Hl Hk. unfold run_my_layers. by rewrite Hl, Hk. Qed.

(** Nothing of a request is left. *)
Definition forgotten rid n : Prop :=
  dict_get rid (rs_kv (n_req n)) = None /\ dict_get rid (rs_heads (n_req n)) = None /\ dict_get rid (rs_pending (n_req n)) = None.

Record tables_wf n : Prop := {
  tw_kv : dict_wf (rs_kv (n_req n));
  tw_heads : dict_wf (rs_heads (n_req n));
  tw_pending : dict_wf (rs_pending (n_req n));
}.

End cluster.
