(* ===== verification/ShardSteps.v ===== *)
(** * What each shard does in a generation

    The shards of a ring run consecutive ranges of layers.  For step [k] of the
    reference ([Reference.boundary]), each message is handled with the effect
    the step needs: the state goes on from the shard's first boundary to its
    last, the cache from step [k] to [k + 1]. *)
From S2P Require Import Prelude PyDict PyFloat PyList PyRandom Records SwimState.
From S2P Require Import Wire Messages Ownership Runner ShardMap Trackers Provenance Experts Effects Migration MigrationTheorems.
From S2P Require Import Engine NodeState NodeHandlers Client NodeTheorems NodeProvenance Layers Reference Cluster.
Open Scope Z_scope.

Section shards.
Context {T M Slot C R : Type} `{TextModel T M Slot} `{StackLib C} `{RandomSource R} `{NodeBackend T (list Slot) C}.
Context (total : Z) (nslots : nat) `{!ModelLaws total nslots}.
Context (io : nat -> bool) (render : Detail -> string) (now : float) (m : ShardMap) (prov : bool).
Context (orch : NodeConfig -> option (Z -> T -> M * M -> chain_t -> eff (list Slot) (T * chain_t))).
Abbreviation State := (NodeState T (list Slot) C R).
Implicit Types (n : State) (cfg : NodeConfig) (k : nat) (prompt : list Z).

(** [Node._run_my_layers] *)
Definition shard_layers cfg : T -> chain_t -> eff (list Slot) (T * chain_t) :=
  Engine.run_my_layers tensor_to_bytes now (nc_split_layers cfg) (orch cfg) (me cfg) (ss_start (nc_shard cfg)) (ss_end (nc_shard cfg)).

(** A shard of the ring. With provenance, none of its layers is split. *)
Record ring_shard cfg : Prop := {
  ir_map : nc_map cfg = m;
  ir_total : nc_total_layers cfg = total;
  ir_prov : nc_provenance cfg = prov;
  ir_lookup : lookup_shard (me cfg) m = Ok (nc_shard cfg);
  ir_range : 0 <= ss_start (nc_shard cfg) /\ ss_start (nc_shard cfg) < ss_end (nc_shard cfg) <= total;
  ir_unsplit : prov = true -> nc_split_layers cfg = [] /\
    forall l, l ∈ dict_keys (ss_moe (nc_shard cfg)) -> ~ ss_start (nc_shard cfg) <= l < ss_end (nc_shard cfg);
}.

(** Without provenance, its orchestrator computes the layers it is given. *)
Record in_ring cfg : Prop := {
  ir_shard :> ring_shard cfg;
  ir_split : prov = false -> forall i, ss_start (nc_shard cfg) <= i < ss_end (nc_shard cfg) ->
    split_exact nslots (nc_split_layers cfg) (orch cfg) i;
}.

Hypothesis io_ok : forall k, io k = true.
Hypothesis total_fits : total < 2 ^ 32.
Hypothesis states_sendable : forall h : T, sendable h.
Hypothesis tokens_fit : forall h : T, in_u32 (nb_argmax_last h) = true.

Abbreviation went l := (travelled (fun sid => Ok (shard_lookup m sid)) total (split_layers_for_shard m) (fun _ _ => []) l).
Abbreviation state_at prompt k l := (boundary total prompt k l).1.
Abbreviation range_start cfg := (ss_start (nc_shard cfg)).
Abbreviation range_end cfg := (ss_end (nc_shard cfg)).

(** The chain beside a state that went through layers [0 .. l - 1]. *)
Definition fits (l : Z) (h : T) (chain : chain_t) : Prop :=
  if prov then exists c, chain = Some c /\ went l (tensor_to_bytes h) c else chain = None.

(** ** The layers *)

Lemma ring_good cfg : prov = true -> in_ring cfg -> good_shard m total cfg.
Proof.
  intros Hp [[Hm Ht Hpr Hl Hr Hu] _]. destruct (Hu Hp) as [Hs Hmoe]. split; [done|done|by rewrite Hpr|done|lia|done|done].
Qed.

Lemma unsplit_orchestrator o o' node layers h masks chain cache :
  run_layer_list tensor_to_bytes now [] o node layers h masks chain cache =
  run_layer_list tensor_to_bytes now [] o' node layers h masks chain cache.
Proof.
  revert h chain cache. induction layers as [|i layers IH]; intros h chain cache; [done|]. cbn [run_layer_list].
  unfold run_layer at 1 2. rewrite !decide_False by (intros Hn; inversion Hn). rewrite !run_bind.
  destruct (run_layer_atomic i h masks cache) as [[h1|e] c1]; [|done].
  destruct (record_layer _ _ _ _ _ _) as [ch|e]; [|done]. apply (IH h1 ch c1).
Qed.

Lemma shard_layers_ok cfg prompt k chain cache :
  in_ring cfg -> serves total nslots prompt k (range_start cfg) (range_end cfg) cache ->
  fits (range_start cfg) (state_at prompt k (range_start cfg)) chain ->
  exists chain' cache', shard_layers cfg (state_at prompt k (range_start cfg)) chain cache =
      (Ok (state_at prompt k (range_end cfg), chain'), cache') /\
    serves total nslots prompt (S k) (range_start cfg) (range_end cfg) cache' /\
    fits (range_end cfg) (state_at prompt k (range_end cfg)) chain'.
Proof.
  intros Hin Hsv Hfit. pose proof (ir_range _ Hin) as Hr. pose proof (ag_length _ _ _ _ _ (sv_agree _ _ _ _ _ _ _ Hsv)) as Hlen.
  destruct (shard_step total nslots prompt k (range_start cfg) (range_end cfg) cache ltac:(lia) ltac:(lia) Hsv) as [Hst Hsv'].
  set (h := state_at prompt k (range_start cfg)) in *. set (st := fold_layers _ _ _) in *.
  assert (Hlay : forall i, i ∈ range (range_start cfg) (range_end cfg) -> 0 <= i < total) by (intros i Hi%range_in; lia).
  unfold fits in Hfit |- *. destruct prov eqn:Ep.
  - destruct Hfit as (c & -> & Hw). pose proof (ring_good cfg Ep Hin) as Hg.
    destruct (layers_of_travelled now m total nslots (fresh_slots (total := total)) layer_exists (first_exist (nslots := nslots)) total_fits cfg h c cache Hg Hlen Hw)
      as (h' & chain' & cache' & Hrun & Hw').
    assert (Heq : (h', cache') = st).
    { unfold layers_of, Engine.run_my_layers in Hrun. rewrite run_bind, (make_masks_ok total nslots) in Hrun.
      apply (run_layer_list_value total nslots) in Hrun; [done|apply (gs_unsplit _ _ _ Hg)|done|done]. }
    assert (h' = st.1 /\ cache' = st.2) as [-> ->] by (by rewrite <- Heq). exists (Some chain'), st.2. rewrite <- Hst. split; [|split; [done|by exists chain']].
    rewrite <- Hrun. unfold shard_layers, layers_of, Engine.run_my_layers. rewrite !run_bind. destruct (make_masks h cache); [|done].
    rewrite (gs_unsplit _ _ _ Hg). apply unsplit_orchestrator.
  - subst chain. exists None, st.2. rewrite <- Hst. split; [|done]. unfold shard_layers, Engine.run_my_layers.
    rewrite run_bind, (make_masks_ok total nslots). apply (run_layer_list_fold total nslots); [|done].
    intros i Hi. split; [by apply Hlay|]. apply (ir_split _ Hin Ep). by apply range_in.
Qed.

(** ** Messages *)

(** The activation of step [k] for the shard that starts at layer [l]. *)
Definition carries_step prompt k rid (l : Z) (msg : Msg) : Prop :=
  exists act, msg = (Some (PActivation act), tensor_to_bytes (state_at prompt k l)) /\
    ac_request_id act = rid /\ ac_next_layer act = l /\
    bytes_to_tensor (tensor_to_bytes (state_at prompt k l)) (td_shape (ac_tensor act)) (td_dtype (ac_tensor act)) = Ok (state_at prompt k l) /\
    (if prov then exists c, mapR entry_from_pb (ac_provenance act) = Ok c /\ went l (tensor_to_bytes (state_at prompt k l)) c else True).

Lemma envelope_carries cfg prompt k rid chain : in_ring cfg ->
  fits (range_end cfg) (state_at prompt k (range_end cfg)) chain ->
  exists msg, activation_envelope cfg rid (range_end cfg) (state_at prompt k (range_end cfg)) chain = Ok msg /\
    carries_step prompt k rid (range_end cfg) msg.
Proof.
  intros Hin Hfit. pose proof (ir_range _ Hin). set (h := state_at prompt k (range_end cfg)) in *.
  destruct (states_sendable h) as (d & Hd & Hok & Hb). unfold activation_envelope. rewrite Hd, (ir_prov _ Hin). cbn [mbind result_bind].
  assert (exists pbs, mapR entry_to_pb (if prov then default [] chain else []) = Ok pbs /\ forallb prov_pb_ok pbs = true /\
    (if prov then exists c, mapR entry_from_pb pbs = Ok c /\ went (range_end cfg) (tensor_to_bytes h) c else True)) as (pbs & H1' & H2' & H3').
  { unfold fits in Hfit. destruct prov; [|by exists []]. destruct Hfit as (c & -> & Hw).
    destruct (travelled_wire _ _ _ _ _ _ _ Hw) as (pbs & W1 & W2 & W3). exists pbs. split; [done|]. split; [done|]. by exists c. }
  rewrite H1'. cbn [mbind result_bind]. rewrite built_ok.
  - eexists. split; [done|]. eexists. by repeat split.
  - unfold payload_ok. cbn [ac_version ac_next_layer ac_tensor ac_provenance]. rewrite Hok, H2'. unfold in_u32, PROTOCOL_VERSION_NODE. lia.
Qed.

(** ** A shard between steps *)

(** It has done [k] steps of the request. *)
Record node_at prompt k cfg rid n : Prop := {
  na_serves : serves total nslots prompt k (range_start cfg) (range_end cfg) (default nb_make_cache (dict_get rid (rs_kv (n_req n))));
  na_wf : tables_wf n;
  na_captures : is_tail cfg = false ->
    default [] (dict_get rid (rs_captures (n_req n))) = (fun i => (range_end cfg, state_at prompt i (range_end cfg))) <$> seq 0 k;
}.

(** Threads, head states and their table are as before. *)
Record same_heads n n' : Prop := {
  sh_threads : rs_threads (n_req n') = rs_threads (n_req n);
  sh_heads : rs_heads (n_req n') = rs_heads (n_req n);
  sh_store : rs_store (n_req n') = rs_store (n_req n);
}.

Abbreviation on_message := (handled io render now shard_layers).

Lemma captures_next prompt k cfg rid n x : node_at prompt k cfg rid n -> is_tail cfg = false -> x = state_at prompt k (range_end cfg) ->
  default [] (dict_get rid (rs_captures (n_req n))) ++ [(range_end cfg, x)] =
  (fun i => (range_end cfg, state_at prompt i (range_end cfg))) <$> seq 0 (S k).
Proof. intros Hn Ht ->. by rewrite (na_captures _ _ _ _ _ Hn Ht), seq_S, fmap_app. Qed.

(** The state an activation brings has been run through the layers. *)
Lemma activation_runs cfg conn prompt k rid msg n :
  in_ring cfg -> carries_step prompt k rid (range_start cfg) msg -> node_at prompt k cfg rid n ->
  exists chain cache n1, fits (range_end cfg) (state_at prompt k (range_end cfg)) chain /\
    serves total nslots prompt (S k) (range_start cfg) (range_end cfg) cache /\
    n1 = set_req (set_kv (dict_set rid cache (dict_setdefault rid nb_make_cache (rs_kv (n_req n))).2) (n_req n)) n /\
    dispatch cfg io render now (shard_layers cfg) msg.1 msg.2 (Inbound conn) n =
    (if is_tail cfg then finalize_request cfg io now rid (state_at prompt k (range_end cfg)) chain
     else forward_activation cfg io rid (state_at prompt k (range_end cfg)) chain) n1.
Proof.
  intros Hin (act & -> & Hrid & Hl & Hb & Hc) Hn. cbn [fst snd dispatch]. unfold handle_activation.
  rewrite (proj2 (Z.eqb_eq _ _) Hl), (ir_prov _ Hin). cbn [negb]. set (h := state_at prompt k (range_start cfg)) in *.
  assert (Hfit : forall c, (prov = true -> mapR entry_from_pb (ac_provenance act) = Ok c /\ went (range_start cfg) (tensor_to_bytes h) c) ->
    fits (range_start cfg) h (if prov then Some c else None)).
  { intros c Hcc. unfold fits. destruct prov; [|done]. exists c. by split; [|apply Hcc]. }
  assert (Hproc : forall chain, fits (range_start cfg) h chain ->
    exists chain' cache n1, fits (range_end cfg) (state_at prompt k (range_end cfg)) chain' /\
    serves total nslots prompt (S k) (range_start cfg) (range_end cfg) cache /\
    n1 = set_req (set_kv (dict_set rid cache (dict_setdefault rid nb_make_cache (rs_kv (n_req n))).2) (n_req n)) n /\
    process_activation cfg io render now (shard_layers cfg) act (tensor_to_bytes h) (Inbound conn) chain n =
    (if is_tail cfg then finalize_request cfg io now rid (state_at prompt k (range_end cfg)) chain'
     else forward_activation cfg io rid (state_at prompt k (range_end cfg)) chain') n1).
  { intros chain Hf. unfold process_activation. run. rewrite Hrid.
    assert (exists cache kv, dict_setdefault rid nb_make_cache (rs_kv (n_req n)) = (cache, kv) /\ dict_get rid kv = Some cache /\
      serves total nslots prompt k (range_start cfg) (range_end cfg) cache) as (cache & kv & Hsd & Hget & Hsv).
    { pose proof (na_serves _ _ _ _ _ Hn) as Hs. unfold dict_setdefault. destruct (dict_get rid (rs_kv (n_req n))) as [cache|] eqn:E.
      - by exists cache, (rs_kv (n_req n)).
      - exists nb_make_cache. eexists. split; [done|]. split; [apply dict_get_set_eq|done]. }
    rewrite Hsd. run. erewrite run_ok by (by rewrite Hb). cbv beta.
    destruct (shard_layers_ok cfg prompt k chain cache Hin Hsv Hf) as (chain' & cache' & Hrun & Hsv' & Hf').
    match goal with |- context [@mbind (eff _) _ _ _ _ (handle_with _ _) ?s] => set (n0 := s) end.
    pose proof (run_my_layers_result shard_layers cfg rid cache h chain _ chain' cache' n0 cache Hrun Hget) as Hml.
    erewrite run_ok by (unfold handle_with; rewrite run_bind, Hml; reflexivity). cbv beta iota.
    exists chain', cache'. eexists. split; [done|]. split; [done|]. split; [|reflexivity]. cbn [snd]. done. }
  destruct prov eqn:Ep.
  - destruct Hc as (c & Hpb & Hw). erewrite run_ok by (by rewrite Hpb). cbv beta. run.
    assert (Hv : match ac_provenance act with [] => Ok tt | _ => check_chain cfg c (tensor_to_bytes h) n end = Ok tt).
    { destruct (ac_provenance act); [done|]. unfold check_chain. rewrite (ir_map _ Hin), (ir_total _ Hin). by eapply travelled_valid, went_any. }
    rewrite Hv. apply Hproc. apply (Hfit c). done.
  - apply Hproc. by apply (Hfit []).
Qed.

Lemma setdefault_wf {V} rid (v v' : V) (d : dict string V) : dict_wf d -> dict_wf (dict_set rid v (dict_setdefault rid v' d).2).
Proof. intros Hd. apply dict_set_wf. unfold dict_setdefault. destruct (dict_get rid d); [done|]. by apply dict_set_wf. Qed.

(** The node after its layers ran, with [q] for the rest of its tables. *)
Lemma node_after prompt k cfg rid n n' cache :
  rs_kv (n_req n') = dict_set rid cache (dict_setdefault rid nb_make_cache (rs_kv (n_req n))).2 ->
  serves total nslots prompt (S k) (range_start cfg) (range_end cfg) cache -> node_at prompt k cfg rid n ->
  rs_heads (n_req n') = rs_heads (n_req n) -> dict_wf (rs_pending (n_req n')) ->
  (is_tail cfg = false -> dict_get rid (rs_captures (n_req n')) =
     Some (default [] (dict_get rid (rs_captures (n_req n))) ++ [(range_end cfg, state_at prompt k (range_end cfg))])) ->
  node_at prompt (S k) cfg rid n'.
Proof.
  intros Hkv Hsv Hn Hh Hp Hc. pose proof (na_wf _ _ _ _ _ Hn) as [Wk Wh Wp]. split.
  - by rewrite Hkv, dict_get_set_eq.
  - split; [rewrite Hkv; by apply setdefault_wf|by rewrite Hh|done].
  - intros Ht. rewrite (Hc Ht). cbn [default from_option id]. by apply (captures_next prompt k cfg rid n).
Qed.

(** A shard in the middle passes the state on. *)
Lemma middle_step cfg conn c prompt k rid msg n :
  in_ring cfg -> is_tail cfg = false -> carries_step prompt k rid (range_start cfg) msg -> node_at prompt k cfg rid n ->
  let n' := on_message cfg (Message conn msg.1 msg.2) n in
  exists out, writes c (n_net n) (n_net n') [out] [] /\ carries_step prompt k rid (range_end cfg) out /\
    node_at prompt (S k) cfg rid n' /\ same_heads n n'.
Proof.
  intros Hin Htail Hc Hn. destruct (activation_runs cfg conn prompt k rid msg n Hin Hc Hn) as (chain & cache & n1 & Hf & Hsv & -> & Hd).
  rewrite Htail in Hd. destruct (envelope_carries cfg prompt k rid chain Hin Hf) as (out & He & Ho).
  match type of Hd with _ = forward_activation _ _ _ _ _ ?s => destruct (forward_writes io io_ok c cfg rid _ chain out s Htail He) as (t' & Hfw & Hw) end.
  unfold handled, node_step. rewrite Hd, Hfw. exists out. split; [exact Hw|]. split; [done|]. split; [|done].
  apply (node_after prompt k cfg rid n _ cache); [done|done|done|done|apply Hn|]. intros _. cbn. apply dict_get_set_eq.
Qed.

(** The tail answers with the token of the step. *)
Lemma tail_step cfg conn c prompt k rid msg n :
  in_ring cfg -> is_tail cfg = true -> carries_step prompt k rid (range_start cfg) msg -> node_at prompt k cfg rid n ->
  let n' := on_message cfg (Message conn msg.1 msg.2) n in
  writes c (n_net n) (n_net n') [token_reply rid (step_token total prompt k) 0 false] [] /\
    node_at prompt (S k) cfg rid n' /\ same_heads n n'.
Proof.
  intros Hin Htail Hc Hn. destruct (activation_runs cfg conn prompt k rid msg n Hin Hc Hn) as (chain & cache & n1 & Hf & Hsv & -> & Hd).
  assert (He : range_end cfg = total) by (unfold is_tail in Htail; apply Z.eqb_eq in Htail; by rewrite <- (ir_total _ Hin)).
  rewrite Htail, He in Hd. set (h := state_at prompt k total) in *. unfold finalize_request in Hd.
  assert (Hpend : exists q', (if nc_provenance cfg then
       e ← lift (build_entry (me cfg) (mkOp OP_FINALIZE 0 0) (tensor_to_bytes (nb_finalize h))
                  (match last (default [] chain) with Some e => [e_hash e] | None => [] end) now);
       on_req (modify (fun q => set_pending (dict_set rid e (rs_pending q)) q))
     else skip : eff State unit) (set_req (set_kv (dict_set rid cache (dict_setdefault rid nb_make_cache (rs_kv (n_req n))).2) (n_req n)) n)
     = (Ok tt, set_req q' n) /\ rs_kv q' = dict_set rid cache (dict_setdefault rid nb_make_cache (rs_kv (n_req n))).2 /\
       rs_heads q' = rs_heads (n_req n) /\ rs_threads q' = rs_threads (n_req n) /\ rs_store q' = rs_store (n_req n) /\ dict_wf (rs_pending q')).
  { pose proof (tw_pending _ (na_wf _ _ _ _ _ Hn)) as Hwp. destruct (nc_provenance cfg); [|by eexists].
    destruct (build_entry_ok now (me cfg) (mkOp OP_FINALIZE 0 0) (tensor_to_bytes (nb_finalize h))
      (match last (default [] chain) with Some e => [e_hash e] | None => [] end)) as (e & Hbe & _); [done|done|].
    erewrite run_ok by (by rewrite Hbe). cbv beta. eexists. split; [reflexivity|]. cbn. split; [done|]. split; [done|]. split; [done|]. split; [done|].
    by apply dict_set_wf. }
  destruct Hpend as (q' & Hq & Hkv & Hh & Hth & Hst & Hwp). rewrite (run_ok _ _ _ _ _ Hq) in Hd. cbv beta in Hd. unfold send_sampled_token in Hd.
  erewrite run_ok in Hd by (unfold lift; rewrite built_ok; [reflexivity|cbn [payload_ok sk_version sk_token_id sk_position]; by rewrite tokens_fit]).
  cbv beta in Hd.
  match type of Hd with context [on_net _ ?s] => destruct (write_out_writes io io_ok c (nc_downstream cfg)
    (token_reply rid (nb_argmax_last (nb_finalize h)) 0 false).1 [] s) as (t' & Hwr & Hw) end.
  cbn [token_reply fst snd] in Hwr. unfold handled, node_step. rewrite Hd, Hwr. split; [exact Hw|]. split; [|done].
  by apply (node_after prompt k cfg rid n _ cache); rewrite ?Htail.
Qed.

(** ** The end of a request *)

Lemma end_step cfg conn c rid n : tables_wf n ->
  let n' := on_message cfg (Message conn (end_message rid).1 (end_message rid).2) n in
  writes c (n_net n) (n_net n') (if is_tail cfg then [] else [end_message rid]) [] /\
  forgotten rid n' /\ rs_threads (n_req n') = rs_threads (n_req n) /\ rs_captures (n_req n') = rs_captures (n_req n) /\ tables_wf n'.
Proof.
  intros [Wk Wh Wp]. unfold handled, node_step, end_message. cbn [fst snd dispatch]. unfold handle_end. cbn [er_request_id]. run.
  set (n1 := set_req _ n).
  assert (Hone : exists n2, when (negb (is_tail cfg)) (quietly (broadcast_end cfg io rid)) n1 = (Ok tt, n2) /\
    writes c (n_net n) (n_net n2) (if is_tail cfg then [] else [end_message rid]) [] /\
    (n_req n2 = n_req n1 \/ n_req n2 = set_kv (dict_pop rid (rs_kv (n_req n1))) (n_req n1))).
  { destruct (is_tail cfg); cbn [negb when].
    - exists n1. split; [done|]. split; [apply writes_nothing|by left].
    - destruct (broadcast_end_writes io io_ok c cfg rid n1) as (t' & Hb & Hw). eexists. unfold quietly, suppress, handle_with. rewrite Hb.
      split; [done|]. split; [exact Hw|by right]. }
  destruct Hone as (n2 & H2' & Hw & Hq). rewrite (run_ok _ _ _ _ _ H2'). destruct (close_out_writes c n2) as (t' & Hcl & Hw').
  rewrite Hcl. cbn [snd set_net n_net n_req]. split.
  { pose proof (writes_trans c _ _ _ _ _ _ _ Hw Hw') as Hx. by rewrite !app_nil_r in Hx. }
  assert (Hpop : forall V (d : dict string V), dict_wf d -> dict_get rid (dict_pop rid d) = None) by (intros V d; apply dict_get_pop_eq).
  assert (tables_wf (set_net t' n2)).
  { split; change (n_req (set_net t' n2)) with (n_req n2); destruct Hq as [->| ->]; cbn -[dict_pop]; repeat apply dict_pop_wf; done. }
  unfold forgotten. change (n_req (set_net t' n2)) with (n_req n2).
  destruct Hq as [->| ->]; cbn -[dict_pop dict_get]; by rewrite !Hpop by (try apply dict_pop_wf; done).
Qed.

(** ** The head *)

(** The one decode thread: it has sent [gen] of [max] tokens to the client on
    connection [c], and [queue] waits. *)
Record serving (c : nat) (max gen : Z) (queue : list Z) rid (ref : nat) n : Prop := {
  se_threads : rs_threads (n_req n) = [(rid, ref)];
  se_heads : dict_get rid (rs_heads (n_req n)) = Some ref;
  se_store : rs_store (n_req n) !! ref = Some (mkHead (Inbound c) max gen queue);
  se_kv : is_Some (dict_get rid (rs_kv (n_req n)));
  se_pending : dict_get rid (rs_pending (n_req n)) = None;
}.

Lemma embed_fits cfg (h : T) : in_ring cfg -> range_start cfg = 0 ->
  exists chain, embed_chain cfg now h = Ok chain /\ fits 0 h chain.
Proof.
  intros Hin Hz. unfold embed_chain, fits. rewrite (ir_prov _ Hin). destruct prov; [|by eexists].
  destruct (build_entry_ok now (me cfg) (mkOp OP_EMBED 0 0) (tensor_to_bytes h) []) as (e & He & Ho & Hid & Hsid & Hh); [done|done|].
  rewrite He. eexists. split; [done|]. exists [e]. split; [done|]. pose proof (ir_range _ Hin). split; [lia|by cbn; rewrite Ho| | |].
  - constructor; [|done]. unfold authorized. rewrite Ho, Hid. unfold shard_lookup. rewrite (ir_lookup _ Hin). by do 2 eexists.
  - constructor; [by rewrite Hsid|done].
  - intros output [= <-]. by exists e, (mkOp OP_EMBED 0 0).
Qed.

(** The head's part of step [k], from its embedding to the activation it sends. *)
Lemma head_part cfg c prompt k rid cache n :
  in_ring cfg -> is_tail cfg = false -> range_start cfg = 0 ->
  serves total nslots prompt k 0 (range_end cfg) cache -> is_Some (dict_get rid (rs_kv (n_req n))) ->
  let h := nb_embed (step_state total prompt k).1 in
  exists chain h' chain' cache' msg t', embed_chain cfg now h = Ok chain /\
    run_my_layers (shard_layers cfg) rid cache h chain n =
      (Ok (h', chain'), set_req (set_kv (dict_set rid cache' (rs_kv (n_req n))) (n_req n)) n) /\
    serves total nslots prompt (S k) 0 (range_end cfg) cache' /\ h' = state_at prompt k (range_end cfg) /\
    forward_activation cfg io rid h' chain' (set_req (set_kv (dict_set rid cache' (rs_kv (n_req n))) (n_req n)) n) =
      (Ok tt, set_net t' (set_req (captured rid (range_end cfg, h') (set_kv (dict_set rid cache' (rs_kv (n_req n))) (n_req n))) n)) /\
    carries_step prompt k rid (range_end cfg) msg /\ writes c (n_net n) t' [msg] [].
Proof.
  intros Hin Ht Hz Hsv [old Hold]. destruct (embed_fits cfg (nb_embed (step_state total prompt k).1) Hin Hz) as (chain & He & Hf).
  rewrite <- Hz in Hsv, Hf. change (nb_embed (step_state total prompt k).1) with (state_at prompt k 0) in *. rewrite <- Hz in *.
  destruct (shard_layers_ok cfg prompt k chain cache Hin Hsv Hf) as (chain' & cache' & Hrun & Hsv' & Hf').
  destruct (envelope_carries cfg prompt k rid chain' Hin Hf') as (msg & Hmsg & Hc).
  pose proof (run_my_layers_result shard_layers cfg rid cache _ chain _ chain' cache' n old Hrun Hold) as Hml.
  destruct (forward_writes io io_ok c cfg rid _ chain' msg (set_req (set_kv (dict_set rid cache' (rs_kv (n_req n))) (n_req n)) n) Ht Hmsg) as (t' & Hfw & Hw).
  exists chain. do 5 eexists. split; [exact He|]. split; [exact Hml|]. split; [exact Hsv'|]. split; [done|]. split; [exact Hfw|]. split; [exact Hc|exact Hw].
Qed.

(** A request arrives at an idle head. *)
Lemma begin_step cfg c req payload n :
  in_ring cfg -> is_tail cfg = false -> is_head cfg = true -> unavailable_peer cfg n = None -> tables_wf n ->
  rs_threads (n_req n) = [] -> dict_get (br_request_id req) (rs_captures (n_req n)) = None ->
  dict_get (br_request_id req) (rs_pending (n_req n)) = None ->
  let n' := on_message cfg (Message c (Some (PBegin req)) payload) n in
  exists out ref, writes c (n_net n) (n_net n') [out] [] /\ carries_step (br_prompt req) 0 (br_request_id req) (range_end cfg) out /\
    node_at (br_prompt req) 1 cfg (br_request_id req) n' /\ serving c (max_of_request req) 0 [] (br_request_id req) ref n'.
Proof.
  intros Hin Ht Hh Hun [Wk Wh Wp] Hth Hcap Hpend. set (rid := br_request_id req) in *. pose proof Hh as Hz. unfold is_head in Hz. apply Z.eqb_eq in Hz.
  unfold handled, node_step. cbn [dispatch]. unfold handle_begin. rewrite Hh. cbn [negb]. run. rewrite Hun. cbv zeta. fold rid. fold (max_of_request req). run.
  set (ref := length (rs_store (n_req n))).
  match goal with |- context [@mbind (eff _) _ _ _ _ _ ?s] => set (n1 := s) end.
  assert (Hkv : dict_get rid (rs_kv (n_req n1)) = Some nb_make_cache) by apply dict_get_set_eq.
  destruct (head_part cfg c (br_prompt req) 0 rid nb_make_cache n1 Hin Ht Hz (fresh_serves total nslots (br_prompt req) 0 (range_end cfg)) ltac:(by eexists))
    as (chain & h' & chain' & cache' & msg & t' & He & Hml & Hsv & Hst & Hfw & Hc & Hw).
  cbn [step_state fst] in He, Hml. erewrite run_ok by (by rewrite He). cbv beta.
  erewrite run_ok by (unfold handle_with; rewrite run_bind, Hml; reflexivity). cbv beta iota. rewrite (run_ok _ _ _ _ _ Hfw). cbv beta. cbn [snd].
  exists msg, ref. split; [exact Hw|]. split; [exact Hc|]. split.
  - split; cbn -[dict_set dict_get].
    + rewrite dict_get_set_eq. rewrite Hz. exact Hsv.
    + split; cbn -[dict_set]; [by repeat apply dict_set_wf|by apply dict_set_wf|done].
    + intros _. rewrite dict_get_set_eq. rewrite Hcap. cbn. by rewrite Hst.
  - split; cbn -[dict_set dict_get].
    + by rewrite Hth.
    + apply dict_get_set_eq.
    + by apply list_lookup_middle.
    + rewrite dict_get_set_eq. by eexists.
    + done.
Qed.

(** The token of a step arrives at the head. *)
Lemma token_step cfg conn c max gen queue rid ref tok n prompt k :
  is_head cfg = true -> serving c max gen queue rid ref n -> node_at prompt k cfg rid n ->
  let n' := on_message cfg (Message conn (token_reply rid tok 0 false).1 (token_reply rid tok 0 false).2) n in
  writes c (n_net n) (n_net n') [] [] /\ serving c max gen (queue ++ [tok]) rid ref n' /\ node_at prompt k cfg rid n'.
Proof.
  intros Hh [Hth Hhd Hst Hkv Hp] [Hsv [Wk Wh Wp] Hc]. unfold handled, node_step. cbn [token_reply fst snd dispatch].
  unfold handle_sampled_token. rewrite Hh. cbn [negb]. run. cbn [sk_request_id sk_token_id]. rewrite Hhd.
  split; [apply writes_nothing|]. split; [|split; [exact Hsv|by split|exact Hc]].
  split; [done|done| |done|done]. cbn. by rewrite list_lookup_alter_eq, Hst.
Qed.

(** The decode thread sends a token that is not the last, and the next activation. *)
Lemma next_step cfg c max rid ref n prompt k :
  in_ring cfg -> is_tail cfg = false -> is_head cfg = true -> in_u32 max = true -> Z.of_nat (S k) < max ->
  serving c max (Z.of_nat k) [step_token total prompt k] rid ref n -> node_at prompt (S k) cfg rid n ->
  let n' := on_message cfg (Resume 0) n in
  exists out, writes c (n_net n) (n_net n') [out] [token_reply rid (step_token total prompt k) (Z.of_nat k) false] /\
    carries_step prompt (S k) rid (range_end cfg) out /\ node_at prompt (S (S k)) cfg rid n' /\
    serving c max (Z.of_nat (S k)) [] rid ref n'.
Proof.
  intros Hin Ht Hh Hmax Hlt [Hth Hhd Hst [cache Hkv] Hp] Hn. pose proof Hh as Hz. unfold is_head in Hz. apply Z.eqb_eq in Hz.
  set (tok := step_token total prompt k) in *. assert (Htok : in_u32 tok = true) by apply tokens_fit.
  unfold handled, node_step, resume. run. rewrite Hth. cbn [lookup list_lookup].
  assert (Hsv : serves total nslots prompt (S k) 0 (range_end cfg) cache).
  { pose proof (na_serves _ _ _ _ _ Hn) as Hs. by rewrite Hkv, Hz in Hs. }
  assert (Hround : exists out n2, decode_round cfg io render now (shard_layers cfg) rid ref n = (Ok true, n2) /\
    writes c (n_net n) (n_net n2) [out] [token_reply rid tok (Z.of_nat k) false] /\
    carries_step prompt (S k) rid (range_end cfg) out /\ node_at prompt (S (S k)) cfg rid n2 /\
    serving c max (Z.of_nat (S k)) [] rid ref n2).
  { unfold decode_round. run. rewrite Hst. cbn [hs_queue]. run. unfold handle_with, decode_token.
    replace (tok =? POISON_TOKEN) with false by (unfold in_u32, POISON_TOKEN in *; lia). run.
    cbn [hs_client hs_max_new_tokens hs_generated]. replace (max <=? Z.of_nat k + 1) with false by lia.
    replace (Z.of_nat k + 1 - 1) with (Z.of_nat k) by lia.
    erewrite run_ok by (apply token_sent; [done|done|unfold in_u32 in *; lia]). cbv beta iota.
    match goal with |- context [@mbind (eff _) _ _ _ _ (next_activation _ _ _ _ _ _) ?s] => set (n1 := s) end.
    destruct (head_part cfg c prompt (S k) rid cache n1 Hin Ht Hz Hsv ltac:(by eexists))
      as (chain & h' & chain' & cache' & msg & t' & He & Hml & Hsv' & Hst' & Hfw & Hc & Hw).
    assert (Hna : next_activation cfg io now (shard_layers cfg) rid tok n1 =
      (Ok tt, set_net t' (set_req (captured rid (range_end cfg, h') (set_kv (dict_set rid cache' (rs_kv (n_req n1))) (n_req n1))) n1))).
    { unfold next_activation. run. erewrite run_ok by (change (rs_kv (n_req n1)) with (rs_kv (n_req n)); by rewrite Hkv). cbv beta zeta.
      erewrite run_ok by (unfold lift; by rewrite <- He). cbv beta. by rewrite (run_ok _ _ _ _ _ Hml). }
    rewrite run_bind, Hna. exists msg. eexists. split; [reflexivity|]. split.
    { eapply (writes_trans c _ (n_net n1) _ [] [_] [_] []); [|exact Hw].
      pose proof (writes_event c (n_net n) (n_net n1) (Sent (Inbound c) (token_reply rid tok (Z.of_nat k) false).1 []) eq_refl) as Hx.
      unfold to_client in Hx. by rewrite decide_True in Hx. }
    split; [exact Hc|]. split.
    - apply (node_after prompt (S k) cfg rid n _ cache'); [|by rewrite Hz|done|done|apply Hn|].
      + cbn -[dict_set dict_setdefault]. unfold dict_setdefault. by rewrite Hkv.
      + intros _. cbn -[dict_get dict_set]. by rewrite dict_get_set_eq, Hst'.
    - split; cbn -[dict_set dict_get]; [done|done| |rewrite dict_get_set_eq; by eexists|done].
      rewrite !list_lookup_alter_eq, Hst. cbn. by replace (Z.of_nat k + 1) with (Z.of_nat (S k)) by lia. }
  destruct Hround as (out & n2 & Hr & Hw & Hc & Hna & Hse). unfold outcome. rewrite run_bind, Hr. by exists out.
Qed.

(** The decode thread sends the last token and lets the request go. *)
Lemma last_step cfg c max rid ref n prompt k :
  in_u32 max = true -> Z.of_nat (S k) = max ->
  serving c max (Z.of_nat k) [step_token total prompt k] rid ref n -> node_at prompt (S k) cfg rid n ->
  let n' := on_message cfg (Resume 0) n in
  writes c (n_net n) (n_net n') [end_message rid] [token_reply rid (step_token total prompt k) (Z.of_nat k) true] /\
  forgotten rid n' /\ rs_threads (n_req n') = [] /\ rs_captures (n_req n') = rs_captures (n_req n).
Proof.
  intros Hmax Heq [Hth Hhd Hst [cache Hkv] Hp] Hn. set (tok := step_token total prompt k) in *. assert (Htok : in_u32 tok = true) by apply tokens_fit.
  pose proof (na_wf _ _ _ _ _ Hn) as [Wk Wh Wp].
  unfold handled, node_step, resume. run. rewrite Hth. cbn [lookup list_lookup].
  assert (Hround : exists n2, decode_round cfg io render now (shard_layers cfg) rid ref n = (Ok false, n2) /\
    writes c (n_net n) (n_net n2) [end_message rid] [token_reply rid tok (Z.of_nat k) true] /\
    rs_threads (n_req n2) = [(rid, ref)] /\ rs_captures (n_req n2) = rs_captures (n_req n) /\ forgotten rid n2).
  { unfold decode_round. run. rewrite Hst. cbn [hs_queue]. run. unfold handle_with, decode_token.
    replace (tok =? POISON_TOKEN) with false by (unfold in_u32, POISON_TOKEN in *; lia). run.
    cbn [hs_client hs_max_new_tokens hs_generated]. replace (max <=? Z.of_nat k + 1) with true by lia.
    replace (Z.of_nat k + 1 - 1) with (Z.of_nat k) by lia.
    erewrite run_ok by (apply token_sent; [done|done|unfold in_u32 in *; lia]). cbv beta iota.
    match goal with |- context [@mbind (eff _) _ _ _ _ (finish_decode _ _ _) ?s] => set (n1 := s) end.
    destruct (broadcast_end_writes io io_ok c cfg rid n1) as (t1 & Hb & Hw1).
    assert (Hfin : exists t', finish_decode cfg io rid n1 = (Ok tt, set_net t' (set_req (drop_request rid (n_req n1)) n1)) /\
      writes c (n_net n1) t' [end_message rid] []).
    { unfold finish_decode. rewrite (run_ok _ _ _ _ _ Hb). run.
      match goal with |- context [close_out ?s] => destruct (close_out_writes c s) as (t' & Hcl & Hw2) end.
      exists t'. rewrite Hcl. split; [done|]. exact (writes_trans c _ _ _ _ _ _ _ Hw1 Hw2). }
    destruct Hfin as (t' & Hf & Hw). rewrite run_bind, Hf. eexists. split; [reflexivity|]. split.
    { eapply (writes_trans c _ (n_net n1) _ [] [_] [_] []); [|exact Hw].
      pose proof (writes_event c (n_net n) (n_net n1) (Sent (Inbound c) (token_reply rid tok (Z.of_nat k) true).1 []) eq_refl) as Hx.
      unfold to_client in Hx. by rewrite decide_True in Hx. }
    split; [done|]. split; [done|]. split; [by apply dict_get_pop_eq|]. split; [by apply dict_get_pop_eq|done]. }
  destruct Hround as (n2 & Hr & Hw & Hth2 & Hcap & Hf). unfold outcome. rewrite run_bind, Hr.
  split; [exact Hw|]. split; [exact Hf|]. split; [|exact Hcap]. cbn. by rewrite Hth2.
Qed.

End shards.
