(* ===== verification/ClusterTheorems.v ===== *)
(** * Sharded generation is the reference's

    A generation in a ring of shards goes through phases: an activation on its
    way, the token under way to the head, the token in the head's queue, the
    end of the request passing through the shards.  Every state the cluster can
    reach is in a phase ([in_phase]), each step leads to a later one, and the
    last one is the only one without a step. *)
From S2P Require Import Prelude PyDict PyFloat PyList PyRandom Records SwimState.
From S2P Require Import Wire Messages Ownership Runner ShardMap Trackers Provenance Experts Effects Migration MigrationTheorems.
From S2P Require Import Engine NodeState NodeHandlers Client NodeTheorems NodeProvenance Layers Reference Cluster ShardSteps.
From stdpp Require Import relations.
Open Scope Z_scope.

Section generation.
Context {T M Slot C R : Type} `{TextModel T M Slot} `{StackLib C} `{RandomSource R} `{NodeBackend T (list Slot) C}.
Context (total : Z) (nslots : nat) `{!ModelLaws total nslots}.
Context (io : nat -> bool) (render : Detail -> string) (now : float) (m : ShardMap) (prov : bool).
Context (orch : NodeConfig -> option (Z -> T -> M * M -> chain_t -> eff (list Slot) (T * chain_t))).
Context (cfgs : list NodeConfig).
Abbreviation State := (NodeState T (list Slot) C R).
Abbreviation Cluster := (Cluster T (list Slot) C R).
Abbreviation layers := (shard_layers now orch).
Abbreviation step := (cl_step io render now cfgs layers).
Implicit Types (n : State) (cl : Cluster) (cfg : NodeConfig) (i j k : nat).

(** The shards in order: each hands on to the next, the last one to the first. *)
Record ring : Prop := {
  rg_shard i cfg : cfgs !! i = Some cfg -> ring_shard total m prov cfg;
  rg_first cfg : cfgs !! O = Some cfg -> ss_start (nc_shard cfg) = 0;
  rg_next i cfg cfg' : cfgs !! i = Some cfg -> cfgs !! S i = Some cfg' ->
    ss_start (nc_shard cfg') = ss_end (nc_shard cfg) /\ nc_downstream cfg = nc_shard cfg';
  rg_last i cfg cfg' : cfgs !! i = Some cfg -> S i = length cfgs -> cfgs !! O = Some cfg' ->
    ss_end (nc_shard cfg) = total /\ nc_downstream cfg = nc_shard cfg';
  rg_ids : NoDup (me <$> cfgs);
  rg_two : (2 <= length cfgs)%nat;
}.

Hypothesis io_ok : forall k, io k = true.
Hypothesis total_fits : total < 2 ^ 32.
Hypothesis states_sendable : forall h : T, sendable h.
Hypothesis tokens_fit : forall h : T, in_u32 (nb_argmax_last h) = true.
Hypothesis Hring : ring.

(** Without provenance, split layers are computed. *)
Definition splits_exact : Prop := prov = false -> forall i cfg l, cfgs !! i = Some cfg ->
  ss_start (nc_shard cfg) <= l < ss_end (nc_shard cfg) -> split_exact nslots (nc_split_layers cfg) (orch cfg) l.
Hypothesis Hsplit : splits_exact.

Lemma ring_in i cfg : cfgs !! i = Some cfg -> in_ring total nslots m prov orch cfg.
Proof. intros Hi. split; [by apply (rg_shard Hring i)|]. intros Hp l Hl. by apply (Hsplit Hp i cfg). Qed.

Lemma ring_tail i cfg : cfgs !! i = Some cfg -> is_tail cfg = bool_decide (S i = length cfgs).
Proof.
  intros Hi. pose proof (ring_in i cfg Hi) as Hin. unfold is_tail. rewrite (ir_total _ _ _ _ Hin).
  pose proof (lookup_lt_Some _ _ _ Hi). destruct (decide (S i = length cfgs)) as [He|Hne].
  - rewrite bool_decide_eq_true_2 by done. apply Z.eqb_eq.
    destruct (lookup_lt_is_Some_2 cfgs O) as [cfg0 H0']; [lia|]. by apply (rg_last Hring i cfg cfg0).
  - rewrite bool_decide_eq_false_2 by done. apply Z.eqb_neq.
    destruct (lookup_lt_is_Some_2 cfgs (S i)) as [cfg' H']; [lia|].
    destruct (rg_next Hring i cfg cfg' Hi H') as [Hs _]. pose proof (ir_range _ _ _ _ (ring_in _ _ H')). lia.
Qed.

Definition next_of i : nat := if decide (S i = length cfgs) then O else S i.

Lemma next_of_last i : S i = length cfgs -> next_of i = O.
Proof. intros He. unfold next_of. by case_decide. Qed.

Lemma next_of_mid i : S i <> length cfgs -> next_of i = S i.
Proof. intros He. unfold next_of. by case_decide. Qed.

Lemma ring_downstream i cfg : cfgs !! i = Some cfg -> downstream_of cfgs cfg = next_of i.
Proof.
  intros Hi. pose proof (lookup_lt_Some _ _ _ Hi).
  assert (exists cfg', cfgs !! next_of i = Some cfg' /\ nc_downstream cfg = nc_shard cfg') as (cfg' & Hn & Hd).
  { unfold next_of. case_decide as He.
    - destruct (lookup_lt_is_Some_2 cfgs O) as [cfg' H']; [lia|]. exists cfg'. split; [done|]. by apply (rg_last Hring i).
    - destruct (lookup_lt_is_Some_2 cfgs (S i)) as [cfg' H']; [lia|]. exists cfg'. split; [done|]. by apply (rg_next Hring i). }
  unfold downstream_of. rewrite Hd.
  assert (list_find (fun c => me c = ss_shard_id (nc_shard cfg')) cfgs = Some (next_of i, cfg')) as ->; [|done].
  apply list_find_Some. split; [done|]. split; [done|]. intros j c Hj Hlt Hme. pose proof (rg_ids Hring) as Hnd.
  assert (j = next_of i); [|lia]. apply (NoDup_lookup (me <$> cfgs) j (next_of i) (me c)); [done| |];
    rewrite list_lookup_fmap; [by rewrite Hj|]. rewrite Hn. cbn. by rewrite Hme.
Qed.

(** ** Phases *)

Context (prompt : list Z) (rid : string) (c : nat) (max : Z) (steps : nat).
Hypothesis max_steps : max = Z.of_nat steps.
Hypothesis some_steps : (0 < steps)%nat.
Hypothesis max_fits : in_u32 max = true.

Abbreviation tok := (step_token total prompt).
Abbreviation state_at k l := (boundary total prompt k l).1.

Inductive phase : Type :=
| Act (k j : nat)    (** the activation of step [k] is for shard [j] *)
| Tok (k : nat)      (** its token is for the head *)
| Got (k : nat)      (** the head has it *)
| Ending (j : nat).  (** the end is for shard [j]; with all shards past, done *)

Definition phase_ok (p : phase) : Prop :=
  match p with
  | Act k j => (k < steps /\ 0 < j < length cfgs)%nat
  | Tok k | Got k => (k < steps)%nat
  | Ending j => (0 < j <= length cfgs)%nat
  end.

(** How many phases are left, at most. *)
Definition left_of (p : phase) : nat :=
  let round k := ((steps - k) * (length cfgs + 3) + length cfgs)%nat in
  match p with
  | Act k j => (round k + 2 + (length cfgs - j))%nat
  | Tok k => S (round k)
  | Got k => round k
  | Ending j => (length cfgs - j)%nat
  end.

Definition done_steps (p : phase) i : nat :=
  match p with
  | Act k j => if decide (i < j)%nat then S k else k
  | Tok k | Got k => S k
  | Ending _ => steps
  end.

Definition queue_ok (p : phase) i (q : list Msg) : Prop :=
  match p with
  | Act k j => if decide (i = j) then exists cfg msg, cfgs !! j = Some cfg /\ q = [msg] /\
                 carries_step total m prov prompt k rid (ss_start (nc_shard cfg)) msg
               else q = []
  | Tok k => q = if decide (i = O) then [token_reply rid (tok k) 0 false] else []
  | Got k => q = []
  | Ending j => q = if decide (i = j) then [end_message rid] else []
  end.

(** A node while the request is served. *)
Definition active k i gen queue cfg n : Prop :=
  node_at total nslots prompt k cfg rid n /\
  (if decide (i = O) then exists ref, serving c max (Z.of_nat gen) queue rid ref n else rs_threads (n_req n) = []).

Definition captures_ok k cfg n : Prop := is_tail cfg = false ->
  default [] (dict_get rid (rs_captures (n_req n))) = (fun i => (ss_end (nc_shard cfg), state_at i (ss_end (nc_shard cfg)))) <$> seq 0 k.

Definition node_ok (p : phase) i cfg n : Prop :=
  match p with
  | Act k j => active (done_steps p i) i k [] cfg n
  | Tok k => active (done_steps p i) i k [] cfg n
  | Got k => active (done_steps p i) i k [tok k] cfg n
  | Ending j => rs_threads (n_req n) = [] /\ captures_ok steps cfg n /\
      (if decide (i < j)%nat then forgotten rid n else tables_wf n)
  end.

Definition replies_upto k : list Msg := (fun i => token_reply rid (tok i) (Z.of_nat i) false) <$> seq 0 k.
Definition all_replies : list Msg := token_replies rid 0 (tok <$> seq 0 steps).

Definition client_of (p : phase) : list Msg :=
  match p with
  | Act k _ | Tok k | Got k => replies_upto k
  | Ending _ => all_replies
  end.

Record in_phase (p : phase) cl : Prop := {
  ip_ok : phase_ok p;
  ip_nodes : length (cl_nodes cl) = length cfgs;
  ip_queues : length (cl_queues cl) = length cfgs;
  ip_node i cfg n : cfgs !! i = Some cfg -> cl_nodes cl !! i = Some n -> node_ok p i cfg n;
  ip_queue i q : cl_queues cl !! i = Some q -> queue_ok p i q;
  ip_client : client_log O c cl = client_of p;
}.

Lemma replies_last k a : token_replies rid (Z.of_nat a) (tok <$> seq a (S k)) =
  ((fun i => token_reply rid (tok i) (Z.of_nat i) false) <$> seq a k) ++ [token_reply rid (tok (a + k)) (Z.of_nat (a + k)) true].
Proof.
  revert a. induction k as [|k IH]; intros a; [cbn; by rewrite Nat.add_0_r|].
  change (seq a (S (S k))) with (a :: seq (S a) (S k)). rewrite fmap_cons. cbn [token_replies].
  replace (Z.of_nat a + 1) with (Z.of_nat (S a)) by lia. rewrite IH, bool_decide_eq_false_2 by done.
  change (seq a (S k)) with (a :: seq (S a) k). rewrite fmap_cons. cbn [app]. by replace (S a + k)%nat with (a + S k)%nat by lia.
Qed.

Lemma client_prefix p : phase_ok p -> client_of p `prefix_of` all_replies.
Proof.
  assert (Hk : forall k, (k < steps)%nat -> replies_upto k `prefix_of` all_replies).
  { intros k Hk. unfold all_replies, replies_upto. assert (exists s, steps = S s) as [s Hs] by (exists (pred steps); lia).
    rewrite Hs. change 0 with (Z.of_nat 0). rewrite replies_last.
    apply prefix_app_r. replace s with (k + (s - k))%nat by lia. rewrite seq_app, fmap_app. by apply prefix_app_r. }
  destruct p as [k j|k|k|j]; cbn; [intros [? _]; auto|auto|auto|done].
Qed.

(** One node moves; its messages join the queue of the next shard. *)
Lemma moved_to p' i cfg n n' queues cl ms rs :
  cfgs !! i = Some cfg -> cl_nodes cl !! i = Some n -> length (cl_nodes cl) = length cfgs -> length queues = length cfgs ->
  writes c (n_net n) (n_net n') ms rs -> phase_ok p' -> node_ok p' i cfg n' ->
  (forall i' cfg' n2, i' <> i -> cfgs !! i' = Some cfg' -> cl_nodes cl !! i' = Some n2 -> node_ok p' i' cfg' n2) ->
  (forall i' q, queues !! i' = Some q -> queue_ok p' i' (if decide (i' = next_of i) then q ++ ms else q)) ->
  client_of p' = client_log O c cl ++ (if decide (i = O) then rs else []) ->
  in_phase p' (moved cfgs i cfg n n' (mkCluster (cl_nodes cl) queues)).
Proof.
  intros Hi Hn Hln Hlq Hw Hok Hn' Hothers Hqs Hc. unfold moved. cbn [cl_nodes cl_queues].
  rewrite (ring_downstream i cfg Hi), (sent_since_writes c n n' ms rs Hw). pose proof (lookup_lt_Some _ _ _ Hn). split; cbn [cl_nodes cl_queues].
  - done.
  - by rewrite length_insert.
  - by rewrite length_alter.
  - intros i' cfg' n2 Hi' Hn2. destruct (decide (i' = i)) as [->|Hne].
    + rewrite list_lookup_insert_eq in Hn2 by done. simplify_eq. done.
    + rewrite list_lookup_insert_ne in Hn2 by done. by apply Hothers.
  - intros i' q Hq'. destruct (decide (i' = next_of i)) as [->|Hne].
    + rewrite list_lookup_alter_eq in Hq'. destruct (queues !! next_of i) as [q0|] eqn:E; [|done]. injection Hq' as <-.
      pose proof (Hqs _ _ E) as Hx. by rewrite decide_True in Hx.
    + rewrite list_lookup_alter_ne in Hq' by done. pose proof (Hqs _ _ Hq') as Hx. by rewrite decide_False in Hx.
  - rewrite Hc. unfold client_log. cbn [cl_nodes]. destruct (decide (i = O)) as [->|H0'].
    + rewrite list_lookup_insert_eq, Hn by done. apply Hw.
    + rewrite list_lookup_insert_ne by done. by rewrite app_nil_r.
Qed.

Lemma moved_phase p p' i cfg n n' queues cl ms rs :
  in_phase p cl -> cfgs !! i = Some cfg -> cl_nodes cl !! i = Some n -> length queues = length cfgs ->
  writes c (n_net n) (n_net n') ms rs -> phase_ok p' -> node_ok p' i cfg n' ->
  (forall i' cfg' n2, i' <> i -> cfgs !! i' = Some cfg' -> node_ok p i' cfg' n2 -> node_ok p' i' cfg' n2) ->
  (forall i' q, queues !! i' = Some q -> queue_ok p' i' (if decide (i' = next_of i) then q ++ ms else q)) ->
  client_of p' = client_of p ++ (if decide (i = O) then rs else []) ->
  in_phase p' (moved cfgs i cfg n n' (mkCluster (cl_nodes cl) queues)).
Proof.
  intros Hp Hi Hn Hlq Hw Hok Hn' Hothers Hqs Hc. eapply moved_to; [done|done|apply Hp|done|exact Hw|done|done| |done|].
  - intros i' cfg' n2 Hne Hi' Hn2. apply Hothers; [done..|]. by eapply ip_node.
  - by rewrite (ip_client _ _ Hp).
Qed.

(** ** Each phase leads to the next *)

(** The queue of shard [i] without its only message. *)
Lemma popped p cl i msg queue i' q : in_phase p cl -> cl_queues cl !! i = Some (msg :: queue) ->
  <[i := queue]> (cl_queues cl) !! i' = Some q -> (i' = i /\ q = queue) \/ (i' <> i /\ queue_ok p i' q).
Proof.
  intros Hp Hi Hq. destruct (decide (i' = i)) as [->|Hne]; [left|right].
  - rewrite list_lookup_insert_eq in Hq by (by eapply lookup_lt_Some). by injection Hq as <-.
  - rewrite list_lookup_insert_ne in Hq by done. split; [done|]. by eapply ip_queue.
Qed.

Lemma act_steps k j conn cfg n msg queue cl :
  in_phase (Act k j) cl -> cfgs !! j = Some cfg -> cl_nodes cl !! j = Some n -> cl_queues cl !! j = Some (msg :: queue) ->
  in_phase (if decide (S j = length cfgs) then Tok k else Act k (S j))
    (moved cfgs j cfg n (handled io render now layers cfg (Message conn msg.1 msg.2) n) (mkCluster (cl_nodes cl) (<[j := queue]> (cl_queues cl)))).
Proof.
  intros Hp Hj Hn Hq. destruct (ip_ok _ _ Hp) as [Hk Hjr]. pose proof (ring_in j cfg Hj) as Hin. pose proof (ring_tail j cfg Hj) as Ht.
  pose proof (ip_queue _ _ Hp j _ Hq) as Hqo. cbn [queue_ok] in Hqo. rewrite decide_True in Hqo by done.
  destruct Hqo as (cfg' & msg' & Hj' & Hm & Hc). simplify_eq.
  pose proof (ip_node _ _ Hp j cfg n Hj Hn) as [Hna Hth]. cbn [done_steps] in Hna. rewrite decide_False in Hna by lia. rewrite decide_False in Hth by lia.
  destruct (decide (S j = length cfgs)) as [He|He].
  - rewrite bool_decide_eq_true_2 in Ht by done.
    destruct (tail_step total nslots io render now m prov orch io_ok total_fits tokens_fit cfg conn c prompt k rid msg' n Hin Ht Hc Hna) as (Hw & Hna' & Hsh).
    eapply moved_phase; [exact Hp|done|done|by rewrite length_insert; apply Hp|exact Hw|done| | | |].
    + split; [done|]. rewrite decide_False by lia. by rewrite (sh_threads _ _ Hsh).
    + intros i' cfg' n2 Hne Hi' [Ha Hb]. split; [|done]. cbn [done_steps] in Ha |- *. pose proof (lookup_lt_Some _ _ _ Hi').
      by rewrite decide_True in Ha by lia.
    + intros i' q Hi'. rewrite next_of_last by done. cbn [queue_ok].
      destruct (popped _ _ _ _ _ _ _ Hp Hq Hi') as [[-> ->]|[Hne Hqo]]; [by repeat (case_decide; [lia|])|].
      cbn [queue_ok] in Hqo. rewrite decide_False in Hqo by done. subst q. by case_decide.
    + cbn. by rewrite decide_False, app_nil_r by lia.
  - rewrite bool_decide_eq_false_2 in Ht by done.
    destruct (middle_step total nslots io render now m prov orch io_ok total_fits states_sendable cfg conn c prompt k rid msg' n Hin Ht Hc Hna)
      as (out & Hw & Ho & Hna' & Hsh).
    eapply moved_phase; [exact Hp|done|done|by rewrite length_insert; apply Hp|exact Hw|cbn; lia| | | |].
    + split; [cbn [done_steps]; by rewrite decide_True by lia|]. rewrite decide_False by lia. by rewrite (sh_threads _ _ Hsh).
    + intros i' cfg' n2 Hne Hi' [Ha Hb]. split; [|done]. cbn [done_steps] in Ha |- *. destruct (decide (i' < j)%nat).
      * by rewrite decide_True by lia.
      * by rewrite decide_False by lia.
    + intros i' q Hi'. rewrite next_of_mid by done. cbn [queue_ok].
      destruct (lookup_lt_is_Some_2 cfgs (S j)) as [cfg' Hj']; [lia|]. destruct (rg_next Hring j cfg cfg' Hj Hj') as [Hs _].
      destruct (popped _ _ _ _ _ _ _ Hp Hq Hi') as [[-> ->]|[Hne Hqo]]; [by repeat (case_decide; [lia|])|].
      cbn [queue_ok] in Hqo. rewrite decide_False in Hqo by done. subst q. case_decide as Hd; [|done].
      exists cfg', out. rewrite Hs. done.
    + cbn. by rewrite decide_False, app_nil_r by lia.
Qed.

Lemma tok_steps k conn cfg n msg queue cl :
  in_phase (Tok k) cl -> cfgs !! O = Some cfg -> cl_nodes cl !! O = Some n -> cl_queues cl !! O = Some (msg :: queue) ->
  in_phase (Got k)
    (moved cfgs O cfg n (handled io render now layers cfg (Message conn msg.1 msg.2) n) (mkCluster (cl_nodes cl) (<[O := queue]> (cl_queues cl)))).
Proof.
  intros Hp Hj Hn Hq. pose proof (ip_ok _ _ Hp) as Hk. cbn in Hk.
  assert (Hh : is_head cfg = true) by (unfold is_head; rewrite (rg_first Hring cfg Hj); done).
  pose proof (ip_queue _ _ Hp O _ Hq) as Hqo. cbn in Hqo. injection Hqo as -> ->.
  pose proof (ip_node _ _ Hp O cfg n Hj Hn) as [Hna (ref & Hse)].
  destruct (token_step total nslots io render now orch cfg conn c max (Z.of_nat k) [] rid ref (tok k) n prompt (S k) Hh Hse Hna) as (Hw & Hse' & Hna').
  eapply moved_phase; [exact Hp|done|done|by rewrite length_insert; apply Hp|exact Hw|done| | | |].
  - split; [done|]. by exists ref.
  - intros i' cfg' n2 Hne _ [Ha Hb]. split; [done|]. by rewrite decide_False in Hb |- *.
  - intros i' q Hi'. destruct (popped _ _ _ _ _ _ _ Hp Hq Hi') as [[-> ->]|[Hne Hqo]]; [by case_decide|].
    cbn [queue_ok] in Hqo |- *. rewrite decide_False in Hqo by done. subst q. by case_decide.
  - cbn. by rewrite app_nil_r.
Qed.

Lemma end_steps j conn cfg n msg queue cl :
  in_phase (Ending j) cl -> cfgs !! j = Some cfg -> cl_nodes cl !! j = Some n -> cl_queues cl !! j = Some (msg :: queue) ->
  in_phase (Ending (S j))
    (moved cfgs j cfg n (handled io render now layers cfg (Message conn msg.1 msg.2) n) (mkCluster (cl_nodes cl) (<[j := queue]> (cl_queues cl)))).
Proof.
  intros Hp Hj Hn Hq. pose proof (ip_ok _ _ Hp) as Hjr. cbn in Hjr. pose proof (lookup_lt_Some _ _ _ Hj). pose proof (ring_tail j cfg Hj) as Ht.
  pose proof (ip_queue _ _ Hp j _ Hq) as Hqo. cbn [queue_ok] in Hqo. rewrite decide_True in Hqo by done. injection Hqo as -> ->.
  pose proof (ip_node _ _ Hp j cfg n Hj Hn) as (Hth & Hcap & Hwf). rewrite decide_False in Hwf by lia.
  destruct (end_step io render now orch io_ok cfg conn c rid n Hwf) as (Hw & Hf & Hth' & Hcap' & Hwf').
  eapply moved_phase; [exact Hp|done|done|by rewrite length_insert; apply Hp|exact Hw|cbn; lia| | | |].
  - split; [by rewrite Hth'|]. split; [unfold captures_ok; by rewrite Hcap'|]. by rewrite decide_True by lia.
  - intros i' cfg' n2 Hne _ (Ha & Hb & Hc). split; [done|]. split; [done|]. destruct (decide (i' < j)%nat).
    + by rewrite decide_True by lia.
    + by rewrite decide_False by lia.
  - intros i' q Hi'. cbn [queue_ok]. destruct (popped _ _ _ _ _ _ _ Hp Hq Hi') as [[-> ->]|[Hne Hqo]].
    + rewrite Ht. destruct (decide (S j = length cfgs)) as [He|He].
      * rewrite next_of_last, bool_decide_eq_true_2 by done. rewrite (decide_False (P := j = O)) by lia. by rewrite (decide_False (P := j = S j)) by lia.
      * rewrite next_of_mid, bool_decide_eq_false_2 by done. by rewrite !(decide_False (P := j = S j)) by lia.
    + cbn [queue_ok] in Hqo. rewrite decide_False in Hqo by done. subst q. rewrite Ht.
      assert (i' < length cfgs)%nat by (apply lookup_lt_Some in Hi'; by rewrite length_insert, (ip_queues _ _ Hp) in Hi').
      destruct (decide (S j = length cfgs)) as [He|He].
      * rewrite next_of_last, bool_decide_eq_true_2 by done. rewrite (decide_False (P := i' = S j)) by lia. by destruct (decide (i' = O)).
      * rewrite next_of_mid, bool_decide_eq_false_2 by done. by destruct (decide (i' = S j)).
  - cbn. rewrite decide_False by lia. by rewrite app_nil_r.
Qed.

(** The decode thread takes the token. *)
Lemma got_steps k cfg n cl :
  in_phase (Got k) cl -> cfgs !! O = Some cfg -> cl_nodes cl !! O = Some n ->
  in_phase (if decide (S k = steps) then Ending 1 else Act (S k) 1)
    (moved cfgs O cfg n (handled io render now layers cfg (Resume 0) n) cl).
Proof.
  intros Hp Hj Hn. pose proof (ip_ok _ _ Hp) as Hk. cbn in Hk. pose proof (ring_in O cfg Hj) as Hin. pose proof (rg_two Hring) as Htwo.
  assert (Hh : is_head cfg = true) by (unfold is_head; rewrite (rg_first Hring cfg Hj); done).
  assert (Ht : is_tail cfg = false) by (rewrite (ring_tail O cfg Hj); apply bool_decide_eq_false_2; lia).
  pose proof (ip_node _ _ Hp O cfg n Hj Hn) as [Hna (ref & Hse)].
  assert (Hq : forall i' q, cl_queues cl !! i' = Some q -> q = []) by (intros i' q; apply (ip_queue _ _ Hp)).
  change (moved cfgs O cfg n ?n' cl) with (moved cfgs O cfg n n' (mkCluster (cl_nodes cl) (cl_queues cl))).
  destruct (decide (S k = steps)) as [He|He].
  - destruct (last_step total nslots io render now orch io_ok tokens_fit cfg c max rid ref n prompt k max_fits ltac:(lia) Hse Hna)
      as (Hw & Hf & Hth & Hcap).
    eapply moved_phase; [exact Hp|done|done|apply Hp|exact Hw|cbn; lia| | | |].
    + split; [done|]. split; [|done]. intros _. rewrite Hcap, <- He. by apply (na_captures _ _ _ _ _ _ _ Hna).
    + intros i' cfg' n2 Hne Hi' [Ha Hb]. rewrite decide_False in Hb by done. split; [done|].
      split; [intros Ht'; rewrite <- He; by apply (na_captures _ _ _ _ _ _ _ Ha)|]. rewrite decide_False by lia. apply Ha.
    + intros i' q Hi'. rewrite (Hq _ _ Hi'), next_of_mid by lia. cbn [queue_ok]. by destruct (decide (i' = 1%nat)).
    + cbn [client_of]. rewrite decide_True by done. unfold all_replies, replies_upto. rewrite <- He. change 0 with (Z.of_nat 0). by rewrite replies_last.
  - destruct (next_step total nslots io render now m prov orch io_ok total_fits states_sendable tokens_fit cfg c max rid ref n prompt k
      Hin Ht Hh max_fits ltac:(lia) Hse Hna) as (out & Hw & Ho & Hna' & Hse').
    eapply moved_phase; [exact Hp|done|done|apply Hp|exact Hw|cbn; lia| | | |].
    + split; [done|]. by exists ref.
    + intros i' cfg' n2 Hne Hi' [Ha Hb]. rewrite decide_False in Hb by done. split; [|by rewrite decide_False].
      cbn [done_steps]. by rewrite decide_False by lia.
    + intros i' q Hi'. rewrite (Hq _ _ Hi'), next_of_mid by lia. cbn [queue_ok]. destruct (decide (i' = 1%nat)) as [->|]; [|done].
      destruct (lookup_lt_is_Some_2 cfgs 1) as [cfg' Hj']; [lia|]. destruct (rg_next Hring O cfg cfg' Hj Hj') as [Hs _].
      exists cfg', out. by rewrite Hs.
    + cbn [client_of]. rewrite decide_True by done. unfold replies_upto. by rewrite seq_S, fmap_app.
Qed.

(** A step goes to a later phase. *)
Lemma steps_on p cl cl' : in_phase p cl -> step cl cl' -> exists p', in_phase p' cl' /\ (left_of p' < left_of p)%nat.
Proof.
  intros Hp Hs. pose proof (rg_two Hring) as Htwo. destruct Hs as [i conn cfg n msg queue cl Hc Hn Hq|i thread rid' ref st cfg n cl Hc Hn Hth Hst Hne].
  - pose proof (ip_queue _ _ Hp _ _ Hq) as Hqo. pose proof (ip_ok _ _ Hp) as Hok. destruct p as [k j|k|k|j]; cbn [queue_ok phase_ok] in Hqo, Hok.
    + destruct (decide (i = j)) as [->|]; [|done]. eexists. split; [by eapply act_steps|].
      destruct (decide (S j = length cfgs)); cbn [left_of]; lia.
    + destruct (decide (i = O)) as [->|]; [|done]. eexists. split; [by apply tok_steps|]. cbn [left_of]. lia.
    + done.
    + destruct (decide (i = j)) as [->|]; [|done]. eexists. split; [by apply end_steps|]. cbn [left_of]. apply lookup_lt_Some in Hc. lia.
  - pose proof (ip_node _ _ Hp _ _ _ Hc Hn) as Hno. pose proof (ip_ok _ _ Hp) as Hok.
    assert (Hwake : forall k gen queue, active k i gen queue cfg n -> i = O /\ thread = O /\ hs_queue st = queue).
    { intros k gen queue [_ Ha]. destruct (decide (i = O)) as [->|].
      - destruct Ha as (ref' & [Ht _ Hs _ _]). rewrite Ht in Hth. destruct thread as [|thread]; [|by destruct thread].
        injection Hth as <- <-. rewrite Hs in Hst. injection Hst as <-. done.
      - rewrite Ha in Hth. by destruct thread. }
    destruct p as [k j|k|k|j]; cbn [node_ok] in Hno.
    + apply Hwake in Hno as (_ & _ & He). by rewrite He in Hne.
    + apply Hwake in Hno as (_ & _ & He). by rewrite He in Hne.
    + apply Hwake in Hno as (-> & -> & _). eexists. split; [by apply got_steps|]. cbn in Hok.
      destruct (decide (S k = steps)); cbn [left_of]; [lia|].
      replace (steps - k)%nat with (S (steps - S k)) by lia. lia.
    + destruct Hno as [Hno _]. rewrite Hno in Hth. by destruct thread.
Qed.

(** There is a step until the end has passed all shards. *)
Lemma steps_exist p cl : in_phase p cl -> p <> Ending (length cfgs) -> exists cl', step cl cl'.
Proof.
  intros Hp Hne. pose proof (rg_two Hring) as Htwo. pose proof (ip_ok _ _ Hp) as Hok. pose proof (ip_nodes _ _ Hp) as Hln. pose proof (ip_queues _ _ Hp) as Hlq.
  assert (Hget : forall i, (i < length cfgs)%nat -> exists cfg n q, cfgs !! i = Some cfg /\ cl_nodes cl !! i = Some n /\ cl_queues cl !! i = Some q).
  { intros i Hi. destruct (lookup_lt_is_Some_2 cfgs i) as [cfg ?]; [done|]. destruct (lookup_lt_is_Some_2 (cl_nodes cl) i) as [n ?]; [lia|].
    destruct (lookup_lt_is_Some_2 (cl_queues cl) i) as [q ?]; [lia|]. by exists cfg, n, q. }
  assert (Hdel : forall i, (i < length cfgs)%nat -> (forall q, queue_ok p i q -> q <> []) -> exists cl', step cl cl').
  { intros i Hi Hq. destruct (Hget i Hi) as (cfg & n & q & H1' & H2' & H3'). pose proof (Hq q (ip_queue _ _ Hp _ _ H3')).
    destruct q as [|msg q]; [done|]. eexists. by eapply (step_deliver _ _ _ _ _ i O). }
  destruct p as [k j|k|k|j]; cbn [phase_ok] in Hok.
  - apply (Hdel j); [lia|]. cbn [queue_ok]. intros q. rewrite decide_True by done. by intros (? & ? & _ & -> & _).
  - apply (Hdel O); [lia|]. cbn [queue_ok]. intros q ->. done.
  - destruct (Hget O ltac:(lia)) as (cfg & n & q & H1' & H2' & _). destruct (ip_node _ _ Hp _ _ _ H1' H2') as [_ (ref & [Ht _ Hs _ _])].
    eexists. eapply (step_wake _ _ _ _ _ O O rid ref); [done|done|by rewrite Ht|done|done].
  - apply (Hdel j); [assert (j <> length cfgs) by congruence; lia|]. cbn [queue_ok]. intros q ->. by rewrite decide_True.
Qed.

Lemma phase_sn p cl : in_phase p cl -> sn step cl.
Proof.
  remember (left_of p) as d eqn:Hd. revert p cl Hd. induction (lt_wf d) as [d _ IH]. intros p cl -> Hp.
  constructor. intros cl' Hs. destruct (steps_on p cl cl' Hp Hs) as (p' & Hp' & Hlt). by eapply IH.
Qed.

Lemma phase_rtc p cl cl' : in_phase p cl -> rtc step cl cl' -> exists p', in_phase p' cl'.
Proof. intros Hp Hr. revert p Hp. induction Hr as [|cl cl1 cl' Hs _ IH]; intros p Hp; [by exists p|].
  destruct (steps_on p cl cl1 Hp Hs) as (p1 & Hp1 & _). by eapply IH. Qed.

(** A reachable state without a step is the end. *)
Lemma phase_end p cl cl' : in_phase p cl -> rtc step cl cl' -> nf step cl' -> in_phase (Ending (length cfgs)) cl'.
Proof.
  intros Hp Hr Hnf. destruct (phase_rtc p cl cl' Hp Hr) as (p' & Hp').
  assert (Hdec : p' = Ending (length cfgs) \/ p' <> Ending (length cfgs)).
  { destruct p' as [k j|k|k|j]; [by right..|]. destruct (decide (j = length cfgs)) as [->|Hj]; [by left|right; congruence]. }
  destruct Hdec as [->|Hne]; [done|]. destruct (steps_exist p' cl' Hp' Hne) as [cl2 Hs]. destruct Hnf. by exists cl2.
Qed.

(** ** The request comes in *)

(** Shards that serve no request and do not know [rid]. *)
Record quiet cl : Prop := {
  qu_nodes : length (cl_nodes cl) = length cfgs;
  qu_queues : cl_queues cl = replicate (length cfgs) [];
  qu_node n : n ∈ cl_nodes cl -> tables_wf n /\ rs_threads (n_req n) = [] /\ dict_get rid (rs_kv (n_req n)) = None /\
    dict_get rid (rs_captures (n_req n)) = None /\ dict_get rid (rs_pending (n_req n)) = None;
  (** the head sees every shard alive, and has sent nothing on the client's connection *)
  qu_alive cfg n : cfgs !! O = Some cfg -> cl_nodes cl !! O = Some n -> unavailable_peer cfg n = None;
  qu_client : client_log O c cl = [];
}.

Lemma asked_phase req cl : quiet cl -> br_request_id req = rid -> br_prompt req = prompt -> max_of_request req = max ->
  in_phase (Act 0 1) (asked io render now cfgs layers O c (Some (PBegin req)) cl).
Proof.
  intros Hqu Hrid Hprompt Hmax. pose proof (rg_two Hring) as Htwo. pose proof (qu_nodes _ Hqu) as Hln.
  destruct (lookup_lt_is_Some_2 cfgs O) as [cfg Hc]; [lia|]. destruct (lookup_lt_is_Some_2 (cl_nodes cl) O) as [n Hn]; [lia|].
  destruct (qu_node _ Hqu n) as (Hwf & Hth & _ & Hcap & Hpend); [by eapply list_elem_of_lookup_2|].
  assert (Hh : is_head cfg = true) by (unfold is_head; rewrite (rg_first Hring cfg Hc); done).
  assert (Ht : is_tail cfg = false) by (rewrite (ring_tail O cfg Hc); apply bool_decide_eq_false_2; lia).
  destruct (begin_step total nslots io render now m prov orch io_ok total_fits states_sendable cfg c req [] n (ring_in O cfg Hc) Ht Hh
    (qu_alive _ Hqu _ _ Hc Hn) Hwf Hth) as (out & ref & Hw & Ho & Hna & Hse); [by rewrite Hrid..|]. rewrite Hrid, Hprompt, Hmax in *.
  unfold asked. rewrite Hc, Hn.
  change (moved cfgs O cfg n ?n' cl) with (moved cfgs O cfg n n' (mkCluster (cl_nodes cl) (cl_queues cl))).
  eapply moved_to; [done|done|done|rewrite (qu_queues _ Hqu); apply length_replicate|exact Hw|cbn; lia| | | |].
  - split; [done|]. by exists ref.
  - intros i' cfg' n2 Hne Hi' Hn2. destruct (qu_node _ Hqu n2) as (Hwf2 & Hth2 & Hkv2 & Hcap2 & _); [by eapply list_elem_of_lookup_2|].
    split; [|by rewrite decide_False]. cbn [done_steps]. rewrite decide_False by lia. split; [|done|by rewrite Hcap2].
    rewrite Hkv2. apply (fresh_serves total nslots).
  - intros i' q Hq. rewrite (qu_queues _ Hqu) in Hq. apply lookup_replicate in Hq as [-> _]. rewrite next_of_mid by lia. cbn [queue_ok].
    destruct (decide (i' = 1%nat)) as [->|]; [|done]. destruct (lookup_lt_is_Some_2 cfgs 1) as [cfg' Hc']; [lia|].
    destruct (rg_next Hring O cfg cfg' Hc Hc') as [Hs _]. exists cfg', out. by rewrite Hs.
  - cbn. by rewrite (qu_client _ Hqu).
Qed.

End generation.

Section theorems.
Context {T M Slot C R : Type} `{TextModel T M Slot} `{StackLib C} `{RandomSource R} `{NodeBackend T (list Slot) C}.
Context (total : Z) (nslots : nat) `{!ModelLaws total nslots}.
Context (io : nat -> bool) (render : Detail -> string) (now : float) (m : ShardMap) (prov : bool).
Context (orch : NodeConfig -> option (Z -> T -> M * M -> chain_t -> eff (list Slot) (T * chain_t))).
Context (cfgs : list NodeConfig).
Abbreviation Cluster := (Cluster T (list Slot) C R).
Abbreviation layers := (shard_layers now orch).
Abbreviation step := (cl_step io render now cfgs layers).
Implicit Types (cl : Cluster).
Hypothesis io_ok : forall k, io k = true.
Hypothesis total_fits : total < 2 ^ 32.
Hypothesis states_sendable : forall h : T, sendable h.
Hypothesis tokens_fit : forall h : T, in_u32 (nb_argmax_last h) = true.
Hypothesis Hring : ring total m prov cfgs.
Hypothesis Hsplit : splits_exact nslots prov orch cfgs.

(** The number of tokens: zero asks for one. *)
Definition tokens_of (max : Z) : nat := S (Z.to_nat (max - 1)).

Lemma begin_phase rid c prompt max env cl : quiet cfgs rid c cl -> begin_envelope rid prompt max = Ok env ->
  in_phase total nslots m prov cfgs prompt rid c (Z.of_nat (tokens_of max)) (tokens_of max) (Act 0 1) (asked io render now cfgs layers O c env cl).
Proof.
  intros Hq He. unfold begin_envelope, built in He. destruct (payload_ok _) eqn:Hok; [|done]. injection He as <-.
  assert (Hm : in_u32 max = true) by (cbn in Hok; by apply andb_true_iff in Hok as [_ Hm]).
  eapply asked_phase; [done..|unfold tokens_of; lia|done|done|done|].
  unfold max_of_request, tokens_of. cbn [br_max_new_tokens]. unfold in_u32 in Hm. destruct (max =? 0) eqn:E; lia.
Qed.

Lemma tokens_fit_max rid prompt max env : begin_envelope rid prompt max = Ok env -> in_u32 (Z.of_nat (tokens_of max)) = true.
Proof.
  intros He. unfold begin_envelope, built in He. destruct (payload_ok _) eqn:Hok; [|done].
  assert (Hm : in_u32 max = true) by (cbn in Hok; by apply andb_true_iff in Hok as [_ Hm]).
  clear -Hm. unfold tokens_of, in_u32 in *. apply andb_true_iff in Hm as [H1 H2]. apply andb_true_iff.
  rewrite Z.leb_le, Z.ltb_lt in *. destruct (Z.eq_dec max 0) as [->|]; [done|]. rewrite Nat2Z.inj_succ, Z2Nat.id by lia. lia.
Qed.

(** The shards generate what the model generates in one process: from a ring of
    idle shards, every schedule ends, the client always has a beginning of the
    reference's tokens, and in the end exactly these. *)
Theorem ring_generates rid c prompt max env cl :
  quiet cfgs rid c cl -> begin_envelope rid prompt max = Ok env ->
  exists toks, generate_greedy total now prompt max = Ok toks /\
    sn step (asked io render now cfgs layers O c env cl) /\
    forall cl', rtc step (asked io render now cfgs layers O c env cl) cl' ->
      client_log O c cl' `prefix_of` token_replies rid 0 toks /\
      (nf step cl' -> generate (client_log O c cl') = Ok toks /\
         Forall (forgotten rid) (cl_nodes cl') /\ Forall (fun q => q = []) (cl_queues cl')).
Proof.
  intros Hq He. pose proof (begin_phase rid c prompt max env cl Hq He) as Hp.
  pose proof (tokens_fit_max _ _ _ _ He) as Hmax.
  eexists. split; [apply (generate_greedy_ok total nslots)|]. fold (tokens_of max).
  split; [eapply phase_sn; [..|exact Hp]; try done; unfold tokens_of; lia|]. intros cl' Hr. split.
  - eapply phase_rtc in Hr as (p' & Hp'); [..|exact Hp]; try done; [|unfold tokens_of; lia].
    rewrite (ip_client _ _ _ _ _ _ _ _ _ _ _ _ Hp'). eapply (client_prefix total cfgs prompt rid (tokens_of max)); [unfold tokens_of; lia|apply Hp'].
  - intros Hnf. eapply phase_end in Hnf; [|..|exact Hp|exact Hr]; try done; [|unfold tokens_of; lia].
    rewrite (ip_client _ _ _ _ _ _ _ _ _ _ _ _ Hnf). cbn [client_of]. unfold all_replies. split; [|split].
    + rewrite <- (app_nil_r (token_replies _ _ _)). by apply client_reads.
    + apply Forall_lookup. intros i n Hn. pose proof (lookup_lt_Some _ _ _ Hn) as Hlt. rewrite (ip_nodes _ _ _ _ _ _ _ _ _ _ _ _ Hnf) in Hlt.
      destruct (lookup_lt_is_Some_2 cfgs i) as [cfg Hc]; [done|].
      pose proof (ip_node _ _ _ _ _ _ _ _ _ _ _ _ Hnf i cfg n Hc Hn) as (_ & _ & Hf). by rewrite decide_True in Hf.
    + apply Forall_lookup. intros i q Hqi. pose proof (lookup_lt_Some _ _ _ Hqi) as Hlt. rewrite (ip_queues _ _ _ _ _ _ _ _ _ _ _ _ Hnf) in Hlt.
      pose proof (ip_queue _ _ _ _ _ _ _ _ _ _ _ _ Hnf i q Hqi) as ->. by rewrite decide_False by lia.
Qed.

Lemma range_lookup a b i : 0 <= i < b - a -> range a b !! Z.to_nat i = Some (a + i).
Proof.
  intros Hi. unfold range, zrange. rewrite !list_lookup_fmap, lookup_seq_lt by lia. cbn. f_equal. lia.
Qed.

(** C11: the states between the shards are the reference's. Once a request is
    done, each shard but the last has captured, first among the states it handed
    on, the state that [ReferenceModel.prefill_trace] records at the input of
    the layer after its range. *)
Theorem boundary_states_exact rid c prompt max env norm cl cl' i cfg n :
  quiet cfgs rid c cl -> begin_envelope rid prompt max = Ok env ->
  rtc step (asked io render now cfgs layers O c env cl) cl' -> nf step cl' ->
  cfgs !! i = Some cfg -> (S i < length cfgs)%nat -> cl_nodes cl' !! i = Some n ->
  exists tr h rest, prefill_trace total now norm prompt = Ok tr /\
    layer_inputs tr !! Z.to_nat (ss_end (nc_shard cfg)) = Some h /\
    dict_get rid (rs_captures (n_req n)) = Some ((ss_end (nc_shard cfg), h) :: rest).
Proof.
  intros Hq He Hr Hnf Hc Hi Hn. pose proof (begin_phase rid c prompt max env cl Hq He) as Hp.
  pose proof (tokens_fit_max _ _ _ _ He) as Hmax.
  eapply phase_end in Hnf; [|..|exact Hp|exact Hr]; try done; [|unfold tokens_of; lia].
  pose proof (ip_node _ _ _ _ _ _ _ _ _ _ _ _ Hnf i cfg n Hc Hn) as (_ & Hcap & _).
  pose proof (ring_tail total nslots m prov orch cfgs Hring Hsplit i cfg Hc) as Ht. rewrite bool_decide_eq_false_2 in Ht by lia.
  specialize (Hcap Ht). unfold tokens_of in Hcap. cbn [seq] in Hcap. rewrite fmap_cons in Hcap.
  destruct (lookup_lt_is_Some_2 cfgs (S i)) as [cfg' Hc']; [done|]. destruct (rg_next _ _ _ _ Hring i cfg cfg' Hc Hc') as [Hs _].
  pose proof (ir_range _ _ _ _ (rg_shard _ _ _ _ Hring i cfg Hc)). pose proof (ir_range _ _ _ _ (rg_shard _ _ _ _ Hring _ cfg' Hc')).
  do 3 eexists. split; [apply (prefill_trace_ok total nslots); lia|]. cbn [layer_inputs]. split.
  - rewrite list_lookup_fmap, range_lookup by lia. reflexivity.
  - destruct (dict_get rid (rs_captures (n_req n))) as [x|]; [|done]. cbn [default from_option id] in Hcap. by rewrite Hcap.
Qed.

End theorems.
