(* ===== verification/ClusterWitnesses.v ===== *)
(** * A concrete ring

    A model of three layers whose slots count what went through them, on the
    three shards of [NodeWitnesses.demo_map]. *)
From S2P Require Import Prelude PyDict PyFloat PyList PyRandom Records SwimState.
From S2P Require Import Wire Messages Ownership Runner ShardMap Trackers Provenance Experts Effects Migration MigrationTheorems.
From S2P Require Import Engine NodeState NodeHandlers Client NodeTheorems NodeProvenance NodeWitnesses Layers Reference Cluster ShardSteps ClusterTheorems.
From stdpp Require Import relations.
Open Scope Z_scope.

#[local] Existing Instance demo_lib.
#[local] Existing Instance demo_laws.
#[local] Existing Instance row_weights.

(** ** A schedule *)

Section schedule.
Context {T K C R : Type} `{StackLib C} `{RandomSource R} `{NodeBackend T K C}.
Context (cfgs : list NodeConfig) (layers : NodeConfig -> T -> chain_t -> eff K (T * chain_t)).
Abbreviation step := (cl_step all_well no_text f0 cfgs layers).
Abbreviation handle := (handled all_well no_text f0 layers).
Implicit Types (cl : Cluster T K C R).

(** The first message under way, or the first waiting thread with a token. *)
Definition step_at cl (i : nat) (cfg : NodeConfig) (n : NodeState T K C R) : option (Cluster T K C R) :=
  match cl_queues cl !! i with
  | Some (msg :: queue) =>
      Some (moved cfgs i cfg n (handle cfg (Message 0%nat msg.1 msg.2) n) (mkCluster (cl_nodes cl) (<[i := queue]> (cl_queues cl))))
  | _ =>
      '(_, ref) ← rs_threads (n_req n) !! 0%nat;
      st ← rs_store (n_req n) !! ref;
      match hs_queue st with
      | [] => None
      | _ => Some (moved cfgs i cfg n (handle cfg (Resume 0) n) cl)
      end
  end.

Definition first_step cl : option (Cluster T K C R) :=
  foldr (fun i r => match (cfg ← cfgs !! i; n ← cl_nodes cl !! i; step_at cl i cfg n) with Some cl' => Some cl' | None => r end)
    None (seq 0 (length cfgs)).

Fixpoint settle (fuel : nat) cl : Cluster T K C R :=
  match fuel with
  | O => cl
  | S fuel => match first_step cl with Some cl' => settle fuel cl' | None => cl end
  end.

Lemma step_at_step cl i cfg n cl' : cfgs !! i = Some cfg -> cl_nodes cl !! i = Some n -> step_at cl i cfg n = Some cl' -> step cl cl'.
Proof.
  intros Hc Hn. unfold step_at. destruct (cl_queues cl !! i) as [[|msg queue]|] eqn:Hq;
    [|intros [= <-]; by eapply (step_deliver _ _ _ _ _ i 0%nat)|];
    (destruct (rs_threads (n_req n) !! 0%nat) as [[rid ref]|] eqn:Ht; [|done]; cbn [mbind option_bind];
     destruct (rs_store (n_req n) !! ref) as [st|] eqn:Hs; [|done]; cbn [mbind option_bind];
     destruct (hs_queue st) eqn:Hh; [done|]; intros [= <-];
     eapply (step_wake _ _ _ _ _ i 0%nat); [done..|by rewrite Hh]).
Qed.

Lemma first_step_step cl cl' : first_step cl = Some cl' -> step cl cl'.
Proof.
  unfold first_step. induction (seq 0 (length cfgs)) as [|i rest IH]; [done|]. cbn [foldr].
  destruct (cfgs !! i) as [cfg|] eqn:Hc; [|exact IH]. cbn [mbind option_bind].
  destruct (cl_nodes cl !! i) as [n|] eqn:Hn; [|exact IH]. cbn [mbind option_bind].
  destruct (step_at cl i cfg n) as [cl1|] eqn:Hs; [|exact IH]. intros [= <-]. by apply (step_at_step cl i cfg n).
Qed.

Lemma settle_steps fuel cl : rtc step cl (settle fuel cl).
Proof.
  revert cl. induction fuel as [|fuel IH]; intros cl; [apply rtc_refl|]. cbn [settle].
  destruct (first_step cl) as [cl'|] eqn:E; [|apply rtc_refl]. eapply rtc_l; [by apply first_step_step|apply IH].
Qed.

(** No message and no thread. *)
Lemma settled cl : Forall (fun q => q = []) (cl_queues cl) -> Forall (fun n => rs_threads (n_req n) = []) (cl_nodes cl) -> nf step cl.
Proof.
  intros Hq Ht [cl' Hs]. destruct Hs as [i conn cfg n msg queue cl Hc Hn Hl|i thread rid ref st cfg n cl Hc Hn Hth _ _].
  - by apply (Forall_lookup_1 _ _ _ _ Hq) in Hl.
  - apply (Forall_lookup_1 _ _ _ _ Ht) in Hn. by rewrite Hn in Hth.
Qed.

End schedule.

(** ** A model of three layers *)

(** A state and its number of positions. *)
Abbreviation seq_state := (Byte.byte * Byte.byte)%type.

#[local] Instance seq_wire : TensorWire seq_state := {
  tensor_to_bytes t := [t.1; t.2];
  tensor_shape t := [of_byte t.2];
  dtype_to_wire _ := Ok 6;
  bytes_to_tensor raw _ _ := match raw with [a; b] => Ok (a, b) | _ => Raise ValueError end;
}.

#[local] Instance seq_backend : NodeBackend seq_state (list Z) Z := {
  nb_wire := seq_wire;
  nb_weights := row_weights;
  nb_make_cache := [0; 0; 0];
  nb_embed toks := (byte_of (foldl Z.add 0 toks), byte_of (Z.of_nat (length toks)));
  nb_finalize h := h;
  nb_argmax_last h := of_byte h.1;
  nb_run_selected _ _ _ _ := Raise KeyError;
  nb_stack _ := Raise ValueError;
}.

(** A layer adds its slot, its index and the mask to the state, and the state to its slot. *)
#[local] Instance seq_model : TextModel seq_state Z Z := {
  tm_full_attention i := Ok (Z.even i);
  tm_cache_idx i := Ok i;
  tm_layer i h m c := ((byte_of (of_byte h.1 + c + i + m), h.2), c + of_byte h.1);
  tm_first_full := 0;
  tm_first_sliding := 1;
  tm_window := 8;
  create_attention_mask h c _ := if of_byte h.2 =? 1 then 0 else of_byte h.2 + default 0 c;
}.

#[local] Instance seq_laws : ModelLaws 3 3.
Proof.
  refine {| positions h := of_byte h.2; rotating _ := True |}; try done.
  - intros i Hi. exists (Z.even i), i. done.
  - intros i j k _ _ Hi Hj. cbn in Hi, Hj. congruence.
  - intros h h' c w He. cbn in He |- *. by rewrite He.
  - intros h c c' He. cbn in He |- *. by rewrite He.
  - intros h c c' He _ _. cbn in He |- *. by rewrite He.
Defined.

Lemma seq_sendable (h : seq_state) : @sendable _ (@nb_wire _ _ _ seq_backend) h.
Proof.
  destruct h as [a b]. eexists. split; [reflexivity|]. split; [|done]. pose proof (of_byte_u32 b) as Hb.
  assert (in_i64 (of_byte b) = true) as Hi by (unfold in_u32, in_i64 in *; lia).
  unfold tensor_ok, td_shape. cbn [forallb tensor_shape nb_wire seq_backend seq_wire snd]. by rewrite Hi.
Qed.

Lemma seq_tokens (h : seq_state) : in_u32 (nb_argmax_last h) = true.
Proof. apply of_byte_u32. Qed.

Definition ring_cfgs (prov : bool) : list NodeConfig :=
  [cfg_of "a" 0 1 prov (shard_of "b" 1 2); cfg_of "b" 1 2 prov (shard_of "c" 2 3); cfg_of "c" 2 3 prov (shard_of "a" 0 1)].

Definition no_orchestrator (cfg : NodeConfig) : option (Z -> seq_state -> Z * Z -> chain_t -> eff (list Z) (seq_state * chain_t)) := None.

Lemma demo_in_ring prov sid a b next : (sid, a, b) ∈ [("a", 0, 1); ("b", 1, 2); ("c", 2, 3)] ->
  ring_shard 3 demo_map prov (cfg_of sid a b prov next).
Proof.
  intros Hin. apply list_elem_of_In in Hin. destruct Hin as [[= <- <- <-]|[[= <- <- <-]|[[= <- <- <-]|[]]]];
    (split; [reflexivity|reflexivity|reflexivity|reflexivity|cbn; lia
      |intros _; split; [done|intros l Hl; inversion Hl]]).
Qed.

Lemma demo_ring prov : ring 3 demo_map prov (ring_cfgs prov).
Proof.
  split.
  - intros i cfg Hi. do 3 (destruct i as [|i]; [injection Hi as <-; apply demo_in_ring; set_solver|]). done.
  - by intros cfg [= <-].
  - intros i cfg cfg' Hi Hi'. do 2 (destruct i as [|i]; [by injection Hi as <-; injection Hi' as <-|]). by destruct i.
  - intros i cfg cfg' Hi Hl Hi'. cbn in Hl. assert (i = 2%nat) as -> by lia. by injection Hi as <-; injection Hi' as <-.
  - apply (bool_decide_unpack _). vm_compute. exact I.
  - cbn. lia.
Qed.

Definition fresh_node : NodeState seq_state (list Z) Z script :=
  mkNode demo_own (mkRequests [] [] [] [] [] []) (mkNet None 0 0 []) (mkService 0 (mkLoadTracker f0 f0 f0) []).
Definition idle_ring : Cluster seq_state (list Z) Z script := mkCluster [fresh_node; fresh_node; fresh_node] [[]; []; []].

Lemma idle_quiet prov : quiet (ring_cfgs prov) "r" 4 idle_ring.
Proof.
  split; try done.
  - intros n Hn. assert (n = fresh_node) as -> by (repeat (apply elem_of_cons in Hn as [->|Hn]; [done|]); inversion Hn).
    split; [|done]. split; apply NoDup_nil_2.
  - by intros cfg n [= <-] [= <-].
Qed.

Abbreviation ring_layers := (shard_layers f0 no_orchestrator).
Abbreviation ring_step prov := (cl_step all_well no_text f0 (ring_cfgs prov) ring_layers).

(** A prompt of two tokens and three tokens in return, without and with provenance. *)
Definition ask3 : Envelope := ok_or None (begin_envelope "r" [5; 6] 3).
Definition asked_ring (prov : bool) : Cluster seq_state (list Z) Z script :=
  asked all_well no_text f0 (ring_cfgs prov) ring_layers 0 4 ask3 idle_ring.

Definition settled_ring (prov : bool) : Cluster seq_state (list Z) Z script := settle (ring_cfgs prov) ring_layers 20 (asked_ring prov).

Lemma settled_ring_steps prov : rtc (ring_step prov) (asked_ring prov) (settled_ring prov).
Proof. apply settle_steps. Qed.

Lemma settled_ring_nf : nf (ring_step true) (settled_ring true) /\ nf (ring_step false) (settled_ring false).
Proof. split; apply settled; vm_compute; repeat constructor. Qed.

Lemma boundary_states_exact_witness :
  exists n tr h rest, cl_nodes (settled_ring true) !! 1%nat = Some n /\
    prefill_trace 3 f0 (fun h => h) [5; 6] = Ok tr /\ layer_inputs tr !! 2%nat = Some h /\
    dict_get "r" (rs_captures (n_req n)) = Some ((2, h) :: rest).
Proof.
  assert (is_Some (cl_nodes (settled_ring true) !! 1%nat)) as [n Hn] by (vm_compute; eauto). exists n.
  destruct (boundary_states_exact 3 3 all_well no_text f0 demo_map true no_orchestrator (ring_cfgs true) (fun _ => eq_refl) eq_refl
    seq_sendable seq_tokens (demo_ring true) (fun Hp : true = false => ltac:(discriminate)) "r" 4 [5; 6] 3 ask3 (fun h => h) idle_ring (settled_ring true) 1 _ n
    (idle_quiet true) eq_refl (settled_ring_steps true) (proj1 settled_ring_nf) eq_refl ltac:(cbn; lia) Hn) as (tr & h & rest & Hb).
  exists tr, h, rest. split; [exact Hn|exact Hb].
Defined.
