(* ===== verification/RunNode.v ===== *)
(** * scripts/run_node.py: starting a node, and the cluster it makes

    [main] between its arguments and [serve_forever]: the shard map, the shard,
    the number of layers, the model, the node and the socket of the debug
    endpoint; and what the endpoint answers.  A
    document whose shards tile the layers of the model starts as the ring the
    theorems of [SplitCluster] are about, whatever the order of its entries. *)
From S2P Require Import Prelude PyDict PyFloat PyRandom Records SwimState SwimProps.
From S2P Require Import Ownership Runner ShardMap Trackers Experts Effects Migration.
From S2P Require Import NodeState Settings NodeInit NodeHandlers Layers Cluster ShardSteps ClusterTheorems.
Open Scope Z_scope.

(** ** The program *)

(** [max] of an iterable *)
Definition py_max (l : list Z) : result Z :=
  match l with
  | [] => Raise ValueError
  | x :: xs => Ok (foldl Z.max x xs)
  end.

(** [a or b] on strings, [None] being absent *)
Definition or_else (a : option string) (b : string) : string :=
  match a with
  | Some s => if decide (s = "") then b else s
  | None => b
  end.

Definition dry_run (env : environ) : bool := bool_decide (dict_get "SHARD_DRY_RUN" env = Some "true").

Section run_node.
Context {T K C R : Type} `{StackLib C} `{RandomSource R}.
(** [str] of YAML values, [float] of strings, the model loader, and what
    MagicMock stands in with. *)
Context (repr : yaml -> string) (float_of : string -> result float) (load_model : string -> list (list (Attr C))) (magic_mock : Z -> LoadedModel C).
Abbreviation Node := (NodeConfig * NodeState T K C R)%type.

(** The number of layers the map speaks of. *)
Definition map_total_layers (m : ShardMap) : result Z :=
  ends ← mapR (fun sid => s ← lookup_shard sid m; Ok (ss_end s)) (all_shards m); py_max ends.

(** The model handed to the node: a stand-in in a dry run, else none, and the
    node loads its own. *)
Definition given_model (env : environ) (total_layers : Z) : option (LoadedModel C) :=
  if dry_run env then Some (magic_mock total_layers) else None.

(** [main], up to [serve_forever]. [udp_bind] and [tcp_bind] are what binding a
    socket to a port gives on this machine; the debug endpoint's is bound after
    the node is made. *)
Definition run_node (udp_bind tcp_bind : Z -> result unit) (env : environ) (config : yaml) (shard_id : string) (model : option string)
    (rng : R) (wall_clock_s : Z) : result Node :=
  shard_map ← from_yaml repr config;
  let model_id := or_else model (sm_model_id shard_map) in
  if decide (model_id = "") then Raise SystemExit else
  shard ← lookup_shard shard_id shard_map;
  total_layers ← map_total_layers shard_map;
  node ← init_node float_of load_model udp_bind env shard shard_map (given_model env total_layers) total_layers rng wall_clock_s;
  _ ← tcp_bind (na_port (ss_address shard) + 2000);
  Ok node.

(** *** The debug endpoint *)

(** [rec.state.name] *)
Definition state_name (s : MemberState) : string :=
  match s with
  | ALIVE => "ALIVE"
  | SUSPECT => "SUSPECT"
  | DEAD => "DEAD"
  end.

Inductive Json : Type := JInt (n : Z) | JStr (s : string).

(** [Node.self_load_report], at a clock in milliseconds *)
Definition self_load_report (cfg : NodeConfig) (now_ms : Z) (rng : R) (n : NodeState T K C R) : result LoadReportRecord * R :=
  let '(q, rng) := load_report (sv_load (n_srv n)) rng in
  (queue_depth_ema ← q; Ok (mkLoad (me cfg) queue_depth_ema now_ms), rng).

(** [Node.debug_captures_for], [clear_debug_captures] *)
Definition debug_captures_for (request_id : string) (n : NodeState T K C R) : list (Z * T) :=
  default [] (dict_get request_id (rs_captures (n_req n))).
Definition clear_debug_captures (n : NodeState T K C R) : NodeState T K C R := set_req (set_captures [] (n_req n)) n.

(** The reply to a GET: a JSON object of objects, or None for a 404. [load] is
    [Node.self_load_report]. *)
Definition debug_get (path : string) (load : LoadReportRecord) (n : NodeState T K C R) : option (dict string (dict string Json)) :=
  let of_load (l : LoadReportRecord) := [("queue_depth_ema", JInt (lr_queue_depth_ema l)); ("ts_unix_ms", JInt (lr_ts_unix_ms l))] in
  if decide (path = "/membership") then
    Some match o_membership (n_own n) with
         | None => []
         | Some r => (fun it : string * MemberRecord =>
             (it.1, [("state", JStr (state_name (mstate it.2))); ("incarnation", JInt (incarnation it.2))])) <$> (view (r_state r) : list _)
         end
  else if decide (path = "/loads") then
    Some match o_membership (n_own n) with
         | None => []
         | Some r => dict_set (lr_shard_id load) (of_load load)
             ((fun it : string * LoadReportRecord => (it.1, of_load it.2)) <$> (latest_loads r : list _))
         end
  else None.

End run_node.

(** ** Maps whose shards tile the layers *)

(** One after the other from layer [a] to layer [b]. *)
Fixpoint tiles (a b : Z) (specs : list ShardSpec) : Prop :=
  match specs with
  | [] => a = b
  | s :: specs => ss_start s = a /\ tiles (ss_end s) b specs
  end.

Lemma py_max_spec l b : b ∈ l -> (forall x, x ∈ l -> x <= b) -> py_max l = Ok b.
Proof.
  destruct l as [|x xs]; intros Hb Hl; [inversion Hb|]. cbn. f_equal.
  assert (forall x, x <= b -> b ∈ x :: xs -> (forall y, y ∈ xs -> y <= b) -> foldl Z.max x xs = b) as Hgen.
  2: { apply Hgen; [apply Hl; left|done|intros y Hy; apply Hl; by right]. }
  clear Hb Hl x. induction xs as [|y ys IH]; intros x Hx Hb Hl; cbn.
  - by apply list_elem_of_singleton in Hb as ->.
  - pose proof (Hl y (list_elem_of_here _ _)). apply IH; [lia| |intros z Hz; apply Hl; by right].
    apply elem_of_cons in Hb as [->|[->|Hb]%elem_of_cons]; [| |by right].
    + rewrite Z.max_l by lia. left.
    + rewrite Z.max_r by lia. left.
Qed.

Lemma first_peer_unique self t p peers : p ∈ peers -> ss_start p = t -> ss_shard_id p <> ss_shard_id self ->
  (forall q, q ∈ peers -> ss_start q = t -> q = p) -> first_peer self t peers = Some p.
Proof.
  intros Hp Ht Hne Hu. induction peers as [|q peers IH]; [inversion Hp|]. cbn. case_decide as Hd.
  - f_equal. apply Hu; [left|apply Hd].
  - apply elem_of_cons in Hp as [->|Hp]; [by destruct Hd|]. apply IH; [done|]. intros x Hx. apply Hu. by right.
Qed.

Section tiling.
Implicit Types (specs : list ShardSpec).
Definition proper specs : Prop := forall s, s ∈ specs -> ss_start s < ss_end s.

Lemma tiles_le a b specs : proper specs -> tiles a b specs -> a <= b.
Proof.
  revert a. induction specs as [|x l IH]; intros a Hp Ht; cbn in Ht; [lia|]. destruct Ht as [Ha Ht].
  pose proof (Hp x (list_elem_of_here _ _)). specialize (IH (ss_end x) ltac:(intros y Hy; apply Hp; by right) Ht). lia.
Qed.

Lemma tiles_app a b l1 l2 : tiles a b (l1 ++ l2) -> exists c, tiles a c l1 /\ tiles c b l2.
Proof.
  revert a. induction l1 as [|x l1 IH]; intros a Ht; [by exists a|]. destruct Ht as [Ha Ht].
  destruct (IH _ Ht) as (c & H1' & H2'). by exists c.
Qed.

Lemma tiles_at a b specs i s : proper specs -> tiles a b specs -> specs !! i = Some s -> a <= ss_start s /\ ss_end s <= b.
Proof.
  intros Hp Ht Hi. apply list_elem_of_split_length in Hi as (l1 & l2 & -> & _).
  apply tiles_app in Ht as (c & H1' & Hs & H2'). apply tiles_le in H1', H2'; [lia|intros y Hy; apply Hp; set_solver..].
Qed.

Lemma tiles_next a b specs i s s' : tiles a b specs -> specs !! i = Some s -> specs !! S i = Some s' -> ss_start s' = ss_end s.
Proof.
  revert a i. induction specs as [|x l IH]; intros a i Ht Hi Hi'; [done|]. destruct Ht as [_ Ht], i as [|i].
  - injection Hi as ->. destruct l as [|y l]; [done|]. injection Hi' as ->. by destruct Ht.
  - by apply (IH _ i Ht).
Qed.

Lemma tiles_last a b specs i s : tiles a b specs -> specs !! i = Some s -> S i = length specs -> ss_end s = b.
Proof.
  revert a i. induction specs as [|x l IH]; intros a i Ht Hi Hl; [done|]. destruct Ht as [_ Ht], i as [|i]; cbn in Hi, Hl.
  - injection Hi as ->. by destruct l.
  - by apply (IH _ i Ht); [|lia].
Qed.

Lemma tiles_order a b specs i j s s' : proper specs -> tiles a b specs -> specs !! i = Some s -> specs !! j = Some s' ->
  (i < j)%nat -> ss_end s <= ss_start s'.
Proof.
  intros Hp Ht Hi Hj Hij. revert a i j Ht Hi Hj Hij. induction specs as [|x l IH]; intros a i j Ht Hi Hj Hij; [done|]. destruct Ht as [_ Ht].
  assert (Hl : proper l) by (intros y Hy; apply Hp; by right). destruct j as [|j]; [lia|]. destruct i as [|i]; cbn in Hi, Hj.
  - injection Hi as ->. by apply (tiles_at _ _ _ _ _ Hl Ht Hj).
  - apply (IH Hl _ i j Ht); [done..|lia].
Qed.

Lemma tiles_start_inj a b specs i j s s' : proper specs -> tiles a b specs -> specs !! i = Some s -> specs !! j = Some s' ->
  ss_start s = ss_start s' -> i = j.
Proof.
  intros Hp Ht Hi Hj He. pose proof (Hp s (list_elem_of_lookup_2 _ _ _ Hi)). pose proof (Hp s' (list_elem_of_lookup_2 _ _ _ Hj)).
  destruct (Nat.lt_trichotomy i j) as [Hlt|[->|Hlt]]; [|done|].
  - pose proof (tiles_order _ _ _ _ _ _ _ Hp Ht Hi Hj Hlt). lia.
  - pose proof (tiles_order _ _ _ _ _ _ _ Hp Ht Hj Hi Hlt). lia.
Qed.

End tiling.

(** ** A node is built *)

Section start.
Context {T Slot C R : Type} `{StackLib C} `{RandomLaws R}.
Context (float_of : string -> result float) (load_model : string -> list (list (Attr C))).
Implicit Types (s next : ShardSpec) (m : ShardMap) (env : environ).

Lemma membership_starts udp_bind s m (rng : R) wall : dict_get (ss_shard_id s) (entries m) = Some s ->
  udp_bind (ss_udp_port s) = Ok tt -> exists r, build_membership_runner udp_bind s m rng wall = Ok r /\
    forall sid, sid ∈ all_shards m -> exists rec, dict_get sid (members (r_state r)) = Some rec /\ mstate rec = ALIVE.
Proof.
  intros Hs Hu. unfold build_membership_runner, init_runner. rewrite Hu.
  match goal with |- context [init_state ?self ?peers ?r ?c ?model ?inc] =>
    destruct (init_wf self peers r c model inc) as (st & -> & _ & _ & _ & Hm);
    destruct (initial_members_spec self peers model inc) as (_ & Halive & _);
    pose proof (initial_members_known self peers model inc) as Hknown
  end.
  eexists. split; [reflexivity|]. intros sid Hsid. cbn [register_ownership_observer set_registrations r_state]. rewrite Hm.
  assert (exists p, p ∈ mkPeer (ss_shard_id s) (na_host (ss_address s)) (ss_udp_port s) ::
    ((fun it : string * ShardSpec => mkPeer it.1 (na_host (ss_address it.2)) (ss_udp_port it.2)) <$>
     filter (fun it : string * ShardSpec => it.1 <> ss_shard_id s) (entries m : list _)) /\ ps_shard_id p = sid) as (p & Hp & <-).
  { destruct (decide (sid = ss_shard_id s)) as [->|Hne]; [eexists; split; [left|done]|].
    apply list_elem_of_fmap in Hsid as ([sid' x] & -> & Hx).
    exists (mkPeer sid' (na_host (ss_address x)) (ss_udp_port x)). split; [|done]. right. apply list_elem_of_fmap.
    exists (sid', x). split; [done|]. by apply list_elem_of_filter. }
  specialize (Hknown p Hp). apply dict_get_in in Hknown as [rec Hr]. exists rec. split; [done|]. by apply (Halive _ _ Hr).
Qed.

Lemma first_not_alive_none view sids :
  (forall sid, sid ∈ sids -> exists rec, dict_get sid view = Some rec /\ mstate rec = ALIVE) -> first_not_alive view sids = None.
Proof.
  induction sids as [|sid sids IH]; intros Hv; [done|]. cbn. destruct (Hv sid (list_elem_of_here _ _)) as (rec & -> & ->).
  rewrite decide_True by done. apply IH. intros x Hx. apply Hv. by right.
Qed.

(** What [Node.__init__] checks: the flags, the backend, the numbers it reads
    from the environment, and its UDP port. *)
Record accepts udp_bind env s m given : Prop := {
  ac_flags : dynamic_migration_enabled env = true -> partial_load_enabled env = true;
  ac_backend : is_ok (build_backend load_model env s m given) = true;
  ac_scanner : dynamic_migration_enabled env = true -> is_ok (migration_policy float_of env) = true;
  ac_retry : split_layers_of env s <> [] -> is_ok (expert_retry_max_attempts env) = true /\ is_ok (expert_retry_backoff_ms env) = true;
  ac_udp : gossip_enabled env = true -> udp_bind (ss_udp_port s) = Ok tt;
}.

Lemma scanner_built env : (dynamic_migration_enabled env = true -> is_ok (migration_policy float_of env) = true) ->
  is_ok (build_scanner float_of env) = true.
Proof.
  intros Hs. unfold build_scanner. destruct (dynamic_migration_enabled env); [|done]. specialize (Hs eq_refl).
  by destruct (migration_policy float_of env).
Qed.

Lemma orchestrator_built env (c : NodeConfig) :
  (nc_split_layers c <> [] -> is_ok (expert_retry_max_attempts env) = true /\ is_ok (expert_retry_backoff_ms env) = true) ->
  is_ok (build_orchestrator env c) = true.
Proof.
  intros Hc. unfold build_orchestrator, has_orchestrator. case_bool_decide as Hn; [done|]. destruct (Hc Hn) as [Ha Hb].
  unfold build_expert_orchestrator. destruct (expert_retry_max_attempts env); [|done]. by destruct (expert_retry_backoff_ms env).
Qed.

Lemma init_node_starts udp_bind env s m given total next (rng : R) wall :
  dict_get (ss_shard_id s) (entries m) = Some s -> resolve_downstream s m total = Ok next -> accepts udp_bind env s m given ->
  let cfg := mkConfig s m total (provenance_enabled env) next (split_layers_of env s) in
  exists n : NodeState T (list Slot) C R, init_node float_of load_model udp_bind env s m given total rng wall = Ok (cfg, n) /\
    n_req n = mkRequests [] [] [] [] [] [] /\ n_net n = mkNet None 0 0 [] /\ unavailable_peer cfg n = None.
Proof.
  intros Hs Hn [Hd Hb Hsc Hre Hu] cfg. destruct (build_backend load_model env s m given) as [model|e] eqn:Eb; [|done].
  unfold init_node, before_model. rewrite Hn, Eb.
  assert (negb (dynamic_migration_enabled env && negb (partial_load_enabled env)) = true) as ->.
  { destruct (dynamic_migration_enabled env); [by rewrite Hd|done]. }
  destruct (init_heat (flit 3 1) 16) as [heat|e] eqn:Eh; [|vm_compute in Eh; discriminate Eh].
  destruct (init_load (flit 3 1) (flit 1 1)) as [load|e] eqn:El; [|vm_compute in El; discriminate El].
  apply scanner_built in Hsc. destruct (build_scanner float_of env); [|done].
  apply (orchestrator_built env cfg) in Hre. destruct (build_orchestrator env cfg) eqn:Eo; [|done].
  subst cfg. destruct (gossip_enabled env).
  - destruct (membership_starts udp_bind s m rng wall Hs (Hu eq_refl)) as (r & Er & Hr). rewrite Er.
    cbn [require mbind result_bind]. rewrite Eo. eexists. split; [reflexivity|]. split; [done|]. split; [done|].
    apply first_not_alive_none, Hr.
  - cbn [require mbind result_bind]. rewrite Eo. eexists. split; [reflexivity|]. by split.
Qed.

(** ** The cluster *)

Section cluster.
Context (repr : yaml -> string) (magic_mock : Z -> LoadedModel C) (config : yaml) (m : ShardMap) (specs : list ShardSpec) (total : Z).
(** Each shard is started with an environment, a [--model] and a clock of its own. *)
Context (prov : bool) (env_of : ShardSpec -> environ) (model_arg : ShardSpec -> option string) (rng_of : ShardSpec -> R) (wall_of : ShardSpec -> Z).
(** ... and binds the sockets of its own machine. *)
Context (udp_of tcp_of : ShardSpec -> Z -> result unit).

(** The node of [s] can be built: its constructor accepts its environment, and
    the port of the debug endpoint is free. *)
Record startable s : Prop := {
  sa_prov : provenance_enabled (env_of s) = prov;
  sa_accepts : accepts (udp_of s) (env_of s) s m (given_model magic_mock (env_of s) total);
  sa_debug : tcp_of s (na_port (ss_address s) + 2000) = Ok tt;
  (** with provenance, the shard has no split layer *)
  sa_unsplit : prov = true -> forall l, l ∈ dict_keys (ss_moe s) -> ~ ss_start s <= l < ss_end s;
}.

Hypothesis loaded : from_yaml repr config = Ok m.
Hypothesis same_shards : specs ≡ₚ dict_values (entries m).
Hypothesis tiling : tiles 0 total specs.
Hypothesis two_shards : (2 <= length specs)%nat.

Lemma spec_known s : s ∈ specs -> dict_get (ss_shard_id s) (entries m) = Some s /\ ss_start s < ss_end s.
Proof using loaded same_shards.
  intros Hs. destruct (from_yaml_directory repr config m loaded) as [[Hw Hok] _]. rewrite same_shards in Hs.
  apply dict_values_in in Hs as [k Hk]. apply dict_in_get in Hk; [|done]. pose proof (Hok k s Hk) as [-> Hlt]. done.
Qed.

Lemma specs_proper : proper specs.
Proof using loaded same_shards. intros s Hs. by apply spec_known. Qed.

Lemma spec_of_id i j s s' : specs !! i = Some s -> specs !! j = Some s' -> ss_shard_id s = ss_shard_id s' -> i = j.
Proof using loaded same_shards tiling.
  intros Hi Hj He. destruct (spec_known s) as [Hs _]; [by eapply list_elem_of_lookup_2|].
  destruct (spec_known s') as [Hs' _]; [by eapply list_elem_of_lookup_2|]. rewrite He, Hs' in Hs. injection Hs as ->.
  by apply (tiles_start_inj 0 total specs i j s s specs_proper tiling Hi Hj).
Qed.

Definition next_spec i : option ShardSpec := specs !! (if decide (S i = length specs) then O else S i).

Lemma next_resolved i s : specs !! i = Some s -> exists next, next_spec i = Some next /\ resolve_downstream s m total = Ok next.
Proof using loaded same_shards tiling two_shards.
  intros Hi. pose proof (lookup_lt_Some _ _ _ Hi) as Hlt. set (k := if decide (S i = length specs) then O else S i).
  assert (Hk : (k < length specs)%nat) by (subst k; case_decide; lia).
  destruct (lookup_lt_is_Some_2 specs k Hk) as [next Hn]. exists next. split; [done|]. unfold resolve_downstream.
  assert (Hstart : ss_start next = if ss_end s =? total then 0 else ss_end s).
  { subst k. case_decide as Hd.
    - rewrite (tiles_last _ _ _ _ _ tiling Hi Hd), Z.eqb_refl. destruct specs as [|x l]; [done|]. injection Hn as ->. by destruct tiling.
    - pose proof (tiles_next _ _ _ _ _ _ tiling Hi Hn) as ->. destruct (Z.eqb_spec (ss_end s) total) as [He|]; [|done].
      pose proof (tiles_at _ _ _ _ _ specs_proper tiling Hn). pose proof (specs_proper next (list_elem_of_lookup_2 _ _ _ Hn)).
      pose proof (tiles_next _ _ _ _ _ _ tiling Hi Hn). lia. }
  rewrite (first_peer_unique s _ next); [done| |done| |].
  - rewrite <- same_shards. by eapply list_elem_of_lookup_2.
  - intros He. apply (spec_of_id _ _ _ _ Hn Hi) in He. subst k. case_decide; lia.
  - intros q Hq Hs. rewrite <- same_shards in Hq. apply list_elem_of_lookup in Hq as [j Hj].
    assert (j = k) as -> by (apply (tiles_start_inj _ _ _ _ _ _ _ specs_proper tiling Hj Hn); congruence). congruence.
Qed.

Lemma total_known : map_total_layers m = Ok total.
Proof using loaded same_shards tiling two_shards.
  unfold map_total_layers, all_shards.
  assert (mapR (fun sid => s ← lookup_shard sid m; Ok (ss_end s)) (dict_keys (entries m)) = Ok (ss_end <$> dict_values (entries m))) as ->.
  { destruct (from_yaml_directory repr config m loaded) as [[Hw _] _]. apply mapR_ok. unfold dict_keys, dict_values.
    rewrite <- list_fmap_compose, Forall2_fmap. apply Forall_Forall2_diag, Forall_forall. intros [k s] Hin. cbn.
    unfold lookup_shard. by rewrite (dict_in_get k s _ Hw Hin). }
  assert (Hmem : forall x, x ∈ ss_end <$> dict_values (entries m) <-> x ∈ ss_end <$> specs) by (intros x; by rewrite same_shards).
  destruct (lookup_lt_is_Some_2 specs (pred (length specs))) as [s Hs]; [lia|]. cbn. apply py_max_spec.
  - apply Hmem, list_elem_of_fmap. exists s. split; [|by eapply list_elem_of_lookup_2]. symmetry. apply (tiles_last _ _ _ _ _ tiling Hs). lia.
  - intros x (s' & -> & [j Hj]%list_elem_of_lookup)%Hmem%list_elem_of_fmap. by apply (tiles_at _ _ _ _ _ specs_proper tiling Hj).
Qed.

Hypothesis all_startable : forall s, s ∈ specs -> startable s.

Definition cfg_for i s : NodeConfig :=
  mkConfig s m total prov (default s (next_spec i)) (split_layers_of (env_of s) s).

Lemma node_starts i s : specs !! i = Some s -> exists n : NodeState T (list Slot) C R,
  run_node repr float_of load_model magic_mock (udp_of s) (tcp_of s) (env_of s) config (ss_shard_id s) (model_arg s) (rng_of s) (wall_of s) = Ok (cfg_for i s, n) /\
  n_req n = mkRequests [] [] [] [] [] [] /\ n_net n = mkNet None 0 0 [] /\ unavailable_peer (cfg_for i s) n = None.
Proof using All.
  intros Hi. assert (Hin : s ∈ specs) by (by eapply list_elem_of_lookup_2).
  destruct (next_resolved i s Hi) as (next & Hn & Hr). destruct (all_startable s Hin) as [Hp Ha Hdb _]. destruct (spec_known s Hin) as [Hs _].
  destruct (init_node_starts (udp_of s) (env_of s) s m _ total next (rng_of s) (wall_of s) Hs Hr Ha) as (n & Hrun & Hfresh).
  exists n. unfold cfg_for. rewrite Hn. cbn [default]. rewrite <- Hp. split; [|done].
  unfold run_node. rewrite loaded. cbn [mbind result_bind].
  rewrite decide_False.
  2: { destruct (from_yaml_directory repr config m loaded) as [_ Hm]. unfold or_else. destruct (model_arg s); [|done]. by case_decide. }
  unfold lookup_shard. rewrite Hs. cbn [or_raise mbind result_bind]. rewrite total_known. cbn [mbind result_bind]. rewrite Hrun. cbn [mbind result_bind]. by rewrite Hdb.
Qed.

Definition start_shard s : result (NodeConfig * NodeState T (list Slot) C R) :=
  run_node repr float_of load_model magic_mock (udp_of s) (tcp_of s) (env_of s) config (ss_shard_id s) (model_arg s) (rng_of s) (wall_of s).

Lemma cfg_ring_shard i s : specs !! i = Some s -> ring_shard total m prov (cfg_for i s).
Proof using All.
  intros Hi. assert (Hin : s ∈ specs) by (by eapply list_elem_of_lookup_2). destruct (spec_known s Hin) as [Hs Hlt].
  pose proof (tiles_at _ _ _ _ _ specs_proper tiling Hi). split; [done|done|done| |cbn; lia|].
  - unfold lookup_shard, me. cbn [cfg_for nc_shard]. by rewrite Hs.
  - intros Hp. pose proof (sa_unsplit _ (all_startable s Hin) Hp) as Hno. split; [|exact Hno]. cbn. unfold split_layers_of.
    case_match; [|done]. apply elem_of_nil_inv. intros l [Hr Hl]%list_elem_of_filter. by apply (Hno l).
Qed.

Lemma cfgs_ring cfgs : length cfgs = length specs ->
  (forall i cfg, cfgs !! i = Some cfg -> exists s, specs !! i = Some s /\ cfg = cfg_for i s) -> ring total m prov cfgs.
Proof using All.
  intros Hlen Hcfg. split.
  - intros i cfg Hi. destruct (Hcfg i cfg Hi) as (s & Hs & ->). by apply cfg_ring_shard.
  - intros cfg Hi. destruct (Hcfg _ _ Hi) as (s & Hs & ->). destruct specs as [|x l]; [done|]. injection Hs as ->. by destruct tiling.
  - intros i cfg cfg' Hi Hi'. destruct (Hcfg _ _ Hi) as (s & Hs & ->), (Hcfg _ _ Hi') as (s' & Hs' & ->). cbn.
    split; [by apply (tiles_next _ _ _ _ _ _ tiling Hs Hs')|]. pose proof (lookup_lt_Some _ _ _ Hs').
    unfold next_spec. rewrite decide_False by lia. by rewrite Hs'.
  - intros i cfg cfg' Hi Hl Hi'. destruct (Hcfg _ _ Hi) as (s & Hs & ->), (Hcfg _ _ Hi') as (s' & Hs' & ->). cbn.
    rewrite Hlen in Hl. split; [by apply (tiles_last _ _ _ _ _ tiling Hs Hl)|]. unfold next_spec. by rewrite decide_True, Hs'.
  - apply NoDup_alt. intros i j x Hi Hj. rewrite list_lookup_fmap in Hi, Hj.
    destruct (cfgs !! i) as [cfg|] eqn:Ei; [|done]. destruct (cfgs !! j) as [cfg'|] eqn:Ej; [|done].
    destruct (Hcfg _ _ Ei) as (s & Hs & ->), (Hcfg _ _ Ej) as (s' & Hs' & ->). apply (spec_of_id i j s s'); [done|done|].
    change (Some (ss_shard_id s) = Some x) in Hi. change (Some (ss_shard_id s') = Some x) in Hj. congruence.
  - by rewrite Hlen.
Qed.

(** C3: a launched cluster is a ring. Take a document whose shards, in whatever
    order they are listed, tile the layers [0, total), at least two of them, and
    start one node per shard with [run_node], each on a machine and in an
    environment its constructor accepts: migration only with partial loading,
    numbers where it reads numbers, a backend that loads, its ports free, the
    same provenance flag everywhere and no split layer with it ([startable]).
    Every node starts; together they are the ring that [sharded_generation]
    needs, each shard handing on to the shard of the next layer and the last one
    to the first; no node has a request, and each sees all shards alive. *)
Theorem launched_cluster_is_ring : exists started, mapR start_shard specs = Ok started /\
  nc_shard <$> started.*1 = specs /\
  ring total m prov started.*1 /\
  forall rid c, quiet started.*1 rid c (mkCluster started.*2 (replicate (length specs) [])).
Proof using All.
  destruct (mapR_indexed (fun i s cn => cn.1 = cfg_for i s /\ n_req cn.2 = mkRequests [] [] [] [] [] [] /\
    n_net cn.2 = mkNet None 0 0 [] /\ unavailable_peer cn.1 cn.2 = None) start_shard specs) as (started & Hs & Hlen & Hall).
  { intros i s Hi. destruct (node_starts i s Hi) as (n & Hr & Hrest). by exists (cfg_for i s, n). }
  assert (Hcfg : forall i cfg, started.*1 !! i = Some cfg -> exists s, specs !! i = Some s /\ cfg = cfg_for i s).
  { intros i cfg Hi. rewrite list_lookup_fmap in Hi. destruct (started !! i) as [cn|] eqn:Ei; [|done]. injection Hi as <-.
    destruct (Hall i cn Ei) as (s & Hsp & -> & _). by exists s. }
  assert (Hlen1 : length started.*1 = length specs) by (by rewrite length_fmap).
  assert (Hshards : nc_shard <$> started.*1 = specs).
  { apply list_eq_same_length with (n := length specs); [done|by rewrite length_fmap|]. intros i x y Hi Hx Hy.
    rewrite list_lookup_fmap in Hx. destruct (started.*1 !! i) as [cfg|] eqn:Ei; [|done]. injection Hx as <-.
    destruct (Hcfg i cfg Ei) as (s & Hsi & ->). cbn. congruence. }
  exists started. split_and!; [done..| |].
  - by apply cfgs_ring.
  - intros rid c. assert (Hnode : forall i n, started.*2 !! i = Some n -> exists cfg, started.*1 !! i = Some cfg /\
      n_req n = mkRequests [] [] [] [] [] [] /\ n_net n = mkNet None 0 0 [] /\ unavailable_peer cfg n = None).
    { intros i n Hn. rewrite list_lookup_fmap in Hn. destruct (started !! i) as [cn|] eqn:Ei; [|done]. injection Hn as <-.
      destruct (Hall i cn Ei) as (s & _ & _ & Hrest). exists cn.1. by rewrite list_lookup_fmap, Ei. }
    split; cbn [cl_nodes cl_queues]; [by rewrite !length_fmap|by rewrite Hlen1| | |].
    + intros n [i Hi]%list_elem_of_lookup. destruct (Hnode i n Hi) as (cfg & _ & Hr & _).
      split; [split; rewrite Hr; apply NoDup_nil_2|by rewrite Hr].
    + intros cfg n Hc Hn. destruct (Hnode _ n Hn) as (cfg' & Hc' & _ & _ & Hu). rewrite Hc' in Hc. by injection Hc as ->.
    + unfold client_log. cbn [cl_nodes]. destruct (started.*2 !! O) as [n|] eqn:En; [|done].
      destruct (Hnode _ n En) as (cfg & _ & _ & Ht & _). by rewrite Ht.
Qed.

End cluster.

End start.

(** ** A document with its shards in another order *)

Section witness.
#[local] Existing Instance demo_lib.

Definition yaml_shard (port first last : Z) : yaml :=
  YMap [(YStr "host", YStr "h"); (YStr "port", YInt port); (YStr "start_layer", YInt first); (YStr "end_layer", YInt last)].
Definition demo_document : yaml := YMap [
  (YStr "model_id", YStr "m");
  (YStr "shards", YMap [(YStr "tail", yaml_shard 9002 2 3); (YStr "head", yaml_shard 9000 0 1); (YStr "mid", yaml_shard 9001 1 2)])
].
Definition demo_spec (sid : string) (a b : Z) : ShardSpec := mkShard sid (mkAddress "h" (9000 + a)) a b [].
Definition demo_directory : ShardMap :=
  mkShardMap [("tail", demo_spec "tail" 2 3); ("head", demo_spec "head" 0 1); ("mid", demo_spec "mid" 1 2)] "m".
Definition demo_specs : list ShardSpec := [demo_spec "head" 0 1; demo_spec "mid" 1 2; demo_spec "tail" 2 3].

Definition all_ten (_ : string) : result float := Ok (of_int 10).
Definition port_free (_ : Z) : result unit := Ok tt.

(** A shard whose retry setting is no number does not start, nor does one
    whose debug port is taken. *)
Definition split_document : yaml := YMap [
  (YStr "model_id", YStr "m");
  (YStr "shards", YMap [
    (YStr "head", YMap [(YStr "host", YStr "h"); (YStr "port", YInt 9000); (YStr "start_layer", YInt 0); (YStr "end_layer", YInt 1);
                        (YStr "moe_experts", YMap [(YInt 0, YList [YInt 0])])]);
    (YStr "tail", yaml_shard 9001 1 2)])
].
Definition start_head (env : environ) (tcp_bind : Z -> result unit) : result (NodeConfig * NodeState unit (list unit) Z script) :=
  run_node (fun _ => "") all_ten (fun _ => []) (fun _ => mkModel [] []) port_free tcp_bind env split_document "head" None [] 5.
Lemma bad_settings_refused :
  is_ok (start_head [("ENABLE_EXPERT_SHARD", "1")] port_free) = true /\
  start_head [("ENABLE_EXPERT_SHARD", "1"); ("EXPERT_RETRY_MAX_ATTEMPTS", "three")] port_free = Raise ValueError /\
  start_head [] (fun port => if port =? 11000 then Raise OSError else Ok tt) = Raise OSError.
Proof. split_and!; vm_compute; reflexivity. Qed.

Lemma launched_cluster_is_ring_witness : exists started : list (NodeConfig * NodeState unit (list unit) Z script),
  mapR (fun s => run_node (fun _ => "") all_ten (fun _ => []) (fun _ => mkModel [] []) port_free port_free [] demo_document (ss_shard_id s) None [] 5) demo_specs = Ok started /\
  nc_shard <$> started.*1 = demo_specs /\ ring 3 demo_directory false started.*1 /\
  forall rid c, quiet started.*1 rid c (mkCluster started.*2 [[]; []; []]).
Proof.
  apply (launched_cluster_is_ring all_ten (fun _ => []) (fun _ => "") (fun _ => mkModel [] []) demo_document demo_directory demo_specs 3 false
    (fun _ => []) (fun _ => None) (fun _ => []) (fun _ => 5) (fun _ => port_free) (fun _ => port_free)).
  - reflexivity.
  - symmetry. apply (Permutation_middle [demo_spec "head" 0 1; demo_spec "mid" 1 2] [] (demo_spec "tail" 2 3)).
  - by cbn.
  - cbn. lia.
  - intros s Hs. split; done.
Defined.

End witness.
