(* ===== verification/Lifecycle.v ===== *)
(** * The threads and sockets of a node: node.py, runner.py, transport.py, migration.py

    A node is five kinds of loops on threads of their own: [Node.serve_forever]
    accepts connections, [Node._handle_connection] serves one of them,
    [UDPTransport._recv_loop], [MembershipRunner._run] and
    [MigrationScanner._run_loop].  Each tests a stop flag between two blocking
    calls.  [step] is one pass of one loop, from the outcome of its blocking call
    to the next one, on the state of the node ([pr_node]); a call of
    [Node.shutdown] is the list of what it still has to do, so that the passes
    come in between.  The joins of [stop] wait at most two seconds for a thread
    and change nothing. *)
From S2P Require Import Prelude PyDict PyFloat PyList PyRandom Records SwimState SwimProps.
From S2P Require Import Wire WireCodec Messages Ownership Runner ShardMap Trackers Provenance Experts Effects Migration MigrationTheorems.
From S2P Require Import NodeState Settings NodeInit NodeHandlers NodeTheorems NodeLife NodeWitnesses.
Open Scope Z_scope.

(** ** The loops and their flags *)

Inductive thread : Type := Unstarted | Running | Ended.

#[export] Instance thread_eq_dec : EqDecision thread.
Proof. solve_decision. Defined.

(** [Thread(target=loop).start()] for a loop that tests its flag first. *)
Definition spawn (stopping : bool) : thread := if stopping then Ended else Running.
Definition is_alive (t : thread) : bool := bool_decide (t = Running).

(** [UDPTransport]: its socket, [_stopping] and [_thread]. *)
Record UdpLoop : Type := mkUdp { ul_open : bool; ul_stopping : bool; ul_thread : thread }.

(** [MembershipRunner]: its transport, [_stopping] and [_thread]. *)
Record RunnerLoop : Type := mkRunnerLoop { rl_udp : UdpLoop; rl_stopping : bool; rl_thread : thread }.

(** [MigrationScanner]: [_stopping] and [_thread]. *)
Record ScanLoop : Type := mkScan { sl_stopping : bool; sl_thread : thread }.

Definition fresh_udp : UdpLoop := mkUdp true false Unstarted.
Definition fresh_runner : RunnerLoop := mkRunnerLoop fresh_udp false Unstarted.
Definition fresh_scanner : ScanLoop := mkScan false Unstarted.

(** [UDPTransport.start], [MembershipRunner.start], [MigrationScanner.start] *)
Definition transport_start (u : UdpLoop) : result UdpLoop :=
  _ ← require (bool_decide (ul_thread u = Unstarted)) RuntimeError;
  Ok (mkUdp (ul_open u) (ul_stopping u) (spawn (ul_stopping u))).
Definition runner_start (r : RunnerLoop) : result RunnerLoop :=
  u ← transport_start (rl_udp r);
  Ok (mkRunnerLoop u (rl_stopping r) (spawn (rl_stopping r))).
Definition scanner_start (s : ScanLoop) : ScanLoop :=
  if decide (sl_thread s = Unstarted) then mkScan (sl_stopping s) (spawn (sl_stopping s)) else s.

(** The statements of [UDPTransport.stop] and of the other [stop]s. *)
Definition signal_udp (u : UdpLoop) : UdpLoop := mkUdp (ul_open u) true (ul_thread u).
Definition close_udp (u : UdpLoop) : UdpLoop := mkUdp false (ul_stopping u) (ul_thread u).
Definition on_udp (f : UdpLoop -> UdpLoop) (r : RunnerLoop) : RunnerLoop := mkRunnerLoop (f (rl_udp r)) (rl_stopping r) (rl_thread r).
Definition signal_runner (r : RunnerLoop) : RunnerLoop := mkRunnerLoop (rl_udp r) true (rl_thread r).
Definition signal_scanner (s : ScanLoop) : ScanLoop := mkScan true (sl_thread s).

(** Where [serve_forever] is: not called, in [accept], or over. *)
Inductive server : Type :=
| Idle
| Accepting
| Done (r : result unit).

(** Where the thread of a connection is. *)
Inductive conn_state : Type :=
| Receiving
| Decoding
| Hung_up.

#[export] Instance conn_state_eq_dec : EqDecision conn_state.
Proof. solve_decision. Defined.

(** What is left to do of the calls of [Node.shutdown] under way. *)
Inductive action : Type :=
| Stop_node
| Stop_runner
| Stop_udp
| Close_udp
| Stop_scanner
| Close_executor.

Record Process {T K C R : Type} : Type := mkProc {
  pr_node : NodeState T K C R;
  pr_stopping : bool;
  pr_server : server;
  pr_conns : list conn_state;
  pr_runner : option RunnerLoop;
  pr_scanner : option ScanLoop;
  (** the executor of the orchestrator accepts calls *)
  pr_executor : option bool;
  pr_todo : list action;
}.
Arguments Process : clear implicits.
Arguments mkProc {T K C R}.

(** What a blocking call yields. *)
Inductive accepted : Type :=
| New_connection
| Accept_timeout
| Accept_error.
Inductive received : Type :=
| Envelope_in (env : Envelope) (tensor_bytes : bytes)
| Hang_up (e : exn).
Inductive datagram : Type :=
| Got (raw : bytes)
| Udp_timeout
| Udp_error.

(** [Serve]: [serve_forever] is called, and binding its socket succeeds or not.
    [Scan] carries how the peers answer during the scan. *)
Inductive event {C : Type} : Type :=
| Serve (bound : bool)
| Accepted (a : accepted)
| Incoming (conn : nat) (now : float) (r : received)
| Decoded (thread : nat) (now : float)
| Udp (d : datagram)
| Tick (rd : Round)
| Scan (rpc_pull : string -> Z -> Z -> result (list C))
| Call_shutdown
| Shutdown_next.
Arguments event : clear implicits.

Section setters.
Context {T K C R : Type}.
Abbreviation Process := (Process T K C R).
Implicit Types (p : Process).

Definition set_node n p : Process := mkProc n (pr_stopping p) (pr_server p) (pr_conns p) (pr_runner p) (pr_scanner p) (pr_executor p) (pr_todo p).
Definition set_stopping p : Process := mkProc (pr_node p) true (pr_server p) (pr_conns p) (pr_runner p) (pr_scanner p) (pr_executor p) (pr_todo p).
Definition set_server s p : Process := mkProc (pr_node p) (pr_stopping p) s (pr_conns p) (pr_runner p) (pr_scanner p) (pr_executor p) (pr_todo p).
Definition set_conns c p : Process := mkProc (pr_node p) (pr_stopping p) (pr_server p) c (pr_runner p) (pr_scanner p) (pr_executor p) (pr_todo p).
Definition on_runner (f : RunnerLoop -> RunnerLoop) p : Process :=
  mkProc (pr_node p) (pr_stopping p) (pr_server p) (pr_conns p) (f <$> pr_runner p) (pr_scanner p) (pr_executor p) (pr_todo p).
Definition on_scanner (f : ScanLoop -> ScanLoop) p : Process :=
  mkProc (pr_node p) (pr_stopping p) (pr_server p) (pr_conns p) (pr_runner p) (f <$> pr_scanner p) (pr_executor p) (pr_todo p).
Definition shut_executor p : Process :=
  mkProc (pr_node p) (pr_stopping p) (pr_server p) (pr_conns p) (pr_runner p) (pr_scanner p) ((fun _ => false) <$> pr_executor p) (pr_todo p).
Definition set_todo t p : Process := mkProc (pr_node p) (pr_stopping p) (pr_server p) (pr_conns p) (pr_runner p) (pr_scanner p) (pr_executor p) t.

End setters.

Section process.
Context {T K C R : Type} `{StackLib C} `{RandomSource R} `{NodeBackend T K C} `{Protobuf}.
Context (gethostbyname : string -> option string).
Context (cfg : NodeConfig) (io : nat -> bool) (render : Detail -> string).
Context (run_layers : T -> option (list ProvenanceEntry) -> eff K (T * option (list ProvenanceEntry))).
Context (evict_cooldown : float) (clock : nat -> float) (policy : MigrationPolicy) (set_order : forall A : Type, list A -> list A).
Abbreviation State := (NodeState T K C R).
Abbreviation Process := (Process T K C R).
Implicit Types (n : State) (p : Process).

Definition handle (now : float) (ev : node_event) : State -> State := node_step cfg io render now run_layers ev.
Definition move (f : State -> State) p : Process := set_node (f (pr_node p)) p.

(** *** [Node.serve_forever] *)

(** The [finally] clause, and how the call ends. *)
Definition leave (r : result unit) p : Process :=
  set_server (Done r) (move (fun n => (on_net close_outbound n).2) p).

(** The test of the loop. *)
Definition next_accept p : Process := if pr_stopping p then leave (Ok tt) p else set_server Accepting p.

(** The start; a socket that cannot be bound raises before the [try]. *)
Definition serve (bound : bool) p : Process :=
  let p := on_scanner scanner_start p in
  if bound then next_accept p else set_server (Done (Raise OSError)) p.

Definition accept (a : accepted) p : Process :=
  match a with
  | New_connection => next_accept (set_conns (pr_conns p ++ [if pr_stopping p then Hung_up else Receiving]) p)
  | Accept_timeout => next_accept p
  | Accept_error => leave (Raise OSError) p
  end.

(** *** [Node._handle_connection] *)

(** Back at the test of the loop. *)
Definition next_recv (i : nat) p : Process :=
  set_conns (<[i := if pr_stopping p then Hung_up else Receiving]> (pr_conns p)) p.

(** One envelope; a request accepted keeps the thread in the decode loop. *)
Definition incoming (i : nat) (now : float) (r : received) p : Process :=
  match r with
  | Hang_up _ => set_conns (<[i := Hung_up]> (pr_conns p)) p
  | Envelope_in env raw =>
      let threads p := length (rs_threads (n_req (pr_node p))) in
      let p' := move (handle now (Message i env raw)) p in
      if decide (threads p < threads p')%nat then set_conns (<[i := Decoding]> (pr_conns p')) p' else next_recv i p'
  end.

(** The connection whose thread waits for tokens as decode thread [j]. *)
Definition conn_of (j : nat) n : option nat :=
  '(_, ref) ← rs_threads (n_req n) !! j; h ← rs_store (n_req n) !! ref;
  match hs_client h with Inbound i => Some i | Outbound _ => None end.

(** A round of the decode loop; the one that ends it returns to the connection. *)
Definition decoded (j : nat) (now : float) p : Process :=
  let threads p := length (rs_threads (n_req (pr_node p))) in
  let p' := move (handle now (Resume j)) p in
  match conn_of j (pr_node p) with
  | Some i => if decide (threads p' < threads p)%nat then next_recv i p' else p'
  | None => p'
  end.

(** *** The membership threads *)

(** [MembershipRunner._on_recv]; what it raises is logged. *)
Definition receive_gossip (raw : bytes) n : State :=
  match decode_membership_envelope raw with
  | Ok (Some m) => (on_own (deliver_gossip m) n).2
  | _ => n
  end.

(** [UDPTransport._recv_loop]: a closed socket raises OSError. *)
Definition udp_pass (d : datagram) (u : UdpLoop) : UdpLoop :=
  match d with
  | Udp_error => mkUdp (ul_open u) (ul_stopping u) Ended
  | _ => mkUdp (ul_open u) (ul_stopping u) (if ul_open u then spawn (ul_stopping u) else Ended)
  end.
Definition udp (d : datagram) p : Process :=
  let p' := on_runner (on_udp (udp_pass d)) p in
  match d, pr_runner p with
  | Got raw, Some r => if ul_open (rl_udp r) then move (receive_gossip raw) p' else p'
  | _, _ => p'
  end.

(** [MembershipRunner._run]: the test and one round, whose transitions go to
    [Node._on_membership_change]. A round that raises ends the thread, and what
    it did before is not followed. *)
Definition end_runner (r : RunnerLoop) : RunnerLoop := mkRunnerLoop (rl_udp r) (rl_stopping r) Ended.
Definition tick (rd : Round) p : Process :=
  match pr_runner p with
  | None => p
  | Some loop =>
      if rl_stopping loop then on_runner end_runner p else
      match o_membership (n_own (pr_node p)) with
      | None => p
      | Some r =>
          match run_iteration gethostbyname rd r with
          | Raise _ => on_runner end_runner p
          | Ok (r, calls) =>
              move (fun n => foldl (fun n (call : nat * StateTransition) => handle (rd_now rd) (Transition call.2) n)
                               (on_own (modify (set_runner (Some r))) n).2 calls) p
          end
      end
  end.

(** *** [MigrationScanner._run_loop]: the wait is over. *)
Definition scan (rpc_pull : string -> Z -> Z -> result (list C)) p : Process :=
  match pr_scanner p with
  | Some s =>
      if sl_stopping s then on_scanner (fun s => mkScan (sl_stopping s) Ended) p
      else move (fun n => (on_own (scan_once (nc_shard cfg) evict_cooldown clock policy set_order rpc_pull) n).2) p
  | None => p
  end.

(** *** [Node.shutdown] *)

Definition shutdown p : list action :=
  [Stop_node] ++ match pr_runner p with Some _ => [Stop_runner; Stop_udp; Close_udp] | None => [] end
  ++ match pr_scanner p with Some _ => [Stop_scanner] | None => [] end
  ++ match pr_executor p with Some _ => [Close_executor] | None => [] end.

Definition perform (a : action) : Process -> Process :=
  match a with
  | Stop_node => set_stopping
  | Stop_runner => on_runner signal_runner
  | Stop_udp => on_runner (on_udp signal_udp)
  | Close_udp => on_runner (on_udp close_udp)
  | Stop_scanner => on_scanner signal_scanner
  | Close_executor => shut_executor
  end.

(** *** All together *)

Inductive loop : Type :=
| Server
| Gossip_loop
| Udp_loop
| Scanner_loop
| Connection (i : nat).

(** The loop whose blocking call an event ends. *)
Definition loop_of (ev : event C) : option loop :=
  match ev with
  | Accepted _ => Some Server
  | Incoming i _ _ => Some (Connection i)
  | Udp _ => Some Udp_loop
  | Tick _ => Some Gossip_loop
  | Scan _ => Some Scanner_loop
  | _ => None
  end.

Definition running (l : loop) p : bool :=
  match l with
  | Server => match pr_server p with Accepting => true | _ => false end
  | Gossip_loop => match pr_runner p with Some r => is_alive (rl_thread r) | None => false end
  | Udp_loop => match pr_runner p with Some r => is_alive (ul_thread (rl_udp r)) | None => false end
  | Scanner_loop => match pr_scanner p with Some s => is_alive (sl_thread s) | None => false end
  | Connection i => bool_decide (pr_conns p !! i = Some Receiving)
  end.

(** An event of a loop that does not run does not happen. *)
Definition step p (ev : event C) : Process :=
  if negb (default true ((fun l => running l p) <$> loop_of ev)) then p else
  match ev with
  | Serve bound => match pr_server p with Idle => serve bound p | _ => p end
  | Accepted a => accept a p
  | Incoming i now r => incoming i now r p
  | Decoded j now => decoded j now p
  | Udp d => udp d p
  | Tick rd => tick rd p
  | Scan pull => scan pull p
  | Call_shutdown => set_todo (pr_todo p ++ shutdown p) p
  | Shutdown_next => match pr_todo p with [] => p | a :: todo => perform a (set_todo todo p) end
  end.

Definition run (evs : list (event C)) p : Process := foldl step p evs.

(** *** Construction *)

(** [Node.__init__]: the node, and the threads it started, whether it raises
    afterwards or not. *)
Definition construct (float_of : string -> result float) (load_model : string -> list (list (Attr C))) (udp_bind : Z -> result unit)
    (env : environ) (shard : ShardSpec) (m : ShardMap) (given : option (LoadedModel C)) (total_layers : Z) (rng : R) (wall_clock_s : Z)
    : result (NodeConfig * Process) * option RunnerLoop :=
  let started :=
    '(_, _, _, membership) ← before_model udp_bind env shard m total_layers rng wall_clock_s;
    match membership with Some _ => Some <$> runner_start fresh_runner | None => Ok None end in
  let loops := ok_or None started in
  ('(cfg, n) ← init_node float_of load_model udp_bind env shard m given total_layers rng wall_clock_s;
   Ok (cfg, mkProc n false Idle [] loops
              (if dynamic_migration_enabled env then Some fresh_scanner else None)
              (if has_orchestrator cfg then Some true else None) []),
   loops).

(** ** Shutdown stops the loops *)

Definition all_runner (P : RunnerLoop -> Prop) p : Prop := forall r, pr_runner p = Some r -> P r.

(** What an action of [shutdown] leaves for good. *)
Definition finished (a : action) p : Prop :=
  match a with
  | Stop_node => pr_stopping p = true
  | Stop_runner => all_runner (fun r => rl_stopping r = true) p
  | Stop_udp => all_runner (fun r => ul_stopping (rl_udp r) = true) p
  | Close_udp => all_runner (fun r => ul_open (rl_udp r) = false) p
  | Stop_scanner => forall s, pr_scanner p = Some s -> sl_stopping s = true
  | Close_executor => pr_executor p <> Some true
  end.

(** The flags of [p'] are those of [p]. *)
Record same_flags p p' : Prop := {
  sf_stopping : pr_stopping p' = pr_stopping p;
  sf_runner : (fun r => (rl_stopping r, ul_stopping (rl_udp r), ul_open (rl_udp r))) <$> pr_runner p' =
              (fun r => (rl_stopping r, ul_stopping (rl_udp r), ul_open (rl_udp r))) <$> pr_runner p;
  sf_scanner : sl_stopping <$> pr_scanner p' = sl_stopping <$> pr_scanner p;
  sf_executor : pr_executor p' = pr_executor p;
  sf_todo : pr_todo p' = pr_todo p;
}.

Lemma same_flags_refl p : same_flags p p.
Proof. done. Qed.

Lemma same_flags_finished a p p' : same_flags p p' -> finished a p -> finished a p'.
Proof.
  intros [Hs Hr Hc He _] Hf. destruct a; cbn in *; unfold all_runner in *; rewrite ?Hs, ?He; try done.
  1-3: intros r Er; rewrite Er in Hr; destruct (pr_runner p) as [r0|]; cbn in Hr; [|done];
    specialize (Hf _ eq_refl); injection Hr; congruence.
  intros x Ex. rewrite Ex in Hc. destruct (pr_scanner p) as [x0|]; cbn in Hc; [|done].
  specialize (Hf _ eq_refl). injection Hc. congruence.
Qed.

Lemma shutdown_same p p' : same_flags p p' -> shutdown p' = shutdown p.
Proof.
  intros [_ Hr Hc He _]. unfold shutdown. rewrite He.
  destruct (pr_runner p), (pr_runner p'); try done; destruct (pr_scanner p), (pr_scanner p'); done.
Qed.

(** Every event but those of [shutdown] leaves the flags. *)
Lemma step_flags p ev : ev <> Call_shutdown -> ev <> Shutdown_next -> same_flags p (step p ev).
Proof.
  intros Hc Hn. unfold step. destruct (negb _); [done|]. destruct ev; try done.
  - destruct (pr_server p); try done. unfold serve, next_accept, leave.
    destruct bound; cbn; [destruct (pr_stopping p)|]; split; cbn; try done;
      destruct (pr_scanner p) as [[? []]|]; done.
  - unfold accept, next_accept, leave. destruct a; cbn; try destruct (pr_stopping p); done.
  - unfold incoming, next_recv. destruct r; [case_decide|]; done.
  - unfold decoded, next_recv. destruct (conn_of _ _); [case_decide|]; done.
  - assert (same_flags p (on_runner (on_udp (udp_pass d)) p)) as Hs.
    { split; try done. cbn. destruct (pr_runner p) as [r|]; [|done]. by destruct d. }
    unfold udp. destruct d; try done. destruct (pr_runner p) as [r|]; [|done]. destruct (ul_open (rl_udp r)); [|done].
    destruct Hs. by split.
  - assert (same_flags p (on_runner end_runner p)) as Hs by (split; try done; cbn; by destruct (pr_runner p)).
    unfold tick. destruct (pr_runner p) as [loop0|]; [|done]. destruct (rl_stopping loop0); [done|].
    destruct (o_membership _) as [r|]; [|done]. destruct (run_iteration _ _ _) as [[r' calls]|]; done.
  - unfold scan. destruct (pr_scanner p) as [s0|] eqn:Es; [|done]. destruct (sl_stopping s0); [|done].
    split; try done. cbn. by rewrite Es.
Qed.

Lemma perform_finished a b p : a = b \/ finished b p -> finished b (perform a p).
Proof.
  destruct a, b; cbn; intros [Hab|Hf]; try discriminate Hab; try done; unfold all_runner in *; cbn;
    try (intros r Er; destruct (pr_runner p) as [r0|]; [|done]; injection Er as <-; try done; by apply (Hf r0));
    try (intros r Er; destruct (pr_scanner p) as [r0|]; [|done]; injection Er as <-; try done; by apply (Hf r0));
    destruct (pr_executor p); done.
Qed.

Lemma shutdown_perform a p : shutdown (perform a p) = shutdown p.
Proof. unfold shutdown. destruct a; cbn; by destruct (pr_runner p), (pr_scanner p), (pr_executor p). Qed.

Lemma step_next p : step p Shutdown_next = match pr_todo p with [] => p | a :: todo => perform a (set_todo todo p) end.
Proof. done. Qed.

(** The three kinds of events. *)
Lemma event_cases p ev : ev = Call_shutdown \/ ev = Shutdown_next \/ same_flags p (step p ev).
Proof. destruct ev; eauto; right; right; by apply step_flags. Qed.

Lemma shutdown_step p ev : shutdown (step p ev) = shutdown p.
Proof.
  destruct (event_cases p ev) as [->|[->|Hs]].
  - done.
  - rewrite step_next. destruct (pr_todo p) as [|a todo]; [done|]. by rewrite shutdown_perform.
  - by apply shutdown_same.
Qed.

Lemma step_finished a p ev : finished a p -> finished a (step p ev).
Proof.
  intros Hf. destruct (event_cases p ev) as [->|[->|Hs]].
  - by destruct a.
  - rewrite step_next. destruct (pr_todo p) as [|b todo]; [done|]. apply perform_finished. right. by destruct a.
  - by eapply same_flags_finished.
Qed.

(** Once a shutdown has begun, each of its actions is done or still to do. *)
Definition orderly p : Prop :=
  pr_stopping p = true \/ Stop_node ∈ pr_todo p -> forall a, a ∈ shutdown p -> finished a p \/ a ∈ pr_todo p.

Lemma step_orderly p ev : orderly p -> orderly (step p ev).
Proof.
  intros Ho. unfold orderly. rewrite shutdown_step.
  destruct (event_cases p ev) as [->|[->|Hs]].
  - cbn. intros _ a Ha. right. apply elem_of_app. by right.
  - rewrite step_next. destruct (pr_todo p) as [|b todo] eqn:Et; [exact Ho|]. intros Hb a Ha.
    assert (pr_stopping p = true \/ Stop_node ∈ pr_todo p) as Hs.
    { rewrite Et. destruct b; cbn in Hb; destruct Hb as [Hb|Hb]; eauto; right; by constructor. }
    assert (pr_todo (perform b (set_todo todo p)) = todo) as -> by by destruct b.
    destruct (Ho Hs a Ha) as [Hf|Hin]; [left; apply perform_finished; right; by destruct a|].
    rewrite Et in Hin. apply elem_of_cons in Hin as [->|Hin]; [left; apply perform_finished; by left|by right].
  - rewrite (sf_todo _ _ Hs), (sf_stopping _ _ Hs). intros Hb a Ha. destruct (Ho Hb a Ha) as [Hf|Hin]; [|by right].
    left. by eapply same_flags_finished.
Qed.

(** After all its actions nothing is left to stop. *)
Lemma all_finished p : orderly p -> pr_stopping p = true -> pr_todo p = [] -> forall a, finished a p.
Proof.
  intros Ho Hs Ht a. assert (forall b, b ∈ shutdown p -> finished b p) as Hall.
  { intros b Hb. destruct (Ho (or_introl Hs) b Hb) as [|Hin]; [done|]. rewrite Ht in Hin. by apply elem_of_nil in Hin. }
  unfold shutdown in Hall. destruct a; cbn.
  - done.
  - intros r Er. rewrite Er in Hall. apply (Hall Stop_runner); [set_solver|done].
  - intros r Er. rewrite Er in Hall. apply (Hall Stop_udp); [set_solver|done].
  - intros r Er. rewrite Er in Hall. apply (Hall Close_udp); [set_solver|done].
  - intros x Ex. rewrite Ex in Hall. apply (Hall Stop_scanner); [set_solver|done].
  - intros Ex. rewrite Ex in Hall. by apply (Hall Close_executor); [set_solver|].
Qed.

(** What the loops of a process do depends on its node in nothing. *)
Lemma running_node l n p : running l (set_node n p) = running l p.
Proof. by destruct l. Qed.

(** A thread that does not go back to receiving. *)
Lemma running_conn l i st n p : st <> Receiving ->
  running l (set_conns (<[i := st]> (pr_conns p)) (set_node n p)) = true -> running l p = true /\ Connection i <> l.
Proof.
  intros Hst. destruct l as [| | | |k]; try done. cbn. intros Hl%bool_decide_eq_true. destruct (decide (i = k)) as [->|Hne].
  - apply list_lookup_insert_Some in Hl as [(_ & He & _)|(Hk & _)]; congruence.
  - rewrite list_lookup_insert_ne in Hl by done. split; [by apply bool_decide_eq_true|congruence].
Qed.

Lemma next_recv_stopped i n p : pr_stopping p = true ->
  next_recv i (set_node n p) = set_conns (<[i := Hung_up]> (pr_conns p)) (set_node n p).
Proof. intros Hs. unfold next_recv. cbn. by rewrite Hs. Qed.

Lemma serve_running l bound p : (forall a, finished a p) -> running l (serve bound p) = true -> running l p = true.
Proof.
  intros Hf. pose proof (Hf Stop_node) as Hn. pose proof (Hf Stop_scanner) as Hs. cbn in Hn, Hs.
  unfold serve, next_accept. replace (pr_stopping (on_scanner scanner_start p)) with true by (cbn; done).
  destruct l; destruct bound; cbn; try done; destruct (pr_scanner p) as [[? []]|]; cbn; try done;
    specialize (Hs _ eq_refl); cbn in Hs; by subst.
Qed.

Lemma accept_running l a p : pr_stopping p = true -> running l (accept a p) = true -> running l p = true /\ Server <> l.
Proof.
  intros Hn. unfold accept, next_accept. destruct l as [| | | |k]; destruct a; cbn; rewrite ?Hn; cbn; try done.
  intros Hl%bool_decide_eq_true. split; [|done]. apply bool_decide_eq_true.
  apply lookup_app_Some in Hl as [|[_ Hl]]; [done|]. by apply list_lookup_singleton_Some in Hl as [_ ?].
Qed.

Lemma incoming_running l i now r p : pr_stopping p = true ->
  running l (incoming i now r p) = true -> running l p = true /\ Connection i <> l.
Proof.
  intros Hn. unfold incoming. destruct r as [env raw|e].
  - unfold move. cbn [pr_node set_node]. case_decide; [by refine (running_conn l i Decoding _ p _)|].
    rewrite next_recv_stopped by done. by apply running_conn.
  - by apply (running_conn l i Hung_up (pr_node p)).
Qed.

Lemma decoded_running l j now p : pr_stopping p = true -> running l (decoded j now p) = true -> running l p = true.
Proof.
  intros Hn. unfold decoded, move. cbn [pr_node set_node]. destruct (conn_of j _) as [i|]; [|by rewrite running_node].
  case_decide; [|by rewrite running_node]. rewrite next_recv_stopped by done. intros Hl. by apply running_conn in Hl as [].
Qed.

Lemma udp_running l d p : finished Stop_udp p -> running l (udp d p) = true -> running l p = true /\ Udp_loop <> l.
Proof.
  intros Hu Hl. assert (running l (on_runner (on_udp (udp_pass d)) p) = true) as Hr.
  { unfold udp, move in Hl. destruct d; try done. destruct (pr_runner p) as [r|]; [|done].
    destruct (ul_open (rl_udp r)); [|done]. by rewrite running_node in Hl. }
  clear Hl. destruct l; cbn in Hr |- *; try done.
  - destruct (pr_runner p); done.
  - specialize (Hu (default fresh_runner (pr_runner p))). destruct (pr_runner p) as [r|]; [|done]. cbn in Hr, Hu.
    specialize (Hu eq_refl). destruct d; cbn in Hr; try done; destruct (ul_open (rl_udp r)); try done; by rewrite Hu in Hr.
Qed.

Lemma tick_running l rd p : finished Stop_runner p -> running l (tick rd p) = true ->
  running l p = true /\ (running Gossip_loop p = true -> Gossip_loop <> l).
Proof.
  intros Hr. unfold tick. destruct (pr_runner p) as [r|] eqn:Er; [|cbn; by rewrite Er]. rewrite (Hr _ Er).
  destruct l; cbn; rewrite ?Er; cbn; done.
Qed.

Lemma scan_running l pull p : finished Stop_scanner p ->
  running l (scan pull p) = true -> running l p = true /\ (running Scanner_loop p = true -> Scanner_loop <> l).
Proof.
  intros Hs. unfold scan. destruct (pr_scanner p) as [s|] eqn:Es; [|cbn; by rewrite Es]. rewrite (Hs _ Es).
  destruct l; cbn; rewrite ?Es; cbn; done.
Qed.

Lemma perform_running l a p : running l (perform a p) = running l p.
Proof. destruct a, l; cbn; try done; by destruct (pr_runner p), (pr_scanner p). Qed.

Lemma step_running l p ev : (forall a, finished a p) -> running l (step p ev) = true -> running l p = true /\ loop_of ev <> Some l.
Proof.
  intros Hf. pose proof (Hf Stop_node) as Hn. cbn in Hn. unfold step.
  destruct (default true _) eqn:Ed; cbn [negb].
  2: { intros Hl. split; [done|]. intros He. rewrite He in Ed. cbn in Ed. congruence. }
  destruct ev; cbn [loop_of fmap option_fmap option_map default from_option] in Ed |- *; intros Hl.
  - split; [|done]. destruct (pr_server p); [|done..]. by eapply serve_running.
  - apply accept_running in Hl as [Hl ?]; [|done]. split; [done|congruence].
  - apply incoming_running in Hl as [Hl ?]; [|done]. split; [done|congruence].
  - split; [|done]. by eapply decoded_running.
  - apply udp_running in Hl as [Hl ?]; [|by apply Hf]. split; [done|congruence].
  - apply tick_running in Hl as [Hl Hne]; [|by apply Hf]. split; [done|]. specialize (Hne Ed). congruence.
  - apply scan_running in Hl as [Hl Hne]; [|by apply Hf]. split; [done|]. specialize (Hne Ed). congruence.
  - split; [|done]. by destruct l.
  - split; [|done]. destruct (pr_todo p) as [|a todo]; [done|]. rewrite perform_running in Hl. by destruct l.
Qed.

Lemma run_finished a es p : finished a p -> finished a (run es p).
Proof. revert p. induction es as [|ev es IH]; intros p Hf; [done|]. apply IH. by apply step_finished. Qed.

Lemma run_orderly es p : orderly p -> orderly (run es p).
Proof. revert p. induction es as [|ev es IH]; intros p Ho; [done|]. apply IH. by apply step_orderly. Qed.

Lemma run_running l es p : (forall a, finished a p) -> running l (run es p) = true -> running l p = true /\ l ∉ omap loop_of es.
Proof.
  revert p. induction es as [|ev es IH]; intros p Hf Hl; [split; [done|apply not_elem_of_nil]|].
  apply IH in Hl as [Hl Hn]; [|intros a; by apply step_finished]. apply step_running in Hl as [Hl He]; [|done].
  split; [done|]. cbn. destruct (loop_of ev) as [l'|]; [|done]. apply not_elem_of_cons. split; [congruence|done].
Qed.

Lemma construct_orderly float_of load_model udp_bind env shard m given total rng wall start loops :
  construct float_of load_model udp_bind env shard m given total rng wall = (Ok (cfg, start), loops) -> orderly start.
Proof.
  unfold construct. intros [= Hc _]. inv_ok. intros [Hs|Hs]; [done|]. by apply elem_of_nil in Hs.
Qed.

(** C4: shutdown ends every loop. Let a node have run in any way, and let a
    shutdown have begun and every call of it have been through its statements.
    Then, whatever happens, the UDP socket stays closed and the executor refuses
    work; no loop starts any more, no connection is served that was not being
    served; and a loop that still runs has not passed its blocking call since:
    each of them ends the first time it does, a connection after one more
    message at most. *)
Theorem shutdown_stops float_of load_model udp_bind env shard m given total rng wall start loops before after :
  construct float_of load_model udp_bind env shard m given total rng wall = (Ok (cfg, start), loops) ->
  let p := run before start in pr_stopping p = true -> pr_todo p = [] ->
  let p' := run after p in
  (forall r, pr_runner p' = Some r -> ul_open (rl_udp r) = false) /\ pr_executor p' <> Some true /\
  forall l, running l p' = true -> running l p = true /\ l ∉ omap loop_of after.
Proof.
  intros Hc p Hs Ht p'. assert (forall a, finished a p) as Hf.
  { apply all_finished; [|done..]. eapply run_orderly, construct_orderly, Hc. }
  split; [apply (run_finished Close_udp), Hf|]. split; [apply (run_finished Close_executor), Hf|].
  intros l. by apply run_running.
Qed.

(** ** The node in its process *)

Section well_formed.
Context (pulls : (string -> Z -> Z -> result (list C)) -> Prop).

Definition honest (ev : event C) : Prop := match ev with Scan pull => pulls pull | _ => True end.
Abbreviation alive := (alive cfg io render (nc_shard cfg) evict_cooldown clock policy set_order pulls).

Lemma handled_alive born now ev n : alive born n -> alive born (handle now ev n).
Proof. unfold handle. apply Handled. Qed.

Lemma receive_alive born raw n : alive born n -> alive born (receive_gossip raw n).
Proof. intros Ha. unfold receive_gossip. destruct (decode_membership_envelope raw) as [[m|]|]; [|done..]. by apply Gossip. Qed.

Lemma tick_alive born r now (calls : list (nat * StateTransition)) n : alive born n ->
  alive born (foldl (fun n call => handle now (Transition call.2) n) (on_own (modify (set_runner r)) n).2 calls).
Proof.
  intros Ha. assert (forall n', alive born n' -> alive born (foldl (fun n call => handle now (Transition call.2) n) n' calls)) as Hf.
  { induction calls as [|c calls IH]; intros n' Hn; [done|]. apply IH. by apply handled_alive. }
  apply Hf. by apply Ticked.
Qed.

Lemma next_accept_alive born p : alive born (pr_node p) -> alive born (pr_node (next_accept p)).
Proof. unfold next_accept. destruct (pr_stopping p); [|done]. apply NodeLife.Hung_up. Qed.

Lemma perform_node a p : pr_node (perform a p) = pr_node p.
Proof. by destruct a. Qed.

Lemma step_alive born p ev : honest ev -> alive born (pr_node p) -> alive born (pr_node (step p ev)).
Proof.
  intros He Ha. unfold step. destruct (negb _); [done|]. destruct ev; cbn [honest] in He.
  - destruct (pr_server p); try done. unfold serve. destruct bound; [by apply next_accept_alive|done].
  - unfold accept. destruct a; try (by apply next_accept_alive). by apply NodeLife.Hung_up.
  - unfold incoming, next_recv. destruct r; [|exact Ha].
    case_decide; cbn [pr_node set_conns set_node move]; apply handled_alive, Ha.
  - unfold decoded, next_recv. destruct (conn_of _ _); [case_decide|]; cbn [pr_node set_conns set_node move]; apply handled_alive, Ha.
  - unfold udp. destruct d; try done. destruct (pr_runner p) as [r|]; [|done]. destruct (ul_open (rl_udp r)); [|exact Ha].
    apply receive_alive, Ha.
  - unfold tick. destruct (pr_runner p) as [loop0|]; [|done]. destruct (rl_stopping loop0); [done|].
    destruct (o_membership _) as [r|]; [|done]. destruct (run_iteration _ _ _) as [[r' calls]|]; [|exact Ha]. apply tick_alive, Ha.
  - unfold scan. destruct (pr_scanner p) as [s|]; [|done]. destruct (sl_stopping s); [exact Ha|]. apply Scanned; [exact He|exact Ha].
  - done.
  - destruct (pr_todo p) as [|a todo]; [done|]. by rewrite perform_node.
Qed.

Lemma run_alive born es p : Forall honest es -> alive born (pr_node p) -> alive born (pr_node (run es p)).
Proof.
  revert p. induction es as [|ev es IH]; intros p He Ha; [done|]. inversion He as [|? ? He1 He2]. apply IH; [done|]. by apply step_alive.
Qed.

Lemma construct_node float_of load_model udp_bind env shard m given total rng wall start loops :
  construct float_of load_model udp_bind env shard m given total rng wall = (Ok (cfg, start), loops) ->
  init_node float_of load_model udp_bind env shard m given total rng wall = Ok (cfg, pr_node start).
Proof.
  unfold construct. intros [= Hc _]. apply bind_ok in Hc as ([cfg' n] & Hi & Hc). by injection Hc as -> <-.
Qed.

(** The node stays well formed in its process, whichever loops pass, during a
    shutdown and after it. *)
Theorem process_always_ok `{!StackLaws C} tables float_of load_model udp_bind env m given total rng wall start loops es :
  (forall A (l : list A), set_order A l ≡ₚ l) ->
  construct float_of load_model udp_bind env (nc_shard cfg) m given total rng wall = (Ok (cfg, start), loops) -> Forall honest es ->
  bookkeeping (pr_node (run es start)) /\
  (given = None -> partial_node tables (nc_shard cfg) load_model env m pulls -> own_ok (nc_shard cfg) tables (n_own (pr_node (run es start)))).
Proof.
  intros Hperm Hc He. apply construct_node in Hc as Hi. pose proof (init_bookkeeping cfg _ _ _ _ _ _ _ _ _ _ _ Hi) as Hb.
  pose proof (run_alive (pr_node start) es start He (Born _ _ _ _ _ _ _ _ _ _)) as Ha.
  split; [by eapply (alive_bookkeeping cfg io render)|]. intros -> []. eapply (alive_own_ok cfg io render); [..|exact Ha]; try done. by eapply (init_own_ok cfg).
Qed.

End well_formed.

End process.

(** ** Concrete lives *)

Section witness.
#[local] Existing Instance demo_lib.
#[local] Existing Instance demo_laws.
#[local] Existing Instance byte_backend.
#[local] Existing Instance codec.

Definition nobody (_ : string) : option string := None.
Definition demo_run (cfg : NodeConfig) := run nobody cfg all_well no_text same_state (of_int 30) demo_clock demo_policy any_order.

(** The middle shard of the pipeline, with gossip and a scanner. *)
Definition demo_env : environ := [("ENABLE_PARTIAL_LOAD", "1"); ("ENABLE_DYNAMIC_MIGRATION", "1")].
Definition demo_start : result (NodeConfig * Process Byte.byte (list unit) Z script) * option RunnerLoop :=
  construct demo_float load_demo bound demo_env (shard_of "b" 1 2) demo_map (Some (o_model demo_own)) 3 [] 0.
Definition demo_cfg : NodeConfig := cfg_of "b" 1 2 false (shard_of "c" 2 3).

Definition demo_process : Process Byte.byte (list unit) Z script :=
  match demo_start.1 with
  | Ok (_, p) => p
  | Raise _ => mkProc idle false Idle [] None None None []
  end.

Lemma demo_starts : demo_start = (Ok (demo_cfg, demo_process), Some (mkRunnerLoop (mkUdp true false Running) false Running)).
Proof. vm_compute. reflexivity. Qed.

(** The head connects; then the node is shut down. *)
Definition served : list (event Z) := [Serve true; Accepted New_connection].
Definition shut : list (event Z) :=
  [Call_shutdown; Shutdown_next; Shutdown_next; Shutdown_next; Shutdown_next; Shutdown_next].
(** The activation of a request the head accepted. *)
Definition activation : Envelope * bytes := default (None, []) (head (sent_to (Outbound 0) (net_log (n_net waiting_head)))).
Definition last_passes : list (event Z) :=
  [Udp Udp_timeout; Accepted New_connection; Tick (mkRound f0 (fun _ => f0) (Raise KeyError) (Raise KeyError));
   Scan demo_pull; Incoming 0 f0 (Envelope_in activation.1 activation.2)].

Lemma shutdown_stops_witness :
  let p := demo_run demo_cfg (served ++ shut) demo_process in
  running Server p = true /\ running (Connection 0) p = true /\ running Gossip_loop p = true /\
  forall l, l ∈ [Server; Connection 0; Gossip_loop; Udp_loop; Scanner_loop] ->
    running l (demo_run demo_cfg last_passes p) = false.
Proof.
  intros p. split; [vm_compute; reflexivity|]. split; [vm_compute; reflexivity|]. split; [vm_compute; reflexivity|].
  destruct (shutdown_stops nobody demo_cfg all_well no_text same_state (of_int 30) demo_clock demo_policy any_order
    demo_float load_demo bound demo_env (shard_of "b" 1 2) demo_map (Some (o_model demo_own)) 3 [] 0 demo_process
    (Some (mkRunnerLoop (mkUdp true false Running) false Running)) (served ++ shut) last_passes
    demo_starts) as (_ & _ & Hl); [vm_compute; reflexivity|vm_compute; reflexivity|].
  subst p. unfold demo_run. intros l Hin. apply not_true_is_false. intros Hr. destruct (Hl l Hr) as [_ Hn]. apply Hn.
  clear -Hin. change (omap loop_of last_passes) with [Udp_loop; Server; Gossip_loop; Scanner_loop; Connection 0]. set_solver.
Defined.

(** A message that arrives after [serve_forever] has returned makes its
    connection's thread dial the downstream shard again, and nothing closes that
    connection. *)
Lemma outbound_reopened :
  let p := demo_run demo_cfg (served ++ shut ++ last_passes) demo_process in
  pr_server p = Done (Ok tt) /\ net_out (n_net (pr_node p)) <> None /\
  forall l, l ∈ [Server; Connection 0; Connection 1; Gossip_loop; Udp_loop; Scanner_loop] -> running l p = false.
Proof.
  split; [vm_compute; reflexivity|]. split; [vm_compute; discriminate|]. apply Forall_forall. vm_compute. repeat constructor.
Qed.

End witness.

(** ** A constructor that fails *)

Lemma membership_built {R} `{RandomLaws R} udp_bind shard m (rng : R) wall :
  udp_bind (ss_udp_port shard) = Ok tt -> exists r, build_membership_runner udp_bind shard m rng wall = Ok r.
Proof.
  intros Hu. unfold build_membership_runner, init_runner. rewrite Hu.
  match goal with |- context [init_state ?self ?peers ?r ?c ?model ?inc] =>
    destruct (init_wf self peers r c model inc) as (st & -> & _) end.
  by eexists.
Qed.

(** The membership threads run before there is a model: whatever the constructor
    raises afterwards, a backend that cannot be built or a setting that is no
    number, leaves them running, and nobody holds the node to shut it down. *)
Theorem failed_construction_keeps_gossiping {T K C R} `{StackLib C} `{RandomLaws R} float_of load_model udp_bind env shard m given total (rng : R) wall :
  udp_bind (ss_udp_port shard) = Ok tt -> is_ok (resolve_downstream shard m total) = true -> gossip_enabled env = true ->
  (dynamic_migration_enabled env = true -> partial_load_enabled env = true) ->
  exists r, (construct (T := T) (K := K) float_of load_model udp_bind env shard m given total rng wall).2 = Some r /\
    is_alive (rl_thread r) = true /\ is_alive (ul_thread (rl_udp r)) = true /\ ul_open (rl_udp r) = true.
Proof.
  intros Hu Hn Hg Hd. unfold construct.
  assert (exists h l d r, before_model udp_bind env shard m total rng wall = Ok (h, l, d, Some r)) as (h & l & d & r & Hbm).
  { destruct (membership_built udp_bind shard m rng wall Hu) as [r Hr]. destruct (resolve_downstream shard m total) as [d|] eqn:Er; [|done].
    unfold before_model. rewrite Er, Hr, Hg.
    assert (negb (dynamic_migration_enabled env && negb (partial_load_enabled env)) = true) as ->.
    { destruct (dynamic_migration_enabled env); [by rewrite Hd|done]. }
    destruct (init_heat (flit 3 1) 16) as [h|] eqn:Eh; [|vm_compute in Eh; discriminate Eh].
    destruct (init_load (flit 3 1) (flit 1 1)) as [l|] eqn:El; [|vm_compute in El; discriminate El].
    by repeat eexists. }
  rewrite Hbm. eexists. by repeat split.
Qed.

(** The constructor raises, for a threshold that is no number; its threads run. *)
Lemma bad_threshold_leaks :
  let '(r, loops) := construct (T := Byte.byte) (K := list unit) (H := demo_lib) demo_float load_demo bound
    (("MIGRATION_HEAT_THRESHOLD", "5O") :: demo_env) (shard_of "b" 1 2) demo_map (Some (o_model demo_own)) 3 ([] : script) 0 in
  r = Raise ValueError /\ exists l, loops = Some l /\ is_alive (rl_thread l) = true.
Proof. vm_compute. split; [done|]. by eexists. Qed.
