(* ===== verification/Comparison.v ===== *)
(** * The comparison runs

    scripts/run_client.py and scripts/run_reference.py write the records of a
    prompt set, generated by the nodes and by the reference;
    scripts/generate_tier1_comparison_fixture.py decodes through a backend and
    keeps the best tokens of every position.  The tokenizer is an argument. *)
From S2P Require Import PtEngine PtExperts Backends.
From S2P Require Import Prelude PyDict PyFloat PyList Wire Records ShardMap Provenance Experts Effects Migration Engine.
From S2P Require Import NodeState NodeHandlers NodeProvenance NodeWitnesses Layers Reference ClusterWitnesses RunNode.
Open Scope Z_scope.

(** ** run_client.py *)

(** [_find_head] *)
Fixpoint first_head (m : ShardMap) (sids : list string) : result string :=
  match sids with
  | [] => Raise ValueError
  | sid :: sids => s ← lookup_shard sid m; if ss_start s =? 0 then Ok sid else first_head m sids
  end.
Definition find_head (m : ShardMap) : result string := first_head m (all_shards m).

(** An entry of a manifest's prompts. *)
Record PromptRecord : Type := mkPrompt {
  pr_id : nat;
  pr_text : string;
  pr_prompt_tokens : list Z;
  pr_generated_tokens : list Z;
  pr_generated_text : string;
}.

Section runs.
Context (repr : yaml -> string) (encode : string -> list Z) (decode : list Z -> string).

Section client.
Context {S : Type} (generate : NodeAddress -> list Z -> Z -> eff S (list Z)).

(** The timed pass, from prompt [i] on. *)
Fixpoint client_records (head : NodeAddress) (max_new_tokens : Z) (i : nat) (prompts : list string) : eff S (list PromptRecord) :=
  match prompts with
  | [] => mret []
  | text :: prompts =>
      let prompt_tokens := encode text in
      generated ← generate head prompt_tokens max_new_tokens;
      records ← client_records head max_new_tokens (i + 1)%nat prompts;
      mret (mkPrompt i text prompt_tokens generated (decode generated) :: records)
  end.

(** [main]: the model id and the records of the manifest *)
Definition run_client (config : yaml) (model : option string) (prompts : list string) (warmup : bool) (max_new_tokens : Z)
    : eff S (string * list PromptRecord) :=
  shard_map ← lift (from_yaml repr config);
  let model_id := or_else model (sm_model_id shard_map) in
  _ ← lift (require (negb (bool_decide (model_id = ""))) SystemExit);
  head ← lift (find_head shard_map);
  head_spec ← lift (lookup_shard head shard_map);
  _ ← when warmup (for_each prompts (fun text => _ ← generate (ss_address head_spec) (encode text) 1; skip));
  records ← client_records (ss_address head_spec) max_new_tokens 0 prompts;
  mret (model_id, records).

End client.

(** ** run_reference.py *)

Section reference.
Context {T M Slot C : Type} `{TextModel T M Slot} `{NodeBackend T (list Slot) C} (num_layers : Z) (now : float) (norm : T -> T).

(** A record, and the arrays of its hidden-states file. *)
Fixpoint reference_records (max_new_tokens : Z) (skip_hidden_states : bool) (i : nat) (prompts : list string)
    : result (list (PromptRecord * option (PrefillTrace (T := T)))) :=
  match prompts with
  | [] => Ok []
  | text :: prompts =>
      let prompt_tokens := encode text in
      generated ← generate_greedy num_layers now prompt_tokens max_new_tokens;
      trace ← (if skip_hidden_states then Ok None
               else t ← prefill_trace num_layers now norm prompt_tokens; Ok (Some t));
      records ← reference_records max_new_tokens skip_hidden_states (i + 1)%nat prompts;
      Ok ((mkPrompt i text prompt_tokens generated (decode generated), trace) :: records)
  end.

End reference.

(** *** The acceptance run *)

Section acceptance.
Context {S T M Slot C : Type} `{TextModel T M Slot} `{NodeBackend T (list Slot) C} (num_layers : Z) (now : float) (norm : T -> T).
Context (nslots : nat) `{!ModelLaws num_layers nslots}.
Context (generate : NodeAddress -> list Z -> Z -> eff S (list Z)).
Hypothesis layers_nonneg : 0 <= num_layers.

(** What [SplitCluster.sharded_generation] gives of a request to the nodes. *)
Hypothesis nodes_generate : forall head prompt max s, exists s',
  generate head prompt max s = (generate_greedy num_layers now prompt max, s').

Lemma client_records_agree head max skip prompts i s : exists records traced s',
  client_records generate head max i prompts s = (Ok records, s') /\
  reference_records num_layers now norm max skip i prompts = Ok traced /\ traced.*1 = records.
Proof using All.
  revert i s. induction prompts as [|text prompts IH]; intros i s; [by exists [], [], s|]. cbn [client_records reference_records].
  destruct (nodes_generate head (encode text) max s) as (s1 & Hg). rewrite run_bind, Hg.
  rewrite (generate_greedy_ok num_layers nslots now). cbn [mbind result_bind].
  destruct (IH (i + 1)%nat s1) as (records & traced & s' & Hc & Hr & He).
  rewrite run_bind, Hc, (prefill_trace_ok num_layers nslots now) by done. rewrite Hr.
  destruct skip; cbn [mbind result_bind]; do 3 eexists; (split; [reflexivity|]); (split; [reflexivity|]); cbn; by rewrite He.
Qed.

(** The manifest of a run against the nodes has the records of the reference's. *)
Lemma acceptance_records config model prompts warmup max skip m head s :
  from_yaml repr config = Ok m -> or_else model (sm_model_id m) <> "" -> find_head m = Ok head ->
  exists spec records traced s', lookup_shard head m = Ok spec /\
    run_client generate config model prompts warmup max s = (Ok (or_else model (sm_model_id m), records), s') /\
    reference_records num_layers now norm max skip 0 prompts = Ok traced /\ traced.*1 = records.
Proof using All.
  intros Hm Hne Hh. assert (exists spec, lookup_shard head m = Ok spec) as [spec Hs].
  { unfold find_head in Hh. induction (all_shards m) as [|sid sids IH]; [done|]. cbn in Hh.
    apply bind_ok in Hh as (x & Hx & Hh). destruct (ss_start x =? 0); [injection Hh as <-; by exists x|by apply IH]. }
  assert (exists s1, when warmup (for_each prompts (fun text => _ ← generate (ss_address spec) (encode text) 1; Effects.skip)) s = (Ok tt, s1)) as [s1 Hw].
  { destruct warmup; cbn [when]; [|by exists s]. revert s. induction prompts as [|text prompts IH]; intros s; [by exists s|].
    destruct (nodes_generate (ss_address spec) (encode text) 1 s) as (s2 & Hg). destruct (IH s2) as [s1 H1']. exists s1. cbn [for_each].
    rewrite run_bind, run_bind, Hg. rewrite (generate_greedy_ok num_layers nslots now). exact H1'. }
  destruct (client_records_agree (ss_address spec) max skip prompts 0 s1) as (records & traced & s' & Hc & Hr & He).
  exists spec, records, traced, s'. split; [done|]. split; [|done]. unfold run_client.
  rewrite run_bind, Hm. cbn [lift]. rewrite run_bind, bool_decide_eq_false_2 by done. cbn [negb require lift].
  rewrite run_bind, Hh. cbn [lift]. rewrite run_bind, Hs. cbn [lift]. rewrite run_bind, Hw. by rewrite run_bind, Hc.
Qed.

End acceptance.

End runs.

(** ** The best tokens of a position *)

(** [l[:k]] *)
Definition slice_to {A} (k : Z) (l : list A) : list A :=
  if k <? 0 then take (Z.to_nat (Z.of_nat (length l) + k)) l else take (Z.to_nat k) l.

Section topk.
Context {T : Type} (softmax_last : T -> list float) (argsort_desc : list float -> list nat).

(** [mlx_engine.top_k_ids_and_weights], for the softmax of the last position and
    [mx.argsort(-weights)] *)
Definition top_k_ids_and_weights (logits : T) (k : Z) : list Z * list float :=
  let weights := softmax_last logits in
  let effective_k := Z.min k (Z.of_nat (length weights)) in
  let top_i := slice_to effective_k (argsort_desc weights) in
  (Z.of_nat <$> top_i, (fun i => default f0 (weights !! i)) <$> top_i).

(** For 0 <= k it gives [k] ids or the whole vocabulary, each with its weight. *)
Lemma top_k_aligned logits k : 0 <= k -> (forall ws, argsort_desc ws ≡ₚ seq 0 (length ws)) ->
  let r := top_k_ids_and_weights logits k in
  length r.1 = Nat.min (Z.to_nat k) (length (softmax_last logits)) /\ NoDup r.1 /\
  forall j id, r.1 !! j = Some id -> r.2 !! j = softmax_last logits !! Z.to_nat id.
Proof.
  intros Hk Hs r. set (ws := softmax_last logits) in *.
  assert (Hr : slice_to (Z.min k (Z.of_nat (length ws))) (argsort_desc ws) = take (Nat.min (Z.to_nat k) (length ws)) (argsort_desc ws)).
  { unfold slice_to. destruct (Z.ltb_spec (Z.min k (Z.of_nat (length ws))) 0); [lia|]. f_equal. lia. }
  unfold r, top_k_ids_and_weights. fold ws. cbv zeta. rewrite Hr. cbn [fst snd]. split_and!.
  - rewrite length_fmap, length_take, (Hs ws), length_seq. lia.
  - apply NoDup_fmap; [intros x y ?; lia|]. apply (sublist_NoDup _ (argsort_desc ws)); [rewrite (Hs ws); apply NoDup_seq|apply sublist_take].
  - intros j id Hj. apply list_lookup_fmap_Some in Hj as (i & -> & Ei). rewrite list_lookup_fmap, Ei. cbn. rewrite Nat2Z.id. assert (Hin : i ∈ seq 0 (length ws)).
    { rewrite <- (Hs ws). apply list_elem_of_lookup. exists j. by apply lookup_take_Some in Ei as [? _]. }
    apply elem_of_seq in Hin as [_ Hin]. destruct (lookup_lt_is_Some_2 ws i Hin) as [w ->]. done.
Qed.

(** [pytorch_engine.top_k_ids_and_weights]: [torch.topk] yields the weights and
    their positions. *)
Definition pt_top_k_ids_and_weights (torch_topk : list float -> Z -> result (list float * list nat)) (logits : T) (k : Z)
    : result (list Z * list float) :=
  let weights := softmax_last logits in
  let effective_k := Z.min k (Z.of_nat (length weights)) in
  match torch_topk weights effective_k with
  | Ok (top_w, top_i) => Ok (Z.of_nat <$> top_i, top_w)
  | Raise e => Raise e
  end.

End topk.

(** ** generate_tier1_comparison_fixture.py *)

Section decode.
Context {B Act Cache Masks C : Type} `{Backend B Act Cache Masks C} (b : B) (topk : Act -> Z -> result (list Z * list float)).

(** [for i in range(num_layers): h = backend.run_layer_atomic(i, h, cache, masks)] *)
Fixpoint run_atomic_layers (layers : list Z) (h : Act) (masks : Masks) : eff Cache Act :=
  match layers with
  | [] => mret h
  | i :: layers => h ← bk_run_layer_atomic b i h masks; run_atomic_layers layers h masks
  end.

(** The logits after one more call of all the layers; the script asks for their
    number once, on its first call. *)
Definition decode_position (tokens : list Z) : eff Cache Act :=
  h ← lift (bk_embed b tokens);
  masks ← ((fun cache => (bk_make_masks b h cache, cache)) : eff Cache Masks);
  num_layers ← lift (bk_num_layers b);
  h ← run_atomic_layers (range 0 num_layers) h masks;
  lift (bk_finalize b h).

(** [for _ in range(n_positions - 1)], after a position with the given ids *)
Fixpoint decode_positions (n : nat) (ids : list Z) (k : Z) : eff Cache (list (list Z * list float)) :=
  match n with
  | O => mret []
  | S n =>
      tok_id ← lift (py_nth ids 0);
      logits ← decode_position [tok_id];
      r ← lift (topk logits k);
      out ← decode_positions n r.1 k;
      mret (r :: out)
  end.

(** [_greedy_decode_with_topk] *)
Definition greedy_decode_with_topk (prompt_ids : list Z) (n_positions k : Z) : result (list (list Z * list float)) :=
  cache ← bk_make_cache b;
  ((logits ← decode_position prompt_ids;
    r ← lift (topk logits k);
    out ← decode_positions (Z.to_nat (n_positions - 1)) r.1 k;
    mret (r :: out)) cache).1.

(** spark_smoke_test.py: the token after a prompt *)
Definition smoke_token (prompt_ids : list Z) : result Z :=
  cache ← bk_make_cache b;
  ((logits ← decode_position prompt_ids; mret (bk_argmax_last b logits)) cache).1.

End decode.

(** ** The program *)

Definition PROMPTS : list string := ["The quick brown fox"; "In a galaxy far far away"; "Once upon a time"].
Definition N_POSITIONS : Z := 10.
Definition TOP_K_RECORDED : Z := 5.

(** [_load_backend]: the backend, its device and dtype names, for what torch says
    of CUDA and MPS; loading the model may raise. *)
Definition dtype_name (d : LoadDtype) : string :=
  match d with
  | bfloat16 => "bfloat16"
  | float16 => "float16"
  end.
Definition choose_backend (env : environ) (cuda mps : bool) : result (BackendKind * string * string) :=
  let name := or_else (Some (lower (env_get "MODEL_SHARD_BACKEND" "" env))) "pytorch" in
  if decide (name = "mlx") then Ok (MLX, "mps", "mlx-bf16")
  else if decide (name = "pytorch") then
    let device := default_device cuda mps in Ok (PyTorch, device, dtype_name (backend_dtype device))
  else Raise ValueError.
Definition load_backend (load : BackendKind -> string -> result unit) (env : environ) (cuda mps : bool) (hf_id : string)
    : result (BackendKind * string * string) :=
  '(kind, device, dtype) ← choose_backend env cuda mps;
  _ ← load kind hf_id;
  Ok (kind, device, dtype).

Definition backend_name (kind : BackendKind) : string :=
  match kind with
  | MLX => "mlx"
  | PyTorch => "pytorch"
  end.

Record FixturePrompt : Type := mkFixturePrompt {
  fp_prompt : string;
  fp_prompt_ids : list Z;
  fp_top_k_per_position : list (list Z * list float);
}.
Record Fixture : Type := mkFixture {
  fx_file : string;
  fx_model_id : string;
  fx_backend : string;
  fx_device : string;
  fx_dtype : string;
  fx_n_positions : Z;
  fx_top_k_recorded : Z;
  fx_generator : string;
  fx_prompts : list FixturePrompt;
}.

(** [main], up to writing the file; [decode] is [greedy_decode_with_topk] on the
    backend of the kind, with its own [top_k_ids_and_weights]. *)
Definition tier1_fixture (decode : BackendKind -> list Z -> Z -> Z -> result (list (list Z * list float))) (load : BackendKind -> string -> result unit) (encode : string -> list Z) (env : environ) (cuda mps : bool)
    (hf_id : string) : result Fixture :=
  '(kind, device, dtype) ← load_backend load env cuda mps hf_id;
  prompts ← mapR (fun prompt =>
    let prompt_ids := encode prompt in
    top_k_per_position ← decode kind prompt_ids N_POSITIONS TOP_K_RECORDED;
    Ok (mkFixturePrompt prompt prompt_ids top_k_per_position)) PROMPTS;
  let name := backend_name kind in
  Ok (mkFixture (name +:+ "_tier1_tokens.json") hf_id name device dtype N_POSITIONS TOP_K_RECORDED
        (name +:+ " greedy decode + top-5 record") prompts).

(** ** With MLX, the fixture is the reference's generation *)

Section fixture.
Context {T M Slot C F : Type} `{StackLib C} `{TextModel T M Slot} `{LogitOps T F} (wires : TensorWire T) (weights : TensorWire C).
Context (library_load : string -> result (list (list (Attr C)))) (resolve : string -> string) (make_cache : list Slot)
  (switch : list (Attr C) -> Z -> T -> T) (norm2 : Z -> T -> T) (stack : list T -> result T).

(** The functions of mlx_engine.py that the backend and [ReferenceModel] call. *)
Definition mlx_engine : NodeBackend T (list Slot) C := {|
  nb_wire := wires;
  nb_weights := weights;
  nb_make_cache := make_cache;
  nb_embed := embed_tokens;
  nb_finalize := finalize;
  nb_argmax_last := lg_argmax;
  nb_run_selected lm l h ids := Experts.run_selected_experts switch norm2 lm h l ids;
  nb_stack := stack;
|}.
#[local] Existing Instance mlx_engine.
#[local] Instance mlx_ops : Backend (MLXBackend C) T (list Slot) (M * M) C := mlx_methods library_load resolve make_cache switch norm2.

(** The row [logits[0, -1, :]], its softmax, and [mx.argsort(-weights)]. *)
Context (last_row : T -> list float) (softmax_last : T -> list float) (argsort_desc : list float -> list nat).

(** No logit of the row is NaN. *)
Definition numeric (h : T) : Prop := S754_nan ∉ last_row h.

(** What the array library guarantees of them: the softmax has a weight for
    every logit and keeps their order; the positions are sorted by weight, of
    numbers the largest first; [argmax] finds a largest of them. *)
Class RowLaws : Prop := {
  row_softmax_length h : length (softmax_last h) = length (last_row h);
  row_softmax_mono h i j x y wx wy : last_row h !! i = Some x -> last_row h !! j = Some y -> fle x y = true ->
    softmax_last h !! i = Some wx -> softmax_last h !! j = Some wy -> fle wx wy = true;
  row_argsort_perm ws : argsort_desc ws ≡ₚ seq 0 (length ws);
  row_argsort_first h i rest j wi wj : numeric h -> argsort_desc (softmax_last h) = i :: rest ->
    softmax_last h !! i = Some wi -> softmax_last h !! j = Some wj -> fle wj wi = true;
  row_argmax h : numeric h -> exists i x, lg_argmax h = Z.of_nat i /\ last_row h !! i = Some x /\
    forall j y, last_row h !! j = Some y -> fle y x = true;
}.

(** One token has the best weight. *)
Definition untied (h : T) : Prop := numeric h /\ forall i j wi wj, softmax_last h !! i = Some wi -> softmax_last h !! j = Some wj ->
  (forall j' w, softmax_last h !! j' = Some w -> fle w wi = true) -> fle wi wj = true -> i = j.

Abbreviation topk := (top_k_ids_and_weights softmax_last argsort_desc).

Lemma top1_is_argmax `{!RowLaws} h k : 1 <= k -> untied h -> head (topk h k).1 = Some (lg_argmax h).
Proof.
  intros Hk [Hnum Hu]. destruct (row_argmax h Hnum) as (a & x & Ha & Hx & Hmax). pose proof (row_softmax_length h) as Hlen.
  destruct (lookup_lt_is_Some_2 (softmax_last h) a) as [wa Hwa]; [rewrite Hlen; by eapply lookup_lt_Some|].
  assert (Hbest : forall j w, softmax_last h !! j = Some w -> fle w wa = true).
  { intros j w Hw. destruct (lookup_lt_is_Some_2 (last_row h) j) as [y Hy]; [rewrite <- Hlen; by eapply lookup_lt_Some|].
    eapply row_softmax_mono; [exact Hy|exact Hx|by eapply Hmax|exact Hw|exact Hwa]. }
  pose proof (lookup_lt_Some _ _ _ Hwa) as Hpos. pose proof (row_argsort_perm (softmax_last h)) as Hperm.
  assert (Hi : exists i rest, argsort_desc (softmax_last h) = i :: rest).
  { destruct (argsort_desc (softmax_last h)) as [|i rest]; [|by exists i, rest]. apply Permutation_length in Hperm.
    rewrite length_seq in Hperm. cbn in Hperm. lia. }
  destruct Hi as (i & rest & Hsort). assert (i ∈ seq 0 (length (softmax_last h))) as Hin by (rewrite <- Hperm, Hsort; left).
  apply elem_of_seq in Hin as [_ Hin]. destruct (lookup_lt_is_Some_2 (softmax_last h) i Hin) as [wi Hwi].
  assert (a = i) as -> by (apply (Hu a i wa wi Hwa Hwi Hbest); by eapply (row_argsort_first h)).
  unfold top_k_ids_and_weights, slice_to. cbn [fst]. rewrite Hsort, Ha. destruct (Z.ltb_spec (Z.min k (Z.of_nat (length (softmax_last h)))) 0); [lia|].
  destruct (Z.to_nat (Z.min k (Z.of_nat (length (softmax_last h))))) eqn:E; [lia|]. done.
Qed.

(** The loaded model, of which the library's laws hold. *)
Context (lm : LoadedModel C).
Abbreviation num_layers := (Z.of_nat (length (lm_layers lm))).
Abbreviation mlx := (mlx_from_loaded lm).
Context (nslots : nat) `{!ModelLaws num_layers nslots} `{!RowLaws} (now : float) (k : Z).

Abbreviation mlx_topk := (fun h k => Ok (topk h k)).

Lemma run_atomic_layers_fold layers h masks cache : (forall i, i ∈ layers -> 0 <= i < num_layers) -> length cache = nslots ->
  run_atomic_layers mlx layers h masks cache =
  (Ok (fold_layers masks layers (h, cache)).1, (fold_layers masks layers (h, cache)).2).
Proof.
  revert h cache. induction layers as [|i layers IH]; intros h cache Hl Hc; [done|]. cbn [run_atomic_layers].
  rewrite (run_ok _ _ _ _ _ (run_layer_atomic_step num_layers nslots i h masks cache (Hl i ltac:(left)) Hc)).
  rewrite IH; [by rewrite fold_cons, <- surjective_pairing|intros j Hj; apply Hl; by right|].
  rewrite <- Hc. apply (fold_length masks [i] (h, cache)).
Qed.

Lemma decode_position_ok tokens cache : length cache = nslots ->
  decode_position mlx tokens cache =
  (Ok (nb_finalize (layers_of_step tokens cache num_layers).1), (layers_of_step tokens cache num_layers).2).
Proof.
  intros Hc. unfold decode_position. cbn [bk_embed bk_make_masks bk_num_layers mlx_ops mlx_methods mlx_from_loaded mb_lm loaded].
  rewrite run_bind. cbn [lift]. rewrite run_bind, (make_masks_ok num_layers nslots). rewrite run_bind. cbn [lift].
  erewrite run_ok by (apply run_atomic_layers_fold; [intros i Hi%range_in; lia|done]). done.
Qed.

(** What the fixture records at position [i]. *)
Definition recorded prompt i : list Z * list float := topk (nb_finalize (boundary num_layers prompt i num_layers).1) k.

Hypothesis records_one : 1 <= k.

Section prompt.
Context (prompt : list Z) (n_positions : Z).
Hypothesis no_ties : forall i, Z.of_nat i < Z.max 1 n_positions -> untied (nb_finalize (boundary num_layers prompt i num_layers).1).

Lemma recorded_top i : Z.of_nat i < Z.max 1 n_positions -> head (recorded prompt i).1 = Some (step_token num_layers prompt i).
Proof using All. intros Hi. apply top1_is_argmax; [done|]. by apply no_ties. Qed.

Lemma decode_positions_ok n i : Z.of_nat i + Z.of_nat n < Z.max 1 n_positions ->
  decode_positions mlx mlx_topk n (recorded prompt i).1 k (step_state num_layers prompt (S i)).2 =
  (Ok (recorded prompt <$> seq (S i) n), (step_state num_layers prompt (S i + n)).2).
Proof using All.
  revert i. induction n as [|n IH]; intros i Hi; [by rewrite Nat.add_0_r|]. cbn [decode_positions seq fmap list_fmap].
  assert (Ht : py_nth (recorded prompt i).1 0 = Ok (step_token num_layers prompt i)).
  { pose proof (recorded_top i ltac:(lia)) as Ht. change 0 with (Z.of_nat 0). rewrite py_nth_nat.
    by destruct (recorded prompt i).1 as [|x xs]; [|injection Ht as ->]. }
  rewrite run_bind, Ht. cbn [lift].
  erewrite run_ok by (apply decode_position_ok, (step_state_length num_layers nslots)). cbv zeta beta.
  change (layers_of_step [step_token num_layers prompt i] (step_state num_layers prompt (S i)).2 num_layers) with (boundary num_layers prompt (S i) num_layers).
  change (boundary num_layers prompt (S i) num_layers).2 with (step_state num_layers prompt (S (S i))).2.
  rewrite run_bind. cbn [lift].
  change (topk (nb_finalize (boundary num_layers prompt (S i) num_layers).1) k) with (recorded prompt (S i)).
  rewrite run_bind, IH by lia. by replace (S i + S n)%nat with (S (S i) + n)%nat by lia.
Qed.

Lemma greedy_decode_ok :
  greedy_decode_with_topk mlx mlx_topk prompt n_positions k = Ok (recorded prompt <$> seq 0 (S (Z.to_nat (n_positions - 1)))).
Proof using All.
  unfold greedy_decode_with_topk. change (bk_make_cache mlx) with (Ok (nb_make_cache : list Slot)). cbn [mbind result_bind].
  rewrite run_bind, decode_position_ok by apply fresh_slots.
  change (layers_of_step prompt nb_make_cache num_layers) with (boundary num_layers prompt 0 num_layers).
  change (boundary num_layers prompt 0 num_layers).2 with (step_state num_layers prompt 1).2.
  rewrite run_bind. cbn [lift].
  change (topk (nb_finalize (boundary num_layers prompt 0 num_layers).1) k) with (recorded prompt 0).
  rewrite run_bind, decode_positions_ok by lia. done.
Qed.


End prompt.

End fixture.

(** ** The model of [ClusterWitnesses], with two tokens *)

Section witness.
#[local] Existing Instance demo_lib.
#[local] Existing Instance row_weights.
#[local] Existing Instance seq_wire.
#[local] Existing Instance seq_model.

#[local] Instance seq_logits : LogitOps seq_state Z := {
  lg_norm h := h; lg_head h := h; lg_softcap := None; lg_div h _ := h; lg_tanh h := h; lg_mul h _ := h;
  lg_embed toks := (byte_of (foldl Z.add 0 toks), byte_of (Z.of_nat (length toks)));
  lg_scale := 1;
  lg_argmax h := if Z.even (of_byte h.1) then 0 else 1;
}.
(** An even state prefers token 0, an odd one token 1. *)
Definition seq_row (h : seq_state) : list float := if Z.even (of_byte h.1) then [f1; f0] else [f0; f1].
Definition seq_argsort (ws : list float) : list nat :=
  match ws with
  | [a; b] => if fle b a then [0%nat; 1%nat] else [1%nat; 0%nat]
  | _ => seq 0 (length ws)
  end.
Definition seq_lm : LoadedModel Z := mkModel [[]; []; []] [].

#[local] Instance seq_engine : NodeBackend seq_state (list Z) Z :=
  mlx_engine seq_wire row_weights [0; 0; 0] (fun _ _ h => h) (fun _ h => h) (fun _ => Raise ValueError).

#[local] Instance seq_engine_laws : ModelLaws 3 3.
Proof.
  refine {| positions h := of_byte h.2; rotating _ := True |}; try done.
  - intros i Hi. exists (Z.even i), i. done.
  - intros i j k _ _ Hi Hj. cbn in Hi, Hj. congruence.
  - intros h h' c w He. cbn in He |- *. by rewrite He.
  - intros h c c' He. cbn in He |- *. by rewrite He.
  - intros h c c' He _ _. cbn in He |- *. by rewrite He.
Defined.

#[local] Instance seq_rows : RowLaws seq_row seq_row seq_argsort.
Proof.
  split.
  - done.
  - intros h i j x y wx wy Hx Hy Hle Hwx Hwy. congruence.
  - intros [|a [|b [|c ws]]]; try done. cbn [seq_argsort]. destruct (fle b a); [done|]. apply Permutation_swap.
  - intros h i rest j wi wj _. unfold seq_row. destruct (Z.even (of_byte h.1)); vm_compute (seq_argsort _); intros [= <- <-];
      (destruct j as [|[|j]]; [| |done]); intros [= <-] [= <-]; vm_compute; reflexivity.
  - intros h _. unfold seq_row. cbn [lg_argmax seq_logits]. destruct (Z.even (of_byte h.1)); [exists 0%nat, f1|exists 1%nat, f1];
      (split; [done|]; split; [done|]); intros [|[|j]] y; intros [= <-]; vm_compute; reflexivity.
Qed.

Lemma seq_untied (h : seq_state) : untied seq_row seq_row h.
Proof.
  unfold untied, numeric, seq_row. destruct (Z.even (of_byte h.1)).
  - split; [intros Hin; apply list_elem_of_In in Hin as [Hin|[Hin|[]]]; vm_compute in Hin; discriminate Hin|]. intros [|[|i]] [|[|j]] wi wj; try done; intros [= <-] [= <-] Hb Hle;
      [discriminate Hle|]. specialize (Hb 0%nat f1 eq_refl). discriminate Hb.
  - split; [intros Hin; apply list_elem_of_In in Hin as [Hin|[Hin|[]]]; vm_compute in Hin; discriminate Hin|]. intros [|[|i]] [|[|j]] wi wj; try done; intros [= <-] [= <-] Hb Hle;
      [|discriminate Hle]. specialize (Hb 1%nat f1 eq_refl). discriminate Hb.
Qed.

Abbreviation seq_mlx := (mlx_methods (T := seq_state) (M := Z) (C := Z) (fun _ => Raise KeyError) (fun id => id) [0; 0; 0] (fun _ _ h => h) (fun _ h => h)).


End witness.
