(* ===== verification/InFlight.v ===== *)
(** * expert_orchestrator.py: aborting the calls to a peer that left

    [_in_flight] maps a request to the abort events of the peers it is waiting
    for.  The thread of the request registers its events before it polls them
    and removes them at the end; the membership observer sets the events of a
    peer that leaves ALIVE.  Events are objects shared by both threads: they live
    in a store and are referred to by number.  [Orchestrator.Round] is what a
    pass of the polling loop finds set. *)
From S2P Require Import Prelude PyDict.
Open Scope Z_scope.

(** [threading.Event] objects, and [_in_flight]. *)
Record Registry : Type := mkRegistry {
  rg_in_flight : dict string (dict string nat);
  rg_events : list bool;
}.

(** [{peer: threading.Event() for peer in futures}] *)
Definition fresh_events (first : nat) (peers : list string) : dict string nat :=
  imap (fun i peer => (peer, (first + i)%nat)) peers.

(** The start of an attempt; without peers there is nothing to register. *)
Definition register (request_id : string) (peers : list string) (g : Registry) : Registry :=
  match peers with
  | [] => g
  | _ => mkRegistry (dict_set request_id (fresh_events (length (rg_events g)) peers) (rg_in_flight g))
           (rg_events g ++ replicate (length peers) false)
  end.

(** [finally: self._in_flight.pop(request_id, None)] *)
Definition unregister (request_id : string) (g : Registry) : Registry :=
  mkRegistry (dict_pop request_id (rg_in_flight g)) (rg_events g).

(** [notify_peer_left_alive] *)
Definition notify_peer_left_alive (peer_shard_id : string) (g : Registry) : Registry :=
  let to_set := omap (fun peers : dict string nat => dict_get peer_shard_id peers) (dict_values (rg_in_flight g)) in
  mkRegistry (rg_in_flight g) (foldl (fun events ref => <[ref := true]> events) (rg_events g) to_set).

(** What the request sees of its event for a peer; None when it waits for none. *)
Definition abort_event (g : Registry) (request_id peer : string) : option bool :=
  peers ← dict_get request_id (rg_in_flight g); ref ← dict_get peer peers; rg_events g !! ref.

(** ** Any interleaving of requests and departures *)

Inductive RegEvent : Type :=
| Waits (request_id : string) (peers : list string)
| Leaves (peer : string)
| Ends (request_id : string).

Definition reg_step (g : Registry) (ev : RegEvent) : Registry :=
  match ev with
  | Waits rid peers => register rid peers g
  | Leaves peer => notify_peer_left_alive peer g
  | Ends rid => unregister rid g
  end.

(** The specification: who waits for whom, and whether the peer has left since. *)
Abbreviation waiting_t := (string -> string -> option bool).
Definition spec_step (s : waiting_t) (ev : RegEvent) : waiting_t := fun rid peer =>
  match ev with
  | Waits rid' [] => s rid peer
  | Waits rid' peers => if decide (rid = rid') then if decide (peer ∈ peers) then Some false else None else s rid peer
  | Leaves peer' => if decide (peer = peer') then (fun _ => true) <$> s rid peer else s rid peer
  | Ends rid' => if decide (rid = rid') then None else s rid peer
  end.

(** The peers of an attempt are the keys of a dict. *)
Definition event_ok (ev : RegEvent) : Prop :=
  match ev with
  | Waits _ peers => NoDup peers
  | _ => True
  end.

(** The event a request has for a peer. *)
Definition ref_of (g : Registry) (rid peer : string) : option nat :=
  peers ← dict_get rid (rg_in_flight g); dict_get peer peers.

Record registry_ok (g : Registry) : Prop := {
  ro_wf : dict_wf (rg_in_flight g);
  ro_known rid peer ref : ref_of g rid peer = Some ref -> (ref < length (rg_events g))%nat;
  (** no event is shared *)
  ro_own rid rid' peer peer' ref : ref_of g rid peer = Some ref -> ref_of g rid' peer' = Some ref -> rid = rid' /\ peer = peer';
}.

Lemma abort_event_ref g rid peer : abort_event g rid peer = (ref ← ref_of g rid peer; rg_events g !! ref).
Proof. unfold abort_event, ref_of. by destruct (dict_get rid (rg_in_flight g)). Qed.

Lemma fresh_events_get first peers peer : NoDup peers ->
  dict_get peer (fresh_events first peers) = (fun it : nat * string => (first + it.1)%nat) <$> list_find (eq peer) peers.
Proof.
  revert first. induction peers as [|p peers IH]; intros first Hn; [done|]. apply NoDup_cons in Hn as [Hp Hn]. cbn [list_find].
  unfold fresh_events. rewrite imap_cons. cbn [dict_get]. destruct (decide (peer = p)) as [->|Hne].
  - done.
  - assert (imap ((fun i q => (q, (first + i)%nat)) ∘ S) peers = fresh_events (S first) peers) as ->
      by (apply imap_ext; intros i x _; cbn; f_equal; lia).
    rewrite IH by done. destruct (list_find (eq peer) peers) as [[i x]|]; cbn; [f_equal; lia|done].
Qed.

Lemma set_events_get refs (events : list bool) ref : (forall x, x ∈ refs -> (x < length events)%nat) ->
  foldl (fun events ref => <[ref := true]> events) events refs !! ref = if decide (ref ∈ refs) then Some true else events !! ref.
Proof.
  revert events. induction refs as [|x refs IH]; intros events Hr; [done|]. cbn [foldl]. rewrite IH.
  2: { intros y Hy. rewrite length_insert. apply Hr. by right. }
  destruct (decide (ref ∈ refs)) as [Hin|Hn]; [by rewrite decide_True by (by right)|].
  destruct (decide (ref = x)) as [->|Hne].
  - rewrite decide_True by left. apply list_lookup_insert_eq. apply Hr. left.
  - rewrite decide_False; [by apply list_lookup_insert_ne|]. by intros [?|?]%elem_of_cons.
Qed.

Lemma register_ok rid peers g : NoDup peers -> registry_ok g -> registry_ok (register rid peers g).
Proof.
  intros Hn [Hw Hk Ho]. destruct peers as [|p0 ps]; [done|]. set (peers := p0 :: ps) in *.
  change (register rid peers g) with (mkRegistry (dict_set rid (fresh_events (length (rg_events g)) peers) (rg_in_flight g))
    (rg_events g ++ replicate (length peers) false)).
  assert (Hnew : forall peer ref, ref_of (mkRegistry (dict_set rid (fresh_events (length (rg_events g)) peers) (rg_in_flight g))
      (rg_events g ++ replicate (length peers) false)) rid peer = Some ref ->
    exists i, list_find (eq peer) peers = Some (i, peer) /\ ref = (length (rg_events g) + i)%nat).
  { intros peer ref Hr. unfold ref_of in Hr. cbn [rg_in_flight] in Hr. rewrite dict_get_set_eq in Hr. cbn [mbind option_bind] in Hr.
    rewrite (fresh_events_get _ _ _ Hn) in Hr. destruct (list_find (eq peer) peers) as [[i x]|] eqn:E; [|done].
    injection Hr as <-. apply list_find_Some in E as (E1 & -> & E2). exists i. done. }
  assert (Hold : forall rid' peer ref, rid' <> rid -> ref_of (mkRegistry (dict_set rid (fresh_events (length (rg_events g)) peers) (rg_in_flight g))
      (rg_events g ++ replicate (length peers) false)) rid' peer = Some ref -> ref_of g rid' peer = Some ref).
  { intros rid' peer ref Hne Hr. unfold ref_of in Hr |- *. cbn [rg_in_flight] in Hr. by rewrite dict_get_set_ne in Hr. }
  split; cbn [rg_in_flight rg_events].
  - by apply dict_set_wf.
  - intros rid' peer ref Hr. rewrite length_app, length_replicate. destruct (decide (rid' = rid)) as [->|Hne].
    + destruct (Hnew peer ref Hr) as (i & Hi & ->). apply list_find_Some in Hi as (Hi & _). apply lookup_lt_Some in Hi. lia.
    + pose proof (Hk _ _ _ (Hold _ _ _ Hne Hr)). lia.
  - intros rid1 rid2 p1 p2 ref H1' H2'.
    destruct (decide (rid1 = rid)) as [->|N1], (decide (rid2 = rid)) as [->|N2].
    + destruct (Hnew _ _ H1') as (i & Hi & ->), (Hnew _ _ H2') as (j & Hj & E). assert (i = j) as <- by lia.
      apply list_find_Some in Hi as (Hi & _). apply list_find_Some in Hj as (Hj & _). split; [done|congruence].
    + destruct (Hnew _ _ H1') as (i & _ & ->). pose proof (Hk _ _ _ (Hold _ _ _ N2 H2')). lia.
    + destruct (Hnew _ _ H2') as (i & _ & ->). pose proof (Hk _ _ _ (Hold _ _ _ N1 H1')). lia.
    + eapply Ho; eauto.
Qed.

Lemma unregister_ok rid g : registry_ok g -> registry_ok (unregister rid g).
Proof.
  intros [Hw Hk Ho]. assert (Hr : forall rid' peer ref, ref_of (unregister rid g) rid' peer = Some ref -> ref_of g rid' peer = Some ref).
  { intros rid' peer ref. unfold ref_of, unregister. cbn [rg_in_flight]. destruct (decide (rid' = rid)) as [->|Hne].
    - by rewrite dict_get_pop_eq.
    - by rewrite dict_get_pop_ne. }
  split; [by apply dict_pop_wf|intros; eapply Hk; eauto|intros; eapply Ho; eauto].
Qed.

Lemma notify_length peer g : length (rg_events (notify_peer_left_alive peer g)) = length (rg_events g).
Proof.
  unfold notify_peer_left_alive. cbn [rg_events]. generalize (rg_events g). generalize (omap (fun peers : dict string nat => dict_get peer peers) (dict_values (rg_in_flight g))).
  intros refs. induction refs as [|x refs IH]; intros events; [done|]. cbn. by rewrite IH, length_insert.
Qed.

Lemma notify_ok peer g : registry_ok g -> registry_ok (notify_peer_left_alive peer g).
Proof. intros [Hw Hk Ho]. split; [done| |exact Ho]. intros rid p ref Hr. rewrite notify_length. by eapply Hk. Qed.

Lemma reg_step_ok ev g : event_ok ev -> registry_ok g -> registry_ok (reg_step g ev).
Proof. destruct ev; [apply register_ok|intros _; apply notify_ok|intros _; apply unregister_ok]. Qed.

(** The events that a departure sets are those of the peer. *)
Lemma notified peer g ref : registry_ok g ->
  ref ∈ omap (fun peers : dict string nat => dict_get peer peers) (dict_values (rg_in_flight g)) <-> exists rid, ref_of g rid peer = Some ref.
Proof.
  intros [Hw _ _]. rewrite list_elem_of_omap. unfold ref_of. split.
  - intros (peers & Hp & Hr). apply dict_values_in in Hp as [rid Hp]. exists rid. by rewrite (dict_in_get _ _ _ Hw Hp).
  - intros [rid Hr]. destruct (dict_get rid (rg_in_flight g)) as [peers|] eqn:E; [|done]. exists peers. split; [|done].
    apply dict_values_in. exists rid. by apply dict_get_Some_in.
Qed.

Lemma reg_step_spec ev g (s : waiting_t) : event_ok ev -> registry_ok g ->
  (forall rid peer, abort_event g rid peer = s rid peer) ->
  forall rid peer, abort_event (reg_step g ev) rid peer = spec_step s ev rid peer.
Proof.
  intros He Hg Hs rid peer. pose proof Hg as [Hw Hk Ho]. destruct ev as [rid' peers|peer'|rid']; cbn [reg_step spec_step].
  - destruct peers as [|p0 ps]; [done|]. set (peers := p0 :: ps) in *.
    change (register rid' peers g) with (mkRegistry (dict_set rid' (fresh_events (length (rg_events g)) peers) (rg_in_flight g))
      (rg_events g ++ replicate (length peers) false)).
    unfold abort_event. cbn [rg_in_flight rg_events]. rewrite dict_get_set. case_decide as Hr.
    + subst. cbn [mbind option_bind]. rewrite (fresh_events_get _ _ _ He). destruct (list_find (eq peer) peers) as [[i x]|] eqn:E.
      * apply list_find_Some in E as (Hi & <- & _). rewrite decide_True by (by eapply list_elem_of_lookup_2). cbn.
        rewrite lookup_app_r by lia. replace (length (rg_events g) + i - length (rg_events g))%nat with i by lia.
        change (replicate (length peers) false !! i = Some false). apply lookup_replicate_2. by eapply lookup_lt_Some.
      * apply list_find_None in E. rewrite decide_False; [done|]. intros Hin. rewrite Forall_forall in E. by apply (E peer).
    + rewrite <- Hs. unfold abort_event. destruct (dict_get rid (rg_in_flight g)) as [d|] eqn:Ed; [|done]. cbn.
      destruct (dict_get peer d) as [ref|] eqn:Er; [|done]. cbn. apply lookup_app_l. apply (Hk rid peer). unfold ref_of. by rewrite Ed.
  - rewrite <- Hs, !abort_event_ref. change (ref_of (notify_peer_left_alive peer' g) rid peer) with (ref_of g rid peer).
    destruct (ref_of g rid peer) as [ref|] eqn:Er; [|by case_decide]. cbn [mbind option_bind].
    unfold notify_peer_left_alive. cbn [rg_events]. rewrite set_events_get.
    2: { intros x Hx. apply notified in Hx as [rid' Hx]; [|done]. by eapply Hk. }
    destruct (lookup_lt_is_Some_2 (rg_events g) ref (Hk _ _ _ Er)) as [b Hb]. rewrite Hb. destruct (decide (peer = peer')) as [->|Hne].
    + rewrite decide_True; [done|]. apply notified; [done|]. by exists rid.
    + rewrite decide_False; [done|]. intros Hx. apply notified in Hx as [rid' Hx]; [|done]. by destruct (Ho _ _ _ _ _ Er Hx).
  - unfold abort_event, unregister. cbn [rg_in_flight rg_events]. case_decide as Hr; [subst; by rewrite dict_get_pop_eq|].
    rewrite dict_get_pop_ne by done. apply Hs.
Qed.

(** C21: calls are aborted for the peer that left, and for no other. However the
    starts and ends of attempts and the departures of peers interleave, the
    abort event a request polls for a peer is set exactly when the peer left
    ALIVE after the request's last attempt that waits for it began, and a
    request that has ended has none. *)
Theorem aborts_follow_departures evs :
  Forall event_ok evs -> forall rid peer,
  abort_event (foldl reg_step (mkRegistry [] []) evs) rid peer = foldl spec_step (fun _ _ => None) evs rid peer.
Proof.
  intros Hev. assert (Hgen : forall g (s : waiting_t), registry_ok g -> (forall rid peer, abort_event g rid peer = s rid peer) ->
    forall rid peer, abort_event (foldl reg_step g evs) rid peer = foldl spec_step s evs rid peer).
  { induction Hev as [|ev evs He Hev IH]; intros g s Hg Hs; [done|]. cbn [foldl]. apply IH; [by apply reg_step_ok|].
    by apply reg_step_spec. }
  apply Hgen; [|done]. split; [apply NoDup_nil_2|done|done].
Qed.

(** Two requests wait for "p"; one of them ends and starts again after "p" left. *)
Definition two_requests : list RegEvent :=
  [Waits "r" ["p"; "q"]; Waits "s" ["p"]; Leaves "p"; Ends "s"; Waits "s" ["p"]; Waits "r" []].

Lemma aborts_follow_departures_witness :
  let g := foldl reg_step (mkRegistry [] []) two_requests in
  abort_event g "r" "p" = Some true /\ abort_event g "r" "q" = Some false /\ abort_event g "s" "p" = Some false.
Proof.
  assert (Forall event_ok two_requests) as Hok by (repeat constructor; apply (bool_decide_unpack _); vm_compute; exact I).
  cbv zeta. split; [|split]; (etransitivity; [exact (aborts_follow_departures two_requests Hok _ _)|reflexivity]).
Defined.
