(* ===== verification/Orchestrator.v ===== *)
(** * expert_orchestrator.py: one decoder layer with its experts on several shards

    The threads of the fan-out enter as an environment: for each attempt and the
    calls it makes, an [Attempt] says what the polling loop observes round by
    round.  The compute backend is the class [SplitBackend]; [expert] in
    [SplitBackendLaws] is what an expert of a layer computes, wherever it runs. *)
From S2P Require Import Prelude PyDict PyList PyFloat PyRandom Wire Provenance.
From S2P Require Import Routing Experts.
Open Scope Z_scope.

Class SplitBackend (T W : Type) := {
  be_selected : Z -> T -> list Z -> result (dict Z T);
  be_shared : Z -> T -> T;
  be_weigh : W -> nat -> T -> T;
  be_add : T -> T -> T;
  be_post_ln : Z -> T -> T;
  (** [x[b:b+1, l:l+1, :]] of a state and of the router's weights *)
  be_cell : nat -> nat -> T -> T;
  be_cell_w : nat -> nat -> W -> W;
  (** [mx.concatenate] along the sequence and the batch axis *)
  be_cat_seq : list T -> T;
  be_cat_batch : list T -> T;
  be_outer : Z -> T -> T -> T;
  be_bytes : T -> bytes;
}.

Class SplitBackendLaws {T W} `{SplitBackend T W} (expert : Z -> Z -> T -> T) : Prop := {
  be_selected_ok l h ids out : be_selected l h ids = Ok out ->
    dict_wf out /\ (forall eid, eid ∈ dict_keys out <-> eid ∈ ids) /\ forall eid v, (eid, v) ∈ out -> v = expert l eid h;
}.

(** The ids of the router, [B, S, K]. *)
Abbreviation topk := (list (list (list Z))).

(** [sorted({int(e) for e in top_k_ids.reshape(-1).tolist()})] *)
Definition distinct_ids (ids : topk) : list Z := sort_by Z.leb (remove_dups (concat (concat ids))).

Lemma concat_in {A} (x : A) (ls : list (list A)) : x ∈ concat ls <-> exists l, x ∈ l /\ l ∈ ls.
Proof. rewrite list_elem_of_In, in_concat. setoid_rewrite list_elem_of_In. naive_solver. Qed.

(** One pass of the polling loop: the peers whose abort event is set, the
    futures that are done, and whether the deadline has passed. *)
Record Round (T : Type) : Type := mkRound {
  r_aborted : list string;
  r_done : string -> option (result (dict Z T));
  r_late : bool;
}.
Arguments mkRound {T} r_aborted r_done r_late.
Arguments r_aborted {T} _.
Arguments r_done {T} _ _.
Arguments r_late {T} _.

(** What an attempt meets: the rounds, the futures that are done when the
    survivors are drained, and the provenance each peer's reply carried. *)
Record Attempt (T : Type) : Type := mkAttempt {
  at_rounds : list (Round T);
  at_drain : string -> option (result (dict Z T));
  at_pbs : string -> list ProvenanceEntryPb;
}.
Arguments mkAttempt {T} at_rounds at_drain at_pbs.
Arguments at_rounds {T} _.
Arguments at_drain {T} _ _.
Arguments at_pbs {T} _ _.

(** The RPCs of one attempt, and the peer it failed on. *)
Record Dispatch : Type := mkDispatch {
  ds_calls : dict string (list Z);
  ds_prefix : list ProvenanceEntryPb;
  ds_failed : option string;
}.

Section orchestrator.
Context {R : Type} `{RandomSource R} {T W : Type} `{SplitBackend T W}.
Context (self_shard_id : string) (owners : ownership) (layer_idx : Z).
(** Snapshots of the gossip view: of routing [n] of the request. *)
Context (loads : nat -> dict string Z) (live : nat -> Z -> list string).
Context (retry_max_attempts : Z) (retry_backoff_ms : list Z) (env : nat -> dict string (list Z) -> Attempt T) (now : float).

Abbreviation outputs_t := (dict Z T).
Abbreviation chain_t := (option (list ProvenanceEntry)).

(** ** _gather_with_abort *)

Definition failure (peer : string) : exn := ExpertRpcFailure peer layer_idx.

(** The loop over the remaining futures: the peers that are done, or the first failure. *)
Fixpoint collect_done (r : Round T) (remaining : list string) (outputs : outputs_t)
    : result (list string) * outputs_t :=
  match remaining with
  | [] => (Ok [], outputs)
  | peer :: rest =>
      match r_done r peer with
      | None => collect_done r rest outputs
      | Some (Raise _) => (Raise (failure peer), outputs)
      | Some (Ok d) =>
          let '(dones, outputs) := collect_done r rest (dict_update outputs d) in
          ((ds ← dones; Ok (peer :: ds)), outputs)
      end
  end.

(** None: the rounds ran out before the loop ended. *)
Fixpoint gather (rounds : list (Round T)) (remaining : list string) (outputs : outputs_t)
    : option (result unit * outputs_t) :=
  match remaining with
  | [] => Some (Ok tt, outputs)
  | first :: _ =>
      match rounds with
      | [] => None
      | r :: rounds =>
          match find (fun peer => bool_decide (peer ∈ r_aborted r)) remaining with
          | Some peer => Some (Raise (failure peer), outputs)
          | None =>
              match collect_done r remaining outputs with
              | (Raise e, outputs) => Some (Raise e, outputs)
              | (Ok dones, outputs) =>
                  match filter (fun p => p ∉ dones) remaining with
                  | [] => Some (Ok tt, outputs)
                  | stuck_peer :: rest =>
                      if r_late r then Some (Raise (failure stuck_peer), outputs)
                      else gather rounds (stuck_peer :: rest) outputs
                  end
              end
          end
      end
  end.

(** ** _phase_b_with_retry *)

Definition route (n : nat) (excluded : list string) (ids : list Z) (rng : R) : result (ownership * R) :=
  let peer_loads := loads n in
  group_expert_ids_by_owner_loaded ids
    (filter (fun it : string * list Z => it.1 ∉ excluded) owners)
    peer_loads self_shard_id (default 0 (dict_get self_shard_id peer_loads)) rng
    (Some (fun eid => filter (fun sid => sid ∉ excluded) (live n eid))).

(** Append entries of a kind to the chain, if there is one. *)
Definition extend (chain : chain_t) (entries : list ProvenanceEntry -> result (list ProvenanceEntry)) : result chain_t :=
  match chain with
  | None => Ok None
  | Some c => es ← entries c; Ok (Some (c ++ es))
  end.

Definition op_entry (t : OpType) (eid : Z) (output : T) (parents : list bytes) : result ProvenanceEntry :=
  build_entry self_shard_id (mkOp t layer_idx eid) (be_bytes output) parents now.

(** One OP_EXPERT entry per id, with the recorded output. *)
Definition expert_entries (ar_hash : bytes) (ids : list Z) (outputs : outputs_t) : result (list ProvenanceEntry) :=
  mapR (fun eid => x ← or_raise KeyError (dict_get eid outputs); op_entry OP_EXPERT eid x [ar_hash]) ids.

(** Run the ids this shard was chosen for. *)
Definition run_local (ar_hash : option bytes) (post_attn : T) (ids : list Z) (outputs : outputs_t) (chain : chain_t)
    : result (outputs_t * chain_t) :=
  match ids with
  | [] => Ok (outputs, chain)
  | _ =>
      out ← be_selected layer_idx post_attn ids;
      let outputs := dict_update outputs out in
      chain ← match ar_hash with
              | None => Ok chain
              | Some h => extend chain (fun _ => expert_entries h ids outputs)
              end;
      Ok (outputs, chain)
  end.

(** The replies' provenance, in the order of the peers. *)
Definition merge_provenance (at_ : Attempt T) (peers : list string) (chain : chain_t) : result chain_t :=
  extend chain (fun _ => mapR entry_from_pb (mjoin (at_pbs at_ <$> peers))).

(** Take the survivors' results that are in. *)
Definition drain (at_ : Attempt T) (failed : string) (peers : list string) (outputs : outputs_t) : outputs_t :=
  foldl (fun out peer => match (if decide (peer = failed) then None else at_drain at_ peer) with
                         | Some (Ok d) => dict_update out d
                         | _ => out
                         end) outputs peers.

(** [time.sleep(ms / 1000.0)]: negative delays are refused, and those of more
    nanoseconds than fit 64 bits. *)
Definition SLEEP_MAX_MS : Z := 2 ^ 63 / 10 ^ 6.
Definition sleep_ms (ms : Z) : result unit :=
  _ ← require (Z.abs ms <=? SLEEP_MAX_MS) OverflowError;
  require (0 <=? ms) ValueError.

(** [retry_backoff_ms[min(attempts - 1, max(0, len - 1))]], for a non-empty tuple. *)
Definition backoff_ms (attempts : nat) : option Z :=
  retry_backoff_ms !! Nat.min (attempts - 1) (length retry_backoff_ms - 1).
Definition back_off (attempts : nat) : result unit :=
  match backoff_ms attempts with
  | Some ms => sleep_ms ms
  | None => Ok tt
  end.

Record PhaseB : Type := mkPhaseB { pb_outputs : outputs_t; pb_chain : chain_t; pb_rng : R }.

(** The retry loop, [spare] attempts before the last one. *)
Fixpoint attempts (spare n : nat) (ar_hash : option bytes) (post_attn : T) (needed : list Z) (prefix : list ProvenanceEntryPb)
    (excluded : list string) (calls : dict string (list Z)) (st : PhaseB) : option (list Dispatch * result PhaseB) :=
  let at_ := env n calls in
  let peers := dict_keys calls in
  '(r, outputs) ← gather (at_rounds at_) peers (pb_outputs st);
  let one failed := mkDispatch calls prefix failed in
  match r with
  | Ok _ => Some ([one None], chain ← merge_provenance at_ peers (pb_chain st); Ok (mkPhaseB outputs chain (pb_rng st)))
  | Raise (ExpertRpcFailure failed _ as exc) =>
      match spare with
      | O => Some ([one (Some failed)], Raise exc)
      | S spare =>
          let excluded := failed :: excluded in
          match back_off n with
          | Raise e => Some ([one (Some failed)], Raise e)
          | Ok _ =>
          let outputs := drain at_ failed peers outputs in
          match merge_provenance at_ (filter (fun p => p <> failed) peers) (pb_chain st) with
          | Raise e => Some ([one (Some failed)], Raise e)
          | Ok chain =>
              match filter (fun e => dict_mem e outputs = false) needed with
              | [] => Some ([one (Some failed)], Ok (mkPhaseB outputs chain (pb_rng st)))
              | missing =>
                  match route (S n) excluded missing (pb_rng st) with
                  | Raise KeyError => Some ([one (Some failed)], Raise exc)
                  | Raise e => Some ([one (Some failed)], Raise e)
                  | Ok (by_owner, rng) =>
                      let local_retry := default [] (dict_get self_shard_id by_owner) in
                      match run_local ar_hash post_attn local_retry outputs chain with
                      | Raise e => Some ([one (Some failed)], Raise e)
                      | Ok (outputs, chain) =>
                          '(log, res) ← attempts spare (S n) ar_hash post_attn needed prefix excluded
                                          (dict_pop self_shard_id by_owner) (mkPhaseB outputs chain rng);
                          Some (one (Some failed) :: log, res)
                      end
                  end
              end
          end
          end
      end
  | Raise e => Some ([one None], Raise e)
  end.

Definition phase_b_with_retry (post_attn : T) (all_ids initial_local_ids : list Z) (chain : chain_t)
    (ar_hash : option bytes) (rng : R) : option (list Dispatch * result PhaseB) :=
  let needed := filter (fun e => e ∉ initial_local_ids) all_ids in
  match mapR entry_to_pb (default [] chain) with
  | Raise e => Some ([], Raise e)
  | Ok prefix =>
      match route 1 [] needed rng with
      | Raise e => Some ([], Raise e)
      | Ok (by_owner, rng) =>
          match run_local ar_hash post_attn (default [] (dict_get self_shard_id by_owner)) [] chain with
          | Raise e => Some ([], Raise e)
          | Ok (outputs, chain) =>
              attempts (Z.to_nat (retry_max_attempts - 1)) 1 ar_hash post_attn needed prefix []
                (dict_pop self_shard_id by_owner) (mkPhaseB outputs chain rng)
          end
      end
  end.

(** ** Backend.aggregate_experts (mlx_backend.py): per position *)

(** [{eid: expert_outputs[eid][...] for eid in ids_pos}] *)
Definition outputs_at (b l : nat) (outputs : outputs_t) (ids : list Z) : result outputs_t :=
  foldM (fun d eid => x ← or_raise KeyError (dict_get eid outputs); Ok (dict_set eid (be_cell b l x) d)) [] ids.

Definition aggregate_cell (outputs : outputs_t) (w : W) (shared : T) (b l : nat) (ids : list Z) : result T :=
  per_pos ← outputs_at b l outputs ids;
  aggregate_experts be_weigh be_add (be_post_ln layer_idx) per_pos ids (be_cell_w b l w) (be_cell b l shared).

(** [cells[0]] for one cell; the empty list has no first cell. *)
Definition join_cells (cat : list T -> T) (cells : list T) : result T :=
  match cells with
  | [] => Raise IndexError
  | [c] => Ok c
  | _ => Ok (cat cells)
  end.

Definition aggregate_all (outputs : outputs_t) (top_k_ids : topk) (w : W) (shared : T) : result T :=
  rows ← mapR (fun row : nat * list (list Z) =>
                 cells ← mapR (fun cell : nat * list Z => aggregate_cell outputs w shared row.1 cell.1 cell.2)
                              (enumerate row.2);
                 join_cells be_cat_seq cells) (enumerate top_k_ids);
  join_cells be_cat_batch rows.

(** ** run_split_layer, from the result of run_attention_and_route *)

(** The OP_ATTENTION_ROUTE and OP_SHARED_EXPERT entries; the hash of the first. *)
Definition route_entries (post_attn shared_out : T) (chain : list ProvenanceEntry)
    : result (list ProvenanceEntry * bytes) :=
  let prev_hash := match last chain with Some e => e_hash e | None => [] end in
  ar ← op_entry OP_ATTENTION_ROUTE 0 post_attn (match prev_hash with [] => [] | _ => [prev_hash] end);
  sh ← op_entry OP_SHARED_EXPERT 0 shared_out [e_hash ar];
  Ok ([ar; sh], e_hash ar).

(** [e.op.layer_idx == layer_idx and e.op.op_type in (OP_SHARED_EXPERT, OP_EXPERT)] *)
Definition is_branch (e : ProvenanceEntry) : bool :=
  match e_op e with
  | Some op => bool_decide (opd_layer op = layer_idx) &&
               (bool_decide (opd_type op = OP_SHARED_EXPERT) || bool_decide (opd_type op = OP_EXPERT))
  | None => false
  end.

Definition aggregate_entry (out : T) (chain : list ProvenanceEntry) : result (list ProvenanceEntry) :=
  e ← op_entry OP_AGGREGATE 0 out (e_hash <$> filter (fun e => is_branch e = true) chain);
  Ok [e].

(** The local part: the outputs of the ids routed here, and the chain so far. *)
Definition phase_a (post_attn : T) (all_ids : list Z) (chain : chain_t) (rng : R)
    : result (list Z * outputs_t * T * chain_t * option bytes * R) :=
  '(by_owner, rng) ← route 0 [] all_ids rng;
  let local_ids := default [] (dict_get self_shard_id by_owner) in
  let shared_out := be_shared layer_idx post_attn in
  local_outputs ← be_selected layer_idx post_attn local_ids;
  match chain with
  | None => Ok (local_ids, local_outputs, shared_out, None, None, rng)
  | Some c =>
      '(es, ar_hash) ← route_entries post_attn shared_out c;
      xs ← mapR (fun it : Z * T => op_entry OP_EXPERT it.1 it.2 [ar_hash]) local_outputs;
      Ok (local_ids, local_outputs, shared_out, Some (c ++ es ++ xs), Some ar_hash, rng)
  end.

Definition phase_c (post_attn shared_out : T) (top_k_ids : topk) (w : W) (outputs : outputs_t) (chain : chain_t)
    : result (T * chain_t) :=
  h1_plus_h2 ← aggregate_all outputs top_k_ids w shared_out;
  let out := be_outer layer_idx h1_plus_h2 post_attn in
  chain ← extend chain (aggregate_entry out);
  Ok (out, chain).

Definition run_split_layer (post_attn : T) (top_k_ids : topk) (w : W) (chain : chain_t) (rng : R)
    : option (list Dispatch * result (T * chain_t)) :=
  let all_ids := distinct_ids top_k_ids in
  match phase_a post_attn all_ids chain rng with
  | Raise e => Some ([], Raise e)
  | Ok (local_ids, local_outputs, shared_out, chain, ar_hash, rng) =>
      '(log, res) ← phase_b_with_retry post_attn all_ids local_ids chain ar_hash rng;
      Some (log, st ← res;
                 phase_c post_attn shared_out top_k_ids w (dict_update local_outputs (pb_outputs st)) (pb_chain st))
  end.

End orchestrator.
