(* ===== verification/OrchestratorTheorems.v ===== *)
(** * Theorems about the split layer

    Correctness (a split layer computes what the layer with all its experts in
    one place computes), the retry discipline and its fault tolerance, and the
    provenance chain it builds. *)
From S2P Require Import Prelude PyDict PyList PyFloat PyRandom Wire Provenance.
From S2P Require Import Framing Routing Experts Orchestrator.
Open Scope Z_scope.

Section routing.
Context {R : Type} `{RandomLaws R} (self_shard_id : string) (owners : ownership).
Context (loads : nat -> dict string Z) (live : nat -> Z -> list string).
Implicit Types (rng : R).

Abbreviation route' := (route self_shard_id owners loads live).

(** ** Routing *)

(** Who may run an expert at routing [n]. *)
Definition owner_of (n : nat) (eid : Z) (w : string) : Prop :=
  (exists ids, (w, ids) ∈ owners /\ eid ∈ ids) \/ w ∈ live n eid.

Lemma route_spec n excluded ids rng :
  match route' n excluded ids rng with
  | Ok (d, _) => dict_wf d /\ (forall w, w ∈ dict_keys d -> w ∉ excluded) /\
      (forall eid, eid ∈ ids -> exists w l, dict_get w d = Some l /\ eid ∈ l) /\
      (forall w l eid, dict_get w d = Some l -> eid ∈ l -> owner_of n eid w /\ w ∉ excluded) /\
      (forall w l, dict_get w d = Some l -> l <> [] /\ l `sublist_of` ids)
  | Raise e => e = KeyError /\ exists eid, eid ∈ ids /\ forall w, owner_of n eid w -> w ∈ excluded
  end.
Proof.
  unfold route, group_expert_ids_by_owner_loaded.
  match goal with |- context [group_loaded ?o ?ld ?l ids rng] => set (ow := o); set (lv := l);
    pose proof (group_loaded_spec ow ld lv ids rng) as Hg end.
  assert (Hserve : forall eid w, may_serve ow lv eid w <-> owner_of n eid w /\ w ∉ excluded).
  { intros eid w. unfold may_serve, owner_of, ow, lv. rewrite list_elem_of_filter.
    setoid_rewrite list_elem_of_filter. cbn. naive_solver. }
  destruct (group_loaded ow _ lv ids rng) as [[d r]|e].
  - destruct Hg as (ws & Hlen & -> & Hf). split; [apply assign_wf|].
    assert (Hget : forall w l, dict_get w (assign (zip ids ws)) = Some l -> l = ids_of w (zip ids ws) /\ l <> []).
    { intros w l. rewrite assign_get. by destruct (ids_of w _) eqn:E; [|intros [= <-]]. }
    assert (Hids : forall w eid, eid ∈ ids_of w (zip ids ws) <-> (eid, w) ∈ zip ids ws).
    { intros w eid. apply ids_of_in. }
    assert (Hown : forall w l eid, dict_get w (assign (zip ids ws)) = Some l -> eid ∈ l -> owner_of n eid w /\ w ∉ excluded).
    { intros w l eid Hl Hin. apply Hget in Hl as [-> _]. apply Hids in Hin.
      apply list_elem_of_lookup in Hin as [i Hi]. apply lookup_zip_with_Some in Hi as (? & ? & [= <- <-] & Hi1 & Hi2).
      destruct (Forall2_lookup_lr _ _ _ _ _ _ Hf Hi1 Hi2) as [Hs _]. by apply Hserve. }
    split_and!; [| |done|].
    + intros w [l Hl]%dict_get_in. destruct (Hget _ _ Hl) as [_ Hne]. destruct l as [|eid l]; [done|].
      by destruct (Hown _ _ eid Hl ltac:(left)).
    + intros eid [i Hi]%list_elem_of_lookup. destruct (lookup_lt_is_Some_2 ws i) as [w Hw].
      { rewrite Hlen. by eapply lookup_lt_Some. }
      assert ((eid, w) ∈ zip ids ws) as Hin.
      { apply list_elem_of_lookup. exists i. apply lookup_zip_with_Some. by exists eid, w. }
      apply Hids in Hin. exists w, (ids_of w (zip ids ws)). split; [|done]. rewrite assign_get.
      by destruct (ids_of w (zip ids ws)); [inversion Hin|].
    + intros w l Hl. destruct (Hget _ _ Hl) as [-> Hne]. split; [done|]. rewrite <- (fst_zip ids ws) at 2 by lia.
      apply fmap_sublist, sublist_filter.
  - destruct Hg as (-> & eid & Hin & Hno). split; [done|]. exists eid. split; [done|]. intros w Hw.
    destruct (decide (w ∈ excluded)) as [|Hne]; [done|]. exfalso. by apply (Hno w), Hserve.
Qed.

End routing.

Section correctness.
Context {R : Type} `{RandomLaws R} {T W : Type} `{!SplitBackend T W} (expert : Z -> Z -> T -> T)
  `{!SplitBackendLaws expert}.
Context (self_shard_id : string) (owners : ownership) (layer_idx : Z).
Context (loads : nat -> dict string Z) (live : nat -> Z -> list string).
Context (retry_max_attempts : Z) (retry_backoff_ms : list Z) (env : nat -> dict string (list Z) -> Attempt T) (now : float) (post_attn : T).
Implicit Types (outputs : dict Z T) (rng : R) (calls : dict string (list Z)).

Abbreviation f eid := (expert layer_idx eid post_attn).
Abbreviation route' := (route self_shard_id owners loads live).

Abbreviation owner_of' := (owner_of owners live).

(** ** Outputs *)

(** Every recorded output is the expert's. *)
Definition good outputs : Prop := forall eid v, (eid, v) ∈ outputs -> v = f eid.

(** A reply that gives the experts' outputs for all the ids asked. *)
Definition good_reply calls (peer : string) (d : dict Z T) : Prop :=
  (forall eid v, (eid, v) ∈ d -> v = f eid) /\
  forall ids eid, dict_get peer calls = Some ids -> eid ∈ ids -> eid ∈ dict_keys d.

(** What attempt [n] of a request for [needed] may ask of the other shards. *)
Definition dispatched (n : nat) (needed : list Z) calls : Prop := forall w ids, dict_get w calls = Some ids ->
  w <> self_shard_id /\ ids <> [] /\ forall eid, eid ∈ ids -> eid ∈ needed /\ owner_of' n eid w.

(** Whatever a peer returns without an error is a good reply. *)
Definition honest (needed : list Z) : Prop := forall n calls peer d,
  dispatched n needed calls -> peer ∈ dict_keys calls -> (exists r, r ∈ at_rounds (env n calls) /\ r_done r peer = Some (Ok d)) \/
  at_drain (env n calls) peer = Some (Ok d) -> good_reply calls peer d.

Lemma good_update outputs d : good outputs -> (forall eid v, (eid, v) ∈ d -> v = f eid) -> good (dict_update outputs d).
Proof. intros Ho Hd eid v [Hg|Hg]%dict_update_in; auto. Qed.

Lemma good_nil : good [].
Proof. intros eid v Hg. inversion Hg. Qed.

Definition covers calls outputs (peer : string) : Prop :=
  forall ids eid, dict_get peer calls = Some ids -> eid ∈ ids -> eid ∈ dict_keys outputs.

Lemma collect_done_shape (r : Round T) remaining outputs :
  match (collect_done layer_idx r remaining outputs).1 with
  | Ok dones => dones = filter (fun peer => is_Some (r_done r peer)) remaining
  | Raise e => exists peer er, e = failure layer_idx peer /\ peer ∈ remaining /\ r_done r peer = Some (Raise er)
  end.
Proof.
  revert outputs. induction remaining as [|peer rest IH]; intros outputs; cbn [collect_done]; [done|].
  rewrite filter_cons. destruct (r_done r peer) as [[d|er]|] eqn:Ed.
  - specialize (IH (dict_update outputs d)).
    destruct (collect_done layer_idx r rest (dict_update outputs d)) as [[ds|e] outs']; cbn [fst mbind result_bind] in *.
    + subst ds. by rewrite decide_True.
    + destruct IH as (p & er & -> & Hin & Hd). exists p, er. split; [done|]. split; [by right|done].
  - exists peer, er. split; [done|]. split; [left|done].
  - specialize (IH outputs). destruct (collect_done layer_idx r rest outputs) as [[ds|e] outs']; cbn [fst] in *.
    + subst ds. by rewrite decide_False by (intros [? ?]; done).
    + destruct IH as (p & er & -> & Hin & Hd). exists p, er. split; [done|]. split; [by right|done].
Qed.

Lemma collect_done_spec calls (r : Round T) remaining outputs :
  (forall peer d, peer ∈ remaining -> r_done r peer = Some (Ok d) -> good_reply calls peer d) -> good outputs ->
  let outs' := (collect_done layer_idx r remaining outputs).2 in
  good outs' /\ dict_keys outputs ⊆ dict_keys outs' /\
  ((exists ds, (collect_done layer_idx r remaining outputs).1 = Ok ds) ->
   forall peer, peer ∈ remaining -> is_Some (r_done r peer) -> covers calls outs' peer).
Proof.
  intros Hr. revert outputs. induction remaining as [|peer rest IH]; intros outputs Ho; cbn [collect_done].
  { split; [done|]. split; [done|]. intros _ peer Hp. inversion Hp. }
  specialize (IH (fun p d Hp => Hr p d (list_elem_of_further _ _ _ Hp))).
  destruct (r_done r peer) as [[d|er]|] eqn:Ed.
  - destruct (Hr _ _ ltac:(left) Ed) as [Hv Hk]. destruct (IH _ (good_update _ _ Ho Hv)) as (G1 & G2 & G3).
    destruct (collect_done layer_idx r rest (dict_update outputs d)) as [dones outs']. cbn [fst snd] in *.
    assert (Hsub : forall e, e ∈ dict_keys outputs \/ e ∈ dict_keys d -> e ∈ dict_keys outs').
    { intros e He. by apply G2, dict_update_keys. }
    split; [done|]. split; [intros e He; apply Hsub; by left|]. intros [ds Hds] p Hp Hd.
    apply bind_ok in Hds as (ds' & -> & _). apply elem_of_cons in Hp as [->|Hp]; [|apply G3; eauto].
    intros ids eid Hg He. apply Hsub. right. by eapply Hk.
  - split; [done|]. split; [done|]. by intros [ds Hds].
  - destruct (IH _ Ho) as (G1 & G2 & G3). split; [done|]. split; [done|]. intros Hds p Hp Hd.
    apply elem_of_cons in Hp as [->|Hp]; [|by apply G3]. rewrite Ed in Hd. by destruct Hd.
Qed.

(** The peers left after a round are those whose futures are not done. *)
Lemma left_after (r : Round T) remaining outputs dones outs' :
  collect_done layer_idx r remaining outputs = (Ok dones, outs') ->
  forall p, p ∈ filter (fun p => p ∉ dones) remaining <-> p ∈ remaining /\ r_done r p = None.
Proof.
  intros Hc p. pose proof (collect_done_shape r remaining outputs) as Hs. rewrite Hc in Hs. cbn in Hs. subst dones.
  rewrite !list_elem_of_filter. destruct (r_done r p) as [x|]; split; intros [Hn Hp]; try done.
  - destruct Hn. by split.
  - split; [|done]. by intros [[? ?] _].
Qed.

Lemma gather_failure rounds remaining outputs e outs' :
  gather layer_idx rounds remaining outputs = Some (Raise e, outs') ->
  exists failed, e = failure layer_idx failed /\ failed ∈ remaining /\ exists rd, rd ∈ rounds /\
    (failed ∈ r_aborted rd \/ (exists er, r_done rd failed = Some (Raise er)) \/
     (r_late rd = true /\ r_done rd failed = None)).
Proof.
  revert remaining outputs. induction rounds as [|rd rounds IH]; intros [|first rest] outputs Hg; cbn [gather] in Hg; try done.
  set (rem := first :: rest) in *. clearbody rem. clear first rest.
  destruct (find _ rem) as [peer|] eqn:Ef.
  { injection Hg as <- <-. apply find_some in Ef as [Hin Ha]. exists peer. split; [done|].
    split; [by apply list_elem_of_In|]. exists rd. split; [left|]. left. by apply bool_decide_eq_true in Ha. }
  destruct (collect_done layer_idx rd rem outputs) as [[dones|er] outs1] eqn:Ec.
  2: { injection Hg as <- <-. pose proof (collect_done_shape rd rem outputs) as Hs. rewrite Ec in Hs.
       destruct Hs as (p & er' & -> & Hin & Hd). exists p. split; [done|]. split; [done|]. exists rd. split; [left|].
       right; left. by exists er'. }
  pose proof (left_after _ _ _ _ _ Ec) as Hleft.
  destruct (filter (fun p => p ∉ dones) rem) as [|stuck rest]; [done|].
  destruct (r_late rd) eqn:El.
  - injection Hg as <- <-. destruct (proj1 (Hleft stuck)) as [Hin Hnone]; [left|].
    exists stuck. split; [done|]. split; [done|]. exists rd. split; [left|]. by right; right.
  - destruct (IH _ _ Hg) as (p & -> & Hp & rd' & Hin & Hwhy). exists p. split; [done|].
    split; [by apply Hleft|]. exists rd'. split; [by right|done].
Qed.

Lemma gather_spec calls rounds remaining outputs r outs' :
  (forall rd peer d, rd ∈ rounds -> peer ∈ remaining -> r_done rd peer = Some (Ok d) -> good_reply calls peer d) -> good outputs ->
  gather layer_idx rounds remaining outputs = Some (r, outs') ->
  good outs' /\ dict_keys outputs ⊆ dict_keys outs' /\
  (is_ok r = true -> forall peer, peer ∈ remaining -> covers calls outs' peer).
Proof.
  revert remaining outputs. induction rounds as [|rd rounds IH]; intros remaining outputs Hr Ho Hg.
  { destruct remaining; cbn in Hg; [|done]. injection Hg as <- <-. split; [done|]. split; [done|].
    intros _ p Hp. inversion Hp. }
  destruct remaining as [|first rest]; cbn [gather] in Hg.
  { injection Hg as <- <-. split; [done|]. split; [done|]. intros _ p Hp. inversion Hp. }
  set (rem := first :: rest) in *. clearbody rem. clear first rest.
  destruct (find _ rem) as [peer|]; [by injection Hg as <- <-|].
  destruct (collect_done_spec calls rd rem outputs (fun p d Hp => Hr rd p d ltac:(left) Hp) Ho) as (G1 & G2 & G3).
  destruct (collect_done layer_idx rd rem outputs) as [[dones|e] outs1] eqn:Ec; cbn [fst snd] in *.
  2: { injection Hg as <- <-. done. }
  specialize (G3 ltac:(eauto)). pose proof (left_after _ _ _ _ _ Ec) as Hleft.
  assert (Hcov : forall p, p ∈ rem -> p ∉ filter (fun p => p ∉ dones) rem -> covers calls outs1 p).
  { intros p Hp Hn. apply G3; [done|]. apply not_eq_None_Some. intros Hd. by apply Hn, Hleft. }
  destruct (filter (fun p => p ∉ dones) rem) as [|stuck rest].
  { injection Hg as <- <-. split; [done|]. split; [done|]. intros _ p Hp. apply Hcov; [done|]. intros Hn. inversion Hn. }
  destruct (r_late rd); [by injection Hg as <- <-|].
  destruct (IH _ _ (fun rd' p d Hin Hp => Hr rd' p d ltac:(by right) (proj1 (proj1 (Hleft p) Hp))) G1 Hg) as (G1' & G2' & G3').
  split; [done|]. split; [by trans (dict_keys outs1)|]. intros Hok p Hp.
  destruct (decide (p ∈ stuck :: rest)) as [Hin|Hn]; [by apply G3'|].
  intros ids eid Hg' He. apply G2'. by eapply (Hcov p Hp Hn).
Qed.

(** ** The retry loop *)

Abbreviation run_local' := (run_local self_shard_id layer_idx now).
Abbreviation attempts' := (attempts self_shard_id owners layer_idx loads live retry_backoff_ms env now).

Lemma run_local_spec ar_hash ids outputs chain outputs' chain' :
  run_local' ar_hash post_attn ids outputs chain = Ok (outputs', chain') -> good outputs ->
  good outputs' /\ dict_keys outputs ⊆ dict_keys outputs' /\ ids ⊆ dict_keys outputs'.
Proof.
  intros Hr Ho. unfold run_local in Hr. destruct ids as [|e0 ids]; [injection Hr as <- <-; set_solver|].
  set (es := e0 :: ids) in *. clearbody es. apply bind_ok in Hr as (out & Hsel & Hr).
  apply bind_ok in Hr as (c & _ & Hr). injection Hr as <- <-.
  apply be_selected_ok in Hsel as (_ & Hk & Hv). split; [by apply good_update|]. split.
  - intros e He. apply dict_update_keys. by left.
  - intros e He. apply dict_update_keys. right. by apply Hk.
Qed.

Lemma drain_spec calls at_ failed peers outputs :
  (forall peer d, peer ∈ peers -> at_drain at_ peer = Some (Ok d) -> good_reply calls peer d) -> good outputs ->
  good (drain at_ failed peers outputs) /\ dict_keys outputs ⊆ dict_keys (drain at_ failed peers outputs).
Proof.
  intros Hr. unfold drain. revert outputs. induction peers as [|peer peers IH]; intros outputs Ho; cbn [foldl]; [done|].
  specialize (IH (fun p d Hp => Hr p d (list_elem_of_further _ _ _ Hp))).
  case_decide; [by apply IH|]. destruct (at_drain at_ peer) as [[d|]|] eqn:Ed; [|by apply IH|by apply IH].
  destruct (Hr _ _ ltac:(left) Ed) as [Hv _]. destruct (IH _ (good_update _ _ Ho Hv)) as [G1 G2]. split; [done|].
  intros e He. apply G2, dict_update_keys. by left.
Qed.

(** Every needed id has its output or is asked of a peer. *)
Definition in_hand (needed : list Z) calls outputs : Prop :=
  good outputs /\ forall eid, eid ∈ needed ->
    eid ∈ dict_keys outputs \/ exists peer ids, dict_get peer calls = Some ids /\ eid ∈ ids.

(** Routing the missing ids and running the local ones takes all needed ids in hand. *)
Lemma dispatch_in_hand n excluded needed missing rng d rng' ar_hash outputs chain outputs' chain' :
  route' n excluded missing rng = Ok (d, rng') ->
  run_local' ar_hash post_attn (default [] (dict_get self_shard_id d)) outputs chain = Ok (outputs', chain') ->
  good outputs -> (forall eid, eid ∈ needed -> eid ∈ dict_keys outputs \/ eid ∈ missing) ->
  in_hand needed (dict_pop self_shard_id d) outputs'.
Proof.
  intros Hr Hl Ho Hn. destruct (run_local_spec _ _ _ _ _ _ Hl Ho) as (H1 & H2 & H3). split; [done|].
  intros eid [He|He]%Hn; [left; by apply H2|].
  pose proof (route_spec self_shard_id owners loads live n excluded missing rng) as Hs. rewrite Hr in Hs. destruct Hs as (_ & _ & Hs & _).
  apply Hs in He as (w & l & Hw & Hel). destruct (decide (w = self_shard_id)) as [->|Hne].
  - left. apply H3. by rewrite Hw.
  - right. exists w, l. split; [|done]. by rewrite dict_get_pop_ne.
Qed.

Lemma in_hand_covered needed calls outputs outs' :
  in_hand needed calls outputs -> good outs' -> dict_keys outputs ⊆ dict_keys outs' ->
  (forall peer, peer ∈ dict_keys calls -> covers calls outs' peer) ->
  good outs' /\ forall eid, eid ∈ needed -> eid ∈ dict_keys outs'.
Proof.
  intros [_ Hn] Hg Hsub Hc. split; [done|]. intros eid [He|(peer & ids & Hp & He)]%Hn; [by apply Hsub|].
  eapply Hc; [|exact Hp|exact He]. apply dict_get_in. by exists ids.
Qed.

Lemma route_dispatched n excluded needed ids rng d rng' :
  route' n excluded ids rng = Ok (d, rng') -> ids ⊆ needed -> dispatched n needed (dict_pop self_shard_id d).
Proof.
  intros Hr Hsub w l Hl. pose proof (route_spec self_shard_id owners loads live n excluded ids rng) as Hs. rewrite Hr in Hs.
  destruct Hs as (Hwf & _ & _ & Hown & Hlist). assert (w <> self_shard_id) as Hne by (intros ->; by rewrite dict_get_pop_eq in Hl).
  rewrite dict_get_pop_ne in Hl by done. destruct (Hlist w l Hl) as [Hl0 Hli]. split; [done|]. split; [done|]. intros eid He.
  split; [|by destruct (Hown w l eid Hl He)]. apply Hsub. by eapply elem_of_sublist.
Qed.

Lemma attempts_ok all_ids spare n ar_hash needed prefix excluded calls st log st' :
  honest all_ids -> needed ⊆ all_ids -> dispatched n all_ids calls -> in_hand needed calls (pb_outputs st) ->
  attempts' spare n ar_hash post_attn needed prefix excluded calls st = Some (log, Ok st') ->
  good (pb_outputs st') /\ forall eid, eid ∈ needed -> eid ∈ dict_keys (pb_outputs st').
Proof.
  intros Hh Hsub. revert n excluded calls st log. induction spare as [|spare IH]; intros n excluded calls st log Hdis Hin Ha;
    cbn [attempts] in Ha;
    (destruct (gather layer_idx _ _ _) as [[r outs]|] eqn:Eg; [|done]); cbn [mbind option_bind] in Ha;
    (pose proof (gather_spec calls _ _ _ _ _ (fun rd p d Hrd Hp Hd => Hh n calls p d Hdis Hp (or_introl (ex_intro _ rd (conj Hrd Hd)))) (proj1 Hin) Eg) as (H1 & H2 & H3));
    (destruct r as [u|e]; [specialize (H3 eq_refl)|apply gather_failure in Eg as (failed & -> & Hp & _); unfold failure in Ha]).
  1, 3: injection Ha as _ Ha; apply bind_ok in Ha as (c & _ & Ha); injection Ha as <-;
    by apply (in_hand_covered needed calls (pb_outputs st)).
  { injection Ha as _ Ha. done. }
  destruct (drain_spec calls (env n calls) failed (dict_keys calls) outs) as [Hd1 Hd2]; [|done|].
  { intros p d Hp' Hd. apply (Hh n calls); [done|done|]. by right. }
  destruct (back_off _ _); [|done].
  destruct (merge_provenance _ _ _) as [chain|]; [|done].
  destruct (filter _ needed) as [|m ms] eqn:Em.
  { injection Ha as _ <-. split; [done|]. cbn. intros eid He.
    destruct (dict_mem eid (drain (env n calls) failed (dict_keys calls) outs)) eqn:Ed; [by apply dict_mem_spec|].
    assert (eid ∈ filter (fun e => dict_mem e (drain (env n calls) failed (dict_keys calls) outs) = false) needed) as Hf
      by (by apply list_elem_of_filter). rewrite Em in Hf. inversion Hf. }
  rewrite <- Em in Ha. clear Em. destruct (route _ _ _ _ _ _ _ _) as [[by_owner rng]|[]] eqn:Er; try done.
  destruct (run_local _ _ _ _ _ _ _ _) as [[outs2 chain2]|] eqn:El; [|done].
  destruct (attempts _ _ _ _ _ _ _ _ _ _ _ _ _ _ _ _) as [[log2 res]|] eqn:Ea; [|done]. cbn in Ha. injection Ha as _ ->.
  eapply IH; [eapply route_dispatched; [exact Er|]; intros e He; apply list_elem_of_filter in He as [_ He]; by apply Hsub| |exact Ea].
  cbn. eapply dispatch_in_hand; [exact Er|exact El|done|].
  intros eid He. rewrite list_elem_of_filter.
  destruct (dict_mem eid (drain (env n calls) failed (dict_keys calls) outs)) eqn:Ed; [left; by apply dict_mem_spec|by right].
Qed.

(** ** The reference: the layer with all its experts in one place *)

Section reference.
Context (top_k_ids : topk) (w : W).
Abbreviation shared := (be_shared layer_idx post_attn).

(** A position: the shared branch plus the normalized weighted sum. *)
Definition atomic_cell (b l : nat) (ids : list Z) : T :=
  match ids with
  | [] => be_cell b l shared
  | first :: rest =>
      moe_spec be_weigh be_add (be_post_ln layer_idx) (fun eid => be_cell b l (f eid)) first rest
        (be_cell_w b l w) (be_cell b l shared)
  end.

Definition join_pure (cat : list T -> T) (cells : list T) : T :=
  match cells with
  | [c] => c
  | _ => cat cells
  end.

Definition atomic_layer : T :=
  be_outer layer_idx
    (join_pure be_cat_batch (imap (fun b row => join_pure be_cat_seq (imap (atomic_cell b) row)) top_k_ids)) post_attn.

(** The router returns at least one batch, one position and one expert per position. *)
Definition topk_ok : Prop := top_k_ids <> [] /\ Forall (fun row => row <> [] /\ Forall (fun ids => ids <> []) row) top_k_ids.

Lemma outputs_at_ok outputs b l ids :
  (forall eid, eid ∈ ids -> dict_get eid outputs = Some (f eid)) ->
  exists d, outputs_at b l outputs ids = Ok d /\ forall eid, eid ∈ ids -> dict_get eid d = Some (be_cell b l (f eid)).
Proof.
  intros Hf. unfold outputs_at. set (body := fun d eid => _).
  pose proof (fill_loop (fun eid v => v = be_cell b l (f eid)) (fun _ _ => False) body ids []) as Hl.
  destruct (foldM body [] ids) as [d|e].
  - exists d. split; [done|]. intros eid He. destruct Hl as [Hk Hv]; [|done|].
    + intros e He' d'. unfold body. rewrite (Hf e He'). cbn. eauto.
    + assert (is_Some (dict_get eid d)) as [v Hg] by (apply dict_get_in, Hk; by right).
      rewrite Hg. f_equal. by apply Hv.
  - destruct Hl as (eid & _ & []); [|done]. intros e' He' d'. unfold body. rewrite (Hf e' He'). cbn. eauto.
Qed.

Lemma aggregate_cell_ok outputs b l ids :
  ids <> [] -> (forall eid, eid ∈ ids -> dict_get eid outputs = Some (f eid)) ->
  aggregate_cell layer_idx outputs w shared b l ids = Ok (atomic_cell b l ids).
Proof.
  intros Hne Hf. unfold aggregate_cell. destruct (outputs_at_ok outputs b l ids Hf) as (d & -> & Hd).
  cbn [mbind result_bind]. destruct ids as [|first rest]; [done|]. by apply aggregate_spec.
Qed.

Lemma join_cells_ok cat cells : cells <> [] -> join_cells cat cells = Ok (join_pure cat cells).
Proof. by destruct cells as [|? [|? ?]]. Qed.

Lemma aggregate_all_ok outputs :
  topk_ok -> (forall eid, eid ∈ distinct_ids top_k_ids -> dict_get eid outputs = Some (f eid)) ->
  aggregate_all layer_idx outputs top_k_ids w shared =
  Ok (join_pure be_cat_batch (imap (fun b row => join_pure be_cat_seq (imap (atomic_cell b) row)) top_k_ids)).
Proof.
  intros [Hne Hrows] Hf. unfold aggregate_all.
  erewrite (mapR_pure _ (fun row : nat * list (list Z) => join_pure be_cat_seq (imap (atomic_cell row.1) row.2))).
  - cbn [mbind result_bind]. rewrite join_cells_ok by (by destruct top_k_ids). f_equal. f_equal.
    unfold enumerate. by rewrite fmap_imap.
  - intros it (b & row & -> & Hb)%elem_of_lookup_imap. cbn [fst snd].
    destruct (Forall_lookup_1 _ _ _ _ Hrows Hb) as [Hr Hcells].
    erewrite (mapR_pure _ (fun cell : nat * list Z => atomic_cell b cell.1 cell.2)).
    + cbn [mbind result_bind]. rewrite join_cells_ok by (by destruct row). f_equal. f_equal.
      unfold enumerate. by rewrite fmap_imap.
    + intros it (l & ids & -> & Hl)%elem_of_lookup_imap. cbn [fst snd].
      apply aggregate_cell_ok; [by eapply (Forall_lookup_1 _ _ _ _ Hcells)|].
      intros eid He. apply Hf. unfold distinct_ids. rewrite sort_by_perm, elem_of_remove_dups.
      apply concat_in. exists ids. split; [done|]. apply concat_in. exists row.
      split; by eapply list_elem_of_lookup_2.
Qed.

Abbreviation run_split_layer' :=
  (run_split_layer self_shard_id owners layer_idx loads live retry_max_attempts retry_backoff_ms env now).

(** Each expert comes from the shard that ran it: local outputs, then remote ones. *)
Lemma outputs_complete (local_ids : list Z) local_outputs remote :
  be_selected layer_idx post_attn local_ids = Ok local_outputs -> good remote ->
  (forall eid, eid ∈ filter (fun e => e ∉ local_ids) (distinct_ids top_k_ids) -> eid ∈ dict_keys remote) ->
  forall eid, eid ∈ distinct_ids top_k_ids -> dict_get eid (dict_update local_outputs remote) = Some (f eid).
Proof.
  intros Hl Hg Hr eid He. apply be_selected_ok in Hl as (_ & Hk & Hv).
  destruct (proj2 (dict_get_in eid (dict_update local_outputs remote))) as [v Hd].
  - apply dict_update_keys. destruct (decide (eid ∈ local_ids)) as [Hi|Hn]; [left; by apply Hk|].
    right. apply Hr. by apply list_elem_of_filter.
  - rewrite Hd. f_equal. apply dict_get_Some_in, dict_update_in in Hd as [Hd|Hd]; [by apply Hv|by apply Hg].
Qed.

Lemma phase_a_inv chain rng local_ids local_outputs shared_out chain1 ar_hash rng1 :
  phase_a self_shard_id owners layer_idx loads live now post_attn (distinct_ids top_k_ids) chain rng =
    Ok (local_ids, local_outputs, shared_out, chain1, ar_hash, rng1) ->
  be_selected layer_idx post_attn local_ids = Ok local_outputs /\ shared_out = shared.
Proof.
  unfold phase_a. intros Ha. apply bind_ok in Ha as ([by_owner rng'] & _ & Ha).
  apply bind_ok in Ha as (out & Hsel & Ha). destruct chain as [c|]; [|injection Ha as <- <- <- <- <- <-; done].
  apply bind_ok in Ha as ([es h] & _ & Ha). apply bind_ok in Ha as (xs & _ & Ha).
  injection Ha as <- <- <- <- <- <-. done.
Qed.

Lemma phase_b_ok all_ids local_ids chain ar_hash rng log st :
  honest all_ids ->
  phase_b_with_retry self_shard_id owners layer_idx loads live retry_max_attempts retry_backoff_ms env now post_attn all_ids local_ids
    chain ar_hash rng = Some (log, Ok st) ->
  good (pb_outputs st) /\ forall eid, eid ∈ filter (fun e => e ∉ local_ids) all_ids -> eid ∈ dict_keys (pb_outputs st).
Proof.
  intros Hh. unfold phase_b_with_retry. destruct (mapR _ _) as [prefix|]; [|done].
  destruct (route _ _ _ _ _ _ _ _) as [[by_owner rng1]|] eqn:Er; [|done].
  destruct (run_local _ _ _ _ _ _ _ _) as [[outputs chain1]|] eqn:El; [|done]. intros Ha.
  assert (Hsub : filter (fun e => e ∉ local_ids) all_ids ⊆ all_ids) by (by intros e [_ He]%list_elem_of_filter).
  eapply (attempts_ok all_ids _ _ _ _ _ _ _ _ _ _ Hh Hsub); [by eapply route_dispatched| |exact Ha]. cbn.
  eapply dispatch_in_hand; [exact Er|exact El|apply good_nil|]. by right.
Qed.

(** C6: a split layer is the layer. However its experts are spread over the
    shards, whichever peers fail, and however the calls are retried: when
    [run_split_layer] returns and the peers' replies are honest, its result is
    what the layer computes with all experts in one place. *)
Theorem split_layer_correct chain rng log out chain' :
  honest (distinct_ids top_k_ids) -> topk_ok -> run_split_layer' post_attn top_k_ids w chain rng = Some (log, Ok (out, chain')) ->
  out = atomic_layer.
Proof.
  intros Hh Hk Hr. unfold run_split_layer in Hr.
  destruct (phase_a _ _ _ _ _ _ _ _ _ _) as [[[[[[local_ids lo] sh] c1] ar] rng1]|] eqn:Ea; [|done].
  apply phase_a_inv in Ea as [Hsel ->].
  destruct (phase_b_with_retry _ _ _ _ _ _ _ _ _ _ _ _ _ _) as [[log1 res]|] eqn:Eb; [|done].
  cbn in Hr. injection Hr as _ Hr. apply bind_ok in Hr as (st & -> & Hc).
  apply phase_b_ok in Eb as [Hg Hin]; [|done]. unfold phase_c in Hc.
  rewrite aggregate_all_ok in Hc; [|done|by eapply outputs_complete]. cbn [mbind result_bind] in Hc.
  apply bind_ok in Hc as (c2 & _ & Hc). by injection Hc as <- _.
Qed.

End reference.
(** ** The retry discipline *)

(** A dispatch calls no excluded peer and not this shard. *)
Definition allowed (excluded : list string) calls : Prop :=
  forall w, w ∈ dict_keys calls -> w <> self_shard_id /\ w ∉ excluded.

Lemma route_allowed n excluded ids rng d rng' :
  route' n excluded ids rng = Ok (d, rng') -> allowed excluded (dict_pop self_shard_id d).
Proof.
  intros Hr w Hw. pose proof (route_spec self_shard_id owners loads live n excluded ids rng) as Hs. rewrite Hr in Hs. destruct Hs as (Hwf & Hex & _).
  assert (w <> self_shard_id) as Hne.
  { intros ->. apply dict_get_in in Hw as [v Hv]. by rewrite dict_get_pop_eq in Hv. }
  split; [done|]. apply Hex. apply dict_get_in. apply dict_get_in in Hw. by rewrite dict_get_pop_ne in Hw.
Qed.

(** Every id asked of a peer satisfies [wanted]. *)
Definition asks (wanted : Z -> Prop) calls : Prop := forall w ids eid, dict_get w calls = Some ids -> eid ∈ ids -> wanted eid.

(** No survivor of attempt [n], which failed on [failed], has answered for the id. *)
Definition unanswered (n : nat) calls (failed : string) (eid : Z) : Prop :=
  forall p d, p ∈ dict_keys calls -> p <> failed -> at_drain (env n calls) p = Some (Ok d) -> eid ∉ dict_keys d.

Record proper_calls (n : nat) (excluded : list string) (all_ids : list Z) (wanted : Z -> Prop) calls : Prop := {
  pc_allowed : allowed excluded calls;
  pc_owned : dispatched n all_ids calls;
  pc_asks : asks wanted calls;
}.

(** A log of attempts from [n] on: none calls a peer that is excluded or failed
    before, each asks owners for ids that are wanted and that no survivor of an
    attempt before has answered. *)
Inductive disciplined (all_ids : list Z) : nat -> list string -> (Z -> Prop) -> list Dispatch -> Prop :=
| disciplined_nil n excluded wanted : disciplined all_ids n excluded wanted []
| disciplined_last n excluded wanted d : ds_failed d = None -> proper_calls n excluded all_ids wanted (ds_calls d) ->
    disciplined all_ids n excluded wanted [d]
| disciplined_retry n excluded wanted d p log : ds_failed d = Some p -> p ∈ dict_keys (ds_calls d) ->
    proper_calls n excluded all_ids wanted (ds_calls d) ->
    disciplined all_ids (S n) (p :: excluded) (fun eid => wanted eid /\ unanswered n (ds_calls d) p eid) log ->
    disciplined all_ids n excluded wanted (d :: log).

(** *** Outputs only grow *)

Lemma collect_done_grows (r : Round T) remaining outputs :
  dict_keys outputs ⊆ dict_keys (collect_done layer_idx r remaining outputs).2.
Proof.
  revert outputs. induction remaining as [|peer rest IH]; intros outputs; cbn [collect_done]; [done|].
  destruct (r_done r peer) as [[d|er]|]; [|done|apply IH]. specialize (IH (dict_update outputs d)).
  destruct (collect_done layer_idx r rest (dict_update outputs d)) as [dones outs']. cbn [snd] in *.
  intros e He. apply IH, dict_update_keys. by left.
Qed.

Lemma gather_grows rounds remaining outputs r outs' : gather layer_idx rounds remaining outputs = Some (r, outs') ->
  dict_keys outputs ⊆ dict_keys outs'.
Proof.
  revert remaining outputs. induction rounds as [|rd rounds IH]; intros [|first rest] outputs Hg; cbn [gather] in Hg;
    try (by injection Hg as _ <-); [done|].
  set (rem := first :: rest) in *. clearbody rem. clear first rest.
  destruct (find _ rem) as [peer|]; [by injection Hg as _ <-|].
  pose proof (collect_done_grows rd rem outputs) as Hc. destruct (collect_done layer_idx rd rem outputs) as [[dones|er] outs1]; cbn [snd] in Hc.
  2: { by injection Hg as _ <-. }
  destruct (filter (fun p => p ∉ dones) rem) as [|stuck rest]; [by injection Hg as _ <-|].
  destruct (r_late rd); [by injection Hg as _ <-|]. trans (dict_keys outs1); [done|]. by eapply IH.
Qed.

(** What the survivors have answered is there after the drain. *)
Lemma drain_grows at_ failed peers outputs :
  dict_keys outputs ⊆ dict_keys (drain at_ failed peers outputs) /\
  forall p d, p ∈ peers -> p <> failed -> at_drain at_ p = Some (Ok d) -> dict_keys d ⊆ dict_keys (drain at_ failed peers outputs).
Proof.
  unfold drain. revert outputs. induction peers as [|peer peers IH]; intros outputs; cbn [foldl].
  { split; [done|]. intros p d Hp. inversion Hp. }
  set (next := match _ with Some (Ok d) => _ | _ => _ end). destruct (IH next) as [IH1 IH2].
  assert (Hnext : dict_keys outputs ⊆ dict_keys next /\
    forall d, peer <> failed -> at_drain at_ peer = Some (Ok d) -> dict_keys d ⊆ dict_keys next).
  { subst next. case_decide as Hf; [by split|]. destruct (at_drain at_ peer) as [[d|er]|]; [|by split|by split]. split.
    - intros e He. apply dict_update_keys. by left.
    - intros d' _ [= <-] e He. apply dict_update_keys. by right. }
  destruct Hnext as [Hn1 Hn2]. split; [by trans (dict_keys next)|].
  intros p d [->|Hp]%elem_of_cons Hf Hd; [|by apply (IH2 p)]. trans (dict_keys next); [by apply Hn2|done].
Qed.

Lemma run_local_grows ar_hash ids outputs chain outputs' chain' :
  run_local' ar_hash post_attn ids outputs chain = Ok (outputs', chain') -> dict_keys outputs ⊆ dict_keys outputs'.
Proof.
  intros Hr. unfold run_local in Hr. destruct ids as [|e0 ids]; [by injection Hr as <- _|].
  apply bind_ok in Hr as (out & _ & Hr). apply bind_ok in Hr as (c & _ & Hr). injection Hr as <- _.
  intros e He. apply dict_update_keys. by left.
Qed.

Lemma route_proper n excluded all_ids ids rng d rng' (wanted : Z -> Prop) :
  route' n excluded ids rng = Ok (d, rng') -> ids ⊆ all_ids -> (forall eid, eid ∈ ids -> wanted eid) ->
  proper_calls n excluded all_ids wanted (dict_pop self_shard_id d).
Proof.
  intros Hr Hsub Hw. split; [by eapply route_allowed|by eapply route_dispatched|].
  intros w l eid Hl He. apply Hw. by destruct (route_dispatched n excluded ids ids rng d rng' Hr ltac:(done) w l Hl) as (_ & _ & Hin), (Hin eid He).
Qed.

(** Nothing is asked for that has an output. *)
Definition only_missing (wanted : Z -> Prop) (needed : list Z) outputs : Prop :=
  forall eid, eid ∈ needed -> eid ∉ dict_keys outputs -> wanted eid.

Lemma attempts_disciplined all_ids spare n ar_hash needed prefix excluded wanted calls st log res : needed ⊆ all_ids ->
  proper_calls n excluded all_ids wanted calls -> only_missing wanted needed (pb_outputs st) ->
  attempts' spare n ar_hash post_attn needed prefix excluded calls st = Some (log, res) ->
  disciplined all_ids n excluded wanted log /\ (length log <= S spare)%nat.
Proof.
  intros Hsub. revert n excluded wanted calls st log res. induction spare as [|spare IH]; intros n excluded wanted calls st log res Hpc Hm Ha;
    cbn [attempts] in Ha; (destruct (gather layer_idx _ _ _) as [[r outs]|] eqn:Eg; [|done]); cbn [mbind option_bind] in Ha;
    pose proof (gather_grows _ _ _ _ _ Eg) as Hg;
    (destruct r as [u|e]; [|apply gather_failure in Eg as (failed & -> & Hp & _); unfold failure in Ha]).
  1, 3: injection Ha as <- _; split; [by constructor|cbn; lia].
  - injection Ha as <- _. split; [by econstructor; [..|constructor]|cbn; lia].
  - set (stop := [mkDispatch calls prefix (Some failed)]) in *.
    assert (Hstop : disciplined all_ids n excluded wanted stop /\ (length stop <= S (S spare))%nat).
    { split; [by econstructor; [..|constructor]|cbn; lia]. }
    destruct (back_off _ _); [|by injection Ha as <- _].
    destruct (merge_provenance _ _ _) as [chain|]; [|by injection Ha as <- _].
    destruct (filter _ needed) as [|m ms] eqn:Em; [by injection Ha as <- _|]. rewrite <- Em in Ha. clear m ms Em.
    destruct (route _ _ _ _ _ _ _ _) as [[by_owner rng]|[]] eqn:Er; try (by injection Ha as <- _).
    destruct (run_local _ _ _ _ _ _ _ _) as [[outs2 chain2]|] eqn:El; [|by injection Ha as <- _].
    destruct (attempts _ _ _ _ _ _ _ _ _ _ _ _ _ _ _ _ _) as [[log2 res2]|] eqn:Ea; [|done]. cbn in Ha. injection Ha as <- _.
    destruct (drain_grows (env n calls) failed (dict_keys calls) outs) as [Hd1 Hd2].
    assert (Hnext : only_missing (fun eid => wanted eid /\ unanswered n calls failed eid) needed (drain (env n calls) failed (dict_keys calls) outs)).
    { intros eid He Hno. split; [apply Hm; [done|]; intros Hin; by apply Hno, Hd1, Hg|].
      intros p d Hp' Hne Hd Hin. apply Hno. by eapply Hd2. }
    eapply IH in Ea as [Hd Hl]; [split; [by econstructor|cbn; lia]| |].
    + eapply route_proper; [exact Er| |].
      * intros eid [_ He]%list_elem_of_filter. by apply Hsub.
      * intros eid [Hno He]%list_elem_of_filter. apply Hnext; [done|]. intros Hin%dict_mem_spec. congruence.
    + intros eid He Hno. apply Hnext; [done|]. intros Hin. by apply Hno, (run_local_grows _ _ _ _ _ _ El).
Qed.

(** What the relation says of each attempt, and of two of them. *)
Lemma disciplined_spec all_ids n excluded wanted log : disciplined all_ids n excluded wanted log ->
  (forall i d, log !! i = Some d -> allowed excluded (ds_calls d) /\ dispatched (n + i) all_ids (ds_calls d) /\ asks wanted (ds_calls d)) /\
  forall i j di dj p, (i < j)%nat -> log !! i = Some di -> log !! j = Some dj -> ds_failed di = Some p ->
    (p ∉ dict_keys (ds_calls dj)) /\ asks (unanswered (n + i) (ds_calls di) p) (ds_calls dj).
Proof.
  intros Hdis. clear -Hdis. induction Hdis as [n excluded wanted|n excluded wanted d Hf [Hal Hdi Has]|n excluded wanted d p log Hf Hp [Hal Hdi Has] _ [IH1 IH2]];
    [by split| |].
  - split; [intros [|i] d' Hi; [cbn in Hi; simplify_eq; by rewrite Nat.add_0_r|done]|].
    intros [|i] [|j] di dj p' Hij; try lia; done.
  - split.
    + intros [|i] d' Hi; cbn in Hi; [simplify_eq; by rewrite Nat.add_0_r|]. destruct (IH1 _ _ Hi) as (H1' & H2' & H3').
      split_and!.
      * intros w Hw. destruct (H1' w Hw) as [? Hn]. split; [done|]. set_solver.
      * by rewrite Nat.add_succ_r.
      * intros w l eid Hw He. by destruct (H3' w l eid Hw He).
    + intros [|i] [|j] di dj p' Hij Hi Hj Hd; cbn in Hi, Hj; try lia.
      * simplify_eq. rewrite Nat.add_0_r. destruct (IH1 _ _ Hj) as (H1' & _ & H3'). split.
        -- intros Hw. destruct (H1' _ Hw) as [_ Hn]. apply Hn. left.
        -- intros w l eid Hw He. by destruct (H3' w l eid Hw He).
      * rewrite Nat.add_succ_r. apply (IH2 i j di dj); [lia|done..].
Qed.

Lemma phase_b_disciplined all_ids local_ids chain ar_hash rng log res :
  phase_b_with_retry self_shard_id owners layer_idx loads live retry_max_attempts retry_backoff_ms env now post_attn all_ids local_ids
    chain ar_hash rng = Some (log, res) ->
  disciplined all_ids 1 [] (fun _ => True) log /\ (length log <= Nat.max 1 (Z.to_nat retry_max_attempts))%nat.
Proof.
  unfold phase_b_with_retry. destruct (mapR _ _) as [prefix|]; [|intros [= <- _]; split; [constructor|cbn; lia]].
  destruct (route _ _ _ _ _ _ _ _) as [[by_owner rng1]|] eqn:Er; [|intros [= <- _]; split; [constructor|cbn; lia]].
  destruct (run_local _ _ _ _ _ _ _ _) as [[outputs chain1]|] eqn:El; [|intros [= <- _]; split; [constructor|cbn; lia]].
  intros Ha. assert (Hsub : filter (fun e => e ∉ local_ids) all_ids ⊆ all_ids) by (by intros e [_ He]%list_elem_of_filter).
  eapply attempts_disciplined in Ha as [Hd Hl]; [split; [exact Hd|lia]|done| |].
  - by eapply route_proper.
  - done.
Qed.

Lemma split_disciplined top_k_ids w chain rng log res :
  run_split_layer self_shard_id owners layer_idx loads live retry_max_attempts retry_backoff_ms env now post_attn top_k_ids w chain rng
    = Some (log, res) ->
  disciplined (distinct_ids top_k_ids) 1 [] (fun _ => True) log /\ (length log <= Nat.max 1 (Z.to_nat retry_max_attempts))%nat.
Proof.
  intros Hr. unfold run_split_layer in Hr.
  destruct (phase_a _ _ _ _ _ _ _ _ _ _) as [[[[[[local_ids lo] sh] c1] ar] rng1]|];
    [|injection Hr as <- _; split; [constructor|cbn; lia]].
  destruct (phase_b_with_retry _ _ _ _ _ _ _ _ _ _ _ _ _ _ _) as [[log1 res1]|] eqn:Eb; [|done].
  cbn in Hr. injection Hr as <- _. by eapply phase_b_disciplined.
Qed.

(** C19: the retry discipline. A split layer makes at most [retry_max_attempts]
    attempts (at least one). In each it calls other shards only, each for experts
    the router picked that this shard owns, in the shard map or by the gossip at
    the time of that routing. Once an attempt has failed on a peer, no later one
    calls it again, and none asks again for an expert that another peer of the
    failed attempt had answered: the calls fail over to owners of experts that
    are missing. *)
Theorem retry_discipline top_k_ids w chain rng log res :
  run_split_layer self_shard_id owners layer_idx loads live retry_max_attempts retry_backoff_ms env now post_attn top_k_ids w chain rng
    = Some (log, res) ->
  (length log <= Nat.max 1 (Z.to_nat retry_max_attempts))%nat /\
  (forall i d, log !! i = Some d -> dispatched (S i) (distinct_ids top_k_ids) (ds_calls d)) /\
  forall i j di dj p, (i < j)%nat -> log !! i = Some di -> log !! j = Some dj -> ds_failed di = Some p ->
    (p ∉ dict_keys (ds_calls dj)) /\
    forall q ids eid, dict_get q (ds_calls dj) = Some ids -> eid ∈ ids -> unanswered (S i) (ds_calls di) p eid.
Proof.
  intros Hr. apply split_disciplined in Hr as [Hd Hl]. split; [done|]. destruct (disciplined_spec _ _ _ _ _ Hd) as [Hs Hf]. split.
  - intros i d Hi. by destruct (Hs i d Hi) as (_ & Hdis & _).
  - intros i j di dj p Hij Hi Hj Hp. by destruct (Hf i j di dj p Hij Hi Hj Hp).
Qed.

(** ** Termination *)

Lemma gather_total rounds remaining outputs :
  (exists rd, rd ∈ rounds /\ r_late rd = true) -> exists res, gather layer_idx rounds remaining outputs = Some res.
Proof.
  revert remaining outputs. induction rounds as [|rd rounds IH]; intros remaining outputs (rd' & Hin & Hl); [inversion Hin|].
  destruct remaining as [|first rest]; cbn [gather]; [by eexists|].
  destruct (find _ _); [by eexists|]. destruct (collect_done _ _ _ _) as [[dones|e] outs]; [|by eexists].
  destruct (filter _ _) as [|stuck rest']; [by eexists|]. destruct (r_late rd) eqn:El; [by eexists|].
  apply IH. exists rd'. apply elem_of_cons in Hin as [->|Hin]; [congruence|done].
Qed.

Lemma attempts_total spare n ar_hash needed prefix excluded calls st :
  (forall n calls, exists rd, rd ∈ at_rounds (env n calls) /\ r_late rd = true) ->
  exists r, attempts self_shard_id owners layer_idx loads live retry_backoff_ms env now spare n ar_hash post_attn needed prefix excluded calls st = Some r.
Proof.
  intros Hlate. revert n excluded calls st. induction spare as [|spare IH]; intros n excluded calls st;
    cbn [attempts];
    destruct (gather_total _ (dict_keys calls) (pb_outputs st) (Hlate n calls)) as [[r outs] ->]; cbn [mbind option_bind];
    (destruct r as [u|[] ]; try by eexists).
  destruct (back_off _ _); [|by eexists]. destruct (merge_provenance _ _ _); [|by eexists]. destruct (filter _ needed); [by eexists|].
  destruct (route _ _ _ _ _ _ _ _) as [[d rng]|[] ]; try by eexists.
  destruct (run_local _ _ _ _ _ _ _ _) as [[outs' chain']|]; [|by eexists].
  edestruct (IH (S n)) as [[log res] Hr]. rewrite Hr. by eexists.
Qed.

(** C20: termination. If in every attempt the polling loop reaches a pass at
    which its deadline has passed, a split layer returns or raises, after at most
    [retry_max_attempts] attempts (at least one): no choice of failing, silent or
    aborted peers makes it wait or retry for ever. *)
Theorem split_layer_terminates top_k_ids w chain rng :
  (forall n calls, exists rd, rd ∈ at_rounds (env n calls) /\ r_late rd = true) ->
  exists log res, run_split_layer self_shard_id owners layer_idx loads live retry_max_attempts retry_backoff_ms env now
    post_attn top_k_ids w chain rng = Some (log, res) /\ (length log <= Nat.max 1 (Z.to_nat retry_max_attempts))%nat.
Proof.
  intros Hlate. enough (exists r, run_split_layer self_shard_id owners layer_idx loads live retry_max_attempts retry_backoff_ms env now
    post_attn top_k_ids w chain rng = Some r) as [[log res] Hr].
  { exists log, res. split; [done|]. by eapply split_disciplined. }
  unfold run_split_layer.
  destruct (phase_a _ _ _ _ _ _ _ _ _ _) as [[[[[[l lo] sh] c1] ar] rng1]|]; [|by eexists].
  enough (exists r, phase_b_with_retry self_shard_id owners layer_idx loads live retry_max_attempts retry_backoff_ms env now
    post_attn (distinct_ids top_k_ids) l c1 ar rng1 = Some r) as [[log res] ->] by (cbn; by eexists).
  unfold phase_b_with_retry. destruct (mapR _ _); [|by eexists].
  destruct (route _ _ _ _ _ _ _ _) as [[d rng2]|]; [|by eexists].
  destruct (run_local _ _ _ _ _ _ _ _) as [[outs chain']|]; [|by eexists].
  by apply attempts_total.
Qed.

(** ** Fault tolerance *)

Context (faulty : list string).

(** Of the peers called, only faulty ones abort, raise or are too slow, and the
    deadline comes. *)
Definition good_attempt (peers : list string) (a : Attempt T) : Prop :=
  (exists rd, rd ∈ at_rounds a /\ r_late rd = true) /\
  forall rd p, rd ∈ at_rounds a -> p ∈ peers ->
    (p ∈ r_aborted rd -> p ∈ faulty) /\
    (forall e, r_done rd p = Some (Raise e) -> p ∈ faulty) /\
    (r_late rd = true -> p ∉ faulty -> r_done rd p <> None).

Context (top_k_ids : topk) (weights : W).
Abbreviation all_ids := (distinct_ids top_k_ids).
Hypothesis attempts_good : forall n calls, dispatched n all_ids calls -> good_attempt (dict_keys calls) (env n calls).
(** The delays between attempts can be slept. *)
Hypothesis delays_ok : Forall (fun ms => 0 <= ms <= SLEEP_MAX_MS) retry_backoff_ms.
(** This shard runs the experts it owns. *)
Hypothesis local_runs : forall n ids, (forall eid, eid ∈ ids -> eid ∈ all_ids /\ owner_of' n eid self_shard_id) ->
  exists out, be_selected layer_idx post_attn ids = Ok out.

Lemma back_off_ok n : back_off retry_backoff_ms n = Ok tt.
Proof.
  unfold back_off. destruct (backoff_ms retry_backoff_ms n) as [ms|] eqn:E; [|done].
  destruct (Forall_lookup_1 _ _ _ _ delays_ok E). unfold sleep_ms. by rewrite !(proj2 (Z.leb_le _ _)) by lia.
Qed.

Lemma route_live n excluded ids rng :
  excluded ⊆ faulty -> (forall eid, eid ∈ ids -> exists w, owner_of' n eid w /\ w ∉ faulty) ->
  exists d rng', route' n excluded ids rng = Ok (d, rng').
Proof.
  intros Hex Ho. pose proof (route_spec self_shard_id owners loads live n excluded ids rng) as Hs.
  destruct (route' n excluded ids rng) as [[d rng']|e]; [by exists d, rng'|].
  destruct Hs as (_ & eid & Hin & Hno). destruct (Ho eid Hin) as (w & Hw & Hf). exfalso. by apply Hf, Hex, Hno.
Qed.

Lemma local_live n excluded ids rng d rng' outputs ar_hash :
  route' n excluded ids rng = Ok (d, rng') -> ids ⊆ all_ids ->
  exists outs', run_local' ar_hash post_attn (default [] (dict_get self_shard_id d)) outputs None = Ok (outs', None).
Proof.
  intros Hr Hsub. pose proof (route_spec self_shard_id owners loads live n excluded ids rng) as Hs. rewrite Hr in Hs. destruct Hs as (_ & _ & _ & Hown & Hlist).
  unfold run_local. destruct (dict_get self_shard_id d) as [l|] eqn:El; [|by eexists]. cbn [default].
  destruct (local_runs n l) as [out Hout]; 
    [intros eid He; split; [apply Hsub; eapply elem_of_sublist; [done|by apply (Hlist _ _ El)]|by destruct (Hown _ _ _ El He)]|].
  unfold id. destruct l as [|e l]; [by eexists|]. rewrite Hout. cbn [mbind result_bind].
  destruct ar_hash; by eexists.
Qed.

Lemma attempts_live spare n ar_hash needed prefix excluded calls st : needed ⊆ all_ids -> dispatched n all_ids calls ->
  NoDup faulty -> NoDup excluded -> excluded ⊆ faulty -> (length faulty <= spare + length excluded)%nat ->
  allowed excluded calls -> pb_chain st = None ->
  (forall n eid, eid ∈ needed -> exists w, owner_of' n eid w /\ w ∉ faulty) ->
  exists log st', attempts' spare n ar_hash post_attn needed prefix excluded calls st = Some (log, Ok st') /\ pb_chain st' = None.
Proof.
  intros Hneed Hdis HF. revert n excluded calls st Hdis. induction spare as [|spare IH]; intros n excluded calls st Hdis Hnd Hsub Hlen Hal Hch Hown;
    destruct (attempts_good n calls Hdis) as [Hlate Hbad]; cbn [attempts];
    destruct (gather_total (at_rounds (env n calls)) (dict_keys calls) (pb_outputs st) Hlate) as [[r outs] Eg];
    rewrite Eg; cbn [mbind option_bind];
    (destruct r as [u|e]; [rewrite Hch; by do 2 eexists|]);
    apply gather_failure in Eg as (failed & -> & Hp & rd & Hin & Hwhy); unfold failure;
    (assert (Hf : failed ∈ faulty /\ failed ∉ excluded);
      [split; [|by apply Hal]; destruct (Hbad rd failed Hin Hp) as (B1 & B2 & B3);
       destruct Hwhy as [Ha|[[er He]|[Hl Hnone]]]; [by apply B1|by eapply B2|];
       destruct (decide (failed ∈ faulty)) as [|Hn]; [done|by destruct (B3 Hl Hn)]|]);
    destruct Hf as [Hf Hnew];
    (assert (S (length excluded) <= length faulty)%nat as Hroom;
      [change (S (length excluded)) with (length (failed :: excluded)); apply submseteq_length, NoDup_submseteq;
       [by constructor|set_solver]|]).
  - lia.
  - rewrite back_off_ok, Hch. cbn [merge_provenance extend].
    destruct (filter _ needed) as [|m ms] eqn:Em; [by do 2 eexists|]. rewrite <- Em. clear m ms Em.
    set (missing := filter _ needed).
    destruct (route_live (S n) (failed :: excluded) missing (pb_rng st)) as (d & rng' & Er); [set_solver| |].
    { intros eid [_ He]%list_elem_of_filter. by apply Hown. }
    assert (Hmiss : missing ⊆ all_ids) by (intros eid [_ He]%list_elem_of_filter; by apply Hneed).
    rewrite Er. destruct (local_live _ _ _ _ _ _ (drain (env n calls) failed (dict_keys calls) outs) ar_hash Er Hmiss) as (outs' & El).
    rewrite El. destruct (IH (S n) (failed :: excluded) (dict_pop self_shard_id d) (mkPhaseB outs' None rng')) as (log & st' & Ea & Hc).
    + by eapply route_dispatched.
    + by constructor.
    + set_solver.
    + cbn. lia.
    + by eapply route_allowed.
    + done.
    + done.
    + rewrite Ea. cbn. by do 2 eexists.
Qed.

(** fault tolerance. If every needed expert always has an owner that is not
    faulty, the peers' replies are honest, and fewer peers are faulty than
    [retry_max_attempts], a split layer returns, with the right result: the
    retries get around every faulty peer. *)
Theorem split_layer_tolerates_faults rng :
  honest all_ids -> topk_ok top_k_ids -> NoDup faulty -> Z.of_nat (length faulty) < retry_max_attempts ->
  (forall n eid, eid ∈ all_ids -> exists w, owner_of' n eid w /\ w ∉ faulty) ->
  exists log, run_split_layer self_shard_id owners layer_idx loads live retry_max_attempts retry_backoff_ms env now post_attn
    top_k_ids weights None rng = Some (log, Ok (atomic_layer top_k_ids weights, None)).
Proof.
  intros Hh Hk HF Hlen Hown. unfold run_split_layer, phase_a.
  destruct (route_live 0 [] (distinct_ids top_k_ids) rng) as (d & rng1 & Er); [set_solver|apply Hown|].
  rewrite Er. cbn [mbind result_bind]. set (local_ids := default [] (dict_get self_shard_id d)).
  assert (exists lo, be_selected layer_idx post_attn local_ids = Ok lo) as [lo Hlo].
  { apply (local_runs 0). pose proof (route_spec self_shard_id owners loads live 0 [] (distinct_ids top_k_ids) rng) as Hs. rewrite Er in Hs.
    destruct Hs as (_ & _ & _ & Ho & Hlist). intros eid He. unfold local_ids in He.
    destruct (dict_get self_shard_id d) as [l|] eqn:El; [|inversion He].
    split; [eapply elem_of_sublist; [exact He|by apply (Hlist _ _ El)]|by destruct (Ho _ _ _ El He)]. }
  rewrite Hlo. cbn [mbind result_bind].
  assert (exists log st, phase_b_with_retry self_shard_id owners layer_idx loads live retry_max_attempts retry_backoff_ms env now
    post_attn (distinct_ids top_k_ids) local_ids None None rng1 = Some (log, Ok st) /\ pb_chain st = None) as (log & st & Eb & Hc).
  { unfold phase_b_with_retry. cbn [default mapR]. set (needed := filter _ (distinct_ids top_k_ids)).
    assert (Hneed : forall n eid, eid ∈ needed -> exists w, owner_of' n eid w /\ w ∉ faulty).
    { intros n eid [_ He]%list_elem_of_filter. by apply Hown. }
    destruct (route_live 1 [] needed rng1) as (d2 & rng2 & Er2); [set_solver|apply Hneed|]. rewrite Er2.
    assert (Hsub : needed ⊆ all_ids) by (by intros eid [_ He]%list_elem_of_filter).
    destruct (local_live _ _ _ _ _ _ [] None Er2 Hsub) as (outs & El). rewrite El.
    apply attempts_live; [done|by eapply route_dispatched|done|constructor|set_solver|cbn; lia|by eapply route_allowed|done|done]. }
  rewrite Eb. cbn [mbind option_bind result_bind]. eexists. f_equal. f_equal.
  apply phase_b_ok in Eb as [Hg Hin]; [|done]. unfold phase_c.
  rewrite aggregate_all_ok; [|done|by eapply outputs_complete]. cbn [mbind result_bind]. by rewrite Hc.
Qed.

End correctness.

(** ** Witnesses: shard "a" holds expert 0, "b" and "c" hold 2, "c" holds 3; "b" is down *)

Section witnesses.

Definition demo_expert (l eid h : Z) : Z := 100 * l + 10 * eid + h.
Definition demo_outputs (l h : Z) (ids : list Z) : dict Z Z :=
  foldl (fun d e => dict_set e (demo_expert l e h) d) [] ids.

#[export] Instance demo_backend : SplitBackend Z unit := {
  be_selected l h ids := Ok (demo_outputs l h ids);
  be_shared l h := h + 1;
  be_weigh _ j x := (Z.of_nat j + 1) * x;
  be_add := Z.add;
  be_post_ln _ x := x;
  be_cell _ _ x := x;
  be_cell_w _ _ w := w;
  be_cat_seq := foldl Z.add 0;
  be_cat_batch := foldl Z.add 0;
  be_outer _ x h := x + h;
  be_bytes x := [byte_of x];
}.

Lemma demo_outputs_spec l h ids :
  dict_wf (demo_outputs l h ids) /\ (forall eid, eid ∈ dict_keys (demo_outputs l h ids) <-> eid ∈ ids) /\
  forall eid v, (eid, v) ∈ demo_outputs l h ids -> v = demo_expert l eid h.
Proof.
  unfold demo_outputs. induction ids as [|e ids (IH1 & IH2 & IH3)] using rev_ind.
  { split; [constructor|]. split; [done|]. intros eid v Hn. inversion Hn. }
  rewrite foldl_snoc. split; [by apply dict_set_wf|]. split.
  - intros eid. rewrite dict_set_in_keys, IH2, elem_of_app, list_elem_of_singleton. tauto.
  - intros eid v [[= -> ->]|Hin]%dict_set_in; [done|by apply IH3].
Qed.

#[export] Instance demo_backend_laws : SplitBackendLaws demo_expert.
Proof. split. intros l h ids out [= <-]. apply demo_outputs_spec. Qed.

Definition split_owners : ownership := [("a", [0]); ("b", [2]); ("c", [2; 3])].
Definition split_loads (n : nat) : dict string Z := [("a", 1); ("b", 0); ("c", 5)].
Definition no_live (n : nat) (eid : Z) : list string := [].
Definition split_reply (calls : dict string (list Z)) (p : string) : option (result (dict Z Z)) :=
  if decide (p = "b") then Some (Raise OSError)
  else Some (Ok (demo_outputs 1 7 (default [] (dict_get p calls)))).
Definition split_env (n : nat) (calls : dict string (list Z)) : Attempt Z :=
  mkAttempt [mkRound [] (split_reply calls) true] (split_reply calls) (fun _ => []).
Definition split_topk : topk := [[[3; 0; 2]]].

Lemma split_honest : honest demo_expert "a" split_owners 1 no_live split_env 7 (distinct_ids split_topk).
Proof.
  intros n calls peer d _ _ Hd. assert (Hr : split_reply calls peer = Some (Ok d)).
  { destruct Hd as [(r & Hin & Hd)|Hd]; [|done]. by apply list_elem_of_singleton in Hin as ->. }
  unfold split_reply in Hr. case_decide; [done|]. injection Hr as <-.
  destruct (demo_outputs_spec 1 7 (default [] (dict_get peer calls))) as (_ & Hk & Hv). split; [done|].
  intros ids eid Hg He. apply Hk. by rewrite Hg.
Qed.

Lemma split_topk_ok : topk_ok split_topk.
Proof. split; [done|]. repeat constructor; done. Qed.

Definition split_run (chain : option (list ProvenanceEntry)) : option (list Dispatch * result (Z * option (list ProvenanceEntry))) :=
  run_split_layer "a" split_owners 1 split_loads no_live 3 [100; 500] split_env f0 7 split_topk tt chain ([] : script).

(** The first attempt fails on "b"; the second gets expert 2 from "c". *)
Example split_run_value :
  split_run None = Some ([mkDispatch [("b", [2]); ("c", [3])] [] (Some "b"); mkDispatch [("c", [2])] [] None], Ok (747, None)).
Proof. vm_compute. reflexivity. Qed.

Lemma split_layer_correct_witness : 747 = atomic_layer demo_expert 1 7 split_topk tt.
Proof.
  apply (split_layer_correct demo_expert "a" split_owners 1 split_loads no_live 3 [100; 500] split_env f0 7 split_topk tt None
    ([] : script)
    [mkDispatch [("b", [2]); ("c", [3])] [] (Some "b"); mkDispatch [("c", [2])] [] None] 747 None).
  - apply split_honest.
  - apply split_topk_ok.
  - vm_compute. reflexivity.
Defined.

Lemma retry_discipline_witness :
  exists log res, split_run None = Some (log, res) /\ length log = 2%nat /\
    forall d ids, log !! 1%nat = Some d -> dict_get "c" (ds_calls d) = Some ids ->
      forall eid, eid ∈ ids -> eid ∈ distinct_ids split_topk /\ owner_of split_owners no_live 2 eid "c".
Proof.
  do 2 eexists. split; [vm_compute; reflexivity|]. split; [reflexivity|]. intros d ids Hd Hids.
  apply (retry_discipline "a" split_owners 1 split_loads no_live 3 [100; 500] split_env f0 7 split_topk tt None ([] : script)
    [mkDispatch [("b", [2]); ("c", [3])] [] (Some "b"); mkDispatch [("c", [2])] [] None] (Ok (747, None)) split_run_value)
    with (i := 1%nat) (d := d) (w := "c") (ids := ids); [exact Hd|exact Hids].
Defined.

Lemma split_layer_tolerates_faults_witness :
  exists log, split_run None = Some (log, Ok (atomic_layer demo_expert 1 7 split_topk tt, None)).
Proof.
  apply (split_layer_tolerates_faults demo_expert "a" split_owners 1 split_loads no_live 3 [100; 500] split_env f0 7 ["b"] split_topk tt).
  - intros n calls _. split; [by eexists; split; [left|]|]. intros rd p Hrd _. apply list_elem_of_singleton in Hrd as ->. cbn.
    split; [intros Hp; inversion Hp|]. unfold split_reply. split.
    + intros e. case_decide; [subst; intros _; left|done].
    + intros _ Hp. by case_decide.
  - by repeat constructor.
  - intros n ids _. by eexists.
  - apply split_honest.
  - apply split_topk_ok.
  - apply NoDup_singleton.
  - cbn. lia.
  - intros n eid He. assert (eid = 0 \/ eid = 2 \/ eid = 3) as Hc.
    { assert (distinct_ids split_topk = [0; 2; 3]) as Hd by (vm_compute; reflexivity). rewrite Hd in He.
      repeat (apply elem_of_cons in He as [->|He]; [tauto|]). inversion He. }
    destruct Hc as [->|Hc]; [exists "a"|exists "c"]; (split; [left|by rewrite list_elem_of_singleton]).
    + exists [0]. split; [left|left].
    + exists [2; 3]. split; [right; right; left|]. destruct Hc as [->| ->]; [left|right; left].
Defined.

(** A peer that never answers: the deadline passes at the second round. *)
Definition silent_env (n : nat) (calls : dict string (list Z)) : Attempt Z :=
  mkAttempt [mkRound [] (fun _ => None) false; mkRound [] (fun _ => None) true] (fun _ => None) (fun _ => []).

Lemma split_layer_terminates_witness : exists log res, run_split_layer "a" split_owners 1 split_loads no_live 3 [100; 500] silent_env f0
    7 split_topk tt None ([] : script) = Some (log, res) /\ (length log <= 3)%nat.
Proof.
  apply (split_layer_terminates "a" split_owners 1 split_loads no_live 3 [100; 500] silent_env f0 7 split_topk tt None ([] : script)).
  intros n calls. exists (mkRound [] (fun _ => None) true). split; [|reflexivity].
  right; left.
Defined.

(** A negative delay is refused when the first call has failed: the retry is lost. *)
Lemma negative_delay_loses_retry :
  run_split_layer "a" split_owners 1 split_loads no_live 3 [-5] split_env f0 7 split_topk tt None ([] : script) =
  Some ([mkDispatch [("b", [2]); ("c", [3])] [] (Some "b")], Raise ValueError).
Proof. vm_compute. reflexivity. Qed.

End witnesses.
