(* ===== verification/MoeLayer.v ===== *)
(** * moe.py and mlx_backend.py: a decoder layer in pieces

    The submodules of a Gemma 4 decoder layer and the array operations are the
    model library's ([DecoderLayer], [ArrayOps]).  moe.py takes a layer apart:
    attention and router, shared expert, selected experts; [MLXBackend] hands
    the pieces to the orchestrator ([mlx_backend]), and [run_split_layer] is the
    whole method of [ExpertOrchestrator], from the state that enters the layer.
    The laws ([DecoderLaws]) say what the library's own layer call computes and
    that its operations work position by position. *)
From S2P Require Import Prelude PyDict PyFloat PyList PyRandom Wire ShardMap Trackers Provenance.
From S2P Require Import Routing Experts Effects Migration Engine NodeHandlers NodeProvenance Layers Orchestrator OrchestratorTheorems.
Open Scope Z_scope.

(** The submodules of [tm.layers[i]]. *)
Class DecoderLayer (T M Slot W C : Type) := {
  input_layernorm : Z -> T -> T;
  (** [layer.self_attn(x, mask, c)]: the output, and the slot afterwards *)
  self_attn : Z -> T -> M -> Slot -> T * Slot;
  post_attention_layernorm : Z -> T -> T;
  router : Z -> T -> topk * W;
  pre_feedforward_layernorm : Z -> T -> T;
  mlp : Z -> T -> T;
  post_feedforward_layernorm_1 : Z -> T -> T;
  pre_feedforward_layernorm_2 : Z -> T -> T;
  (** [layer.experts(h, ids, weights)], and with one slot and weight 1 on given stacks *)
  experts : Z -> T -> topk -> W -> T;
  switch : list (Attr C) -> Z -> T -> T;
  post_feedforward_layernorm_2 : Z -> T -> T;
  post_feedforward_layernorm : Z -> T -> T;
  (** [layer.layer_scalar] *)
  layer_scalar : Z -> option T;
}.

Class ArrayOps (T W : Type) := {
  a_add : T -> T -> T;
  a_mul : T -> T -> T;
  (** [w[..., j : j + 1] * x] *)
  a_weigh : W -> nat -> T -> T;
  (** [x[b : b + 1, l : l + 1, :]] *)
  a_cell : nat -> nat -> T -> T;
  a_cell_w : nat -> nat -> W -> W;
  (** [mx.concatenate(cells, axis=1)], [axis=0] *)
  a_cat_seq : list T -> T;
  a_cat_batch : list T -> T;
}.

Section moe.
Context {T M Slot W C : Type} `{StackLib C} `{TextModel T M Slot} `{DecoderLayer T M Slot W C} `{ArrayOps T W} `{NodeBackend T (list Slot) C}.
Abbreviation Cache := (list Slot).
Implicit Types (h : T) (masks : M * M).

(** ** moe.py *)

(** The arithmetic of [run_attention_and_route], for the layer's slot: the state
    after attention, what the router picks, and the slot afterwards. *)
Definition attend_and_route (layer_idx : Z) h (mask : M) (c : Slot) : T * (topk * W) * Slot :=
  let residual := h in
  let x := input_layernorm layer_idx h in
  let '(x, c) := self_attn layer_idx x mask c in
  let x := post_attention_layernorm layer_idx x in
  let post_attn := a_add residual x in
  (post_attn, router layer_idx post_attn, c).

(** [run_attention_and_route], with the heat tracker that observes the ids. *)
Definition run_attention_and_route (layer_idx : Z) h masks : eff (Cache * HeatTracker) (T * (topk * W)) :=
  full ← lift (tm_full_attention layer_idx);
  idx ← lift (tm_cache_idx layer_idx);
  cache ← gets fst;
  c ← lift (py_nth cache idx);
  let '(post_attn, picks, c) := attend_and_route layer_idx h (if (full : bool) then masks.1 else masks.2) c in
  _ ← modify (fun s => (<[py_pos cache idx := c]> cache, s.2));
  _ ← modify (fun s => (s.1, heat_observe layer_idx (concat (concat picks.1)) s.2));
  mret (post_attn, picks).

Definition run_shared_expert h (layer_idx : Z) : T :=
  post_feedforward_layernorm_1 layer_idx (mlp layer_idx (pre_feedforward_layernorm layer_idx h)).

(** ** MLXBackend *)

Definition apply_outer_decoder_ops (layer_idx : Z) (block_in residual : T) : T :=
  let out := post_feedforward_layernorm layer_idx block_in in
  let out := a_add residual out in
  match layer_scalar layer_idx with
  | Some s => a_mul out s
  | None => out
  end.

(** The methods the orchestrator calls, on a loaded model. *)
Definition mlx_backend (lm : LoadedModel C) : SplitBackend T W := {|
  be_selected l h ids := run_selected_experts switch pre_feedforward_layernorm_2 lm h l ids;
  be_shared l h := run_shared_expert h l;
  be_weigh := a_weigh;
  be_add := a_add;
  be_post_ln := post_feedforward_layernorm_2;
  be_cell := a_cell;
  be_cell_w := a_cell_w;
  be_cat_seq := a_cat_seq;
  be_cat_batch := a_cat_batch;
  be_outer := apply_outer_decoder_ops;
  be_bytes := tensor_to_bytes;
|}.

(** ** ExpertOrchestrator.run_split_layer *)

(** What one call meets: the views it routes by, what the threads observe, the
    random source and the heat tracker. *)
Record World {R : Type} : Type := mkWorld {
  wd_loads : nat -> dict string Z;
  wd_live : nat -> Z -> list string;
  wd_env : nat -> dict string (list Z) -> Attempt T;
  wd_rng : R;
  wd_heat : HeatTracker;
}.
Arguments World : clear implicits.
Arguments mkWorld {R}.

Context {R : Type} `{RandomSource R}.
Context (lm : LoadedModel C) (self_shard_id : string) (owners : ownership) (retry_max_attempts : Z) (retry_backoff_ms : list Z) (now : float).

(** The call in a world; TypeError stands for a world whose rounds end before
    the polling loop does. *)
Definition run_split_layer (wd : World R) (layer_idx : Z) h masks (chain : chain_t) : eff Cache (T * chain_t) := fun cache =>
  match run_attention_and_route layer_idx h masks (cache, wd_heat wd) with
  | (Raise e, s) => (Raise e, s.1)
  | (Ok (post_attn, (top_k_ids, top_k_weights)), s) =>
      match @Orchestrator.run_split_layer R _ T W (mlx_backend lm) self_shard_id owners layer_idx (wd_loads wd) (wd_live wd) retry_max_attempts retry_backoff_ms (wd_env wd) now
              post_attn top_k_ids top_k_weights chain (wd_rng wd) with
      | Some (_, r) => (r, s.1)
      | None => (Raise TypeError, s.1)
      end
  end.

End moe.
Arguments World : clear implicits.
Arguments mkWorld {T R}.

(** ** What the library's layer computes *)

Section laws.
Context {T M Slot W C : Type} `{StackLib C} `{TextModel T M Slot} `{DecoderLayer T M Slot W C} `{ArrayOps T W}.

(** What an expert computes with its rows of the full tables. *)
Definition table_expert (expert_out : list C -> T -> T) (tables : list (list (list C))) (l eid : Z) (h : T) : T :=
  match (full ← tables !! Z.to_nat l; mapM (fun fc => row_at fc eid) full) with
  | Some row => expert_out row (pre_feedforward_layernorm_2 l h)
  | None => h
  end.

Class DecoderLaws (total : Z) (tables : list (list (list C))) (expert_out : list C -> T -> T) := {
  (** the batches and positions of a state *)
  shape : T -> nat * nat;
  shape_pos x : (0 < (shape x).1 /\ 0 < (shape x).2)%nat;
  shape_add x y : shape x = shape y -> shape (a_add x y) = shape x;
  shape_shared i x : shape (run_shared_expert x i) = shape x;
  shape_experts i x ids w : shape (post_feedforward_layernorm_2 i (experts i (pre_feedforward_layernorm_2 i x) ids w)) = shape x;
  (** [DecoderLayer.__call__] *)
  layer_call i h m c : 0 <= i < total -> tm_layer i h m c =
    let '(x, (ids, w), c) := attend_and_route i h m c in
    let routed := post_feedforward_layernorm_2 i (experts i (pre_feedforward_layernorm_2 i x) ids w) in
    (apply_outer_decoder_ops i (a_add (run_shared_expert x i) routed) x, c);
  (** the router picks, for every position, some of the model's experts *)
  router_rows i x : length (router i x).1 = (shape x).1;
  router_cells i x row : row ∈ (router i x).1 -> length row = (shape x).2;
  router_picks i x row ids : row ∈ (router i x).1 -> ids ∈ row -> ids <> [];
  router_known i x eid : 0 <= i < total -> eid ∈ distinct_ids (router i x).1 -> in_u32 eid = true /\
    exists full row, tables !! Z.to_nat i = Some full /\ expert_row full eid row;
  (** an array is put together from its positions *)
  cells_join x : join_pure a_cat_batch ((fun b => join_pure a_cat_seq ((fun l => a_cell b l x) <$> seq 0 (shape x).2)) <$> seq 0 (shape x).1) = x;
  cell_add b l x y : shape x = shape y -> a_cell b l (a_add x y) = a_add (a_cell b l x) (a_cell b l y);
  cell_norm b l i x : a_cell b l (post_feedforward_layernorm_2 i x) = post_feedforward_layernorm_2 i (a_cell b l x);
  (** at a position, the weighted sum of the experts picked there, in slot order *)
  cell_experts b l i x ids w row first rest : length ids = (shape x).1 -> length row = (shape x).2 -> ids !! b = Some row -> row !! l = Some (first :: rest) ->
    a_cell b l (experts i (pre_feedforward_layernorm_2 i x) ids w) =
    weighted_sum a_weigh a_add (fun eid => a_cell b l (table_expert expert_out tables i eid x)) (a_cell_w b l w) first rest;
  switch_slot attrs (slot : nat) row x : mapR (take_one slot) attrs = Ok row -> switch attrs (Z.of_nat slot) x = expert_out row x;
}.

End laws.

Lemma imap_seq {A B} (f : nat -> A -> B) (g : nat -> B) l n : length l = n ->
  (forall i x, l !! i = Some x -> f i x = g i) -> imap f l = g <$> seq 0 n.
Proof.
  intros <- Hf. apply list_eq. intros i. rewrite list_lookup_imap, list_lookup_fmap. destruct (l !! i) as [x|] eqn:E.
  - cbn. rewrite lookup_seq_lt by (by eapply lookup_lt_Some). cbn. by rewrite (Hf i x E).
  - cbn. by rewrite lookup_seq_ge by (by apply lookup_ge_None).
Qed.

Section exact.
Context {T M Slot W C : Type} `{StackLib C} `{TextModel T M Slot} `{DecoderLayer T M Slot W C} `{ArrayOps T W} `{NodeBackend T (list Slot) C}.
Context (total : Z) (tables : list (list (list C))) (expert_out : list C -> T -> T) `{!DecoderLaws total tables expert_out}.
Context (lm : LoadedModel C).
#[local] Instance here : SplitBackend T W := mlx_backend lm.
Abbreviation table_value := (table_expert expert_out tables).

Lemma router_ok i x : topk_ok (router i x).1.
Proof.
  pose proof (shape_pos x) as [Hb Hl]. split.
  - intros He. pose proof (router_rows i x) as Hr. rewrite He in Hr. cbn in Hr. lia.
  - apply Forall_forall. intros row Hrow. pose proof (router_cells i x row Hrow). split; [by intros ->; cbn in *; lia|].
    apply Forall_forall. intros ids Hids. by eapply router_picks.
Qed.

(** The layer, position by position, with the experts of the tables. *)
Lemma layer_is_atomic i h m c : 0 <= i < total ->
  tm_layer i h m c =
  let '(x, (ids, w), c) := attend_and_route i h m c in (atomic_layer table_value i x ids w, c).
Proof.
  intros Hi. rewrite layer_call by done. destruct (attend_and_route i h m c) as [[x [ids w]] c'] eqn:E. f_equal.
  assert (Hids : router i x = (ids, w)).
  { unfold attend_and_route in E. destruct (self_attn _ _ _ _). by injection E as <- -> _. }
  pose proof (f_equal fst Hids) as Hfst. cbn in Hfst. unfold atomic_layer. cbn [be_outer here mlx_backend]. f_equal.
  set (routed := post_feedforward_layernorm_2 i _).
  assert (Hsh : shape (run_shared_expert x i) = shape routed) by (unfold routed; by rewrite (shape_shared i x), (shape_experts i x ids w)).
  rewrite <- (cells_join (a_add (run_shared_expert x i) routed)). rewrite (shape_add _ _ Hsh), (shape_shared i x).
  symmetry. cbn [be_cat_batch be_cat_seq here mlx_backend]. f_equal. apply imap_seq; [by rewrite <- Hfst, router_rows|].
  intros b row Hrow. f_equal. apply imap_seq; [apply (router_cells i x); rewrite Hfst; by eapply list_elem_of_lookup_2|].
  intros l picks Hp. rewrite (cell_add _ _ _ _ Hsh). unfold atomic_cell. destruct picks as [|first rest].
  - exfalso. apply (router_picks i x row []); [rewrite Hfst| |done]; by eapply list_elem_of_lookup_2.
  - assert (Hn1 : length ids = (shape x).1) by (by rewrite <- Hfst, router_rows).
    assert (Hn2 : length row = (shape x).2) by (apply (router_cells i x); rewrite Hfst; by eapply list_elem_of_lookup_2).
    unfold moe_spec, routed. by rewrite cell_norm, (cell_experts b l i x ids w row first rest Hn1 Hn2 Hrow Hp).
Qed.

End exact.
