(* ===== verification/SplitLayer.v ===== *)
(** * A layer split over peers is the layer

    The orchestrator of a shard with the MLX backend, its peers being nodes:
    every future that is done holds what a call of the peer's experts returned
    ([PeerRpc.call]).  In such a world ([world_ok]) a split layer is the
    library's layer, on the state and on the cache. *)
From S2P Require Import Prelude PyDict PyFloat PyList PyRandom Records SwimState.
From S2P Require Import Wire Messages Ownership Runner ShardMap Trackers Provenance Routing Experts Effects Migration MigrationTheorems.
From S2P Require Import Engine NodeState NodeHandlers NodeTheorems NodeProvenance NodeService PeerRpc Layers Orchestrator OrchestratorTheorems MoeLayer.
Open Scope Z_scope.

Section split.
Context {T M Slot W C R : Type} `{StackLaws C} `{RandomLaws R} `{TextModel T M Slot} `{DecoderLayer T M Slot W C} `{ArrayOps T W}
  `{NodeBackend T (list Slot) C}.
Context (total : Z) (nslots : nat) (tables : list (list (list C))) (expert_out : list C -> T -> T)
  `{!DecoderLaws total tables expert_out} `{!ModelLaws total nslots}.
Context (lm : LoadedModel C) (self_shard_id : string) (owners : ownership) (retry_max_attempts : Z) (retry_backoff_ms : list Z) (now : float).
#[local] Instance backend : SplitBackend T W := mlx_backend lm.
Hypothesis lm_ok : model_ok tables lm.

Abbreviation table_value := (table_expert expert_out tables).
Abbreviation run_selected := (run_selected_experts switch pre_feedforward_layernorm_2).

(** ** What an expert computes here *)

Definition expert_here (l eid : Z) (h : T) : T :=
  match run_selected lm h l [eid] with
  | Ok [(_, v)] => v
  | _ => table_value l eid h
  end.

Lemma selected_each l h ids out : run_selected lm h l ids = Ok out ->
  dict_wf out /\ (forall eid, eid ∈ dict_keys out <-> eid ∈ ids) /\ forall eid v, (eid, v) ∈ out -> v = expert_here l eid h.
Proof.
  unfold expert_here, run_selected_experts. destruct ids as [|e0 es].
  { intros [= <-]. split; [constructor|]. split; [done|]. intros eid v Hv. inversion Hv. }
  set (ids := e0 :: es). clearbody ids. intros Hr. apply bind_ok in Hr as (layer & -> & Hr). cbn [mbind result_bind foldM] in Hr |- *.
  set (body := fun per_expert eid => _) in Hr. assert (Hwf : dict_wf out).
  { apply (foldM_inv dict_wf) in Hr; [done| |constructor]. intros d eid d' _ Hd Hb. unfold body in Hb.
    apply bind_ok in Hb as (slot & _ & Hb). injection Hb as <-. by apply dict_set_wf. }
  pose proof (fill_loop (fun eid v => exists slot, slot_of (dict_get l (lm_held lm)) eid = Ok slot /\ v = switch layer slot (pre_feedforward_layernorm_2 l h))
    (fun _ _ => True) body ids []) as Hl. rewrite Hr in Hl. destruct Hl as [Hk Hv]; [|done|].
  { intros eid _ d. unfold body. destruct (slot_of _ eid) as [slot|]; cbn [mbind result_bind]; [|done]. eexists. split; [by eexists|done]. }
  split; [exact Hwf|]. split; [intros eid; rewrite Hk; split; [intros [Hn|?]; [inversion Hn|done]|by right]|].
  intros eid v Hin. destruct (Hv eid v (dict_in_get _ _ _ Hwf Hin)) as (slot & -> & ->). done.
Qed.

#[local] Instance backend_laws : SplitBackendLaws expert_here.
Proof. split. apply selected_each. Qed.

(** An expert of the model. *)
Definition known (l eid : Z) : Prop := exists full row, tables !! Z.to_nat l = Some full /\ expert_row full eid row.

Lemma expert_row_table l eid h full row : tables !! Z.to_nat l = Some full -> expert_row full eid row ->
  table_value l eid h = expert_out row (pre_feedforward_layernorm_2 l h).
Proof.
  intros Ht Hr. unfold table_expert. rewrite Ht. cbn [mbind option_bind].
  assert (mapM (fun fc => row_at fc eid) full = Some row) as -> by (by apply mapM_Some). done.
Qed.

Lemma known_here l eid h : 0 <= l -> 0 <= eid -> known l eid -> expert_here l eid h = table_value l eid h.
Proof.
  intros Hl He (full & row & Ht & Hr). unfold expert_here. destruct (Z_of_nat_complete l Hl) as [m ->]. rewrite Nat2Z.id in Ht.
  pose proof (run_selected_experts_ok switch pre_feedforward_layernorm_2 expert_out switch_slot tables lm m full h [eid] lm_ok Ht) as Hrun.
  destruct (run_selected lm h (Z.of_nat m) [eid]) as [[|[e v] [|]]|] eqn:E; try done.
  destruct Hrun as [Hk Hv]; [intros e' He'%list_elem_of_singleton; subst; split; [done|by exists row]|].
  assert (e = eid) as -> by (by apply list_elem_of_singleton, Hk; left).
  destruct (Hv eid v) as (row' & Hr' & ->); [cbn; by rewrite decide_True|]. symmetry. apply expert_row_table with full; [by rewrite Nat2Z.id|done].
Qed.

Lemma atomic_layer_ext (f g : Z -> Z -> T -> T) l x ids w :
  (forall eid, eid ∈ distinct_ids ids -> f l eid x = g l eid x) -> atomic_layer f l x ids w = atomic_layer g l x ids w.
Proof.
  intros Hfg. unfold atomic_layer. do 2 f_equal. apply imap_ext. intros b row Hrow. f_equal. apply imap_ext. intros k picks Hp.
  assert (Hin : forall eid, eid ∈ picks -> f l eid x = g l eid x).
  { intros eid He. apply Hfg. unfold distinct_ids. rewrite sort_by_perm, elem_of_remove_dups. apply concat_in. exists picks. split; [done|].
    apply concat_in. exists row. split; by eapply list_elem_of_lookup_2. }
  unfold atomic_cell. destruct picks as [|first rest]; [done|]. unfold moe_spec. do 2 f_equal. apply weighted_sum_ext.
  intros eid He. by rewrite Hin.
Qed.

(** ** The world of a call *)

Context (unstack : T -> nat -> result T) (addresses : dict string (string * Z)) (connect : string -> Z -> result Exchange).
Hypothesis backend_runs : forall lm l h ids, nb_run_selected lm l h ids = run_selected lm h l ids.
Hypothesis stack_ok : forall parts (stacked : T), nb_stack parts = Ok stacked ->
  sendable stacked /\ forall j x, parts !! j = Some x -> unstack stacked j = Ok x.
Hypothesis states_sendable : forall h : T, sendable h.

(** The peer's address leads to a well-formed node whose connection works. *)
Definition node_behind (peer : string) : Prop :=
  exists cfg io render now' run_layers self (n : NodeState T (list Slot) C R) c, (forall k, io k = true) /\ own_ok self tables (n_own n) /\
    reached cfg io render now' run_layers addresses connect peer n c.

(** The result [out] of the future of [peer] is what a call of it returned. *)
Definition returned (l : Z) (x : T) (calls : dict string (list Z)) (peer : string) (out : dict Z T) : Prop :=
  exists ids rid, dict_get peer calls = Some ids /\ node_behind peer /\ (call unstack addresses connect peer rid l ids x []).1 = Ok out.

(** The expert is among those the loaded model holds. *)
Definition holds_expert (l eid : Z) : Prop := known l eid /\
  match dict_get l (lm_held lm) with
  | Some ((_ :: _) as ids) => eid ∈ ids
  | _ => True
  end.

Abbreviation dispatched_by wd := (dispatched self_shard_id owners (wd_live wd)).

(** The delays between attempts can be slept; fewer peers than
    [retry_max_attempts] are faulty; only they fail, and the deadline comes; every
    expert picked has an owner that is not faulty at each routing; this shard has the experts it owns; futures hold results of
    calls. *)
Record world_ok (wd : World T R) (l : Z) (x : T) (ids : list Z) (faulty : list string) : Prop := {
  wo_delays : Forall (fun ms => 0 <= ms <= SLEEP_MAX_MS) retry_backoff_ms;
  wo_few : NoDup faulty /\ Z.of_nat (length faulty) < retry_max_attempts;
  wo_attempts n calls : dispatched_by wd n ids calls -> good_attempt faulty (dict_keys calls) (wd_env wd n calls);
  wo_owners n eid : eid ∈ ids -> exists w, owner_of owners (wd_live wd) n eid w /\ w ∉ faulty;
  wo_local n eid : eid ∈ ids -> owner_of owners (wd_live wd) n eid self_shard_id -> 0 <= eid /\ holds_expert l eid;
  wo_returned n calls peer out : dispatched_by wd n ids calls -> peer ∈ dict_keys calls ->
    (exists r, r ∈ at_rounds (wd_env wd n calls) /\ r_done r peer = Some (Ok out)) \/ at_drain (wd_env wd n calls) peer = Some (Ok out) ->
    returned l x calls peer out;
}.

Lemma returned_good l x calls peer out : 0 <= l -> returned l x calls peer out -> good_reply expert_here l x calls peer out.
Proof.
  intros Hl (ids & rid & Hids & (cfg & io & render & now' & run & self & n & c & Hio & Ho & Hre) & Hcall).
  destruct (call_ok_inv unstack cfg io render now' run Hio addresses connect peer rid l ids x n c out Hre Hcall) as (Hne & Hu & Hus).
  destruct (call_answered unstack cfg io render now' run self tables switch pre_feedforward_layernorm_2 expert_out switch_slot backend_runs Hio
    stack_ok addresses connect peer rid l ids x n c Ho Hre (states_sendable x) Hne Hu Hus) as [[_ Hspec] _].
  rewrite Hcall in Hspec. destruct Hspec as (_ & Hwf & Hk & Hv). split.
  - intros eid v Hin. destruct (Hv eid v (dict_in_get _ _ _ Hwf Hin)) as (full & row & Ht & Hrow & ->).
    assert (0 <= eid) as He.
    { assert (eid ∈ ids) as Hi by (apply Hk, dict_get_in; eexists; by apply dict_in_get).
      rewrite forallb_forall in Hus. specialize (Hus eid (proj1 (list_elem_of_In _ _) Hi)). unfold in_u32 in Hus. lia. }
    rewrite (known_here l eid x Hl He) by (by exists full, row). symmetry. by apply expert_row_table with full.
  - intros ids' eid Hg Hin. rewrite Hids in Hg. injection Hg as <-. by apply Hk.
Qed.

(** ** The split layer *)

(** The state after attention, which the split is about. *)
Definition attended (l : Z) (h : T) (masks : M * M) (cache : list Slot) : T :=
  match cache !! slot_index l with
  | Some c => (attend_and_route l h (if ok_or false (tm_full_attention l) then masks.1 else masks.2) c).1.1
  | None => h
  end.

Definition picked (l : Z) (x : T) : list Z := distinct_ids (router l x).1.

Lemma run_attention_step l h masks cache heat : 0 <= l < total -> length cache = nslots ->
  exists c, cache !! slot_index l = Some c /\
  let '(x, picks, c') := attend_and_route l h (if ok_or false (tm_full_attention l) then masks.1 else masks.2) c in
  run_attention_and_route l h masks (cache, heat) =
  (Ok (x, picks), (<[slot_index l := c']> cache, heat_observe l (concat (concat picks.1)) heat)).
Proof.
  intros Hl Hc. destruct (layer_exists l Hl) as (full & idx & Hf & Hx & Hr). unfold slot_index. rewrite Hx, Hf. cbn [ok_or].
  destruct (Z_of_nat_complete idx) as [k ->]; [lia|]. rewrite Nat2Z.id. destruct (lookup_lt_is_Some_2 cache k) as [c Hk]; [lia|].
  exists c. split; [done|]. destruct (attend_and_route l h (if full then masks.1 else masks.2) c) as [[x picks] c'] eqn:E.
  unfold run_attention_and_route. erewrite run_ok by (by rewrite Hf). cbv beta. erewrite run_ok by (by rewrite Hx). cbv beta. run.
  cbn [fst]. rewrite py_nth_nat, Hk. cbn [or_raise]. run. rewrite E. run. by rewrite py_pos_nat.
Qed.

Lemma selected_runs (wd : World T R) l x ids faulty : 0 <= l -> world_ok wd l x ids faulty ->
  forall n eids, (forall eid, eid ∈ eids -> eid ∈ ids /\ owner_of owners (wd_live wd) n eid self_shard_id) ->
  exists out, be_selected l x eids = Ok out.
Proof.
  intros Hl Hw n eids Howned. cbn [be_selected backend mlx_backend].
  destruct eids as [|e0 es]; [by exists []|]. destruct (wo_local _ _ _ _ _ Hw n e0 (proj1 (Howned e0 ltac:(left))) (proj2 (Howned e0 ltac:(left)))) as [_ [(full & row0 & Ht & _) _]].
  destruct (Z_of_nat_complete l Hl) as [m ->]. rewrite Nat2Z.id in Ht.
  pose proof (run_selected_experts_ok switch pre_feedforward_layernorm_2 expert_out switch_slot tables lm m full x (e0 :: es) lm_ok Ht) as Hrun.
  destruct (run_selected lm x (Z.of_nat m) (e0 :: es)) as [out|er]; [by exists out|]. exfalso.
  destruct Hrun as (eid & Hin & _ & held & Hd & Hne & Hno).
  - intros eid Hin. destruct (wo_local _ _ _ _ _ Hw n eid (proj1 (Howned eid Hin)) (proj2 (Howned eid Hin))) as [He [(full' & row & Ht' & Hrow) _]].
    rewrite Nat2Z.id in Ht'. rewrite Ht in Ht'. injection Ht' as <-. split; [done|by exists row].
  - destruct (wo_local _ _ _ _ _ Hw n eid (proj1 (Howned eid Hin)) (proj2 (Howned eid Hin))) as [_ [_ Hh]]. rewrite Hd in Hh. destruct held; [done|].
by destruct Hno.
Qed.

(** Among peers of which fewer than [retry_max_attempts] are faulty, a split
    layer gives the state and the cache of the library's layer. *)
Lemma split_layer_runs wd l h masks cache faulty :
  0 <= l < total -> length cache = nslots ->
  world_ok wd l (attended l h masks cache) (picked l (attended l h masks cache)) faulty ->
  exists h' cache', run_layer_atomic l h masks cache = (Ok h', cache') /\
    run_split_layer lm self_shard_id owners retry_max_attempts retry_backoff_ms now wd l h masks None cache = (Ok (h', None), cache').
Proof.
  intros Hl Hc Hw. rewrite (run_layer_atomic_step total nslots l h masks cache Hl Hc). do 2 eexists. split; [done|].
  destruct (run_attention_step l h masks cache (wd_heat wd) Hl Hc) as (c & Hk & Hrun). unfold attended in Hw. rewrite Hk in Hw.
  unfold layer_step. cbn [fst snd]. rewrite Hk. set (mask := if ok_or false (tm_full_attention l) then masks.1 else masks.2) in *.
  rewrite (layer_is_atomic total tables expert_out lm l h mask c Hl).
  assert (Hids : (attend_and_route l h mask c).1.2 = router l (attend_and_route l h mask c).1.1).
  { unfold attend_and_route. by destruct (self_attn _ _ _ _). }
  destruct (attend_and_route l h mask c) as [[x [ids w]] c']. cbn [fst snd] in Hids, Hw. unfold run_split_layer. rewrite Hrun.
  unfold picked in Hw. rewrite <- Hids in Hw. cbn [fst snd] in Hw. destruct (wo_few _ _ _ _ _ Hw) as [Hnd Hfew].
  destruct (split_layer_tolerates_faults expert_here self_shard_id owners l (wd_loads wd) (wd_live wd) retry_max_attempts retry_backoff_ms (wd_env wd) now x faulty ids w
    (wo_attempts _ _ _ _ _ Hw) (wo_delays _ _ _ _ _ Hw) (selected_runs wd l x _ faulty ltac:(lia) Hw) (wd_rng wd)) as [log Hs]; [|..|done|done|apply (wo_owners _ _ _ _ _ Hw)|].
  - intros n calls peer d Hdis Hp Hd. apply returned_good; [lia|]. by eapply wo_returned.
  - pose proof (router_ok total tables expert_out l x) as Hok. by rewrite <- Hids in Hok.
  - unfold backend in Hs. rewrite Hs. do 3 f_equal. apply atomic_layer_ext.
    intros eid Heid. assert (eid ∈ distinct_ids (router l x).1) as Hpick by (by rewrite <- Hids).
    destruct (router_known (total := total) l x eid Hl Hpick) as [Hu Hkn]. apply known_here; [lia| |done]. unfold in_u32 in Hu. lia.
Qed.

End split.
