(* ===== verification/SplitCluster.v ===== *)
(** * Sharded generation with split layers

    The ring of [ClusterTheorems] with the orchestrators of [SplitLayer]: a
    shard hands its split layers to its orchestrator, every call of it in a
    world of its own, and the whole still generates what the model generates in
    one process. *)
From S2P Require Import Prelude PyDict PyFloat PyList PyRandom Records SwimState.
From S2P Require Import Wire Messages Ownership Runner ShardMap Trackers Provenance Routing Experts Effects Migration MigrationTheorems.
From S2P Require Import Engine NodeState Settings NodeHandlers Client NodeTheorems NodeProvenance NodeService PeerRpc Layers Reference Cluster ShardSteps.
From S2P Require Import ClusterTheorems Orchestrator OrchestratorTheorems MoeLayer SplitLayer.
From stdpp Require Import relations.
Open Scope Z_scope.

Section cluster.
Context {T M Slot W C R : Type} `{StackLaws C} `{RandomLaws R} `{TextModel T M Slot} `{DecoderLayer T M Slot W C} `{ArrayOps T W}
  `{NodeBackend T (list Slot) C}.
Context (total : Z) (nslots : nat) (tables : list (list (list C))) (expert_out : list C -> T -> T)
  `{!DecoderLaws total tables expert_out} `{!ModelLaws total nslots}.
Context (io : nat -> bool) (render : Detail -> string) (now : float) (m : ShardMap) (prov : bool) (cfgs : list NodeConfig).
(** What each shard has loaded, and the world each call of its orchestrator meets. *)
Context (model_of : NodeConfig -> LoadedModel C) (retry_max_attempts : Z) (retry_backoff_ms : list Z)
  (world : NodeConfig -> Z -> T -> M * M -> list Slot -> World T R).
Context (unstack : T -> nat -> result T) (connect : string -> Z -> result Exchange).
Implicit Types (cfg : NodeConfig).

(** [self._orchestrator] and its [run_split_layer]; None without split layers. *)
Definition orchestrator cfg : option (Z -> T -> M * M -> chain_t -> eff (list Slot) (T * chain_t)) :=
  if has_orchestrator cfg
  then Some (fun l h masks chain cache =>
         run_split_layer (model_of cfg) (me cfg) (orchestrator_owners cfg) retry_max_attempts retry_backoff_ms now (world cfg l h masks cache) l h masks chain cache)
  else None.

(** The split layers of a shard, when it is called in good worlds. *)
Definition worlds_ok cfg : Prop := model_ok tables (model_of cfg) /\
  forall l h masks cache, l ∈ nc_split_layers cfg -> length cache = nslots -> exists faulty,
    let x := attended l h masks cache in
    world_ok tables (model_of cfg) (me cfg) (orchestrator_owners cfg) retry_max_attempts retry_backoff_ms unstack (peer_addresses cfg) connect
      (world cfg l h masks cache) l x (picked l x) faulty.

Hypothesis backend_runs : forall lm l h ids, nb_run_selected lm l h ids = run_selected_experts switch pre_feedforward_layernorm_2 lm h l ids.
Hypothesis stack_ok : forall parts (stacked : T), nb_stack parts = Ok stacked ->
  sendable stacked /\ forall j x, parts !! j = Some x -> unstack stacked j = Ok x.
Hypothesis states_sendable : forall h : T, sendable h.

Lemma split_layer_exact cfg l : worlds_ok cfg -> 0 <= l < total -> split_exact nslots (nc_split_layers cfg) (orchestrator cfg) l.
Proof.
  intros [Hm Hw] Hl Hin. unfold orchestrator, has_orchestrator. rewrite bool_decide_eq_false_2 by (intros He; rewrite He in Hin; inversion Hin).
  eexists. split; [reflexivity|]. intros h masks cache Hc. cbv beta.
  destruct (Hw l h masks cache Hin Hc) as [faulty Hok].
  destruct (split_layer_runs total nslots tables expert_out (model_of cfg) (me cfg) (orchestrator_owners cfg) retry_max_attempts retry_backoff_ms now Hm
    unstack (peer_addresses cfg) connect backend_runs stack_ok states_sendable _ l h masks cache faulty Hl Hc Hok) as (h' & cache' & Ha & ->).
  rewrite (run_layer_atomic_step total nslots l h masks cache Hl Hc) in Ha. by injection Ha as -> ->.
Qed.

(** C9: splitting is invisible. A shard that hands some of its layers to its
    orchestrator computes on its range of layers the state and the caches it
    computes with every layer run in one place, in the worlds described by
    [worlds_ok]: fewer peers are faulty than [retry_max_attempts], only faulty
    peers abort, raise or miss the deadline, and the deadline comes; at each
    routing every expert the router picked has an owner that is not faulty; this
    shard holds the picked experts it counts as an owner of; the results of the
    futures are those of calls to nodes; and the delays between attempts are ones
    [time.sleep] accepts. *)
Theorem split_layers_invisible cfg h cache :
  worlds_ok cfg -> 0 <= ss_start (nc_shard cfg) -> ss_end (nc_shard cfg) <= total -> length cache = nslots ->
  exists h' cache',
    Engine.run_my_layers tensor_to_bytes now [] None (me cfg) (ss_start (nc_shard cfg)) (ss_end (nc_shard cfg)) h None cache = (Ok (h', None), cache') /\
    shard_layers now orchestrator cfg h None cache = (Ok (h', None), cache').
Proof.
  intros Hw Ha Hb Hc. unfold shard_layers, Engine.run_my_layers, Engine.run_layers. rewrite !run_bind, (make_masks_ok total nslots).
  do 2 eexists. split; (apply (run_layer_list_fold total nslots); [|done]); intros l Hl%range_in; (split; [lia|]).
  - intros Hin. inversion Hin.
  - apply split_layer_exact; [done|lia].
Qed.

Hypothesis io_ok : forall k, io k = true.
Hypothesis total_fits : total < 2 ^ 32.
Hypothesis tokens_fit : forall h : T, in_u32 (nb_argmax_last h) = true.

Abbreviation layers := (shard_layers now orchestrator).
Abbreviation step := (cl_step (R := R) io render now cfgs layers).
Implicit Types (cl : Cluster T (list Slot) C R).

(** C1: the shards generate what the model generates in one process. A client
    asks a ring of idle shards for [max] tokens, and [toks] is what
    [ReferenceModel.generate_greedy] returns. Layers may be split: their experts
    are computed by calls of the nodes that hold them, in worlds where fewer
    peers are faulty than [retry_max_attempts] and every picked expert has an
    owner that is not ([worlds_ok] has the conditions in full). However the
    messages and threads are scheduled, the run ends; at every moment the client
    has a beginning of [toks], each token once and in order, the last marked
    final; and when nothing more can happen the client returns exactly [toks],
    no message is left and no shard has kept anything of the request. *)
Theorem sharded_generation rid c prompt max env cl :
  ring total m prov cfgs -> (forall i cfg, cfgs !! i = Some cfg -> worlds_ok cfg) ->
  quiet cfgs rid c cl -> begin_envelope rid prompt max = Ok env ->
  exists toks, generate_greedy total now prompt max = Ok toks /\
    sn step (asked io render now cfgs layers O c env cl) /\
    forall cl', rtc step (asked io render now cfgs layers O c env cl) cl' ->
      client_log O c cl' `prefix_of` token_replies rid 0 toks /\
      (nf step cl' -> generate (client_log O c cl') = Ok toks /\
         Forall (forgotten rid) (cl_nodes cl') /\ Forall (fun q => q = []) (cl_queues cl')).
Proof.
  intros Hring Hw. apply (ring_generates total nslots io render now m prov orchestrator cfgs io_ok total_fits states_sendable tokens_fit Hring).
  intros _ i cfg l Hc Hl. apply split_layer_exact; [by apply (Hw i)|].
  pose proof (ir_range _ _ _ _ (rg_shard _ _ _ _ Hring i cfg Hc)). lia.
Qed.

End cluster.
