(* ===== verification/SplitWitnesses.v ===== *)
(** * A concrete ring with a split layer

    Two layers on two shards. The experts of layer 1 are picked in pairs; shard
    "b" runs the layer, holds expert 1 and gets expert 0 from "a", or from "d",
    which nobody can reach. *)
From S2P Require Import Prelude PyDict PyFloat PyList PyRandom Records SwimState.
From S2P Require Import Wire WireCodec Messages Ownership Runner ShardMap Trackers Provenance Routing Experts Effects Migration MigrationTheorems.
From S2P Require Import Engine NodeState Settings NodeHandlers Client NodeTheorems NodeProvenance NodeService PeerRpc NodeWitnesses Layers Reference Cluster ShardSteps.
From S2P Require Import ClusterTheorems ClusterWitnesses Orchestrator OrchestratorTheorems MoeLayer SplitLayer SplitCluster.
From stdpp Require Import relations.
Open Scope Z_scope.

#[local] Existing Instance demo_lib.
#[local] Existing Instance demo_laws.
#[local] Existing Instance row_weights.
#[local] Existing Instance seq_wire.

(** ** The model *)

(** On the value of a state; its number of positions stays. *)
Definition on_value (f : Z -> Z) (x : seq_state) : seq_state := (byte_of (f (of_byte x.1)), x.2).

Definition row_out (row : list Z) (x : seq_state) : seq_state := on_value (fun v => foldl Z.add v row) x.
Definition slot_out (attrs : list (Attr Z)) (slot : Z) (x : seq_state) : seq_state :=
  match mapR (take_one (Z.to_nat slot)) attrs with
  | Ok row => row_out row x
  | Raise _ => x
  end.
Definition table_out (l eid : Z) (x : seq_state) : seq_state :=
  match (full ← demo_tables !! Z.to_nat l; mapM (fun fc => row_at fc eid) full) with
  | Some row => row_out row x
  | None => x
  end.

#[local] Instance value_ops : ArrayOps seq_state unit := {
  a_add x y := on_value (fun v => v + of_byte y.1) x;
  a_mul x y := on_value (fun v => v * of_byte y.1) x;
  a_weigh _ j x := on_value (fun v => (Z.of_nat j + 1) * v) x;
  a_cell _ _ x := x;
  a_cell_w _ _ w := w;
  a_cat_seq := default (x00, x00) ∘ head;
  a_cat_batch := default (x00, x00) ∘ head;
}.

(** Even states pick the experts in one order, odd ones in the other. *)
Definition pick (x : seq_state) : list Z := if Z.even (of_byte x.1) then [0; 1] else [1; 0].

#[local] Instance value_layer : DecoderLayer seq_state Z Z unit Z := {
  input_layernorm _ x := x;
  self_attn i x m c := (on_value (fun v => v + c + i + m) x, c + of_byte x.1);
  post_attention_layernorm _ x := x;
  router _ x := ([[pick x]], tt);
  pre_feedforward_layernorm _ x := x;
  mlp i x := on_value (fun v => 3 * v + i) x;
  post_feedforward_layernorm_1 _ x := x;
  pre_feedforward_layernorm_2 _ x := x;
  experts i x ids w :=
    match ids with
    | [[first :: rest]] => weighted_sum a_weigh a_add (fun eid => table_out i eid x) w first rest
    | _ => x
    end;
  switch := slot_out;
  post_feedforward_layernorm_2 _ x := on_value (fun v => v + 1) x;
  post_feedforward_layernorm _ x := x;
  layer_scalar _ := None;
}.

#[local] Instance split_model : TextModel seq_state Z Z := {
  tm_full_attention i := Ok (Z.even i);
  tm_cache_idx i := Ok i;
  tm_layer i h m c :=
    let '(x, (ids, w), c) := attend_and_route i h m c in
    let routed := post_feedforward_layernorm_2 i (experts i (pre_feedforward_layernorm_2 i x) ids w) in
    (apply_outer_decoder_ops i (a_add (run_shared_expert x i) routed) x, c);
  tm_first_full := 0;
  tm_first_sliding := 1;
  tm_window := 8;
  create_attention_mask h c _ := if of_byte h.2 =? 1 then 0 else of_byte h.2 + default 0 c;
}.

#[local] Instance split_node : NodeBackend seq_state (list Z) Z := {
  nb_wire := seq_wire;
  nb_weights := row_weights;
  nb_make_cache := [0; 0];
  nb_embed toks := (byte_of (foldl Z.add 0 toks), byte_of (Z.of_nat (length toks)));
  nb_finalize h := h;
  nb_argmax_last h := of_byte h.1;
  nb_run_selected lm l h ids := run_selected_experts switch pre_feedforward_layernorm_2 lm h l ids;
  (** equal states only *)
  nb_stack parts := match parts with
                    | [] => Raise ValueError
                    | x :: xs => if decide (Forall (fun y => y = x) xs) then Ok x else Raise ValueError
                    end;
}.

#[local] Instance split_model_laws : ModelLaws 2 2.
Proof.
  refine {| positions h := of_byte h.2; rotating _ := True |}; try done.
  - intros i Hi. exists (Z.even i), i. done.
  - intros i j k _ _ Hi Hj. cbn in Hi, Hj. congruence.
  - intros h h' c w He. cbn in He |- *. by rewrite He.
  - intros h c c' He. cbn in He |- *. by rewrite He.
  - intros h c c' He _ _. cbn in He |- *. by rewrite He.
Defined.

Lemma demo_known l eid : 0 <= l < 2 -> eid ∈ [0; 1; 2] ->
  exists full row, demo_tables !! Z.to_nat l = Some full /\ expert_row full eid row.
Proof.
  intros Hl He. exists (demo_table (Z.to_nat l)), (demo_row (Z.to_nat l) eid).
  split; [|apply demo_row_ok; [lia|lia|done]]. assert (l = 0 \/ l = 1) as [->| ->] by lia; reflexivity.
Qed.

Lemma pick_ids x : distinct_ids [[pick x]] = [0; 1].
Proof. unfold pick. by destruct (Z.even _). Qed.

#[local] Instance split_laws : DecoderLaws 2 demo_tables row_out.
Proof.
  refine {| shape _ := (1, 1)%nat |}; try done.
  - intros _. cbn. lia.
  - intros i x row Hr. apply list_elem_of_singleton in Hr as ->. done.
  - intros i x row ids Hr. apply list_elem_of_singleton in Hr as ->. rewrite list_elem_of_singleton. intros ->.
    cbn. unfold pick. by destruct (Z.even _).
  - intros i x eid Hi He. change (eid ∈ distinct_ids [[pick x]]) in He. rewrite pick_ids in He.
    assert (eid = 0 \/ eid = 1) as Hc by (repeat (apply elem_of_cons in He as [->|He]; [tauto|]); inversion He).
    split; [by destruct Hc as [->| ->]|]. apply demo_known; [lia|]. destruct Hc as [->| ->]; [left|right; left].
  - intros b l i x ids w row first rest Hn Hm Hb Hr. destruct ids as [|row0 [|]]; [done| |done]. destruct b; [|done].
    injection Hb as ->. destruct row as [|p [|]]; [done| |done]. destruct l; [|done]. by injection Hr as ->.
  - intros attrs slot row x Hr. cbn. unfold slot_out. by rewrite Nat2Z.id, Hr.
Defined.

Lemma equal_stack parts (stacked : seq_state) : nb_stack parts = Ok stacked ->
  sendable stacked /\ forall j x, parts !! j = Some x -> Ok (A := seq_state) stacked = Ok x.
Proof.
  intros Hs. split; [apply seq_sendable|]. intros j x Hj. cbn in Hs. destruct parts as [|y ys]; [done|]. case_decide as Hall; [|done].
  injection Hs as <-. destruct j as [|j]; [by injection Hj as ->|]. by rewrite (Forall_lookup_1 _ _ _ _ Hall Hj).
Qed.

(** ** The ring *)

Definition split_shard (sid : string) (a b : Z) (eid : Z) : ShardSpec := mkShard sid (mkAddress "h" (7000 + a)) a b [(1, [eid])].
Definition split_map : ShardMap := mkShardMap [("a", split_shard "a" 0 1 0); ("b", split_shard "b" 1 2 1)] "m".
Definition cfg_a : NodeConfig := mkConfig (split_shard "a" 0 1 0) split_map 2 false (split_shard "b" 1 2 1) [].
Definition cfg_b : NodeConfig := mkConfig (split_shard "b" 1 2 1) split_map 2 false (split_shard "a" 0 1 0) [1].
Definition split_cfgs : list NodeConfig := [cfg_a; cfg_b].

Lemma split_ring : ring 2 split_map false split_cfgs.
Proof.
  split.
  - intros i cfg Hi. do 2 (destruct i as [|i]; [injection Hi as <-; split; try reflexivity; [cbn; lia|done]|]). done.
  - by intros cfg [= <-].
  - intros i cfg cfg' Hi Hi'. destruct i as [|[|i]]; [by injection Hi as <-; injection Hi' as <-|done|done].
  - intros i cfg cfg' Hi Hl Hi'. cbn in Hl. assert (i = 1%nat) as -> by lia. by injection Hi as <-; injection Hi' as <-.
  - apply (bool_decide_unpack _). vm_compute. exact I.
  - cbn. lia.
Qed.

(** Shard "b" has sliced layer 1 down to expert 1. *)
Definition split_models (cfg : NodeConfig) : LoadedModel Z := if decide (me cfg = "b") then demo_model [(1, [1])] else demo_model demo_held.

Lemma models_ok cfg : model_ok demo_tables (split_models cfg).
Proof.
  unfold split_models. case_decide; [|apply demo_model_ok].
  split; [reflexivity|]. intros [|[|l]] full attrs Hl Ha; cbn in Hl, Ha; [| |by destruct l]; injection Hl as <-; injection Ha as <-;
    (split; [done|]; split; [apply demo_uniform|]); [done|].
  repeat (constructor; [eexists; split; [reflexivity|repeat constructor]|]). constructor.
Qed.

(** ** The peers *)

(** A node that serves experts 2 and 0 of layer 1. *)
Definition serving_node : NodeState seq_state (list Z) Z script := fresh_node.
Definition no_layers (h : seq_state) (c : option (list ProvenanceEntry)) : eff (list Z) (seq_state * option (list ProvenanceEntry)) := mret (h, c).
Definition split_addresses : dict string (string * Z) := peer_addresses cfg_b.
Definition split_connect (host : string) (port : Z) : result Exchange :=
  if port =? 7000 then Ok (exchange_with cfg_a all_well no_text f0 no_layers serving_node 4) else Raise OSError.
Definition unstack_equal (stacked : seq_state) (j : nat) : result seq_state := Ok stacked.

(** The futures of an attempt are done at once with what the calls returned. *)
Definition call_of (l : Z) (x : seq_state) (calls : dict string (list Z)) (peer : string) : option (result (dict Z seq_state)) :=
  ids ← dict_get peer calls;
  Some (call unstack_equal split_addresses split_connect peer "r" l ids x []).1.

Definition split_world (cfg : NodeConfig) (l : Z) (h : seq_state) (masks : Z * Z) (cache : list Z) : World seq_state script :=
  mkWorld (fun _ => []) (fun _ eid => if decide (eid = 0) then ["d"] else [])
    (fun _ calls => mkAttempt [mkRound [] (call_of l (attended l h masks cache) calls) true] (fun _ => None) (fun _ => []))
    [] demo_heat.

Lemma split_owners_of : orchestrator_owners cfg_b = [("a", [0]); ("b", [1])].
Proof. reflexivity. Qed.

(** Expert 0 is of "a" and "d", expert 1 of "b". *)
Lemma split_owner cfg l h masks cache n eid w : owner_of (orchestrator_owners cfg_b) (wd_live (split_world cfg l h masks cache)) n eid w ->
  (eid = 0 /\ (w = "a" \/ w = "d")) \/ (eid = 1 /\ w = "b").
Proof.
  rewrite split_owners_of. intros [(ids & Hin & He)|Hin].
  - repeat (apply elem_of_cons in Hin as [[= -> ->]|Hin]; [apply list_elem_of_singleton in He; tauto|]). inversion Hin.
  - cbn in Hin. case_decide; [apply list_elem_of_singleton in Hin; tauto|inversion Hin].
Qed.

Lemma a_is_node : node_behind (R := script) demo_tables split_addresses split_connect "a".
Proof.
  exists cfg_a, all_well, no_text, f0, no_layers, demo_self, serving_node, 4%nat. split; [done|]. split; [apply demo_own_ok|].
  by exists "h", 7000.
Qed.

Lemma same_value l x parts ids : Forall2 (expert_value demo_tables pre_feedforward_layernorm_2 row_out l x) ids parts ->
  (forall e, e ∈ ids -> e = 0) -> ids <> [] -> exists stacked, nb_stack parts = Ok stacked.
Proof.
  intros Hf He Hne. destruct Hf as [|e p ids parts Hp Hf]; [done|]. exists p. cbn. rewrite decide_True; [done|].
  apply Forall_forall. intros y Hy. apply list_elem_of_lookup in Hy as [j Hj].
  destruct (Forall2_lookup_r _ _ _ _ _ Hf Hj) as (e' & He' & full & row & Ht & Hr & ->).
  destruct Hp as (full' & row' & Ht' & Hr' & ->). rewrite Ht in Ht'. injection Ht' as <-. f_equal.
  rewrite (He e) in Hr' by left. rewrite (He e') in Hr by (right; by eapply list_elem_of_lookup_2).
  clear -Hr Hr'. revert row' Hr'. induction Hr as [|fc r full row Hfc _ IH]; intros row' Hr'; inversion Hr'; subst; [done|].
  f_equal; [congruence|by apply IH].
Qed.

Lemma split_runs lm l (h : seq_state) ids :
  nb_run_selected (NodeBackend := split_node) lm l h ids = run_selected_experts switch pre_feedforward_layernorm_2 lm h l ids.
Proof. reflexivity. Qed.

(** A call of "a" for expert 0 returns. *)
Lemma a_answers x ids : ids <> [] -> (forall e, e ∈ ids -> e = 0) ->
  exists out, (call unstack_equal split_addresses split_connect "a" "r" 1 ids x []).1 = Ok out.
Proof.
  intros Hne He. assert (forallb in_u32 ids = true) as Hu.
  { apply forallb_forall. intros e Hi%list_elem_of_In. by rewrite (He e Hi). }
  destruct (call_answered unstack_equal cfg_a all_well no_text f0 no_layers demo_self demo_tables switch pre_feedforward_layernorm_2 row_out
    switch_slot split_runs (fun _ => eq_refl) equal_stack split_addresses split_connect "a" "r" 1 ids x serving_node 4
    demo_own_ok ltac:(by exists "h", 7000) (seq_sendable x) Hne eq_refl Hu) as [[_ Hs] _].
  destruct (call _ _ _ _ _ _ _ _ _).1 as [out|e]; [by exists out|]. exfalso.
  destruct Hs as [_ [(y & Hy & Hn)|(parts & er & Hf & Hst)]].
  - apply Hn. rewrite (He y Hy). change (0 ∈ [2; 0]). right. left.
  - destruct (same_value 1 x parts ids Hf He Hne) as [s Hs]. congruence.
Qed.

Lemma split_world_ok h masks cache : let x := attended 1 h masks cache in
  world_ok demo_tables (split_models cfg_b) "b" (orchestrator_owners cfg_b) 3 [100; 500] unstack_equal split_addresses split_connect
    (split_world cfg_b 1 h masks cache) 1 x (picked 1 x) ["d"].
Proof.
  intros x. assert (Hpick : picked 1 x = [0; 1]) by apply pick_ids. rewrite Hpick.
  assert (Hcall : forall n calls p, dispatched "b" (orchestrator_owners cfg_b) (wd_live (split_world cfg_b 1 h masks cache)) n [0; 1] calls ->
    p ∈ dict_keys calls -> exists ids, dict_get p calls = Some ids /\ ids <> [] /\ (forall e, e ∈ ids -> e = 0) /\ (p = "a" \/ p = "d")).
  { intros n calls p Hdis Hp. apply dict_get_in in Hp as [ids Hids]. destruct (Hdis p ids Hids) as (Hne & Hnil & Hall).
    exists ids. split; [done|]. split; [done|].
    assert (Hown : forall e, e ∈ ids -> e = 0 /\ (p = "a" \/ p = "d")).
    { intros e He. destruct (Hall e He) as [_ Ho]. apply split_owner in Ho as [[-> Hw]|[_ ->]]; [done|done]. }
    split; [intros e He; by apply Hown|]. destruct ids as [|e ids]; [done|]. apply (Hown e). left. }
  split.
  - by repeat constructor.
  - split; [apply NoDup_singleton|cbn; lia].
  - intros n calls Hdis. split; [by eexists; split; [left|]|]. intros rd p Hrd Hp. apply list_elem_of_singleton in Hrd as ->.
    destruct (Hcall n calls p Hdis Hp) as (ids & Hids & Hne & He & Hw). cbn. split; [intros Ha; inversion Ha|].
    unfold call_of. fold x. rewrite Hids. cbn [mbind option_bind]. split; [|done]. intros e Hr. destruct Hw as [->| ->]; [|left].
    destruct (a_answers x ids Hne He) as [out Ho]. by rewrite Ho in Hr.
  - intros n eid He. apply elem_of_cons in He as [->|He%list_elem_of_singleton].
    + exists "a". split; [|by rewrite list_elem_of_singleton]. left. exists [0]. rewrite split_owners_of. split; left.
    + exists "b". subst. split; [|by rewrite list_elem_of_singleton]. left. exists [1]. rewrite split_owners_of. split; [right; left|left].
  - intros n eid He Ho. apply split_owner in Ho as [[_ [?|?]]|[-> _]]; [done|done|]. split; [done|]. split; [|by left].
    apply demo_known; [lia|right; left].
  - intros n calls p out Hdis Hp [(r & Hr & Hd)|Hd]; [|done]. apply list_elem_of_singleton in Hr as ->. cbn in Hd.
    destruct (Hcall n calls p Hdis Hp) as (ids & Hids & Hne & He & Hw). unfold call_of in Hd. fold x in Hd. rewrite Hids in Hd.
    cbn [mbind option_bind] in Hd. injection Hd as Hd. exists ids, "r". split; [done|]. split; [|done].
    destruct Hw as [->| ->]; [apply a_is_node|]. done.
Qed.

Lemma all_worlds_ok i cfg : split_cfgs !! i = Some cfg ->
  worlds_ok 2 demo_tables split_models 3 [100; 500] split_world unstack_equal split_connect cfg.
Proof.
  intros Hi. split; [apply models_ok|]. destruct i as [|[|i]]; [| |done]; injection Hi as <-; intros l h masks cache Hl Hc; [inversion Hl|].
  apply list_elem_of_singleton in Hl as ->. exists ["d"]. apply split_world_ok.
Qed.

(** ** The generation *)

Abbreviation split_orchestrators := (orchestrator f0 split_models 3 [100; 500] split_world).
Abbreviation split_ring_layers := (shard_layers f0 split_orchestrators).
Abbreviation split_step := (cl_step all_well no_text f0 split_cfgs split_ring_layers).

Lemma split_layers_invisible_witness : exists h' cache',
  Engine.run_my_layers (M := Z) tensor_to_bytes f0 [] None "b" 1 2 (x05, x02) None [0; 0] = (Ok (h', None), cache') /\
  split_ring_layers cfg_b (x05, x02) None [0; 0] = (Ok (h', None), cache').
Proof.
  exact (split_layers_invisible 2 2 demo_tables row_out f0 split_models 3 [100; 500] split_world unstack_equal split_connect
    split_runs equal_stack seq_sendable cfg_b (x05, x02) [0; 0] (all_worlds_ok 1 cfg_b eq_refl) ltac:(cbn; lia) ltac:(cbn; lia) eq_refl).
Defined.

Definition split_idle : Cluster seq_state (list Z) Z script := mkCluster [fresh_node; fresh_node] [[]; []].

Lemma split_quiet : quiet split_cfgs "r" 4 split_idle.
Proof.
  split; try done.
  - intros n Hn. assert (n = fresh_node) as -> by (repeat (apply elem_of_cons in Hn as [->|Hn]; [done|]); inversion Hn).
    split; [|done]. split; apply NoDup_nil_2.
  - by intros cfg n [= <-] [= <-].
Qed.

Definition split_asked : Cluster seq_state (list Z) Z script := asked all_well no_text f0 split_cfgs split_ring_layers 0 4 ask3 split_idle.
Definition split_settled : Cluster seq_state (list Z) Z script := settle split_cfgs split_ring_layers 20 split_asked.

Lemma split_settled_steps : rtc split_step split_asked split_settled.
Proof. apply settle_steps. Qed.

Lemma split_settled_nf : nf split_step split_settled.
Proof. apply settled; vm_compute; repeat constructor. Qed.

Lemma sharded_generation_witness :
  exists toks, generate_greedy 2 f0 [5; 6] 3 = Ok toks /\ length toks = 3%nat /\
    sn split_step split_asked /\ generate (client_log 0 4 split_settled) = Ok toks.
Proof.
  destruct (sharded_generation 2 2 demo_tables row_out all_well no_text f0 split_map false split_cfgs split_models 3 [100; 500] split_world
    unstack_equal split_connect split_runs equal_stack seq_sendable (fun _ => eq_refl) eq_refl seq_tokens
    "r" 4 [5; 6] 3 ask3 split_idle split_ring all_worlds_ok split_quiet eq_refl) as (toks & Hg & Hsn & Hall).
  exists toks. split; [exact Hg|]. split; [vm_compute in Hg; by injection Hg as <-|]. split; [exact Hsn|].
  exact (proj1 (proj2 (Hall _ split_settled_steps) split_settled_nf)).
Defined.

(** The node serves expert 0; expert 1 it does not. *)
Lemma expert_call_answered_witness :
  (exists out, (call unstack_equal split_addresses split_connect "a" "r" 1 [0] (x05, x02) []).1 = Ok out /\ dict_keys out = [0] /\
    call_spec demo_tables pre_feedforward_layernorm_2 row_out [2; 0] 1 (x05, x02) [0] (Ok out, [])) /\
  (call unstack_equal split_addresses split_connect "a" "r" 1 [1] (x05, x02) []).1 = Raise RuntimeError /\
  call_spec demo_tables pre_feedforward_layernorm_2 row_out [2; 0] 1 (x05, x02) [1] (Raise RuntimeError, []).
Proof.
  pose proof (fun ids (Hne : ids <> []) (Hu : forallb in_u32 ids = true) => proj1 (expert_call_answered unstack_equal cfg_a all_well no_text f0 no_layers
    demo_self demo_tables switch pre_feedforward_layernorm_2 row_out switch_slot split_runs (fun _ => eq_refl) equal_stack
    split_addresses split_connect "a" "r" 1 ids (x05, x02) serving_node 4 demo_own_ok ltac:(by exists "h", 7000) (seq_sendable _) Hne eq_refl Hu)) as Hw.
  assert (exists out, call unstack_equal split_addresses split_connect "a" "r" 1 [0] (x05, x02) [] = (Ok out, []) /\ dict_keys out = [0]) as (out & Ho & Hk)
    by (eexists; split; vm_compute; reflexivity).
  assert (Hr : call unstack_equal split_addresses split_connect "a" "r" 1 [1] (x05, x02) [] = (Raise RuntimeError, [])) by (vm_compute; reflexivity).
  split; [exists out; rewrite Ho|rewrite Hr].
  - split; [done|]. split; [exact Hk|]. rewrite <- Ho. exact (Hw [0] ltac:(done) eq_refl).
  - split; [done|]. rewrite <- Hr. exact (Hw [1] ltac:(done) eq_refl).
Defined.

(** ** Two split layers *)

(** Shard "b" holds expert 0 of layer 0 and expert 1 of layer 1, "a" the others. *)
Definition two_b : ShardSpec := mkShard "b" (mkAddress "h" 7001) 0 2 [(0, [0]); (1, [1])].
Definition two_a : ShardSpec := mkShard "a" (mkAddress "h" 7000) 0 2 [(0, [1; 2]); (1, [0; 2])].
Definition cfg_two : NodeConfig := mkConfig two_b (mkShardMap [("a", two_a); ("b", two_b)] "m") 2 false two_a [0; 1].
Definition less_loaded_b : World seq_state script :=
  mkWorld (fun _ => [("b", 0); ("a", 5)]) (fun _ _ => []) (fun _ _ => mkAttempt [] (fun _ => None) (fun _ => [])) [] demo_heat.

(** The owners of an expert id are merged over the split layers: at layer 1
    shard "b" chooses itself for expert 0, which it holds for layer 0 only, and
    the layer raises KeyError, although "a" holds the expert. *)
Theorem merged_owners_misroute :
  orchestrator_owners cfg_two = [("a", [1; 2; 0]); ("b", [0; 1])] /\
  (run_split_layer (demo_model [(0, [0]); (1, [1])]) (me cfg_two) (orchestrator_owners cfg_two) 3 [100; 500] f0 less_loaded_b 1 (x05, x02) (0, 0) None [0; 0]).1
    = Raise KeyError.
Proof. split; vm_compute; reflexivity. Qed.
