(* ===== verification/SplitProvenance.v ===== *)
(** * The provenance a split layer emits

    What [run_split_layer] appends to the chain, what a peer makes of the prefix
    it is sent with an ExpertRequest, and the shape of a chain whose experts
    all ran locally. *)
From S2P Require Import Prelude PyDict PyList PyFloat PyRandom Wire Provenance.
From S2P Require Import Routing Experts Orchestrator OrchestratorTheorems.
Open Scope Z_scope.

(** ** Which errors the chain rules raise *)

Lemma require_prov b e : require b ProvenanceError = Raise e -> e = ProvenanceError.
Proof. by intros [_ <-]%require_raise. Qed.

Lemma rule1_raise chain e : rule1 chain = Raise e -> e = ProvenanceError.
Proof.
  unfold rule1. destruct chain as [|first rest]; [by intros [= <-]|].
  intros [Hr|(u & _ & Hr)]%bind_raise; by apply require_prov in Hr.
Qed.

Lemma rule2_raise total chain e : rule2 total chain = Raise e -> e = ProvenanceError.
Proof.
  unfold rule2. destruct (existsb _ chain); [by intros Hr%require_prov|].
  destruct (layers_covered chain); [done|by intros Hr%require_prov].
Qed.

Lemma distinct_experts_raise seen es e :
  (forall x, x ∈ es -> is_Some (e_op x)) -> distinct_experts seen es = Raise e -> e = ProvenanceError.
Proof.
  revert seen. induction es as [|x es IH]; intros seen Hop; cbn; [done|].
  destruct (Hop x ltac:(left)) as [op Ho]. unfold expert_of. rewrite Ho. cbn.
  case_decide; [by intros [= <-]|]. apply IH. intros y Hy. apply Hop. by right.
Qed.

Lemma rule3_raise chain e : rule3 chain = Raise e -> e = ProvenanceError.
Proof.
  intros ([l b] & Hin & Hc)%check_all_raise. destruct (split_ops_spec chain) as [Hw Hg].
  apply dict_in_get in Hin; [|done]. rewrite Hg in Hin. case_decide; [done|]. injection Hin as <-. cbn in Hc.
  assert (Hop : forall x, x ∈ entries_of OP_EXPERT l chain -> is_Some (e_op x)) by apply entries_of_op.
  unfold check_bucket in Hc. cbn in Hc.
  destruct (entries_of OP_ATTENTION_ROUTE l chain) as [|? [|? ?]]; [by injection Hc as <-| |by injection Hc as <-].
  destruct (entries_of OP_SHARED_EXPERT l chain) as [|? [|? ?]]; [by injection Hc as <-| |by injection Hc as <-].
  destruct (entries_of OP_EXPERT l chain) as [|x xs]; [by injection Hc as <-|].
  destruct (entries_of OP_AGGREGATE l chain) as [|? [|? ?]]; [by injection Hc as <-| |by injection Hc as <-].
  apply bind_raise in Hc as [Hc|(u & _ & Hc)]; [by eapply distinct_experts_raise|].
  apply bind_raise in Hc as [Hc|(u' & _ & Hc)]; by apply require_prov in Hc.
Qed.

(** A chain with a split operation of a layer and no aggregate of it is
    rejected, whatever the callbacks say. *)
Lemma unaggregated_rejected lookup total split live chain tail l t :
  is_split_type t = true -> entries_of t l chain <> [] -> entries_of OP_AGGREGATE l chain = [] ->
  validate_chain lookup total split live chain tail = Raise ProvenanceError.
Proof.
  intros Ht Hne Hagg. unfold validate_chain. destruct (rule1 chain) as [u|e] eqn:E1; cbn [mbind result_bind].
  2: { f_equal. by eapply rule1_raise. }
  destruct (rule2 total chain) as [u2|e] eqn:E2; cbn [mbind result_bind].
  2: { f_equal. by eapply rule2_raise. }
  destruct (rule3 chain) as [[]|e] eqn:E3; cbn [mbind result_bind].
  2: { f_equal. by eapply rule3_raise. }
  exfalso. destruct (proj1 (rule3_ok chain) E3 l t Ht Hne) as (r & s & a & _ & _ & Ha & _). by rewrite Hagg in Ha.
Qed.

(** ** The prefix on the wire *)

Lemma entry_pb_op e pb : entry_to_pb e = Ok pb -> exists e', entry_from_pb pb = Ok e' /\ e_op e' = e_op e.
Proof.
  unfold entry_to_pb. intros (op & Hop & Hpb)%bind_ok. injection Hpb as <-. unfold entry_from_pb. cbn [pe_op].
  destruct (e_op e) as [[t l x]|]; [|injection Hop as <-; by eexists].
  apply bind_ok in Hop as (o & Ho & Hop). injection Hop as <-. unfold op_to_pb in Ho.
  apply bind_ok in Ho as (l' & Hl & Ho). apply bind_ok in Ho as (x' & Hx & Ho). injection Ho as <-.
  apply ranged_ok in Hl as [-> _]. apply ranged_ok in Hx as [-> _]. cbn.
  assert (op_of_int (op_int t) = Ok t) as -> by (by destruct t). cbn. by eexists.
Qed.

Lemma chain_pb chain pbs :
  mapR entry_to_pb chain = Ok pbs -> exists chain', mapR entry_from_pb pbs = Ok chain' /\ (e_op <$> chain') = (e_op <$> chain).
Proof.
  rewrite mapR_ok. induction 1 as [|e pb chain pbs He _ (chain' & IH1 & IH2)]; [by exists []|].
  destruct (entry_pb_op _ _ He) as (e' & He' & Ho). exists (e' :: chain'). cbn [mapR]. rewrite He'. cbn [mbind result_bind].
  rewrite IH1. split; [done|]. rewrite !fmap_cons. by rewrite Ho, IH2.
Qed.

(** Which operations a chain records depends on the operations only. *)
Lemma entries_of_op_eq t l chain chain' :
  (e_op <$> chain) = (e_op <$> chain') -> length (entries_of t l chain) = length (entries_of t l chain').
Proof.
  unfold entries_of. revert chain'. induction chain as [|e chain IH]; intros [|e' chain'] Heq; try done.
  rewrite !fmap_cons in Heq. injection Heq as Ho Heq. rewrite !filter_cons. specialize (IH _ Heq).
  assert (records t l e <-> records t l e') as Hr by (unfold records; by rewrite Ho).
  destruct (decide (records t l e)), (decide (records t l e')); cbn; naive_solver lia.
Qed.

Lemma entries_of_app t l c1 c2 : entries_of t l (c1 ++ c2) = entries_of t l c1 ++ entries_of t l c2.
Proof. apply filter_app. Qed.

Section emitted.
Context {R : Type} `{RandomLaws R} {T W : Type} `{!SplitBackend T W}.
Context (self_shard_id : string) (owners : ownership) (layer_idx : Z).
Context (loads : nat -> dict string Z) (live : nat -> Z -> list string).
Context (retry_max_attempts : Z) (retry_backoff_ms : list Z) (env : nat -> dict string (list Z) -> Attempt T) (now : float) (post_attn : T).
Implicit Types (chain : list ProvenanceEntry) (rng : R).

Lemma op_entry_op t eid x ps e :
  op_entry self_shard_id layer_idx now t eid x ps = Ok e ->
  e_op e = Some (mkOp t layer_idx eid) /\ e_parents e = ps.
Proof. unfold op_entry, build_entry. intros (d & _ & He)%bind_ok. by injection He as <-. Qed.

(** An entry made for this layer. *)
Definition made (t : OpType) (e : ProvenanceEntry) : Prop := exists eid, e_op e = Some (mkOp t layer_idx eid).

Lemma made_entries t t' es : Forall (made t) es -> entries_of t' layer_idx es = if decide (t' = t) then es else [].
Proof.
  induction 1 as [|e es [eid He] _ IH]; [by case_decide|]. unfold entries_of in *. rewrite filter_cons, IH.
  assert (records t' layer_idx e <-> t' = t) as Hr.
  { unfold records. rewrite He. split; [intros (op & [= <-] & <- & _); done|intros ->; eexists; done]. }
  destruct (decide (records t' layer_idx e)), (decide (t' = t)); naive_solver.
Qed.

(** The chain when the fan-out starts: the route, the shared expert and the
    experts that ran here follow the chain the layer received. *)
Lemma phase_a_chain all_ids chain rng local_ids local_outputs shared_out (chain1 : option (list ProvenanceEntry)) ar_hash rng1 :
  phase_a self_shard_id owners layer_idx loads live now post_attn all_ids (Some chain) rng =
    Ok (local_ids, local_outputs, shared_out, chain1, ar_hash, rng1) ->
  exists ar sh xs, chain1 = Some (chain ++ [ar; sh] ++ xs) /\ ar_hash = Some (e_hash ar) /\
    made OP_ATTENTION_ROUTE ar /\ made OP_SHARED_EXPERT sh /\
    Forall2 (fun (it : Z * T) e => e_op e = Some (mkOp OP_EXPERT layer_idx it.1)) local_outputs xs.
Proof.
  unfold phase_a. intros Ha. apply bind_ok in Ha as ([by_owner rng'] & _ & Ha).
  apply bind_ok in Ha as (out & _ & Ha). apply bind_ok in Ha as ([es h] & He & Ha).
  apply bind_ok in Ha as (xs & Hx & Ha). injection Ha as <- <- <- <- <- <-. unfold route_entries in He.
  apply bind_ok in He as (ar & Har & He). apply bind_ok in He as (sh & Hsh & He). injection He as <- <-.
  exists ar, sh, xs. split; [done|]. split; [done|]. apply op_entry_op in Har as [Har _]. apply op_entry_op in Hsh as [Hsh _].
  split; [by eexists|]. split; [by eexists|]. apply mapR_ok in Hx. eapply Forall2_impl; [exact Hx|].
  intros it e Hit. by apply op_entry_op in Hit as [? _].
Qed.

Lemma made_experts (its : list (Z * T)) xs :
  Forall2 (fun (it : Z * T) e => e_op e = Some (mkOp OP_EXPERT layer_idx it.1)) its xs -> Forall (made OP_EXPERT) xs.
Proof. induction 1; constructor; [by eexists|done]. Qed.

Lemma attempts_prefix spare n ar_hash needed prefix excluded calls st log res :
  attempts self_shard_id owners layer_idx loads live retry_backoff_ms env now spare n ar_hash post_attn needed prefix excluded calls st
    = Some (log, res) -> Forall (fun d => ds_prefix d = prefix) log.
Proof.
  revert n excluded calls st log res. induction spare as [|spare IH]; intros n excluded calls st log res Ha;
    cbn [attempts] in Ha; (destruct (gather layer_idx _ _ _) as [[r outs]|]; [|done]); cbn [mbind option_bind] in Ha;
    (destruct r as [u|[]]; try (injection Ha as <- _; by repeat constructor)).
  destruct (back_off _ _); [|injection Ha as <- _; by repeat constructor].
  destruct (merge_provenance _ _ _) as [chain|]; [|injection Ha as <- _; by repeat constructor].
  destruct (filter _ needed) as [|m ms]; [injection Ha as <- _; by repeat constructor|].
  destruct (route _ _ _ _ _ _ _ _) as [[by_owner rng]|[]]; try (injection Ha as <- _; by repeat constructor).
  destruct (run_local _ _ _ _ _ _ _ _) as [[outs2 chain2]|]; [|injection Ha as <- _; by repeat constructor].
  destruct (attempts _ _ _ _ _ _ _ _ _ _ _ _ _ _ _ _ _) as [[log2 res2]|] eqn:Ea; [|done]. cbn in Ha. injection Ha as <- _.
  constructor; [done|]. by eapply IH.
Qed.

(** C39: with provenance on, a remote expert call cannot succeed. The prefix sent
    with every ExpertRequest holds the layer's OP_ATTENTION_ROUTE and not yet its
    OP_AGGREGATE; decoded at the peer, [validate_chain] always rejects it with
    ProvenanceError, whatever tensor came with it and whatever the peer knows. *)
Theorem split_prefix_rejected top_k_ids w chain rng log res d lookup total split owners_of tail :
  (forall e, e ∈ chain -> ~ records OP_AGGREGATE layer_idx e) ->
  run_split_layer self_shard_id owners layer_idx loads live retry_max_attempts retry_backoff_ms env now post_attn top_k_ids w
    (Some chain) rng = Some (log, res) -> d ∈ log ->
  exists inbound, mapR entry_from_pb (ds_prefix d) = Ok inbound /\
    validate_chain lookup total split owners_of inbound tail = Raise ProvenanceError.
Proof.
  intros Hagg Hr Hd. unfold run_split_layer in Hr.
  destruct (phase_a _ _ _ _ _ _ _ _ _ _) as [[[[[[local_ids lo] sh0] c1] arh] rng1]|] eqn:Ea; [|injection Hr as <- _; inversion Hd].
  destruct (phase_a_chain _ _ _ _ _ _ _ _ _ Ea) as (ar & sh & xs & -> & -> & Har & Hsh & Hxs). apply made_experts in Hxs.
  destruct (phase_b_with_retry _ _ _ _ _ _ _ _ _ _ _ _ _ _) as [[log1 res1]|] eqn:Eb; [|done].
  cbn in Hr. injection Hr as -> _. unfold phase_b_with_retry in Eb. cbn [default] in Eb. unfold id in Eb.
  destruct (mapR entry_to_pb _) as [prefix|] eqn:Ep; [|injection Eb as <- _; inversion Hd].
  destruct (chain_pb _ _ Ep) as (inbound & Hin & Hops).
  destruct (route _ _ _ _ _ _ _ _) as [[by_owner rng2]|]; [|injection Eb as <- _; inversion Hd].
  destruct (run_local _ _ _ _ _ _ _ _) as [[outs chain2]|]; [|injection Eb as <- _; inversion Hd].
  apply attempts_prefix in Eb. rewrite Forall_forall in Eb. rewrite (Eb d Hd). exists inbound. split; [done|].
  assert (Hlen : forall t, length (entries_of t layer_idx inbound) = length (entries_of t layer_idx (chain ++ [ar; sh] ++ xs))).
  { intros t. by apply entries_of_op_eq. }
  apply (unaggregated_rejected _ _ _ _ _ _ layer_idx OP_ATTENTION_ROUTE); [done| |].
  - intros Hn. specialize (Hlen OP_ATTENTION_ROUTE). rewrite Hn in Hlen.
    change ([ar; sh] ++ xs) with ([ar] ++ [sh] ++ xs) in Hlen. rewrite !entries_of_app, !length_app in Hlen.
    rewrite (made_entries OP_ATTENTION_ROUTE OP_ATTENTION_ROUTE [ar]), decide_True in Hlen by (by repeat constructor).
    cbn [length] in Hlen. lia.
  - specialize (Hlen OP_AGGREGATE). change ([ar; sh] ++ xs) with ([ar] ++ [sh] ++ xs) in Hlen.
    rewrite !entries_of_app, !length_app in Hlen.
    rewrite (made_entries OP_ATTENTION_ROUTE OP_AGGREGATE [ar]), decide_False in Hlen by (done || by repeat constructor).
    rewrite (made_entries OP_SHARED_EXPERT OP_AGGREGATE [sh]), decide_False in Hlen by (done || by repeat constructor).
    rewrite (made_entries OP_EXPERT OP_AGGREGATE xs), decide_False in Hlen by done.
    assert (entries_of OP_AGGREGATE layer_idx chain = []) as Hc.
    { destruct (entries_of OP_AGGREGATE layer_idx chain) as [|e es] eqn:E; [done|].
      assert (e ∈ entries_of OP_AGGREGATE layer_idx chain) as He by (rewrite E; left).
      apply list_elem_of_filter in He as [Hr He]. by destruct (Hagg e He). }
    rewrite Hc in Hlen. cbn in Hlen. by apply nil_length_inv.
Qed.

(** ** A layer whose experts all ran here *)

Context (expert : Z -> Z -> T -> T) `{!SplitBackendLaws expert}.

Lemma attempts_head spare n ar_hash post_attn' needed prefix excluded calls st log res :
  attempts self_shard_id owners layer_idx loads live retry_backoff_ms env now spare n ar_hash post_attn' needed prefix excluded calls st
    = Some (log, res) -> exists d rest, log = d :: rest /\ ds_calls d = calls.
Proof.
  intros Ha. destruct spare; cbn [attempts] in Ha; (destruct (gather layer_idx _ _ _) as [[r outs]|]; [|done]);
    cbn [mbind option_bind] in Ha; (destruct r as [u|[]]; try (injection Ha as <- _; by do 2 eexists)).
  destruct (back_off _ _); [|injection Ha as <- _; by do 2 eexists].
  destruct (merge_provenance _ _ _) as [chain|]; [|injection Ha as <- _; by do 2 eexists].
  destruct (filter _ needed) as [|m ms]; [injection Ha as <- _; by do 2 eexists|].
  destruct (route _ _ _ _ _ _ _ _) as [[by_owner rng]|[]]; try (injection Ha as <- _; by do 2 eexists).
  destruct (run_local _ _ _ _ _ _ _ _) as [[outs2 chain2]|]; [|injection Ha as <- _; by do 2 eexists].
  destruct (attempts _ _ _ _ _ _ _ _ _ _ _ _ _ _ _ _ _) as [[log2 res2]|]; [|done]. cbn in Ha. injection Ha as <- _.
  by do 2 eexists.
Qed.

(** Without calls, the fan-out adds the entries of the experts routed here. *)
Lemma phase_b_local all_ids local_ids chain h rng log st :
  phase_b_with_retry self_shard_id owners layer_idx loads live retry_max_attempts retry_backoff_ms env now post_attn all_ids local_ids
    (Some chain) (Some h) rng = Some (log, Ok st) ->
  Forall (fun d => ds_calls d = []) log ->
  exists ids ys, pb_chain st = Some (chain ++ ys) /\ Forall2 (fun eid e => e_op e = Some (mkOp OP_EXPERT layer_idx eid)) ids ys /\
    ids `sublist_of` filter (fun e => e ∉ local_ids) all_ids /\
    forall eid, eid ∈ filter (fun e => e ∉ local_ids) all_ids -> eid ∈ ids.
Proof.
  unfold phase_b_with_retry. set (needed := filter _ all_ids). intros Hb Hcalls.
  destruct (mapR _ _) as [prefix|]; [|done]. destruct (route _ _ _ _ _ _ _ _) as [[by_owner rng1]|] eqn:Er; [|done].
  destruct (run_local _ _ _ _ _ _ _ _) as [[outs c1]|] eqn:El; [|done].
  destruct (attempts_head _ _ _ _ _ _ _ _ _ _ _ Hb) as (d & rest & -> & Hd).
  apply Forall_cons in Hcalls as [Hnil _]. rewrite Hd in Hnil.
  pose proof (route_spec self_shard_id owners loads live 1 [] needed rng) as Hs. rewrite Er in Hs.
  destruct Hs as (_ & _ & Hall & _ & Hsub).
  assert (Hc : pb_chain st = c1).
  { rewrite Hnil in Hb. clear -Hb. destruct (Z.to_nat (retry_max_attempts - 1)); cbn [attempts pb_outputs pb_chain pb_rng] in Hb;
      (assert (gather layer_idx (at_rounds (env 1%nat [])) (dict_keys (V:=list Z) []) outs = Some (Ok tt, outs)) as Hg
         by (by destruct (at_rounds (env 1%nat []))));
      rewrite Hg in Hb; cbn [mbind option_bind] in Hb; injection Hb as _ _ Hb;
      apply bind_ok in Hb as (c2 & Hm & Hb); injection Hb as <-; cbn;
      (destruct c1; cbn in Hm; injection Hm as <-; by rewrite ?app_nil_r). }
  set (ids := default [] (dict_get self_shard_id by_owner)) in *. exists ids.
  assert (Hcover : forall eid, eid ∈ needed -> eid ∈ ids).
  { intros eid (w & l & Hw & Hel)%Hall. destruct (decide (w = self_shard_id)) as [->|Hne]; [unfold ids; by rewrite Hw|].
    assert (dict_get w (dict_pop self_shard_id by_owner) = Some l) as Hp by (by rewrite dict_get_pop_ne).
    by rewrite Hnil in Hp. }
  assert (Hsl : ids `sublist_of` needed).
  { unfold ids. destruct (dict_get self_shard_id by_owner) as [l|] eqn:E; [by eapply Hsub|apply sublist_nil_l]. }
  rewrite Hc. unfold run_local in El. clearbody ids. destruct ids as [|e0 es].
  { injection El as _ <-. exists []. by rewrite app_nil_r. }
  apply bind_ok in El as (out & _ & El). apply bind_ok in El as (c2 & Hx & El). injection El as _ <-.
  apply bind_ok in Hx as (ys & Hy & Hx). injection Hx as <-. exists ys. split; [done|]. split; [|done].
  apply mapR_ok in Hy. eapply Forall2_impl; [exact Hy|]. intros eid e (x & _ & He)%bind_ok. by apply op_entry_op in He as [? _].
Qed.

Lemma expert_ids_of ids xs :
  Forall2 (fun eid e => e_op e = Some (mkOp OP_EXPERT layer_idx eid)) ids xs ->
  (fmap opd_expert <$> (e_op <$> xs)) = (Some <$> ids).
Proof. induction 1 as [|eid e ids xs He _ IH]; [done|]. rewrite !fmap_cons, IH. by rewrite He. Qed.

Lemma distinct_ids_nodup top_k_ids : NoDup (distinct_ids top_k_ids).
Proof. unfold distinct_ids. rewrite sort_by_perm. apply NoDup_remove_dups. Qed.

Lemma distinct_ids_nonempty top_k_ids : topk_ok top_k_ids -> exists eid, eid ∈ distinct_ids top_k_ids.
Proof.
  intros [Hne Hrows]. destruct top_k_ids as [|row rows]; [done|]. apply Forall_cons in Hrows as [[Hr Hc] _].
  destruct row as [|ids row]; [done|]. apply Forall_cons in Hc as [Hi _]. destruct ids as [|e ids]; [done|].
  exists e. unfold distinct_ids. rewrite sort_by_perm, elem_of_remove_dups. left.
Qed.

(** The entries of the layer in a chain of the emitted shape form a diamond. *)
Lemma emitted_diamond chain ar sh agg xs ids :
  (forall e t, e ∈ chain -> is_split_type t = true -> ~ records t layer_idx e) ->
  made OP_ATTENTION_ROUTE ar -> made OP_SHARED_EXPERT sh -> made OP_AGGREGATE agg ->
  Forall2 (fun eid e => e_op e = Some (mkOp OP_EXPERT layer_idx eid)) ids xs -> ids <> [] -> NoDup ids ->
  e_parents agg = (e_hash <$> filter (fun e => is_branch layer_idx e = true) (chain ++ [ar; sh] ++ xs)) ->
  diamond (chain ++ [ar; sh] ++ xs ++ [agg]) layer_idx.
Proof.
  intros Hold Har Hsh Hagg Hxs Hne Hnd Hpar.
  assert (Hmade : Forall (made OP_EXPERT) xs).
  { clear -Hxs. induction Hxs as [|eid e ids xs He _ IH]; constructor; [by exists eid|done]. }
  assert (Hent : forall t, is_split_type t = true -> entries_of t layer_idx (chain ++ [ar; sh] ++ xs ++ [agg]) =
    (if decide (t = OP_ATTENTION_ROUTE) then [ar] else []) ++ (if decide (t = OP_SHARED_EXPERT) then [sh] else []) ++
    (if decide (t = OP_EXPERT) then xs else []) ++ (if decide (t = OP_AGGREGATE) then [agg] else [])).
  { intros t Ht. change ([ar; sh] ++ xs ++ [agg]) with ([ar] ++ [sh] ++ xs ++ [agg]). rewrite !entries_of_app.
    rewrite (made_entries OP_ATTENTION_ROUTE t [ar]), (made_entries OP_SHARED_EXPERT t [sh]),
      (made_entries OP_EXPERT t xs), (made_entries OP_AGGREGATE t [agg]) by (done || by repeat constructor).
    assert (entries_of t layer_idx chain = []) as ->; [|done].
    destruct (entries_of t layer_idx chain) as [|e es] eqn:E; [done|].
    assert (e ∈ entries_of t layer_idx chain) as He by (rewrite E; left). apply list_elem_of_filter in He as [Hr He].
    by destruct (Hold e t He Ht). }
  assert (Hbranch : forall e, e ∈ sh :: xs -> e_hash e ∈ e_parents agg).
  { intros e He. rewrite Hpar. apply list_elem_of_fmap. exists e. split; [done|]. apply list_elem_of_filter. split.
    - unfold is_branch. apply elem_of_cons in He as [->|He].
      + destruct Hsh as [x ->]. cbn. by rewrite bool_decide_eq_true_2.
      + rewrite Forall_forall in Hmade. destruct (Hmade e He) as [x ->]. cbn. by rewrite bool_decide_eq_true_2.
    - apply elem_of_app. right. cbn. by right. }
  assert (Hex : entries_of OP_EXPERT layer_idx (chain ++ [ar; sh] ++ xs ++ [agg]) = xs).
  { rewrite Hent by done. rewrite (decide_True (P := OP_EXPERT = OP_EXPERT)), !decide_False by done. apply app_nil_r. }
  exists ar, sh, agg. rewrite Hex. split_and!; [by rewrite Hent..| | | |].
  - intros ->. inversion Hxs; by subst.
  - rewrite (expert_ids_of ids xs Hxs). apply NoDup_fmap; [|done]. intros x y. congruence.
  - apply Hbranch. left.
  - intros e He. apply Hbranch. by right.
Qed.

(** a split layer that ran all its experts itself leaves a chain that passes
    the split rule: its entries form one complete diamond. *)
Theorem local_split_diamond top_k_ids w chain rng log out chain' :
  (forall e t, e ∈ chain -> is_split_type t = true -> ~ records t layer_idx e) -> topk_ok top_k_ids ->
  run_split_layer self_shard_id owners layer_idx loads live retry_max_attempts retry_backoff_ms env now post_attn top_k_ids w
    (Some chain) rng = Some (log, Ok (out, Some chain')) ->
  Forall (fun d => ds_calls d = []) log -> diamond chain' layer_idx.
Proof.
  intros Hold Hk Hr Hcalls. unfold run_split_layer in Hr.
  destruct (phase_a _ _ _ _ _ _ _ _ _ _) as [[[[[[local_ids lo] sh0] c1] arh] rng1]|] eqn:Ea; [|done].
  destruct (phase_a_inv _ _ _ _ _ _ _ _ _ _ _ _ _ _ _ _ Ea) as [Hsel _].
  destruct (phase_a_chain _ _ _ _ _ _ _ _ _ Ea) as (ar & sh & xs & -> & -> & Har & Hsh & Hxs).
  destruct (phase_b_with_retry _ _ _ _ _ _ _ _ _ _ _ _ _ _) as [[log1 res1]|] eqn:Eb; [|done].
  cbn in Hr. injection Hr as -> Hr. apply bind_ok in Hr as (st & -> & Hc).
  destruct (phase_b_local _ _ _ _ _ _ _ Eb Hcalls) as (ids & ys & Hch & Hys & Hsub & Hcov).
  unfold phase_c in Hc. apply bind_ok in Hc as (hh & _ & Hc). rewrite Hch in Hc.
  apply bind_ok in Hc as (c2 & He & Hc). injection Hc as _ ->. apply bind_ok in He as (es & He & Hc2). injection Hc2 as <-.
  apply bind_ok in He as (agg & Hagg & He). injection He as <-. apply op_entry_op in Hagg as [Hop Hpar].
  assert (Hids : Forall2 (fun eid e => e_op e = Some (mkOp OP_EXPERT layer_idx eid)) (dict_keys lo ++ ids) (xs ++ ys)).
  { apply Forall2_app; [|done]. unfold dict_keys. by apply Forall2_fmap_l. }
  apply be_selected_ok in Hsel as (Hwf & Hkeys & _). rewrite <- !(assoc_L app) in *.
  replace ((ar :: sh :: xs) ++ ys ++ [agg]) with ([ar; sh] ++ (xs ++ ys) ++ [agg]) by (cbn; by rewrite <- (assoc_L app)).
  apply (emitted_diamond chain ar sh agg (xs ++ ys) (dict_keys lo ++ ids)); try done; [by eexists| |].
  - destruct (distinct_ids_nonempty _ Hk) as [eid He]. intros [Hn1 Hn2]%app_nil.
    destruct (decide (eid ∈ local_ids)) as [Hin|Hn].
    + apply Hkeys in Hin. rewrite Hn1 in Hin. inversion Hin.
    + assert (eid ∈ ids) as Hin by (apply Hcov, list_elem_of_filter; done). rewrite Hn2 in Hin. inversion Hin.
  - apply NoDup_app. split; [done|]. split.
    + intros eid Hin Hin2. apply Hkeys in Hin. apply (elem_of_sublist _ _ _ Hin2) in Hsub as Hin3.
      apply list_elem_of_filter in Hin3 as [Hn _]. done.
    + eapply sublist_NoDup; [|exact Hsub]. apply NoDup_filter, distinct_ids_nodup.
Qed.

End emitted.

(** ** Witnesses *)

Section witnesses.

(** The chain after the embedding on the head. *)
Definition embed_entry : ProvenanceEntry := ok_or no_entry (build_entry "a" (mkOp OP_EMBED 0 0) [x2a] [] f0).

Lemma embed_not_split e t : e ∈ [embed_entry] -> is_split_type t = true -> ~ records t 1 e.
Proof.
  intros ->%list_elem_of_singleton Ht (op & Ho & <- & _). vm_compute in Ho. injection Ho as <-. done.
Qed.

(** With provenance on, the run of [split_run] sends the prefix to "b" and "c". *)
Lemma split_prefix_rejected_witness :
  exists log res, split_run (Some [embed_entry]) = Some (log, res) /\
    exists d, d ∈ log /\ ds_calls d = [("b", [2]); ("c", [3])] /\
    exists inbound, mapR entry_from_pb (ds_prefix d) = Ok inbound /\
      validate_chain demo_lookup 2 demo_split demo_owners inbound None = Raise ProvenanceError.
Proof.
  do 2 eexists. split; [vm_compute; reflexivity|]. eexists. split; [left|]. split; [reflexivity|].
  eapply (split_prefix_rejected "a" split_owners 1 split_loads no_live 3 [100; 500] split_env f0 7 split_topk tt [embed_entry]
    ([] : script)).
  - intros e He. by apply embed_not_split.
  - vm_compute. reflexivity.
  - left.
Defined.

(** Shard "a" holding all the experts. *)
Definition alone_run : option (list Dispatch * result (Z * option (list ProvenanceEntry))) :=
  run_split_layer "a" [("a", [0; 2; 3])] 1 split_loads no_live 3 [100; 500] split_env f0 7 split_topk tt (Some [embed_entry])
    ([] : script).

Lemma local_split_diamond_witness :
  exists log out chain, alone_run = Some (log, Ok (out, Some chain)) /\ length chain = 7%nat /\ diamond chain 1.
Proof.
  do 3 eexists. split; [vm_compute; reflexivity|]. split; [reflexivity|].
  eapply (local_split_diamond "a" [("a", [0; 2; 3])] 1 split_loads no_live 3 [100; 500] split_env f0 7 demo_expert split_topk tt
    [embed_entry] ([] : script)).
  - intros e t. apply embed_not_split.
  - apply split_topk_ok.
  - vm_compute. reflexivity.
  - by repeat constructor.
Defined.

End witnesses.
